(* ===== verification/_CoqProject ===== *)
-Q . S2P
Prelude.v
Host.v
Utils.v
Targeting.v
Aim.v
Respawn.v
Bots.v
Roster.v
Pickups.v
Server.v
Ammo.v
Arrow.v
Hud.v
Progression.v
Dom.v
Draw.v
Shot.v
Effects.v
Scene.v
