(* ===== verification/Prelude.v ===== *)
(** * A verification development for the bowbrawl arena shooter

    bowbrawl (src/project) is the scripting layer of a multiplayer
    bow-and-arrow game on the Jamango engine.  The server scripts
    (server.ts and server/) spawn and respawn players, relay and check
    shots and hits, run the arrow pickups and drive three AI bots; the
    client scripts (client/) simulate arrows, detect and report hits and
    draw the game.  All of them are event handlers the engine calls one at
    a time: a handler reads and writes the host's entities and traits,
    the module's own variables, and issues fire-and-forget host calls.

    ** How the code is modelled

    - A handler is a shallow-embedded computation in the state monad with
      early return [Act S A := S -> S * option A] of this file ([None] is a
      JavaScript [return] from the handler; [call] ends a callee's early
      return at the call site; [for_each] is a [for ... of] loop whose body
      may [continue]; [for_each_abort] one whose body can only throw).  The
      state [S] holds the host and the module variables of the component.
    - Host.v models the engine as the scripts see it: the traits
      (traits.ts) and network commands (commands.ts) as records and an
      inductive type, the entity store (an association list in the order
      [J.getAllWithTraits] yields), the world clock, the count of
      [Math.random()] draws, the next entity id and the log of host calls.
      The engine's own algorithms (distance and normalisation, raycast,
      path finding, the values of [Math.random()]) are the [Engine] class,
      left abstract; law classes ([RandomInRange], [MetricLaws]) state what
      a theorem needs of them, and [demo_engine] instantiates them for the
      examples.
    - JavaScript numbers are exact rationals [Q] (rounding of doubles is
      not modelled); [Infinity] is [ext]; entity ids and counters are [Z].
      JavaScript [Map]s keyed by entity id are stdpp [gmap]s where order
      does not matter (the bots' states) and association lists where it
      does (the client's arrows); a [Set] is a duplicate-free list in
      insertion order.

    ** Files, components and their theorems

    - Prelude.v: numbers, JavaScript array reads ([js_at]), the monad and
      [focus] (a module's handler on its part of a larger state), the
      "first strict best" loop shared by every nearest/farthest search
      with its specification ([first_best_sound], [first_best_none]), the
      relational rules ([Rel], [rel_step]) that prove a handler phase by
      phase, and [Total] (a computation that never throws) with [total].
    - Host.v: the engine interface, entity-store lemmas, and the host
      operations proved never to throw.
    - Utils.v (utils.ts): every easing curve and [quatFromDirection]; the
      six polynomial curves keep [[0, 1]] in [[0, 1]] and fix its ends
      (C35).
    - Targeting.v (bots.ts findNearestPickup, findRandomPickup,
      findNearestEnemy): the nearest queries return a nearest candidate
      (C5); the random query returns a member.
    - Aim.v (bots.ts 221-234, arrow.ts 70): the aim offset range and the
      finding that the bot assumes a slower arrow than it shoots
      (C20-C21).
    - Respawn.v (server/respawn.ts, server.ts 56-72): killPlayer,
      spawnPlayer with its max-min spawn choice (proved optimal) and its
      error path with no spawn point (C6-C7).
    - Bots.v (bots.ts updateBotAI, 170-370): the think cycle on the server
      state (host plus the bots' map); a shot happens at most once per
      cycle and only with an arrow, after the cooldown (C1); the dead,
      think-interval and stuck-detection branches (C2-C4).  The relations
      [Quiet], [Fired] and [Frame] carry these proofs through every phase.
    - Roster.v (createBot, removeBot, maintainBotCount, the bot tick): the
      roster invariant [RosterInv] (bot ids distinct, equal to the keys of
      the states, allocated by the host) is kept, the roster is refilled to
      MAX_BOTS, no expired bot survives a sweep, and removing a bot just
      created gives the roster back (C8-C9).
    - Pickups.v (server/pickups.ts): the collection handler and the arrow
      bound, the refill, the spawner invariant, and the spawner as an
      abstract four-phase machine ([SpawnerPhase], [spawner_spec]) that
      the tick refines through the abstraction function [phase]; a
      collected pickup comes back ten seconds after the tick that notices
      it (C15-C19).
    - Server.v (server.ts): the network listeners (C12-C14) and the whole
      server as a transition relation [step] over seven events, each
      running the handlers registered for it in registration order; the
      roster invariant holds on every reachable state (C10).
    - Ammo.v (the composition of server.ts, bots.ts, pickups.ts and
      respawn.ts): the ammunition invariant [AmmoInv] (every player holds
      between 0 and 3 arrows, its maximum being 3) is kept by every
      handler phase, relation [AmmoKept], and holds on every reachable
      server state (C11), under the engine's promise that a freshly
      spawned character carries no player trait yet; [AmmoInvb] decides
      it on a concrete host.
    - Arrow.v (client/arrow.ts, and isInTutorialArea and handlePlayerDeath
      of client/player.ts): the client's arrow map and hit set; at most one
      hit report per arrow, only with the local player involved (C22), the
      fourth wall bounce, the termination of every bouncing arrow (the
      bounce relation is well founded, its variant [4 - wallBounce]), and
      an invariant of every client arrow event (C23-C24).
    - Hud.v (client/ui.ts): the HUD's module variables and the writes of
      its game tick to the DOM as a log of [DomWrite]s; the kill feed keeps
      the ten latest entries, every opacity written is in [0, 1], and the
      leaderboard's insertion sort is the unique stable sort by kills that
      ECMAScript requires of [Array.prototype.sort] (C25-C27).
    - Progression.v (client/progression.ts and the two network listeners
      of ui.ts): [onKill] throws exactly for a negative streak; a local
      kill runs the [HitCommand] listener to its end (C29-C30).
    - Dom.v (ui.ts 63-186, progression.ts 127-158): the page as an element
      tree with inline-style writes; the HUD's markup holds every element
      its game-start handler looks up and the three arrow indicators the
      HUD counts (C28); every animation a streak style names is a
      keyframes rule of the stylesheet progression.ts injects once (C31).
    - Draw.v (client/player.ts, client/bow.ts): the client player state is the arrow client, the HUD and
      the draw traits, each handler running on its part through [focus];
      the player tick never throws (the bow frame index stays in the
      table), a release is idempotent and the dead-player tick disarms the
      bow (C32-C34).
    - Effects.v (client/effects.ts, particles.ts, debris.ts): the effects
      and debris arrays beside the host ([Fx]); [addEffect], the three
      particle spawners with every [Math.random()] draw in order, the
      debris listener, and the two sweeps that walk an array backwards
      with [splice]: one loop [sweepBack], proved to keep exactly what
      [filter] keeps and to visit the entries from the last one
      ([sweepBack_run]).  The render frame and the debris tick keep exactly
      the live entries (C36); [Grows] counts what a spawner adds.
    - Scene.v (client/camera.ts, pickup.ts, nameplates.ts, and the death
      handler of player.ts running the particles and the camera): the
      nameplate crown is the leaderboard's first row, a refinement of the
      tick by the HUD's sort (C37); a pickup sparkles at most twice a
      second (C38); the death camera glides from the victim's eyes to its
      final spot in two seconds (C39) and is off after a falsy killer id,
      0 included (C40).

    ** Bounds and fuel

    No definition needs fuel: every loop is structural recursion over a
    list the handler reads before looping (a snapshot, as the code's
    iterators see it), so every handler terminates by construction and the
    theorems are stated about the handler's final state, never under an
    "if it returns" hypothesis.  Numeric bounds are those of the code
    (MAX_BOTS = 3, the cooldowns and thresholds of bots.ts); [Math.random()]
    is assumed in [[0, 1)] through [RandomInRange] where a theorem needs it.

    ** Not modelled

    The engine itself (physics, rendering, networking, path finding); the
    tints, glows and rotations, logged as [Effect]s by name (the sounds
    are [PlaySound]/[PlaySoundAt] host calls with their asset, position,
    volume and detune); the rendering of markup and CSS by the browser (Dom.v keeps the element
    tree, the style writes and the stylesheet text).  Arrow.v's [handlePlayerDeath] logs its calls into
    particles.ts and camera.ts by name; Scene.v's [playerDeathView] runs
    them.  Floating-point rounding and the real functions (sin, cos, exp,
    pow, sqrt, PI) are not modelled: the wobbles, the release decay, the
    particle directions, [quat.random] and vector normalisation are
    parameters.
    Strings are byte strings, so [substring(0, 16)] (UTF-16 code units)
    agrees with the model on ASCII names only. *)

From Stdlib Require Import QArith Qminmax Qround Lqa Lia ZArith List.
From stdpp Require Import base decidable tactics.
Import ListNotations.

(** ** Numbers

    JavaScript numbers are modelled as exact rationals [Q]; the IEEE
    rounding of doubles is not modelled.  Every rational constant is written
    [(a#b)] with parentheses: [x + 1#2] would parse as [(x+1)#2]. *)

Declare Scope bow_scope.
Delimit Scope bow_scope with bow.
Open Scope Q_scope.

(** Strict comparison on [Q] as a boolean, the way the code's [<] is used in
    conditions. *)
Definition Qltb (a b : Q) : bool := negb (Qle_bool b a).

Infix "<?" := Qltb (at level 70) : bow_scope.
Infix "<=?" := Qle_bool (at level 70) : bow_scope.

Lemma Qltb_iff (a b : Q) : Qltb a b = true <-> a < b.
Proof.
  unfold Qltb. rewrite negb_true_iff. split.
  - intros H. apply Qnot_le_lt. intros Hle. apply Qle_bool_iff in Hle. congruence.
  - intros H. destruct (Qle_bool b a) eqn:E; [|reflexivity].
    apply Qle_bool_iff in E. exfalso. apply (Qlt_not_le a b); assumption.
Qed.

Lemma Qltb_false_iff (a b : Q) : Qltb a b = false <-> b <= a.
Proof.
  unfold Qltb. rewrite negb_false_iff. apply Qle_bool_iff.
Qed.

Lemma Qleb_false_iff (a b : Q) : Qle_bool a b = false <-> b < a.
Proof.
  split.
  - intros H. apply Qnot_le_lt. intros Hle. apply Qle_bool_iff in Hle. congruence.
  - intros H. destruct (Qle_bool a b) eqn:E; [|reflexivity].
    apply Qle_bool_iff in E. exfalso. apply (Qlt_not_le b a); assumption.
Qed.

(** [qbool] turns every boolean comparison on [Q] in the hypotheses into the
    proposition it decides. *)
Ltac qbool :=
  repeat match goal with
  | H : Qltb _ _ = true |- _ => apply Qltb_iff in H
  | H : Qltb _ _ = false |- _ => apply Qltb_false_iff in H
  | H : Qle_bool _ _ = true |- _ => apply Qle_bool_iff in H
  | H : Qle_bool _ _ = false |- _ => apply Qleb_false_iff in H
  end.

(** [qcase b] splits on a boolean comparison of the code and records its
    meaning in the context. *)
Ltac qcase e :=
  let E := fresh "E" in destruct e eqn:E; qbool.

(** [qminmax] replaces every [Qmin]/[Qmax] of the goal by the argument it
    picks, recording the comparison; [qlra] then clears constant
    divisions and calls [lra]. *)
Ltac qminmax :=
  repeat match goal with
  | |- context [Qmin ?a ?b] =>
    let H := fresh "Hm" in let E := fresh "Em" in
    destruct (Q.min_spec a b) as [[H E]|[H E]]; rewrite E
  | |- context [Qmax ?a ?b] =>
    let H := fresh "Hm" in let E := fresh "Em" in
    destruct (Q.max_spec a b) as [[H E]|[H E]]; rewrite E
  end.

Ltac qlra := unfold Qdiv in *; cbn [Qinv Qnum Qden] in *; qminmax; lra.

(** A JavaScript number that may be [Infinity] (the code initialises its
    running minima with [Infinity]). *)
Inductive ext : Type :=
| Fin (q : Q)
| Infinity.

(** [a < b] on such numbers. *)
Definition ext_ltb (a b : ext) : bool :=
  match a, b with
  | Fin x, Fin y => Qltb x y
  | Fin _, Infinity => true
  | Infinity, _ => false
  end.

(** [e - q]; [Infinity - q] is [Infinity]. *)
Definition ext_sub (e : ext) (q : Q) : ext :=
  match e with
  | Fin x => Fin (x - q)
  | Infinity => Infinity
  end.

(** [Math.min]. *)
Definition ext_min (a b : ext) : ext := if ext_ltb b a then b else a.

Lemma ext_ltb_trans a b c :
  ext_ltb a b = true -> ext_ltb b c = true -> ext_ltb a c = true.
Proof.
  destruct a, b, c; simpl; try discriminate; auto.
  rewrite !Qltb_iff. intros. eapply Qlt_trans; eassumption.
Qed.

Lemma ext_ltb_asym a b : ext_ltb a b = true -> ext_ltb b a = false.
Proof.
  destruct a, b; simpl; try discriminate; auto.
  rewrite Qltb_iff, Qltb_false_iff. apply Qlt_le_weak.
Qed.

Lemma ext_le_trans a b c :
  ext_ltb b a = false -> ext_ltb c b = false -> ext_ltb c a = false.
Proof.
  destruct a, b, c; simpl; try discriminate; auto.
  rewrite !Qltb_false_iff. intros. eapply Qle_trans; eassumption.
Qed.

Lemma ext_lt_le_trans a b c :
  ext_ltb a b = true -> ext_ltb c b = false -> ext_ltb a c = true.
Proof.
  destruct a, b, c; simpl; try discriminate; auto.
  rewrite Qltb_iff, Qltb_false_iff, Qltb_iff. intros. eapply Qlt_le_trans; eassumption.
Qed.

(** [Math.floor] and [Math.round] (which rounds halves up). *)
Definition js_floor (q : Q) : Z := Qfloor q.
Definition js_round (q : Q) : Z := Qfloor (q + (1#2)).

(** [Math.floor(Math.random() * n)] is an index of an array of length [n]
    when [0 <= r < 1]. *)
Lemma js_floor_index (r : Q) (n : Z) :
  0 <= r -> r < 1 -> (0 < n)%Z ->
  (0 <= js_floor (r * inject_Z n) < n)%Z.
Proof.
  intros H0 H1 Hn. unfold js_floor.
  assert (Hn' : 0 < inject_Z n) by (change 0 with (inject_Z 0); rewrite <- Zlt_Qlt; lia).
  split.
  - change 0%Z with (Qfloor 0). apply Qfloor_resp_le.
    apply Qmult_le_0_compat; [assumption | apply Qlt_le_weak, Hn'].
  - assert (Hlt : r * inject_Z n < inject_Z n).
    { rewrite <- (Qmult_1_l (inject_Z n)) at 2. apply Qmult_lt_r; assumption. }
    assert (Hz : inject_Z (Qfloor (r * inject_Z n)) < inject_Z n)
      by (eapply Qle_lt_trans; [apply Qfloor_le | exact Hlt]).
    rewrite <- Zlt_Qlt in Hz. exact Hz.
Qed.

(** [a[i]] on an array: [undefined] outside [0 .. a.length - 1]. *)
Definition js_at {A} (l : list A) (i : Z) : option A :=
  if (i <? 0)%Z then None else nth_error l (Z.to_nat i).

Lemma js_at_in_range {A} (l : list A) (i : Z) :
  (0 <= i < Z.of_nat (length l))%Z -> exists a, js_at l i = Some a.
Proof.
  intros Hi. unfold js_at. destruct (Z.ltb_spec i 0); [lia|].
  destruct (nth_error l (Z.to_nat i)) eqn:E; [eauto|].
  apply nth_error_None in E. lia.
Qed.

Lemma js_at_negative {A} (l : list A) (i : Z) : (i < 0)%Z -> js_at l i = None.
Proof. intros Hi. unfold js_at. destruct (Z.ltb_spec i 0); [reflexivity | lia]. Qed.

(** ** Vectors: [J.Vec3] is a three-element array of numbers. *)

Record Vec3 : Type := vec3 { vx : Q; vy : Q; vz : Q }.

Definition vadd (a b : Vec3) : Vec3 := vec3 (vx a + vx b) (vy a + vy b) (vz a + vz b).
Definition vsub (a b : Vec3) : Vec3 := vec3 (vx a - vx b) (vy a - vy b) (vz a - vz b).
Definition vscale (a : Vec3) (k : Q) : Vec3 := vec3 (vx a * k) (vy a * k) (vz a * k).
Definition vzero : Vec3 := vec3 0 0 0.
(** [J.vec3.cross]. *)
Definition vcross (a b : Vec3) : Vec3 :=
  vec3 (vy a * vz b - vz a * vy b) (vz a * vx b - vx a * vz b) (vx a * vy b - vy a * vx b).
Definition vdot (a b : Vec3) : Q := vx a * vx b + vy a * vy b + vz a * vz b.

(** ** An early-return state monad

    A handler of the code reads and writes state and may [return] early.
    [Act S A] runs on a state [S] and yields [Some a] when it falls through
    with value [a], [None] when it executed a [return;].  [call] is the
    boundary of a function: an early return ends the function, not its
    caller. *)

Definition Act (S A : Type) : Type := S -> S * option A.

Definition ret {S A} (a : A) : Act S A := fun s => (s, Some a).
Definition bind {S A B} (m : Act S A) (k : A -> Act S B) : Act S B :=
  fun s => match m s with
           | (s', Some a) => k a s'
           | (s', None) => (s', None)
           end.
Definition leave {S A} : Act S A := fun s => (s, None).
Definition get {S} : Act S S := fun s => (s, Some s).
Definition put {S} (s : S) : Act S unit := fun _ => (s, Some tt).
Definition modify {S} (f : S -> S) : Act S unit := fun s => (f s, Some tt).
Definition call {S} (m : Act S unit) : Act S unit := fun s => (fst (m s), Some tt).

(** [x <- need o ;; k]: continue with the value of an option, [return]
    when it is [null]/[undefined]. *)
Definition need {S A} (o : option A) : Act S A :=
  fun s => match o with Some a => (s, Some a) | None => (s, None) end.

(** [when b m]: [if (b) { m }]. *)
Definition when {S} (b : bool) (m : Act S unit) : Act S unit :=
  if b then m else ret tt.

(** [for (const x of l) body], where [body] cannot return from the
    enclosing function. *)
Fixpoint for_each {S X} (l : list X) (body : X -> Act S unit) : Act S unit :=
  match l with
  | [] => ret tt
  | x :: l' => bind (call (body x)) (fun _ => for_each l' body)
  end.

(** [for (const x of l) body] where [body] can only leave by throwing:
    a failing iteration ends the whole handler. *)
Fixpoint for_each_abort {S X} (l : list X) (body : X -> Act S unit) : Act S unit :=
  match l with
  | [] => ret tt
  | x :: l' => bind (body x) (fun _ => for_each_abort l' body)
  end.

(** [focus get set m] runs [m] on the part [get] of the state, written
    back with [set]: a module's handler acting on its own variables. *)
Definition focus {S T A} (get_ : S -> T) (set_ : S -> T -> S) (m : Act T A) : Act S A :=
  fun s => let r := m (get_ s) in (set_ s (fst r), snd r).

Notation "x <- m ;; k" := (bind m (fun x => k))
  (at level 100, m at next level, right associativity) : bow_scope.
Notation "m ;; k" := (bind m (fun _ => k))
  (at level 100, right associativity) : bow_scope.

Open Scope bow_scope.

(** The final state of a computation. *)
Definition exec {S A} (m : Act S A) (s : S) : S := fst (m s).

Lemma bind_ret_l {S A B} (a : A) (k : A -> Act S B) s : bind (ret a) k s = k a s.
Proof. reflexivity. Qed.

Lemma bind_leave {S A B} (k : A -> Act S B) s : bind leave k s = (s, None).
Proof. reflexivity. Qed.

Lemma exec_call {S} (m : Act S unit) s : exec (call m) s = exec m s.
Proof. reflexivity. Qed.

Lemma for_each_app {S X} (l1 l2 : list X) (body : X -> Act S unit) s :
  exec (for_each (l1 ++ l2) body) s = exec (for_each l2 body) (exec (for_each l1 body) s).
Proof.
  revert s. induction l1 as [|x l1 IH]; intros s; [reflexivity|].
  simpl. unfold bind at 1, call at 1. apply IH.
Qed.

(** A state property preserved by every iteration of a loop body is
    preserved by the loop. *)
Lemma for_each_inv {S X} (P : S -> Prop) (l : list X) (body : X -> Act S unit) :
  (forall x s, In x l -> P s -> P (exec (body x) s)) ->
  forall s, P s -> P (exec (for_each l body) s).
Proof.
  induction l as [|x l IH]; intros Hb s Hs; [exact Hs|].
  simpl. unfold bind at 1, call at 1. apply IH.
  - intros y s' Hy. apply Hb. right; exact Hy.
  - apply Hb; [left; reflexivity | exact Hs].
Qed.

Create HintDb bow.
Create Rewrite HintDb bow_run.
#[export] Hint Resolve ext_ltb_trans ext_ltb_asym ext_le_trans ext_lt_le_trans : bow.
#[export] Hint Rewrite @bind_ret_l @bind_leave @exec_call : bow_run.

(** ** The "first strict best" loop

    [findNearestPickup], [findNearestEnemy] (bots.ts), the spawn-point choice
    of [spawnPlayer] (respawn.ts) and the crown of the nameplates all run the
    same loop: a running best [k0] (often [Infinity] or [-1]), and for each
    candidate whose key exists, [if (k < best) { best = k; item = x }].
    [first_best] is that loop; [IsFirstBest] is what it promises: the
    result is a candidate that beats the initial bound, strictly beats every
    candidate before it and is not beaten by any candidate after it (so ties
    go to the first one encountered). *)

Section FirstBest.
Context {A K : Type} (ltb : K -> K -> bool) (key : A -> option K).

Definition best_step (acc : option A * K) (x : A) : option A * K :=
  match key x with
  | Some k => if ltb k (snd acc) then (Some x, k) else acc
  | None => acc
  end.

Definition first_best (k0 : K) (l : list A) : option A * K :=
  fold_left best_step l (None, k0).

Definition IsFirstBest (k0 : K) (l : list A) (x : A) : Prop :=
  exists l1 l2 k,
    l = l1 ++ x :: l2 /\ key x = Some k /\ ltb k k0 = true /\
    (forall y ky, In y l1 -> key y = Some ky -> ltb k ky = true) /\
    (forall y ky, In y l2 -> key y = Some ky -> ltb ky k = false).

(** Nothing in [l] beats [k]. *)
Definition NoneBetter (k : K) (l : list A) : Prop :=
  forall y ky, In y l -> key y = Some ky -> ltb ky k = false.

Hypothesis lt_asym : forall a b, ltb a b = true -> ltb b a = false.
Hypothesis lt_le_trans : forall a b c, ltb a b = true -> ltb c b = false -> ltb a c = true.

Lemma best_fold_cases (l : list A) (b : option A) (kb : K) :
  (fold_left best_step l (b, kb) = (b, kb) /\ NoneBetter kb l) \/
  (exists x, fst (fold_left best_step l (b, kb)) = Some x /\ IsFirstBest kb l x /\
             key x = Some (snd (fold_left best_step l (b, kb)))).
Proof.
  revert b kb. induction l as [|y l IH]; intros b kb.
  { left. split; [reflexivity | intros ? ? []]. }
  simpl fold_left. remember (best_step (b, kb) y) as acc eqn:Eacc.
  unfold best_step in Eacc. simpl in Eacc. destruct (key y) as [ky|] eqn:Ey.
  - destruct (ltb ky kb) eqn:Lt; subst acc.
    + right. destruct (IH (Some y) ky) as [[-> Hn] | (x & Hx & (l1 & l2 & k & -> & Hk & Hlt & H1 & H2) & Hkey)].
      * exists y. split; [reflexivity|]. split; [|exact Ey].
        exists [], l, ky. repeat split; auto.
      * exists x. split; [exact Hx|]. split; [|exact Hkey].
        exists (y :: l1), l2, k. repeat split; auto.
        -- eapply lt_le_trans; [exact Hlt | apply lt_asym; exact Lt].
        -- intros z kz [<- | Hz] Hz'; [congruence | eauto].
    + destruct (IH b kb) as [[-> Hn] | (x & Hx & (l1 & l2 & k & -> & Hk & Hlt & H1 & H2) & Hkey)].
      * left. split; [reflexivity|]. intros z kz [<- | Hz] Hz'; [congruence | eauto].
      * right. exists x. split; [exact Hx|]. split; [|exact Hkey].
        exists (y :: l1), l2, k. repeat split; auto.
        intros z kz [<- | Hz] Hz'; [|eauto].
        rewrite Ey in Hz'. injection Hz' as <-. eapply lt_le_trans; eassumption.
  - subst acc. destruct (IH b kb) as [[-> Hn] | (x & Hx & (l1 & l2 & k & -> & Hk & Hlt & H1 & H2) & Hkey)].
    + left. split; [reflexivity|]. intros z kz [<- | Hz] Hz'; [congruence | eauto].
    + right. exists x. split; [exact Hx|]. split; [|exact Hkey].
      exists (y :: l1), l2, k. repeat split; auto.
      intros z kz [<- | Hz] Hz'; [congruence | eauto].
Qed.

(** Refinement: the loop's result meets [IsFirstBest]. *)
Lemma first_best_sound (k0 : K) (l : list A) (x : A) :
  fst (first_best k0 l) = Some x -> IsFirstBest k0 l x.
Proof.
  unfold first_best. intros H.
  destruct (best_fold_cases l None k0) as [[E _] | (x' & Hx' & Hb & _)].
  - rewrite E in H. discriminate.
  - rewrite Hx' in H. injection H as <-. exact Hb.
Qed.

(** The loop finds nothing exactly when no candidate beats the bound. *)
Lemma first_best_none (k0 : K) (l : list A) :
  fst (first_best k0 l) = None <-> NoneBetter k0 l.
Proof.
  unfold first_best.
  destruct (best_fold_cases l None k0) as [[E Hn] | (x & Hx & (l1 & l2 & k & El & Hk & Hlt & _) & _)].
  - rewrite E. split; [intros _; exact Hn | reflexivity].
  - rewrite Hx. split; [discriminate|]. intros Hn. exfalso.
    assert (Hin : In x l) by (rewrite El; apply in_or_app; right; left; reflexivity).
    specialize (Hn x k Hin Hk). congruence.
Qed.

End FirstBest.

(** ** Relational reasoning about computations

    [Rel R m]: from every state, [m] ends in a state related to it by [R].
    Handler theorems are proved phase by phase with these rules. *)

Section Rel.
Context {S : Type}.

Definition Rel {A} (R : S -> S -> Prop) (m : Act S A) : Prop := forall s, R s (exec m s).

Lemma Rel_bind {A B} (R1 R2 R : S -> S -> Prop) (m : Act S A) (k : A -> Act S B) :
  Rel R1 m -> (forall a, Rel R2 (k a)) ->
  (forall s1 s2, R1 s1 s2 -> R s1 s2) ->
  (forall s1 s2 s3, R1 s1 s2 -> R2 s2 s3 -> R s1 s3) ->
  Rel R (bind m k).
Proof.
  intros Hm Hk Hstop Hcomp s. specialize (Hm s). unfold exec, bind in *.
  destruct (m s) as [s1 [a|]]; simpl in *; eauto.
  apply (Hcomp s s1); [exact Hm | apply Hk].
Qed.

Lemma Rel_seq {A B} (R : S -> S -> Prop) `{!PreOrder R} (m : Act S A) (k : A -> Act S B) :
  Rel R m -> (forall a, Rel R (k a)) -> Rel R (bind m k).
Proof.
  intros Hm Hk. eapply Rel_bind; [exact Hm | exact Hk | auto |].
  intros s1 s2 s3 H1 H2. etransitivity; eassumption.
Qed.

(** A computation that only reads the state. *)
Lemma Rel_read {A B} (R : S -> S -> Prop) `{!Reflexive R} (m : Act S A) (f : S -> option A)
  (k : A -> Act S B) :
  (forall s, m s = (s, f s)) ->
  (forall s a, f s = Some a -> R s (exec (k a) s)) ->
  Rel R (bind m k).
Proof.
  intros Hm Hk s. unfold exec, bind. rewrite Hm.
  destruct (f s) as [a|] eqn:E; [apply Hk; exact E | reflexivity].
Qed.

Lemma Rel_ret {A} (R : S -> S -> Prop) `{!Reflexive R} (a : A) : Rel R (ret a).
Proof. intros s. reflexivity. Qed.

Lemma Rel_leave {A} (R : S -> S -> Prop) `{!Reflexive R} : Rel R (@leave S A).
Proof. intros s. reflexivity. Qed.

Lemma Rel_call (R : S -> S -> Prop) (m : Act S unit) : Rel R m -> Rel R (call m).
Proof. intros Hm s. apply Hm. Qed.

Lemma Rel_when (R : S -> S -> Prop) `{!Reflexive R} (b : bool) (m : Act S unit) :
  Rel R m -> Rel R (when b m).
Proof. intros Hm. destruct b; [exact Hm | apply Rel_ret; exact _]. Qed.

Lemma Rel_need {A B} (R : S -> S -> Prop) `{!Reflexive R} (o : option A) (k : A -> Act S B) :
  (forall a, o = Some a -> Rel R (k a)) -> Rel R (bind (need o) k).
Proof.
  intros Hk. apply (Rel_read R _ (fun _ => o)); [intros s; destruct o; reflexivity|].
  intros s a E. apply Hk; exact E.
Qed.

Lemma Rel_weaken {A} (R1 R2 : S -> S -> Prop) (m : Act S A) :
  (forall s s', R1 s s' -> R2 s s') -> Rel R1 m -> Rel R2 m.
Proof. intros H Hm s. apply H, Hm. Qed.

Lemma Rel_for_each {X} (R : S -> S -> Prop) `{!PreOrder R} (l : list X) (body : X -> Act S unit) :
  (forall x, Rel R (body x)) -> Rel R (for_each l body).
Proof.
  intros Hb. induction l as [|x l IH]; simpl; [apply Rel_ret; exact _|].
  apply Rel_seq; [exact _ | apply Rel_call, Hb | intros _; exact IH].
Qed.

Lemma Rel_for_each_abort {X} (R : S -> S -> Prop) `{!PreOrder R} (l : list X) (body : X -> Act S unit) :
  (forall x, Rel R (body x)) -> Rel R (for_each_abort l body).
Proof.
  intros Hb. induction l as [|x l IH]; simpl; [apply Rel_ret; exact _|].
  apply Rel_seq; [exact _ | apply Hb | intros _; exact IH].
Qed.

Lemma Rel_get (R : S -> S -> Prop) `{!Reflexive R} : Rel R get.
Proof. intros s. reflexivity. Qed.

(** A computation related from one given state, followed by one related
    from every state. *)
Lemma Rel_seq_at {A B} (R : S -> S -> Prop) `{!PreOrder R} (m : Act S A) (k : A -> Act S B) s :
  R s (exec m s) -> (forall a, Rel R (k a)) -> R s (exec (bind m k) s).
Proof.
  intros Hm Hk. unfold exec, bind in *.
  destruct (m s) as [s1 [a|]]; simpl in *; [|exact Hm].
  etransitivity; [exact Hm | apply Hk].
Qed.

(** [Preserves P]: the final state satisfies [P] when the initial one does. *)
Definition Preserves (P : S -> Prop) (s s' : S) : Prop := P s -> P s'.

#[export] Instance Preserves_preorder (P : S -> Prop) : PreOrder (Preserves P).
Proof. split; [intros s H; exact H | intros s1 s2 s3 H1 H2 H; apply H2, H1, H]. Qed.
End Rel.

(** [rel_step] applies the rule matching the head of a computation whose
    relation is a preorder. *)
Ltac rel_step :=
  match goal with
  | |- Rel _ (bind (need _) _) => refine (Rel_need _ _ _ _); intros ? ?
  | |- Rel _ (bind _ _) => refine (Rel_seq _ _ _ _ _); [| intros ?]
  | |- Rel _ (when _ _) => refine (Rel_when _ _ _ _)
  | |- Rel _ (ret _) => refine (Rel_ret _ _)
  | |- Rel _ leave => refine (Rel_leave _)
  | |- Rel _ (call _) => apply Rel_call
  | |- Rel _ (for_each _ _) => refine (Rel_for_each _ _ _ _); intros ?
  | |- Rel _ (for_each_abort _ _) => refine (Rel_for_each_abort _ _ _ _); intros ?
  end.

(** [at_state] turns a goal about one state into the [Rel] judgement on
    every state, for a computation that does not depend on it. *)
Ltac at_state :=
  match goal with |- ?R ?s (exec ?m ?s) => cut (Rel R m); [intros Hr; apply Hr|] end.

Lemma exec_bind_some {S A B} (m : Act S A) (k : A -> Act S B) s s' a :
  m s = (s', Some a) -> exec (bind m k) s = exec (k a) s'.
Proof. intros E. unfold exec, bind. rewrite E. reflexivity. Qed.

Lemma exec_bind_none {S A B} (m : Act S A) (k : A -> Act S B) s s' :
  m s = (s', None) -> exec (bind m k) s = s'.
Proof. intros E. unfold exec, bind. rewrite E. reflexivity. Qed.

Lemma for_each_returns {S X} (l : list X) (body : X -> Act S unit) s :
  snd (for_each l body s) = Some tt.
Proof.
  revert s. induction l as [|x l IH]; intros s; [reflexivity|].
  simpl. unfold bind at 1, call at 1. apply IH.
Qed.

Lemma exec_for_each_cons {S X} (x : X) (l : list X) (body : X -> Act S unit) s :
  exec (for_each (x :: l) body) s = exec (for_each l body) (exec (body x) s).
Proof. reflexivity. Qed.

Lemma exec_bind_for_each {S X B} (l : list X) (body : X -> Act S unit) (k : unit -> Act S B) s :
  exec (bind (for_each l body) k) s = exec (k tt) (exec (for_each l body) s).
Proof.
  unfold exec, bind. pose proof (for_each_returns l body s) as E.
  destruct (for_each l body s) as [s' [[]|]]; simpl in E; [reflexivity | discriminate].
Qed.

(** ** Computations that never throw

    [Total m]: from every state [m] runs to its end (it neither returns
    early nor throws). *)

Definition Total {S A} (m : Act S A) : Prop := forall s, snd (m s) <> None.

Section Total.
Context {S : Type}.

Lemma Total_bind {A B} (m : Act S A) (k : A -> Act S B) :
  Total m -> (forall a, Total (k a)) -> Total (bind m k).
Proof.
  intros Hm Hk s. unfold bind. specialize (Hm s).
  destruct (m s) as [s1 [a|]]; [apply Hk | contradiction].
Qed.

Lemma Total_ret {A} (a : A) : Total (S:=S) (ret a).
Proof. intros s. discriminate. Qed.

Lemma Total_get : Total (S:=S) get.
Proof. intros s. discriminate. Qed.

Lemma Total_modify (f : S -> S) : Total (modify f).
Proof. intros s. discriminate. Qed.

Lemma Total_call (m : Act S unit) : Total (call m).
Proof. intros s. discriminate. Qed.

Lemma Total_when b (m : Act S unit) : Total m -> Total (when b m).
Proof. intros Hm. destruct b; [exact Hm | apply Total_ret]. Qed.

Lemma Total_need_some {A B} (a : A) (k : A -> Act S B) : Total (k a) -> Total (bind (need (Some a)) k).
Proof. intros Hk s. apply Hk. Qed.

Lemma Total_for_each {X} (l : list X) (body : X -> Act S unit) : Total (for_each l body).
Proof. intros s. rewrite for_each_returns. discriminate. Qed.

Lemma Total_for_each_abort {X} (l : list X) (body : X -> Act S unit) :
  (forall x, Total (body x)) -> Total (for_each_abort l body).
Proof.
  intros Hb. induction l as [|x l IH]; simpl; [apply Total_ret|].
  apply Total_bind; [apply Hb | intros _; exact IH].
Qed.

Lemma Total_focus {T A} (get_ : S -> T) set_ (m : Act T A) : Total m -> Total (focus get_ set_ m).
Proof. intros Hm s. apply Hm. Qed.
End Total.

Create HintDb total.
#[export] Hint Resolve Total_ret Total_get Total_modify Total_call Total_for_each Total_focus : total.

(** [total] proves [Total m] phase by phase. *)
Ltac total :=
  repeat (cbv beta zeta;
    first [ solve [eauto with total]
          | apply Total_bind; [|intros ?]
          | apply Total_when
          | apply Total_focus
          | apply Total_for_each_abort; intros ?
          | progress case_match ]).
