(* ===== verification/Host.v ===== *)
(** * The host engine as the scripts see it

    The data the scripts store in traits ([src/project/traits.ts]), the
    network commands ([src/project/commands.ts]), the host's entity store
    read by [J.getEntityPosition], [J.getCharacterAlive], [J.getTrait] and
    [J.getAllWithTraits], the fire-and-forget host calls (a log), and the
    [Engine] interface: the collaborators the code only calls (vector
    distance and normalisation, raycast, path finding, [Math.random]). *)

From Stdlib Require Import QArith Qabs ZArith List String Lqa.
From stdpp Require Import base.
From S2P Require Import Prelude.
Import ListNotations.
Open Scope Q_scope.
Open Scope bow_scope.

(** [J.EntityId] is a number. *)
Abbreviation EntityId := Z.

(** ** Traits (traits.ts) *)

Record PlayerTrait : Type := mkPlayer {
  kills : Z;
  deathCount : Z;
  respawnTime : Q;
  arrowCount : Z;
  maxArrows : Z;
  lastKillTime : Q;
  name : string;
  killStreak : Z;
}.

Definition set_arrowCount (p : PlayerTrait) (n : Z) : PlayerTrait :=
  mkPlayer (kills p) (deathCount p) (respawnTime p) n (maxArrows p)
           (lastKillTime p) (name p) (killStreak p).

Record PickupSpawner : Type := mkSpawner {
  spawnedItemId : EntityId;
  dryTime : Q;
}.

Record ArrowCollider : Type := mkCollider {
  wallBounce : Z;
  ownerId : EntityId;
}.

(** ** Network commands (commands.ts) *)

Record Ray : Type := mkRay { origin : Vec3; direction : Vec3 }.

Inductive Command : Type :=
| ArrowCommand (viewRay : Ray) (draw : Q) (ownerId : EntityId) (netId : Z)
| HitCommand (attackerId victimId : EntityId) (position : Vec3) (netId : Z)
| RespawnCommand (playerId : EntityId) (position : Vec3)
| PickupCommand (playerId : EntityId) (pickupPosition : Vec3)
| ItemSpawnCommand (position : Vec3)
| EnvironmentalDeathCommand (victimId : EntityId) (reason : string).

(** ** Host entities

    What the scripts can read of an entity: its position, whether the
    character is alive, its view ray, its traits and the username of the
    player controlling it (bots have none). *)

Record Entity : Type := mkEntity {
  e_pos : option Vec3;
  e_alive : bool;
  e_view : option Ray;
  e_player : option PlayerTrait;
  e_pickup : bool;
  e_spawner : option PickupSpawner;
  e_respawner : bool;
  e_username : option string;
  e_collider : option ArrowCollider;
  e_vel : option Vec3;
}.

Definition with_pos (e : Entity) (p : Vec3) : Entity :=
  mkEntity (Some p) (e_alive e) (e_view e) (e_player e) (e_pickup e) (e_spawner e) (e_respawner e) (e_username e) (e_collider e) (e_vel e).
Definition with_alive (e : Entity) (b : bool) : Entity :=
  mkEntity (e_pos e) b (e_view e) (e_player e) (e_pickup e) (e_spawner e) (e_respawner e) (e_username e) (e_collider e) (e_vel e).
Definition with_player (e : Entity) (p : PlayerTrait) : Entity :=
  mkEntity (e_pos e) (e_alive e) (e_view e) (Some p) (e_pickup e) (e_spawner e) (e_respawner e) (e_username e) (e_collider e) (e_vel e).
Definition with_pickup (e : Entity) : Entity :=
  mkEntity (e_pos e) (e_alive e) (e_view e) (e_player e) true (e_spawner e) (e_respawner e) (e_username e) (e_collider e) (e_vel e).
Definition with_spawner (e : Entity) (sp : PickupSpawner) : Entity :=
  mkEntity (e_pos e) (e_alive e) (e_view e) (e_player e) (e_pickup e) (Some sp) (e_respawner e) (e_username e) (e_collider e) (e_vel e).
Definition with_collider (e : Entity) (c : ArrowCollider) : Entity :=
  mkEntity (e_pos e) (e_alive e) (e_view e) (e_player e) (e_pickup e) (e_spawner e) (e_respawner e) (e_username e) (Some c) (e_vel e).

Definition with_vel (e : Entity) (v : Vec3) : Entity :=
  mkEntity (e_pos e) (e_alive e) (e_view e) (e_player e) (e_pickup e) (e_spawner e) (e_respawner e) (e_username e) (e_collider e) (Some v).

(** A prop freshly spawned by [J.spawnProp]: no position yet, no trait. *)
Definition fresh_prop : Entity := mkEntity None false None None false None false None None None.

(** Host calls with no result that the scripts issue: movement and aim of
    characters, crouching, network sends (to every client, or from a
    client to the server), entity placement, scale, velocity and removal,
    the free camera (its position and the point it looks at), the
    nameplates, and the cosmetic calls (sounds, particles, glow, tint, visibility,
    rotation), which change nothing the scripts read and are logged as an
    [Effect] named by what they do. *)
Inductive HostCall : Type :=
| ClearMoveTarget (id : EntityId)
| ClearLookAtTarget (id : EntityId)
| SetLookAtTarget (id : EntityId) (p : Vec3)
| SetMoveTarget (id : EntityId) (path : list Vec3)
| SetCrouching (id : EntityId) (b : bool)
| SendToAll (c : Command)
| SendToAllFrom (c : Command) (senderId : EntityId)
| SetEntityPosition (id : EntityId) (p : option Vec3)
| RemoveEntity (id : EntityId)
| SpawnCharacter (avatar : nat) (id : EntityId)
| PlayEmoteDeath (id : EntityId)
| StopEmote (id : EntityId)
| SetPermissionsAndMovement (id : EntityId)
| SpawnProp (asset : string) (id : EntityId)
| SetEntityScale (id : EntityId) (k : Q)
| SetEntityVelocity (id : EntityId) (v : Vec3)
| Send (c : Command)
| SetCameraFree (position target : Vec3)
| SetCharacterNameplate (id : EntityId) (visible : bool) (color : Vec3) (text : string)
| PlaySound (asset : string) (volume : Q) (detune : option Q)
| PlaySoundAt (asset : string) (position : Vec3) (volume : Q) (detune : option Q)
| Effect (what : string) (id : EntityId).

(** The host: entities in the order [getAllWithTraits] yields them, the
    world clock, how many [Math.random()] values were drawn, the next
    entity id and the log of host calls. *)
Record Host : Type := mkHost {
  ents : list (EntityId * Entity);
  clock : Q;
  draws : nat;
  next_id : EntityId;
  log : list HostCall;
}.

Record RaycastResult : Type := mkHit { hit : bool; hitEntityId : option EntityId }.
Record PathResult : Type := mkPath { success : bool; path : list Vec3 }.

(** The collaborators: [J.vec3.distance] and [J.vec3.normalize] (square
    roots), [J.raycast] over the current entities, [J.findPath], the
    sequence of values [Math.random()] returns, and the position and view a
    freshly spawned character gets. *)
Class Engine : Type := {
  distance : Vec3 -> Vec3 -> Q;
  normalize : Vec3 -> Vec3;
  raycast : list (EntityId * Entity) -> Vec3 -> Vec3 -> Q -> RaycastResult;
  findPath : Vec3 -> Vec3 -> Z -> PathResult;
  random_at : nat -> Q;
  fresh_character : Entity;
}.

(** ** The entity store *)

Fixpoint lookup_ent (l : list (EntityId * Entity)) (id : EntityId) : option Entity :=
  match l with
  | [] => None
  | (i, e) :: l' => if Z.eqb i id then Some e else lookup_ent l' id
  end.

Definition update_ent (l : list (EntityId * Entity)) (id : EntityId) (f : Entity -> Entity)
  : list (EntityId * Entity) :=
  map (fun '(i, e) => if Z.eqb i id then (i, f e) else (i, e)) l.

Definition remove_ent (l : list (EntityId * Entity)) (id : EntityId) : list (EntityId * Entity) :=
  List.filter (fun '(i, _) => negb (Z.eqb i id)) l.

Definition with_ents (h : Host) (l : list (EntityId * Entity)) : Host :=
  mkHost l (clock h) (draws h) (next_id h) (log h).

Definition getEntityPosition (h : Host) (id : EntityId) : option Vec3 :=
  match lookup_ent (ents h) id with Some e => e_pos e | None => None end.

Definition getCharacterAlive (h : Host) (id : EntityId) : bool :=
  match lookup_ent (ents h) id with Some e => e_alive e | None => false end.

Definition getCharacterViewRay (h : Host) (id : EntityId) : option Ray :=
  match lookup_ent (ents h) id with Some e => e_view e | None => None end.

Definition getPlayer (h : Host) (id : EntityId) : option PlayerTrait :=
  match lookup_ent (ents h) id with Some e => e_player e | None => None end.

Definition getPlayerUsername (h : Host) (id : EntityId) : option string :=
  match lookup_ent (ents h) id with Some e => e_username e | None => None end.

(** [J.getTrait(id, PickupSpawnerTrait)], [J.getTrait(id, PickupTrait)]
    (an empty object, truthy) and [J.getTrait(id, ArrowColliderTrait)]. *)
Definition getSpawner (h : Host) (id : EntityId) : option PickupSpawner :=
  match lookup_ent (ents h) id with Some e => e_spawner e | None => None end.
Definition hasPickup (h : Host) (id : EntityId) : bool :=
  match lookup_ent (ents h) id with Some e => e_pickup e | None => false end.
Definition getCollider (h : Host) (id : EntityId) : option ArrowCollider :=
  match lookup_ent (ents h) id with Some e => e_collider e | None => None end.

Definition getEntityVelocity (h : Host) (id : EntityId) : option Vec3 :=
  match lookup_ent (ents h) id with Some e => e_vel e | None => None end.

(** [J.getAllWithTraits([PickupSpawnerTrait])]: the spawners with their data. *)
Definition allSpawners (h : Host) : list (EntityId * PickupSpawner) :=
  flat_map (fun '(i, e) => match e_spawner e with Some sp => [(i, sp)] | None => [] end) (ents h).

(** [J.getAllWithTraits([PlayerTrait])] and [([PickupTrait])]. *)
Definition allPlayers (h : Host) : list EntityId :=
  map fst (List.filter (fun '(_, e) => match e_player e with Some _ => true | None => false end) (ents h)).
Definition allPickups (h : Host) : list EntityId :=
  map fst (List.filter (fun '(_, e) => e_pickup e) (ents h)).

(** ** Host operations on any state that contains the host

    A script module's state holds the host; [HasHost] is the lens the
    host operations use, with its laws. *)

Class HasHost (S : Type) : Type := {
  host_of : S -> Host;
  set_host : S -> Host -> S;
}.

Class HasHostLaws (S : Type) `{HasHost S} : Prop := {
  host_set_get : forall s h, host_of (set_host s h) = h;
}.

(** Handlers that touch only the engine run on the host itself. *)
#[export] Instance Host_HasHost : HasHost Host := {
  host_of h := h;
  set_host _ h := h;
}.

#[export] Instance Host_HasHostLaws : HasHostLaws Host.
Proof. constructor. reflexivity. Qed.

Section HostOps.
Context `{Engine} {St : Type} `{HasHost St}.

Definition host : Act St Host := fun s => (s, Some (host_of s)).
Definition upd_host (f : Host -> Host) : Act St unit :=
  fun s => (set_host s (f (host_of s)), Some tt).

(** [Math.random()]. *)
Definition random : Act St Q :=
  fun s => let h := host_of s in
           (set_host s (mkHost (ents h) (clock h) (S (draws h)) (next_id h) (log h)),
            Some (random_at (draws h))).

(** A fire-and-forget host call. *)
Definition emit (c : HostCall) : Act St unit :=
  upd_host (fun h => mkHost (ents h) (clock h) (draws h) (next_id h) (log h ++ [c])).

Definition setPlayer (id : EntityId) (p : PlayerTrait) : Act St unit :=
  upd_host (fun h => with_ents h (update_ent (ents h) id (fun e => with_player e p))).

Definition setAlive (id : EntityId) (b : bool) : Act St unit :=
  upd_host (fun h => with_ents h (update_ent (ents h) id (fun e => with_alive e b))).

(** [J.setEntityPosition(id, p)]; with [p] undefined the call is only
    logged. *)
Definition setEntityPosition (id : EntityId) (p : option Vec3) : Act St unit :=
  emit (SetEntityPosition id p) ;;
  match p with
  | Some q => upd_host (fun h => with_ents h (update_ent (ents h) id (fun e => with_pos e q)))
  | None => ret tt
  end.

Definition removeEntity (id : EntityId) : Act St unit :=
  emit (RemoveEntity id) ;;
  upd_host (fun h => with_ents h (remove_ent (ents h) id)).

Definition setPickup (id : EntityId) : Act St unit :=
  upd_host (fun h => with_ents h (update_ent (ents h) id with_pickup)).

Definition setSpawner (id : EntityId) (sp : PickupSpawner) : Act St unit :=
  upd_host (fun h => with_ents h (update_ent (ents h) id (fun e => with_spawner e sp))).

Definition setCollider (id : EntityId) (c : ArrowCollider) : Act St unit :=
  upd_host (fun h => with_ents h (update_ent (ents h) id (fun e => with_collider e c))).

Definition setEntityVelocity (id : EntityId) (v : Vec3) : Act St unit :=
  emit (SetEntityVelocity id v) ;;
  upd_host (fun h => with_ents h (update_ent (ents h) id (fun e => with_vel e v))).

(** [J.spawnProp(asset)]: a fresh id, a fresh prop. *)
Definition spawnProp (asset : string) : Act St EntityId :=
  h <- host ;;
  let id := next_id h in
  upd_host (fun h => mkHost (ents h ++ [(id, fresh_prop)]) (clock h) (draws h)
                            (Z.succ (next_id h)) (log h)) ;;
  emit (SpawnProp asset id) ;;
  ret id.

(** [J.spawnCharacter(avatar)]: a fresh id, a fresh character. *)
Definition spawnCharacter (avatar : nat) : Act St EntityId :=
  h <- host ;;
  let id := next_id h in
  upd_host (fun h => mkHost (ents h ++ [(id, fresh_character)]) (clock h) (draws h)
                            (Z.succ (next_id h)) (log h)) ;;
  emit (SpawnCharacter avatar id) ;;
  ret id.
End HostOps.

(** The host operations never throw. *)
Section HostTotal.
Context `{Engine} {St : Type} `{HasHost St}.

Lemma Total_host : Total (S:=St) host.
Proof. intros s. discriminate. Qed.
Lemma Total_upd_host f : Total (S:=St) (upd_host f).
Proof. intros s. discriminate. Qed.
Lemma Total_random : Total (S:=St) random.
Proof. intros s. discriminate. Qed.

Hint Resolve Total_host Total_upd_host : total.

Lemma Total_emit c : Total (S:=St) (emit c).
Proof. apply Total_upd_host. Qed.
Hint Resolve Total_emit : total.

Lemma Total_setEntityPosition id p : Total (S:=St) (setEntityPosition id p).
Proof. unfold setEntityPosition. total. Qed.
Lemma Total_setEntityVelocity id v : Total (S:=St) (setEntityVelocity id v).
Proof. unfold setEntityVelocity. total. Qed.
Lemma Total_removeEntity id : Total (S:=St) (removeEntity id).
Proof. unfold removeEntity. total. Qed.

Lemma Total_spawnProp asset : Total (S:=St) (spawnProp asset).
Proof. unfold spawnProp. total. Qed.
Lemma Total_spawnCharacter avatar : Total (S:=St) (spawnCharacter avatar).
Proof. unfold spawnCharacter. total. Qed.
End HostTotal.

#[export] Hint Resolve Total_host Total_upd_host Total_random Total_emit
  Total_spawnProp Total_spawnCharacter Total_setEntityPosition Total_setEntityVelocity
  Total_removeEntity : total.
#[export] Hint Extern 2 (Total _) =>
  progress unfold setPlayer, setAlive, setPickup, setSpawner, setCollider : total.

(** ** Broadcasts of arrows

    [arrow_sends l] counts the [ArrowCommand] broadcasts in a list of host
    calls: the shots a handler fired. *)

Definition is_arrow_send (c : HostCall) : bool :=
  match c with SendToAll (ArrowCommand _ _ _ _) => true | _ => false end.

Definition arrow_sends (l : list HostCall) : nat := length (List.filter is_arrow_send l).

Lemma arrow_sends_app l1 l2 : arrow_sends (l1 ++ l2) = (arrow_sends l1 + arrow_sends l2)%nat.
Proof. unfold arrow_sends. rewrite filter_app, length_app. reflexivity. Qed.

(** ** The entity store after an update *)

Lemma lookup_update_ent_eq l id f e :
  lookup_ent l id = Some e -> lookup_ent (update_ent l id f) id = Some (f e).
Proof.
  induction l as [|[i e'] l IH]; simpl; [discriminate|].
  destruct (Z.eqb i id) eqn:E; simpl; rewrite ?E; [intros; congruence | exact IH].
Qed.

Lemma lookup_update_ent_ne l id id' f :
  id <> id' -> lookup_ent (update_ent l id f) id' = lookup_ent l id'.
Proof.
  intros Hne. induction l as [|[i e'] l IH]; simpl; [reflexivity|].
  destruct (Z.eqb_spec i id) as [->|]; simpl.
  - destruct (Z.eqb_spec id id'); [contradiction | exact IH].
  - destruct (Z.eqb i id'); [reflexivity | exact IH].
Qed.

Lemma lookup_update_ent_none l id id' f :
  lookup_ent l id' = None -> lookup_ent (update_ent l id f) id' = None.
Proof.
  induction l as [|[i e'] l IH]; simpl; [reflexivity|].
  destruct (Z.eqb i id') eqn:E'; [discriminate|]. intros Hl.
  destruct (Z.eqb i id); simpl; rewrite E'; exact (IH Hl).
Qed.

Lemma lookup_update_ent l id f id' :
  lookup_ent (update_ent l id f) id' =
  if Z.eqb id id' then option_map f (lookup_ent l id') else lookup_ent l id'.
Proof.
  destruct (Z.eqb_spec id id') as [<- | Hne]; [|apply lookup_update_ent_ne, Hne].
  induction l as [|[i e] l IH]; simpl; [reflexivity|].
  destruct (Z.eqb i id) eqn:E; simpl; rewrite ?E; [reflexivity | exact IH].
Qed.

Lemma lookup_ent_app l1 l2 id :
  lookup_ent (l1 ++ l2) id =
  match lookup_ent l1 id with Some e => Some e | None => lookup_ent l2 id end.
Proof.
  induction l1 as [|[i e] l IH]; simpl; [reflexivity|].
  destruct (Z.eqb i id); [reflexivity | exact IH].
Qed.

Lemma lookup_remove_ent l id id' :
  lookup_ent (remove_ent l id) id' = if Z.eqb id id' then None else lookup_ent l id'.
Proof.
  induction l as [|[i e] l IH]; simpl; [destruct (Z.eqb id id'); reflexivity|].
  destruct (Z.eqb_spec i id) as [-> | Hne]; simpl.
  - rewrite IH. destruct (Z.eqb id id'); reflexivity.
  - destruct (Z.eqb_spec i id') as [-> | Hne']; [|exact IH].
    destruct (Z.eqb_spec id id') as [-> | _]; [contradiction | reflexivity].
Qed.

(** [getPlayer] after [setPlayer] of the same entity. *)
Lemma getPlayer_update_player h h' id p e :
  lookup_ent (ents h) id = Some e ->
  getPlayer (with_ents h' (update_ent (ents h) id (fun e => with_player e p))) id = Some p.
Proof.
  intros E. unfold getPlayer, with_ents. simpl. rewrite (lookup_update_ent_eq _ _ _ e E). reflexivity.
Qed.

Lemma getPlayer_setPlayer h h' id p id' :
  getPlayer (with_ents h' (update_ent (ents h) id (fun e => with_player e p))) id' =
  if Z.eqb id id' then match lookup_ent (ents h) id' with Some _ => Some p | None => None end
  else getPlayer h id'.
Proof.
  unfold getPlayer, with_ents. simpl. rewrite lookup_update_ent.
  destruct (Z.eqb id id'); [destruct (lookup_ent (ents h) id'); reflexivity | reflexivity].
Qed.

(** ** The range of [Math.random()] *)

Class RandomInRange `{Engine} : Prop :=
  random_range : forall n, 0 <= random_at n /\ random_at n < 1.

(** ** A concrete engine for examples

    Witnesses run the handlers on small concrete worlds.  The engine
    measures distance with the L1 norm (exact on the axis-aligned examples),
    does not normalise, never hits anything with a ray, finds a one-step path
    to every goal and replays the list [rs] as the values of
    [Math.random()] (then 0). *)

Definition demo_distance (a b : Vec3) : Q :=
  Qabs (vx a - vx b) + Qabs (vy a - vy b) + Qabs (vz a - vz b).

Definition demo_engine (rs : list Q) : Engine := {|
  distance := demo_distance;
  normalize := fun v => v;
  raycast := fun _ _ _ _ => mkHit false None;
  findPath := fun _ goal _ => mkPath true [goal];
  random_at := fun n => nth n rs 0;
  fresh_character := mkEntity None true None None false None false None None None;
|}.

Lemma demo_random_range (rs : list Q) :
  Forall (fun r => 0 <= r /\ r < 1) rs -> @RandomInRange (demo_engine rs).
Proof.
  intros Hall n. simpl. revert n. induction Hall as [|r rs Hr _ IH]; intros [|n]; simpl;
    try (split; [apply Qle_refl | reflexivity]); auto.
Qed.

(** [J.vec3.distance] is never negative. *)
Class MetricLaws `{Engine} : Prop :=
  distance_nonneg : forall a b, 0 <= distance a b.

Lemma demo_metric (rs : list Q) : @MetricLaws (demo_engine rs).
Proof.
  intros a b. simpl. unfold demo_distance.
  pose proof (Qabs_nonneg (vx a - vx b)). pose proof (Qabs_nonneg (vy a - vy b)).
  pose proof (Qabs_nonneg (vz a - vz b)). lra.
Qed.

(** [unfold_host_ops] exposes the host operations as state updates. *)
Ltac unfold_host_ops :=
  unfold setEntityPosition, removeEntity, spawnCharacter, spawnProp, setPlayer, setAlive,
    setPickup, setSpawner, setCollider, setEntityVelocity, emit, random, upd_host, host in *.
