(* ===== verification/Utils.v ===== *)
(** * The easing curves and [quatFromDirection] of utils.ts

    Every export of utils.ts.  JavaScript numbers are rationals; [Math.pow],
    [Math.sin], [Math.exp], [Math.sqrt] and [Math.PI] are parameters of the
    section, so the curves built from them are written exactly as the code
    composes them.  The six polynomial curves are proved to fix 0 and 1 and
    to keep [[0, 1]] inside [[0, 1]]; [easeOutCubic]'s prefix decrement is
    proved to give the usual [1 - (1 - t)^3]. *)

From Stdlib Require Import QArith Qminmax ZArith List Lqa Lia.
From S2P Require Import Prelude Host.
Import ListNotations.
Open Scope Q_scope.
Open Scope bow_scope.

(** ** Polynomial curves (lines 5-12) *)

Definition easeInQuad (t : Q) : Q := t * t.
Definition easeOutQuad (t : Q) : Q := t * (2 - t).
Definition easeInOutQuad (t : Q) : Q := if t <? 1#2 then 2 * t * t else -1 + (4 - 2 * t) * t.

Definition easeInCubic (t : Q) : Q := t * t * t.
(** [--t * t * t + 1]: the decrement is read by the two later operands. *)
Definition easeOutCubic (t : Q) : Q := let t := t - 1 in t * t * t + 1.
Definition easeInOutCubic (t : Q) : Q :=
  if t <? 1#2 then 4 * t * t * t else (t - 1) * (2 * t - 2) * (2 * t - 2) + 1.

(** ** Curves built from the real functions (lines 14-26) *)

Section Transcendental.
Variable pow : Q -> Q -> Q.
Variables sin exp sqrt : Q -> Q.
Variable PI : Q.

(** [t === 0] and [t === 1] compare numbers by value. *)
Definition easeInExpo (t : Q) : Q := if Qeq_bool t 0 then 0 else pow 2 (10 * (t - 1)).
Definition easeOutExpo (t : Q) : Q := if Qeq_bool t 1 then 1 else 1 - pow 2 (-10 * t).

Definition easeInElastic (t : Q) : Q := sin (13 * PI / 2 * t) * pow 2 (10 * (t - 1)).
Definition easeOutElastic (t : Q) : Q := sin (-13 * PI / 2 * (t + 1)) * pow 2 (-10 * t) + 1.

(** [spring(t, damping = 18, frequency = 50)]: an absent argument takes
    its default. *)
Definition spring (t : Q) (damping frequency : option Q) : Q :=
  let damping := match damping with Some d => d | None => 18 end in
  let frequency := match frequency with Some f => f | None => 50 end in
  sin (frequency * t) * exp (- damping * t).

Definition easeOutCirc (x : Q) : Q := sqrt (1 - pow (x - 1) 2).
End Transcendental.

(** ** [quatFromDirection] (lines 28-47)

    The rotation whose forward axis is [dir]: the right axis is [up x
    forward] normalised, the corrected up axis [forward x right]; the
    three axes are the rows of the matrix [J.quat.fromMat3] converts, a
    parameter. *)

Record Mat3 : Type := mkMat3 { m_right : Vec3; m_up : Vec3; m_forward : Vec3 }.

Definition basisOfDirection `{Engine} (dir : Vec3) : Mat3 :=
  let forward := normalize dir in
  let up := vec3 0 1 0 in
  let right := normalize (vcross up forward) in
  let correctedUp := vcross forward right in
  mkMat3 right correctedUp forward.

Definition quatFromDirection `{Engine} {Quat : Type} (fromMat3 : Mat3 -> Quat) (dir : Vec3) : Quat :=
  fromMat3 (basisOfDirection dir).

(** ** The polynomial curves stay in the unit interval *)

Lemma unit_mul a b : 0 <= a <= 1 -> 0 <= b <= 1 -> 0 <= a * b <= 1.
Proof.
  intros [Ha0 Ha1] [Hb0 Hb1]. split; [apply Qmult_le_0_compat; assumption|].
  assert (0 <= a * (1 - b)) by (apply Qmult_le_0_compat; lra). nra.
Qed.

(** [qreplace a b] rewrites [a] into the equal [b], by [ring]. *)
Ltac qreplace a b := let E := fresh "E" in assert (E : a == b) by ring; rewrite E; clear E.

(** [unit] proves [0 <= e <= 1] for a product of factors in [[0, 1]]. *)
Ltac unit := first [lra | apply unit_mul; unit].

Lemma easeOutCubic_reference t : easeOutCubic t == 1 - (1 - t) * (1 - t) * (1 - t).
Proof. unfold easeOutCubic. ring. Qed.

Section UnitRange.
Variable t : Q.
Hypothesis Ht : 0 <= t <= 1.

Lemma easeInQuad_unit : 0 <= easeInQuad t <= 1.
Proof. unfold easeInQuad. unit. Qed.

Lemma easeOutQuad_unit : 0 <= easeOutQuad t <= 1.
Proof.
  unfold easeOutQuad. qreplace (t * (2 - t)) (1 - (1 - t) * (1 - t)).
  assert (0 <= (1 - t) * (1 - t) <= 1) by unit. lra.
Qed.

Lemma easeInOutQuad_unit : 0 <= easeInOutQuad t <= 1.
Proof.
  unfold easeInOutQuad. qcase (t <? 1#2).
  - qreplace (2 * t * t) ((1#2) * ((2 * t) * (2 * t))).
    assert (0 <= 2 * t * (2 * t) <= 1) by unit. lra.
  - qreplace (-1 + (4 - 2 * t) * t) (1 - (1#2) * ((2 - 2 * t) * (2 - 2 * t))).
    assert (0 <= (2 - 2 * t) * (2 - 2 * t) <= 1) by unit. lra.
Qed.

Lemma easeInCubic_unit : 0 <= easeInCubic t <= 1.
Proof. unfold easeInCubic. unit. Qed.

Lemma easeOutCubic_unit : 0 <= easeOutCubic t <= 1.
Proof.
  rewrite easeOutCubic_reference.
  assert (0 <= (1 - t) * (1 - t) * (1 - t) <= 1) by unit. lra.
Qed.

Lemma easeInOutCubic_unit : 0 <= easeInOutCubic t <= 1.
Proof.
  unfold easeInOutCubic. qcase (t <? 1#2).
  - qreplace (4 * t * t * t) ((1#2) * ((2 * t) * (2 * t) * (2 * t))).
    assert (0 <= 2 * t * (2 * t) * (2 * t) <= 1) by unit. lra.
  - qreplace ((t - 1) * (2 * t - 2) * (2 * t - 2) + 1)
      (1 - (1#2) * ((2 - 2 * t) * (2 - 2 * t) * (2 - 2 * t))).
    assert (0 <= (2 - 2 * t) * (2 - 2 * t) * (2 - 2 * t) <= 1) by unit. lra.
Qed.
End UnitRange.

(** (C35) The six polynomial easing curves of utils.ts fix 0 and 1 and map
    every time in [[0, 1]] into [[0, 1]]. *)
Theorem polynomial_easings_unit :
  Forall (fun f : Q -> Q => f 0 == 0 /\ f 1 == 1 /\ forall t, 0 <= t <= 1 -> 0 <= f t <= 1)
    [easeInQuad; easeOutQuad; easeInOutQuad; easeInCubic; easeOutCubic; easeInOutCubic].
Proof.
  repeat (apply Forall_cons; [split; [reflexivity | split; [reflexivity | intros t Ht]] |]);
    [ apply easeInQuad_unit | apply easeOutQuad_unit | apply easeInOutQuad_unit
    | apply easeInCubic_unit | apply easeOutCubic_unit | apply easeInOutCubic_unit | apply Forall_nil ];
    exact Ht.
Qed.

(** ** The basis of [quatFromDirection] *)

(** Whatever [J.vec3.normalize] returns, the corrected up axis is
    perpendicular to the forward and the right axes. *)
Lemma basisOfDirection_orthogonal `{Engine} dir :
  let m := basisOfDirection dir in
  vdot (m_up m) (m_forward m) == 0 /\ vdot (m_up m) (m_right m) == 0.
Proof. simpl. unfold vdot, vcross; simpl. split; ring. Qed.
