(* ===== verification/Targeting.v ===== *)
(** * Targeting selector (bots.ts: findNearestPickup, findRandomPickup,
      findNearestEnemy)

    The two nearest-queries are the "first strict best" loop of the prelude
    over the candidates [J.getAllWithTraits] yields, keyed by distance from
    the bot, starting from [Infinity].  The random query draws one
    [Math.random()] value and indexes the pickup array with it. *)

From Stdlib Require Import QArith ZArith List String Lia.
From stdpp Require Import base.
From S2P Require Import Prelude Host.
Import ListNotations.
Open Scope Q_scope.
Open Scope bow_scope.

Section Targeting.
Context `{Engine}.

(** The key of a pickup: its distance from the bot, when it has a
    position ([if (!pickupPos) continue;]). *)
Definition pickup_key (h : Host) (botPos : Vec3) (id : EntityId) : option ext :=
  match getEntityPosition h id with
  | Some p => Some (Fin (distance botPos p))
  | None => None
  end.

(** The key of a player: skipped when it is the bot itself or dead
    ([if (id === botId || !J.getCharacterAlive(id)) continue;]), else its
    distance when it has a position. *)
Definition enemy_key (h : Host) (botId : EntityId) (botPos : Vec3) (id : EntityId) : option ext :=
  if Z.eqb id botId || negb (getCharacterAlive h id) then None
  else pickup_key h botPos id.

Definition findNearestPickup (h : Host) (botId : EntityId) : option EntityId :=
  match getEntityPosition h botId with
  | None => None
  | Some botPos => fst (first_best ext_ltb (pickup_key h botPos) Infinity (allPickups h))
  end.

Definition findNearestEnemy (h : Host) (botId : EntityId) : option EntityId :=
  match getEntityPosition h botId with
  | None => None
  | Some botPos => fst (first_best ext_ltb (enemy_key h botId botPos) Infinity (allPlayers h))
  end.

(** [pickupArray[Math.floor(Math.random() * pickupArray.length)][0]]; no
    value is drawn when there is no pickup.  (With a random value outside
    [[0, 1)] JavaScript would read [undefined[0]] and throw; the model
    then yields [None] or clamps a negative index to 0.) *)
Definition pick_index (r : Q) (n : nat) : nat :=
  Z.to_nat (js_floor (r * inject_Z (Z.of_nat n))).

Definition findRandomPickup {St} `{HasHost St} : Act St (option EntityId) :=
  h <- host ;;
  match allPickups h with
  | [] => ret None
  | arr => r <- random ;; ret (nth_error arr (pick_index r (length arr)))
  end.
End Targeting.

(** ** Properties *)

Section TargetingProofs.
Context `{Engine}.

Lemma first_best_ext_sound {A} (key : A -> option ext) l x :
  fst (first_best ext_ltb key Infinity l) = Some x ->
  IsFirstBest ext_ltb key Infinity l x.
Proof. apply first_best_sound; eauto with bow. Qed.

Lemma first_best_ext_none {A} (key : A -> option ext) l :
  fst (first_best ext_ltb key Infinity l) = None <-> NoneBetter ext_ltb key Infinity l.
Proof. apply first_best_none; eauto with bow. Qed.

Lemma IsFirstBest_in {A K} (lt : K -> K -> bool) (key : A -> option K) k0 l x :
  IsFirstBest lt key k0 l x -> In x l.
Proof.
  intros (l1 & l2 & k & -> & _). apply in_or_app. right. left. reflexivity.
Qed.

(** The element the loop keeps is at least as near as every candidate. *)
Lemma IsFirstBest_min {A} (key : A -> option ext) l x d :
  IsFirstBest ext_ltb key Infinity l x -> key x = Some (Fin d) ->
  forall y d', In y l -> key y = Some (Fin d') -> d <= d'.
Proof.
  intros (l1 & l2 & k & -> & Hk & _ & H1 & H2) Hd y d' Hy Hy'.
  rewrite Hd in Hk. injection Hk as <-.
  apply in_app_or in Hy as [Hy | [<- | Hy]].
  - specialize (H1 _ _ Hy Hy'). simpl in H1. qbool. apply Qlt_le_weak. exact H1.
  - rewrite Hd in Hy'. injection Hy' as ->. apply Qle_refl.
  - specialize (H2 _ _ Hy Hy'). simpl in H2. qbool. exact H2.
Qed.

(** Among the candidates before it, the kept element is strictly nearer:
    ties go to the first candidate the host yields. *)
Lemma IsFirstBest_first {A} (key : A -> option ext) l x d :
  IsFirstBest ext_ltb key Infinity l x -> key x = Some (Fin d) ->
  exists l1 l2, l = l1 ++ x :: l2 /\
    forall y d', In y l1 -> key y = Some (Fin d') -> d < d'.
Proof.
  intros (l1 & l2 & k & -> & Hk & _ & H1 & _) Hd. exists l1, l2. split; [reflexivity|].
  intros y d' Hy Hy'. rewrite Hd in Hk. injection Hk as <-.
  specialize (H1 _ _ Hy Hy'). simpl in H1. qbool. exact H1.
Qed.

Lemma enemy_key_some h botId botPos id k :
  enemy_key h botId botPos id = Some k ->
  id <> botId /\ getCharacterAlive h id = true /\
  exists p, getEntityPosition h id = Some p /\ k = Fin (distance botPos p).
Proof.
  unfold enemy_key, pickup_key.
  destruct (Z.eqb_spec id botId), (getCharacterAlive h id); simpl; try discriminate.
  destruct (getEntityPosition h id) as [p|]; [|discriminate].
  intros Hk. injection Hk as <-. eauto.
Qed.

Lemma enemy_key_of h botId botPos id p :
  id <> botId -> getCharacterAlive h id = true -> getEntityPosition h id = Some p ->
  enemy_key h botId botPos id = Some (Fin (distance botPos p)).
Proof.
  intros Hne Ha Hp. unfold enemy_key, pickup_key.
  destruct (Z.eqb_spec id botId); [contradiction|]. rewrite Ha, Hp. reflexivity.
Qed.

(** (C5) [findNearestEnemy] returns a living player other than the bot, with a
    position, at least as near to the bot as every such player. *)
Theorem findNearestEnemy_nearest h botId e :
  findNearestEnemy h botId = Some e ->
  exists botPos ePos,
    getEntityPosition h botId = Some botPos /\ getEntityPosition h e = Some ePos /\
    e <> botId /\ getCharacterAlive h e = true /\ In e (allPlayers h) /\
    (forall y yPos, In y (allPlayers h) -> y <> botId -> getCharacterAlive h y = true ->
       getEntityPosition h y = Some yPos -> distance botPos ePos <= distance botPos yPos).
Proof.
  unfold findNearestEnemy. destruct (getEntityPosition h botId) as [bp|]; [|discriminate].
  intros Hf. apply first_best_ext_sound in Hf as Hb. pose proof Hb as Hb'.
  destruct Hb as (l1 & l2 & k & El & Hk & Hrest).
  destruct (enemy_key_some _ _ _ _ _ Hk) as (Hne & Ha & ep & Hp & ->).
  exists bp, ep. repeat split; auto.
  - rewrite El. apply in_or_app. right. left. reflexivity.
  - intros y yp Hy Hyne Hya Hyp.
    eapply (IsFirstBest_min _ _ e _ Hb' Hk); [exact Hy|].
    apply enemy_key_of; assumption.
Qed.

Lemma NoneBetter_Infinity {A} (key : A -> option ext) l :
  (forall y k, key y = Some k -> exists d, k = Fin d) ->
  NoneBetter ext_ltb key Infinity l <-> forall y, In y l -> key y = None.
Proof.
  intros Hfin. split.
  - intros Hn y Hy. destruct (key y) as [k|] eqn:E; [|reflexivity].
    destruct (Hfin _ _ E) as [d ->]. specialize (Hn y _ Hy E). discriminate.
  - intros Hall y k Hy Hk. rewrite (Hall y Hy) in Hk. discriminate.
Qed.

(** [findNearestEnemy] finds nothing exactly when the bot has no position
    or every other player is dead or has no position. *)
Theorem findNearestEnemy_none h botId :
  findNearestEnemy h botId = None <->
  getEntityPosition h botId = None \/
  forall y, In y (allPlayers h) ->
    y = botId \/ getCharacterAlive h y = false \/ getEntityPosition h y = None.
Proof.
  unfold findNearestEnemy. destruct (getEntityPosition h botId) as [bp|].
  - rewrite first_best_ext_none, NoneBetter_Infinity.
    + split.
      * intros Hall. right. intros y Hy. specialize (Hall y Hy).
        unfold enemy_key, pickup_key in Hall.
        destruct (Z.eqb_spec y botId); [left; assumption|]. right.
        destruct (getCharacterAlive h y); [right|left; reflexivity].
        simpl in Hall. destruct (getEntityPosition h y); [discriminate | reflexivity].
      * intros [Hc | Hall]; [discriminate|]. intros y Hy. unfold enemy_key, pickup_key.
        destruct (Hall y Hy) as [-> | [-> | ->]].
        -- rewrite Z.eqb_refl. reflexivity.
        -- rewrite orb_true_r. reflexivity.
        -- destruct (_ || _); reflexivity.
    + intros y k Hk. apply enemy_key_some in Hk as (_ & _ & p & _ & ->). eauto.
  - split; [left; reflexivity | reflexivity].
Qed.

(** [findNearestPickup] returns a pickup with a position at least as near
    to the bot as every pickup with a position. *)
Theorem findNearestPickup_nearest h botId p :
  findNearestPickup h botId = Some p ->
  exists botPos pPos,
    getEntityPosition h botId = Some botPos /\ getEntityPosition h p = Some pPos /\
    In p (allPickups h) /\
    (forall y yPos, In y (allPickups h) -> getEntityPosition h y = Some yPos ->
       distance botPos pPos <= distance botPos yPos).
Proof.
  unfold findNearestPickup. destruct (getEntityPosition h botId) as [bp|]; [|discriminate].
  intros Hf. apply first_best_ext_sound in Hf as Hb.
  pose proof (IsFirstBest_in _ _ _ _ _ Hb) as Hin. pose proof Hb as Hb'.
  destruct Hb as (l1 & l2 & k & El & Hk & Hrest).
  unfold pickup_key in Hk. destruct (getEntityPosition h p) as [pp|] eqn:Hp; [|discriminate].
  injection Hk as <-. exists bp, pp. repeat split; auto.
  intros y yp Hy Hyp. eapply (IsFirstBest_min (pickup_key h bp) _ p _ Hb'); [| exact Hy |].
  - unfold pickup_key. rewrite Hp. reflexivity.
  - unfold pickup_key. rewrite Hyp. reflexivity.
Qed.

Lemma pick_index_lt r n :
  0 <= r -> r < 1 -> (0 < n)%nat -> (pick_index r n < n)%nat.
Proof.
  intros H0 H1 Hn. unfold pick_index.
  pose proof (js_floor_index r (Z.of_nat n) H0 H1 ltac:(lia)). lia.
Qed.

(** With a random value in [[0, 1)] and at least one pickup,
    [findRandomPickup] returns one of the pickups and draws exactly one
    random value. *)
Theorem findRandomPickup_member {St} `{HasHost St} `{!HasHostLaws St} (s : St) :
  allPickups (host_of s) <> [] ->
  0 <= random_at (draws (host_of s)) < 1 ->
  exists p, snd (findRandomPickup s) = Some (Some p) /\ In p (allPickups (host_of s)) /\
            draws (host_of (fst (findRandomPickup s))) = S (draws (host_of s)).
Proof.
  intros Hne [Hr0 Hr1]. unfold findRandomPickup, bind, host, random, ret. simpl.
  destruct (allPickups (host_of s)) as [|a l] eqn:E; [contradiction|].
  simpl. rewrite host_set_get. simpl.
  destruct (nth_error (a :: l) (pick_index (random_at (draws (host_of s))) (S (length l)))) as [p|] eqn:En.
  - exists p. split; [reflexivity|]. split; [|reflexivity].
    exact (nth_error_In _ _ En).
  - exfalso. apply nth_error_None in En. simpl in En.
    pose proof (pick_index_lt _ (S (length l)) Hr0 Hr1 ltac:(lia)). lia.
Qed.

(** With no pickup, [findRandomPickup] returns [null] without drawing a
    random value. *)
Theorem findRandomPickup_empty {St} `{HasHost St} (s : St) :
  allPickups (host_of s) = [] -> findRandomPickup s = (s, Some None).
Proof.
  intros E. unfold findRandomPickup, bind, host, ret. simpl. rewrite E. reflexivity.
Qed.
End TargetingProofs.

(** ** Examples

    Bot 1 at the origin, a living enemy (2) ten units away, pickups 3 and 4
    at three and seven units. *)

Definition tgt_player : PlayerTrait := mkPlayer 0 0 0 3 3 0 "Legolas"%string 0.
Definition tgt_host : Host :=
  mkHost [(1%Z, mkEntity (Some vzero) true None (Some tgt_player) false None false None None None);
          (2%Z, mkEntity (Some (vec3 10 0 0)) true None (Some tgt_player) false None false None None None);
          (3%Z, mkEntity (Some (vec3 3 0 0)) true None None true None false None None None);
          (4%Z, mkEntity (Some (vec3 0 0 7)) true None None true None false None None None)] 0 0 5 [].

#[local] Instance tgt_engine : Engine := demo_engine [3#4].

Lemma findNearestEnemy_nearest_witness :
  findNearestEnemy tgt_host 1 = Some 2%Z /\ getCharacterAlive tgt_host 2 = true /\
  distance vzero (vec3 10 0 0) <= distance vzero (vec3 10 0 0).
Proof.
  assert (E : findNearestEnemy tgt_host 1 = Some 2%Z) by reflexivity.
  destruct (findNearestEnemy_nearest tgt_host 1 2 E) as (bp & ep & Hb & He & _ & Ha & Hin & Hmin).
  split; [exact E|]. split; [exact Ha|].
  injection Hb as <-. injection He as <-. apply (Hmin 2%Z); [exact Hin | discriminate | exact Ha | reflexivity].
Defined.

Lemma findNearestPickup_nearest_witness :
  findNearestPickup tgt_host 1 = Some 3%Z /\
  distance vzero (vec3 3 0 0) <= distance vzero (vec3 0 0 7).
Proof.
  assert (E : findNearestPickup tgt_host 1 = Some 3%Z) by reflexivity.
  destruct (findNearestPickup_nearest tgt_host 1 3 E) as (bp & pp & Hb & Hp & _ & Hmin).
  split; [exact E|].
  injection Hb as <-. injection Hp as <-. apply (Hmin 4%Z); [right; left; reflexivity | reflexivity].
Defined.

Lemma findRandomPickup_member_witness :
  findRandomPickup tgt_host = (mkHost (ents tgt_host) 0 1 5 [], Some (Some 4%Z)) /\
  In 4%Z (allPickups tgt_host).
Proof.
  split; [reflexivity|].
  destruct (findRandomPickup_member tgt_host) as (p & Ep & Hin & _);
    [discriminate | unfold Qle, Qlt; simpl; lia |].
  assert (Hp : p = 4%Z) by (simpl in Ep; congruence). subst p. exact Hin.
Defined.

Lemma findRandomPickup_empty_witness :
  findRandomPickup (mkHost [] 0 0 1 []) = (mkHost [] 0 0 1 [], Some None).
Proof. apply findRandomPickup_empty. reflexivity. Defined.
