(* ===== verification/Aim.v ===== *)
(** * Ballistic aim solver (bots.ts, [updateBotAI], lines 221-234)

    The bot aims at the enemy's eye position raised by the drop an arrow
    would suffer over the distance and lowered by a random offset.  The
    arrow the shot actually spawns is built by [spawnArrow]
    (client/arrow.ts, line 70) with its own speed formula; the two are
    compared below. *)

From Stdlib Require Import QArith Qround Lqa.
From S2P Require Import Prelude.
Open Scope Q_scope.

(** [const randomOffset = (1 + Math.random()) * -2;] *)
Definition aim_offset (r : Q) : Q := (1 + r) * -2.

(** [const draw = 0.7 + Math.random() * 0.3;] *)
Definition draw_of (r : Q) : Q := (7#10) + r * (3#10).

(** [const arrowSpeed = 50 * draw * 1.5;] *)
Definition bot_arrow_speed (draw : Q) : Q := 50 * draw * (3#2).

Definition gravity : Q := 981#100.

(** [time = distance / arrowSpeed; drop = 0.5 * g * time * time;] *)
Definition aim_drop (distance draw : Q) : Q :=
  let time := distance / bot_arrow_speed draw in
  (1#2) * gravity * time * time.

(** [aimTarget = [p[0], p[1] + drop + randomOffset, p[2]]]. *)
Definition aimTarget (enemyViewPos : Vec3) (distance draw offset : Q) : Vec3 :=
  vec3 (vx enemyViewPos) (vy enemyViewPos + aim_drop distance draw + offset) (vz enemyViewPos).

(** The speed [spawnArrow] gives the arrow: [50 * (0.5 + draw)]. *)
Definition spawn_speed (draw : Q) : Q := 50 * ((1#2) + draw).

(** The drop a projectile at speed [v] suffers over [distance]. *)
Definition drop_at (distance v : Q) : Q :=
  let time := distance / v in (1#2) * gravity * time * time.

Lemma aim_drop_drop_at d draw : aim_drop d draw = drop_at d (bot_arrow_speed draw).
Proof. reflexivity. Qed.

(** A slower projectile drops more over the same positive distance. *)
Lemma drop_at_antitone d v1 v2 :
  0 < d -> 0 < v1 -> v1 < v2 -> drop_at d v2 < drop_at d v1.
Proof.
  intros Hd Hv1 Hlt. unfold drop_at.
  assert (Hv2 : 0 < v2) by lra.
  assert (Hinv : / v2 < / v1) by (apply (Qinv_lt_contravar v1 v2 Hv1 Hv2); exact Hlt).
  assert (Hi2 : 0 < / v2) by (apply Qinv_lt_0_compat; exact Hv2).
  assert (Ht : d / v2 < d / v1) by (unfold Qdiv; apply (Qmult_lt_l _ _ _ Hd); exact Hinv).
  assert (Ht0 : 0 <= d / v2).
  { unfold Qdiv. apply Qmult_le_0_compat; apply Qlt_le_weak; assumption. }
  assert (Hsq : d / v2 * (d / v2) < d / v1 * (d / v1))
    by (apply Qmult_lt_compat_nonneg; split; assumption).
  assert (Hc : 0 < (1#2) * gravity) by (unfold gravity; reflexivity).
  assert (E : forall t, (1#2) * gravity * t * t == ((1#2) * gravity) * (t * t))
    by (intros; ring).
  rewrite !E. apply (Qmult_lt_l _ _ _ Hc). exact Hsq.
Qed.

(** ** Properties *)

(** (C20) The random offset lies in [(-4, -2]]: the whole aim point is lowered by
    two to four units, not by "between -2 and 0" as the comment on line 221
    says. *)
Theorem aim_offset_range (r : Q) :
  0 <= r -> r < 1 -> -4 < aim_offset r /\ aim_offset r <= -2.
Proof. intros H0 H1. unfold aim_offset. split; lra. Qed.

Lemma draw_of_bounds (r : Q) :
  0 <= r -> r < 1 -> 7#10 <= draw_of r /\ draw_of r < 1.
Proof. intros H0 H1. unfold draw_of. split; lra. Qed.

(** The draw strength of a bot shot lies in [[0.7, 1)]. *)
Theorem draw_of_range (r : Q) :
  0 <= r -> r < 1 -> 7#10 <= draw_of r /\ draw_of r < 1.
Proof. exact (draw_of_bounds r). Qed.

(** The aim model's arrow speed [75 * draw] is below the speed
    [25 + 50 * draw] of the arrow [spawnArrow] creates for every draw
    below 1 (they agree only at draw 1). *)
Lemma bot_speed_below_spawn_speed (draw : Q) :
  draw < 1 -> bot_arrow_speed draw < spawn_speed draw.
Proof. intros H. unfold bot_arrow_speed, spawn_speed. lra. Qed.

(** (C21) Hence, for every bot shot at a positive distance, the drop the bot
    compensates for is larger than the drop of an arrow at the speed the
    shot really has. *)
Theorem aim_drop_exceeds_flight_drop (r d : Q) :
  0 <= r -> r < 1 -> 0 < d ->
  drop_at d (spawn_speed (draw_of r)) < aim_drop d (draw_of r).
Proof.
  intros H0 H1 Hd. rewrite aim_drop_drop_at.
  destruct (draw_of_bounds r H0 H1) as [Hlo Hhi].
  apply drop_at_antitone; [exact Hd | | apply bot_speed_below_spawn_speed; exact Hhi].
  unfold bot_arrow_speed. lra.
Qed.

(** ** Examples: [Math.random()] returning [1/2]. *)

Lemma aim_offset_range_witness : aim_offset (1#2) == -3 /\ -4 < aim_offset (1#2) /\ aim_offset (1#2) <= -2.
Proof. split; [reflexivity|]. apply aim_offset_range; lra. Defined.

Lemma draw_of_range_witness : draw_of (1#2) == 17#20 /\ 7#10 <= draw_of (1#2) /\ draw_of (1#2) < 1.
Proof. split; [reflexivity|]. apply draw_of_range; lra. Defined.

Lemma aim_drop_exceeds_flight_drop_witness :
  drop_at 30 (spawn_speed (draw_of (1#2))) < aim_drop 30 (draw_of (1#2)).
Proof. apply aim_drop_exceeds_flight_drop; lra. Defined.
