(* ===== verification/Respawn.v ===== *)
(** * Respawn (server/respawn.ts, and the respawn loop of server.ts)

    [killPlayer] marks a player dead and schedules its respawn five seconds
    later; [spawnPlayer] revives it at the spawn point farthest from every
    other living player (a max-min choice run by the prelude's "first strict
    best" loop with the order reversed); the server's tick revives every
    dead player whose respawn time has come.  The module variable
    [spawnPositions] is passed as an argument. *)

From Stdlib Require Import QArith ZArith List String Lqa Lia.
From stdpp Require Import base.
From S2P Require Import Prelude Host.
Import ListNotations.
Open Scope Q_scope.
Open Scope bow_scope.

(** ** Spawn-point choice (respawn.ts 43-75) *)

Section Choice.
Context `{Engine}.

(** Lines 46-53: the other living players, in the host's order. *)
Definition livingPlayers (h : Host) (playerId : EntityId) : list EntityId :=
  List.filter (fun id => negb (Z.eqb id playerId) && getCharacterAlive h id) (allPlayers h).

(** Lines 58-64: [minDistanceToAnyPlayer] of one spawn point, [Infinity]
    with no living player.  A living player without a position makes the
    [!]-asserted position [undefined], the distance [NaN] and the minimum
    [NaN]; [None] stands for that [NaN]. *)
Definition min_dist_key (h : Host) (living : list EntityId) (spawnPos : Vec3) : option ext :=
  fold_left (fun acc id =>
               match acc, getEntityPosition h id with
               | Some m, Some p => Some (ext_min m (Fin (distance spawnPos p)))
               | _, _ => None
               end) living (Some Infinity).

(** [a > b]: the order of [if (minDistanceToAnyPlayer > bestMinDistance)]. *)
Definition ext_gtb (a b : ext) : bool := ext_ltb b a.

(** Lines 55-74: the first spawn point of greatest minimum distance,
    starting from [bestMinDistance = -1], and [spawnPositions[0]] when none
    qualifies. *)
Definition chooseSpawn (h : Host) (playerId : EntityId) (spawnPositions : list Vec3) : option Vec3 :=
  match fst (first_best ext_gtb (min_dist_key h (livingPlayers h playerId)) (Fin (-1)) spawnPositions) with
  | Some p => Some p
  | None => head spawnPositions
  end.
End Choice.

(** ** The respawn operations *)

Section Ops.
Context `{Engine} {St : Type} `{HasHost St}.

(** respawn.ts 7-20. *)
Definition killPlayer (playerId : EntityId) : Act St unit :=
  setAlive playerId false ;;
  emit (PlayEmoteDeath playerId) ;;
  h <- host ;;
  match getPlayer h playerId with
  | Some p =>
    setPlayer playerId (mkPlayer (kills p) (deathCount p + 1) (clock h + 5) (arrowCount p)
                                 (maxArrows p) (lastKillTime p) (name p) 0)
  | None => ret tt
  end.

(** [J.getPlayerUsername(playerId) || "Unknown"]. *)
Definition username_or_unknown (h : Host) (playerId : EntityId) : string :=
  match getPlayerUsername h playerId with
  | Some u => if String.eqb u "" then "Unknown" else u
  | None => "Unknown"
  end.

(** respawn.ts 22-105.  [return;] on line 23 returns [undefined]. *)
Definition spawnPlayer (spawnPositions : list Vec3) (playerId : EntityId) (fromRespawn : bool)
  : Act St (option Vec3) :=
  if fromRespawn && Nat.eqb (length spawnPositions) 0 then ret None else
  h <- host ;;
  (match getPlayer h playerId with
   | None => setPlayer playerId (mkPlayer 0 0 0 3 3 0 (username_or_unknown h playerId) 0)
   | Some _ => ret tt
   end) ;;
  h <- host ;;
  let bestSpawnPosition := if fromRespawn then chooseSpawn h playerId spawnPositions else None in
  setAlive playerId true ;;
  emit (StopEmote playerId) ;;
  h <- host ;;
  (match getPlayer h playerId with
   | Some p => setPlayer playerId (set_arrowCount p 3)
   | None => ret tt
   end) ;;
  (match fromRespawn, bestSpawnPosition with
   | true, Some pos => emit (SendToAll (RespawnCommand playerId pos))
   | _, _ => ret tt
   end) ;;
  emit (SetPermissionsAndMovement playerId) ;;
  ret bestSpawnPosition.

(** server.ts 56-72: revive every dead player whose respawn time has
    come, and move it to the chosen spawn point. *)
Definition respawnTick (spawnPositions : list Vec3) (t : Q) : Act St unit :=
  h <- host ;;
  for_each (allPlayers h) (fun id =>
    h <- host ;;
    match getPlayer h id with
    | None => ret tt
    | Some player =>
      when (negb (getCharacterAlive h id) && Qltb 0 (respawnTime player) && Qle_bool (respawnTime player) t)
        (pos <- spawnPlayer spawnPositions id true ;;
         match pos with
         | Some q => setEntityPosition id (Some q)
         | None => ret tt
         end)
    end).
End Ops.

(** respawn.ts 110-114: the positions of the respawner entities, in the
    host's order.  The [!] of line 112 throws at a respawner without a
    position: the loop stops there with the positions pushed so far. *)
Fixpoint collectSpawnPositions (l : list (EntityId * Entity)) : list Vec3 :=
  match l with
  | [] => []
  | (_, e) :: l' =>
    if e_respawner e then
      match e_pos e with Some p => p :: collectSpawnPositions l' | None => [] end
    else collectSpawnPositions l'
  end.

(** ** Properties of the spawn choice *)

Section ChoiceProofs.
Context `{Engine}.

Lemma ext_gtb_asym a b : ext_gtb a b = true -> ext_gtb b a = false.
Proof. unfold ext_gtb. apply ext_ltb_asym. Qed.

Lemma ext_gtb_lt_le a b c : ext_gtb a b = true -> ext_gtb c b = false -> ext_gtb a c = true.
Proof.
  unfold ext_gtb. intros H1 H2. destruct (ext_ltb c a) eqn:E; [reflexivity|].
  exfalso. assert (ext_ltb b a = false) as H3 by (eapply ext_le_trans; eassumption). congruence.
Qed.

(** The running minimum stays above [-1] while every living player has a
    position, and is [NaN] for good once one has none. *)
Lemma min_dist_fold_some `{!MetricLaws} h q living m :
  ext_ltb (Fin (-1)) m = true ->
  (forall id, In id living -> getEntityPosition h id <> None) ->
  exists k, fold_left (fun acc id =>
               match acc, getEntityPosition h id with
               | Some m, Some p => Some (ext_min m (Fin (distance q p)))
               | _, _ => None
               end) living (Some m) = Some k /\ ext_ltb (Fin (-1)) k = true.
Proof.
  revert m. induction living as [|id l IH]; intros m Hm Hpos; simpl; [eauto|].
  destruct (getEntityPosition h id) as [p|] eqn:Ep; [|exfalso; apply (Hpos id); [left|]; auto].
  apply IH; [|intros; apply Hpos; right; assumption].
  unfold ext_min. destruct (ext_ltb (Fin (distance q p)) m); [|exact Hm].
  simpl. apply Qltb_iff. pose proof (distance_nonneg q p). lra.
Qed.

Lemma min_dist_fold_none h q living acc id :
  In id living -> getEntityPosition h id = None ->
  fold_left (fun acc id =>
               match acc, getEntityPosition h id with
               | Some m, Some p => Some (ext_min m (Fin (distance q p)))
               | _, _ => None
               end) living acc = None.
Proof.
  revert acc. induction living as [|id' l IH]; intros acc Hin Hp; [destruct Hin|].
  destruct Hin as [<- | Hin]; simpl.
  - rewrite Hp. destruct acc; clear IH; induction l as [|x l IHl]; simpl; auto;
      destruct (getEntityPosition h x); exact IHl.
  - apply IH; assumption.
Qed.

(** (C6) When every other living player has a position, the respawn point
    is a spawn point whose distance to the nearest living player is
    maximal: no spawn point is strictly farther from everyone. *)
Theorem chooseSpawn_maxmin `{!MetricLaws} h pid q0 qs :
  (forall id, In id (livingPlayers h pid) -> getEntityPosition h id <> None) ->
  exists p kp, chooseSpawn h pid (q0 :: qs) = Some p /\ In p (q0 :: qs) /\
    min_dist_key h (livingPlayers h pid) p = Some kp /\
    (forall q kq, In q (q0 :: qs) -> min_dist_key h (livingPlayers h pid) q = Some kq ->
                  ext_ltb kp kq = false).
Proof.
  intros Hpos. unfold chooseSpawn.
  set (key := min_dist_key h (livingPlayers h pid)).
  assert (Hk : forall q, exists k, key q = Some k /\ ext_gtb k (Fin (-1)) = true).
  { intros q. apply min_dist_fold_some; [reflexivity | exact Hpos]. }
  destruct (fst (first_best ext_gtb key (Fin (-1)) (q0 :: qs))) as [p|] eqn:Eb.
  - apply first_best_sound in Eb as Hb; [|exact ext_gtb_asym | exact ext_gtb_lt_le].
    pose proof Hb as (l1 & l2 & kp & El & Hkp & _ & H1 & H2).
    exists p, kp. split; [reflexivity|]. split; [rewrite El; apply in_or_app; right; left; reflexivity|].
    split; [exact Hkp|]. intros q kq Hq Hkq. rewrite El in Hq.
    apply in_app_or in Hq as [Hq | [<- | Hq]].
    + apply ext_ltb_asym. exact (H1 q kq Hq Hkq).
    + rewrite Hkq in Hkp. injection Hkp as ->. destruct kp; simpl; [|reflexivity].
      apply Qltb_false_iff, Qle_refl.
    + exact (H2 q kq Hq Hkq).
  - exfalso. apply first_best_none in Eb; [|exact ext_gtb_asym | exact ext_gtb_lt_le].
    destruct (Hk q0) as (k & Hq0 & Hgt). specialize (Eb q0 k (or_introl eq_refl) Hq0). congruence.
Qed.

(** With no other living player every spawn point is at distance
    [Infinity]; the first spawn point is chosen. *)
Theorem chooseSpawn_no_living h pid q0 qs :
  livingPlayers h pid = [] -> chooseSpawn h pid (q0 :: qs) = Some q0.
Proof.
  intros Hl. unfold chooseSpawn, first_best. rewrite Hl. simpl.
  unfold best_step at 2. unfold min_dist_key. simpl.
  generalize q0 at 2. induction qs as [|q qs IH]; intros x; [reflexivity|].
  simpl. unfold best_step at 2. simpl. apply IH.
Qed.
End ChoiceProofs.

Section OpsProofs.
Context `{Engine} {St : Type} `{HasHost St} `{!HasHostLaws St}.

Lemma lookup_update_ent_twice l id f g e :
  lookup_ent l id = Some e -> lookup_ent (update_ent (update_ent l id f) id g) id = Some (g (f e)).
Proof. intros E. do 2 (apply lookup_update_ent_eq). exact E. Qed.

(** (C7) [killPlayer] leaves the player dead with one more death, a
    respawn five seconds after the current world time and its kill streak
    reset. *)
Theorem killPlayer_effect (s : St) pid e p :
  lookup_ent (ents (host_of s)) pid = Some e -> e_player e = Some p ->
  let h' := host_of (exec (killPlayer pid) s) in
  getCharacterAlive h' pid = false /\
  getPlayer h' pid = Some (mkPlayer (kills p) (deathCount p + 1) (clock (host_of s) + 5)
                                    (arrowCount p) (maxArrows p) (lastKillTime p) (name p) 0).
Proof.
  intros Ee Ep. unfold killPlayer. unfold_host_ops. unfold exec, bind.
  simpl. rewrite !host_set_get. simpl.
  unfold getPlayer, getCharacterAlive. simpl. rewrite (lookup_update_ent_eq _ _ _ e Ee). simpl. rewrite Ep.
  simpl. rewrite !host_set_get. simpl.
  rewrite (lookup_update_ent_twice _ _ _ _ e Ee). simpl. split; reflexivity.
Qed.

(** [killPlayer] always runs to its end, and touches only the victim's
    entity. *)
Lemma killPlayer_run (s : St) pid :
  exists s', killPlayer pid s = (s', Some tt) /\
    clock (host_of s') = clock (host_of s) /\
    forall id, id <> pid -> lookup_ent (ents (host_of s')) id = lookup_ent (ents (host_of s)) id.
Proof.
  unfold killPlayer. unfold_host_ops. unfold bind. simpl.
  destruct (getPlayer _ pid) as [p|]; simpl; eexists; (split; [reflexivity|]); rewrite !host_set_get; simpl;
    (split; [reflexivity|]); intros id Hne; rewrite ?lookup_update_ent_ne by congruence; reflexivity.
Qed.

(** With no spawn point, [spawnPlayer] called for a respawn returns
    [undefined] and does nothing: the player is not revived. *)
Theorem spawnPlayer_no_spawn_points (s : St) pid :
  spawnPlayer [] pid true s = (s, Some None).
Proof. reflexivity. Qed.
End OpsProofs.

(** ** Examples

    Player 1 is dead; player 2 is alive at the origin; the spawn points lie
    at one, ten and five units from it. *)

Definition rsp_player : PlayerTrait := mkPlayer 0 0 0 3 3 0 "Legolas"%string 0.
Definition rsp_entity (pos : Vec3) (alive : bool) : Entity :=
  mkEntity (Some pos) alive None (Some rsp_player) false None false None None None.
Definition rsp_host : Host :=
  mkHost [(1%Z, rsp_entity (vec3 4 0 0) false); (2%Z, rsp_entity vzero true)] 7 0 3 [].
Definition rsp_points : list Vec3 := [vec3 1 0 0; vec3 10 0 0; vec3 5 0 0].

#[local] Instance rsp_engine : Engine := demo_engine [].

Lemma chooseSpawn_maxmin_witness :
  chooseSpawn rsp_host 1 rsp_points = Some (vec3 10 0 0) /\
  exists p kp, chooseSpawn rsp_host 1 rsp_points = Some p /\ In p rsp_points /\
    min_dist_key rsp_host (livingPlayers rsp_host 1) p = Some kp.
Proof.
  split; [reflexivity|].
  destruct (chooseSpawn_maxmin (H0 := demo_metric []) rsp_host 1 (vec3 1 0 0) [vec3 10 0 0; vec3 5 0 0])
    as (p & kp & E & Hin & Hk & _).
  - intros id [<- | []]. discriminate.
  - exists p, kp. auto.
Defined.

Lemma chooseSpawn_no_living_witness :
  livingPlayers (mkHost [(1%Z, rsp_entity (vec3 4 0 0) false)] 7 0 3 []) 1 = [] /\
  chooseSpawn (mkHost [(1%Z, rsp_entity (vec3 4 0 0) false)] 7 0 3 []) 1 rsp_points = Some (vec3 1 0 0).
Proof. split; [reflexivity|]. apply chooseSpawn_no_living. reflexivity. Defined.

Lemma killPlayer_effect_witness :
  getCharacterAlive (exec (killPlayer 2) rsp_host) 2 = false /\
  getPlayer (exec (killPlayer 2) rsp_host) 2 = Some (mkPlayer 0 1 (7 + 5) 3 3 0 "Legolas"%string 0).
Proof. exact (killPlayer_effect rsp_host 2 (rsp_entity vzero true) rsp_player eq_refl eq_refl). Defined.
