(* ===== verification/Bots.v ===== *)
(** * Bot decision policy (server/bots.ts: BotState, updateBotAI)

    The server keeps one [BotState] per bot in the map [botStates] and the
    ids in the insertion-ordered set [botIds].  [updateBotAI] is the per-bot
    per-tick handler.  It is transcribed phase by phase; each phase is a
    definition and the handler composes them in the order of the source:
    liveness gate, think-interval gate, engagement (aim, crouch, shoot),
    idle gate, travel continuation with stuck detection, and goal
    re-selection with path finding.  The JavaScript object [state] is the
    value stored in the map; the model writes every mutation through
    [state.x = ...] back into the map, which is what the aliasing does. *)

From Stdlib Require Import QArith Qround ZArith List String Lqa Lia.
From stdpp Require Import base gmap.
From S2P Require Import Prelude Host Targeting Aim.
Import ListNotations.
Open Scope Q_scope.
Open Scope bow_scope.

(** ** Constants (bots.ts 6-14) *)

Definition MAX_BOTS : nat := 3.
Definition BOT_LIFETIME_MIN : Q := 200.
Definition BOT_LIFETIME_MAX : Q := 300.
Definition BOT_THINK_INTERVAL : Q := 7#10.
Definition BOT_SHOOT_COOLDOWN : Q := 3.
Definition BOT_STUCK_THRESHOLD : Q := 5.
Definition BOT_PROGRESS_THRESHOLD : Q := 1#10.
Definition BOT_IDLE_DURATION_MIN : Q := 1#2.
Definition BOT_IDLE_DURATION_MAX : Q := 2.

(** ** State (bots.ts 49-65) *)

Record BotState : Type := mkBotState {
  lastThinkTime : Q;
  currentTargetPickup : option EntityId;
  lastShootTime : Q;
  currentPath : list Vec3;
  currentPathStart : Vec3;
  currentPathGoal : Vec3;
  lastDistanceToGoal : ext;
  lastDistanceDecreaseTime : Q;
  idleUntilTime : Q;
  spawnTime : Q;
  leaveTime : Q;
}.

(** The server: the host, the bots' module state and the spawn points of
    respawn.ts, which [maintainBotCount] uses through [spawnPlayer]. *)
Record Server : Type := mkServer {
  sv_host : Host;
  botStates : gmap EntityId BotState;
  botIds : list EntityId;
  lastBotCountCheckTime : Q;
  spawnPositions : list Vec3;
}.

#[export] Instance Server_HasHost : HasHost Server := {
  host_of := sv_host;
  set_host s h := mkServer h (botStates s) (botIds s) (lastBotCountCheckTime s) (spawnPositions s);
}.

#[export] Instance Server_HasHostLaws : HasHostLaws Server.
Proof. constructor. reflexivity. Qed.

Definition with_botStates (s : Server) (m : gmap EntityId BotState) : Server :=
  mkServer (sv_host s) m (botIds s) (lastBotCountCheckTime s) (spawnPositions s).
Definition with_botIds (s : Server) (l : list EntityId) : Server :=
  mkServer (sv_host s) (botStates s) l (lastBotCountCheckTime s) (spawnPositions s).
Definition with_lastCheck (s : Server) (t : Q) : Server :=
  mkServer (sv_host s) (botStates s) (botIds s) t (spawnPositions s).

(** *** The fields [updateBotAI] assigns *)

Definition set_lastThinkTime (t : Q) (b : BotState) : BotState :=
  mkBotState t (currentTargetPickup b) (lastShootTime b) (currentPath b) (currentPathStart b)
    (currentPathGoal b) (lastDistanceToGoal b) (lastDistanceDecreaseTime b) (idleUntilTime b)
    (spawnTime b) (leaveTime b).
Definition set_target (o : option EntityId) (b : BotState) : BotState :=
  mkBotState (lastThinkTime b) o (lastShootTime b) (currentPath b) (currentPathStart b)
    (currentPathGoal b) (lastDistanceToGoal b) (lastDistanceDecreaseTime b) (idleUntilTime b)
    (spawnTime b) (leaveTime b).
Definition set_lastShootTime (t : Q) (b : BotState) : BotState :=
  mkBotState (lastThinkTime b) (currentTargetPickup b) t (currentPath b) (currentPathStart b)
    (currentPathGoal b) (lastDistanceToGoal b) (lastDistanceDecreaseTime b) (idleUntilTime b)
    (spawnTime b) (leaveTime b).
Definition set_path (p : list Vec3) (b : BotState) : BotState :=
  mkBotState (lastThinkTime b) (currentTargetPickup b) (lastShootTime b) p (currentPathStart b)
    (currentPathGoal b) (lastDistanceToGoal b) (lastDistanceDecreaseTime b) (idleUntilTime b)
    (spawnTime b) (leaveTime b).
Definition set_endpoints (st gl : Vec3) (b : BotState) : BotState :=
  mkBotState (lastThinkTime b) (currentTargetPickup b) (lastShootTime b) (currentPath b) st
    gl (lastDistanceToGoal b) (lastDistanceDecreaseTime b) (idleUntilTime b)
    (spawnTime b) (leaveTime b).
Definition set_progress (d : ext) (t : Q) (b : BotState) : BotState :=
  mkBotState (lastThinkTime b) (currentTargetPickup b) (lastShootTime b) (currentPath b)
    (currentPathStart b) (currentPathGoal b) d t (idleUntilTime b)
    (spawnTime b) (leaveTime b).
Definition set_lastDistance (d : ext) (b : BotState) : BotState :=
  set_progress d (lastDistanceDecreaseTime b) b.
Definition set_idleUntilTime (t : Q) (b : BotState) : BotState :=
  mkBotState (lastThinkTime b) (currentTargetPickup b) (lastShootTime b) (currentPath b)
    (currentPathStart b) (currentPathGoal b) (lastDistanceToGoal b) (lastDistanceDecreaseTime b) t
    (spawnTime b) (leaveTime b).

(** ** Primitive operations on the bot map *)

(** [botStates.get(botId)], returning from the handler when absent. *)
Definition need_bot (botId : EntityId) : Act Server BotState :=
  fun s => need (botStates s !! botId) s.

(** [state.f = v]: update the bot's entry in place. *)
Definition bot_modify (botId : EntityId) (f : BotState -> BotState) : Act Server unit :=
  modify (fun s => with_botStates s (alter f botId (botStates s))).

(** JavaScript truthiness of an entity id: [if (id)] is false for id 0. *)
Definition truthy (o : option EntityId) : bool :=
  match o with Some id => negb (Z.eqb id 0) | None => false end.

Section Policy.
Context `{Engine}.

(** *** Lines 174-180: a dead bot forgets its goal and stops. *)
Definition dead_branch (botId : EntityId) : Act Server unit :=
  bot_modify botId (set_target None) ;;
  emit (ClearMoveTarget botId) ;;
  emit (ClearLookAtTarget botId) ;;
  leave.

(** *** Lines 246-276: the shot, when the cooldown has passed. *)
Definition try_shoot (botId : EntityId) (t draw : Q) : Act Server unit :=
  st <- need_bot botId ;;
  when (Qle_bool BOT_SHOOT_COOLDOWN (t - lastShootTime st))
    (h <- host ;;
     match getPlayer h botId with
     | Some p =>
       when (Z.ltb 0 (arrowCount p))
         (match getCharacterViewRay h botId with
          | Some viewRay =>
            r <- random ;;
            let netId := js_floor (r * inject_Z 2147483647) in
            emit (SendToAll (ArrowCommand viewRay draw botId netId)) ;;
            setPlayer botId (set_arrowCount p (arrowCount p - 1)) ;;
            bot_modify botId (set_lastShootTime t) ;;
            r' <- random ;;
            when (Qltb r' (3#10))
              (r'' <- random ;;
               let idleDuration :=
                 r'' * (BOT_IDLE_DURATION_MAX - BOT_IDLE_DURATION_MIN) + BOT_IDLE_DURATION_MIN in
               bot_modify botId (set_idleUntilTime (t + idleDuration)))
          | None => ret tt
          end)
     | None => ret tt
     end).

(** [raycastResult.hitEntityId === nearestEnemy]. *)
Definition hits (rc : RaycastResult) (enemy : EntityId) : bool :=
  match hitEntityId rc with Some i => Z.eqb i enemy | None => false end.

(** *** Lines 191-280: an enemy was found. *)
Definition engage_enemy (botId enemy : EntityId) (botPos : Vec3) (t : Q) : Act Server unit :=
  h <- host ;;
  match getCharacterViewRay h enemy with
  | None => ret tt
  | Some enemyViewRay =>
    let enemyViewPos := origin enemyViewRay in
    let dist := distance botPos enemyViewPos in
    viewRay <- need (getCharacterViewRay h botId) ;;
    let directionToEnemy := normalize (vsub enemyViewPos (origin viewRay)) in
    let rayStart := vadd (origin viewRay) (vscale directionToEnemy 2) in
    let raycastResult := raycast (ents h) rayStart directionToEnemy 200 in
    let hasLineOfSight := negb (hit raycastResult) || hits raycastResult enemy in
    r1 <- random ;;
    let randomOffset := aim_offset r1 in
    r2 <- random ;;
    let draw := draw_of r2 in
    emit (SetLookAtTarget botId (aimTarget enemyViewPos dist draw randomOffset)) ;;
    r3 <- random ;;
    emit (SetCrouching botId (Qltb r3 (1#5))) ;;
    if hasLineOfSight then try_shoot botId t draw
    else emit (SetCrouching botId false)
  end.

(** *** Lines 188-283: engagement. *)
Definition engage (botId : EntityId) (botPos : Vec3) (t : Q) : Act Server unit :=
  h <- host ;;
  let nearestEnemy := findNearestEnemy h botId in
  match nearestEnemy with
  | Some enemy => if truthy nearestEnemy then engage_enemy botId enemy botPos t
                  else emit (SetCrouching botId false)
  | None => emit (SetCrouching botId false)
  end.

(** *** Lines 285-289: an idle bot does not move. *)
Definition idle_gate (botId : EntityId) (t : Q) : Act Server unit :=
  st <- need_bot botId ;;
  if Qltb t (idleUntilTime st) then emit (ClearMoveTarget botId) ;; leave
  else ret tt.

(** *** Lines 291-313: following a committed pickup, with stuck detection. *)
Definition travel_continue (botId : EntityId) (botPos : Vec3) (t : Q) : Act Server unit :=
  st <- need_bot botId ;;
  match currentTargetPickup st with
  | None => ret tt
  | Some target =>
    h <- host ;;
    match getEntityPosition h target with
    | None => bot_modify botId (fun b => set_lastDistance Infinity (set_path [] (set_target None b)))
    | Some targetPos =>
      let currentDistance := distance botPos targetPos in
      when (ext_ltb (Fin currentDistance) (ext_sub (lastDistanceToGoal st) BOT_PROGRESS_THRESHOLD))
        (bot_modify botId (set_progress (Fin currentDistance) t)) ;;
      st' <- need_bot botId ;;
      if Qltb (t - lastDistanceDecreaseTime st') BOT_STUCK_THRESHOLD then leave
      else bot_modify botId (set_progress Infinity t)
    end
  end.

(** Lines 333-342: the path query's cells. *)
Definition pathStart_of (botPos : Vec3) : Vec3 :=
  vec3 (inject_Z (js_round (vx botPos - (1#2)))) (inject_Z (js_round (vy botPos)))
       (inject_Z (js_round (vz botPos - (1#2)))).
Definition pathGoal_of (pickupPos : Vec3) : Vec3 :=
  vec3 (inject_Z (js_round (vx pickupPos - (1#2)))) (inject_Z (js_floor (vy pickupPos - 1)))
       (inject_Z (js_round (vz pickupPos - (1#2)))).

(** Lines 352-356: cell centre and a small lift. *)
Definition adjust_waypoint (w : Vec3) : Vec3 :=
  vec3 (vx w + (1#2)) (vy w + (1#5)) (vz w + (1#2)).

(** [playerTrait && playerTrait.arrowCount === 3]. *)
Definition hasMaxArrows (h : Host) (botId : EntityId) : bool :=
  match getPlayer h botId with Some p => Z.eqb (arrowCount p) 3 | None => false end.

(** *** Lines 315-369: choosing a pickup and a path to it. *)
Definition reselect (botId : EntityId) (botPos : Vec3) (t : Q) : Act Server unit :=
  h <- host ;;
  targetPickup <- (if hasMaxArrows h botId then findRandomPickup
                   else ret (findNearestPickup h botId)) ;;
  match targetPickup with
  | Some target =>
    if truthy targetPickup then
      h <- host ;;
      pickupPos <- need (getEntityPosition h target) ;;
      let pathStart := pathStart_of botPos in
      let pathGoal := pathGoal_of pickupPos in
      let pathResult := findPath pathStart pathGoal 1000 in
      if negb (success pathResult) || Nat.eqb (length (path pathResult)) 0 then
        bot_modify botId (fun b => set_endpoints pathStart pathGoal (set_path [] b)) ;;
        leave
      else
        let adjustedPath := map adjust_waypoint (path pathResult) in
        bot_modify botId (fun b =>
          set_progress (Fin (distance botPos pickupPos)) t
            (set_endpoints pathStart pathGoal (set_path adjustedPath (set_target (Some target) b)))) ;;
        h <- host ;;
        when (negb (truthy (findNearestEnemy h botId)))
          (emit (SetLookAtTarget botId pickupPos)) ;;
        emit (SetMoveTarget botId adjustedPath)
    else
      emit (ClearMoveTarget botId) ;; emit (ClearLookAtTarget botId) ;;
      bot_modify botId (set_path []) ;; leave
  | None =>
    emit (ClearMoveTarget botId) ;; emit (ClearLookAtTarget botId) ;;
    bot_modify botId (set_path []) ;; leave
  end.

(** *** Lines 170-370: the handler. *)
Definition updateBotAI (botId : EntityId) (t : Q) : Act Server unit :=
  call (
    st <- need_bot botId ;;
    h <- host ;;
    if negb (getCharacterAlive h botId) then dead_branch botId else
    botPos <- need (getEntityPosition h botId) ;;
    if Qltb (t - lastThinkTime st) BOT_THINK_INTERVAL then leave else
    bot_modify botId (set_lastThinkTime t) ;;
    engage botId botPos t ;;
    idle_gate botId t ;;
    travel_continue botId botPos t ;;
    reselect botId botPos t).
End Policy.

(** ** Shots: which phases may fire, and under which conditions

    [Quiet botId s s']: from [s] to [s'] no arrow was broadcast, the bot's
    [lastShootTime] and its player trait are unchanged, and the host log
    only grew.  Every phase of [updateBotAI] but the shot is quiet. *)

Section Shots.
Context `{Engine}.
Variable botId : EntityId.

Definition shoot_time (s : Server) : option Q := lastShootTime <$> botStates s !! botId.

Definition Quiet (s s' : Server) : Prop :=
  shoot_time s' = shoot_time s /\
  getPlayer (sv_host s') botId = getPlayer (sv_host s) botId /\
  exists new, log (sv_host s') = log (sv_host s) ++ new /\ arrow_sends new = 0%nat.

Lemma Quiet_refl s : Quiet s s.
Proof.
  split; [reflexivity|]. split; [reflexivity|].
  exists []. rewrite app_nil_r. split; reflexivity.
Qed.

Lemma Quiet_emit c : is_arrow_send c = false -> Rel Quiet (emit c).
Proof.
  intros Hc s. split; [reflexivity|]. split; [reflexivity|].
  exists [c]. split; [reflexivity|]. unfold arrow_sends. simpl. rewrite Hc. reflexivity.
Qed.

Lemma Quiet_random : Rel Quiet random.
Proof.
  intros s. split; [reflexivity|]. split; [reflexivity|].
  exists []. rewrite app_nil_r. split; reflexivity.
Qed.

Lemma Quiet_host : Rel Quiet host.
Proof. intros s. apply Quiet_refl. Qed.

Lemma Quiet_need {A} (o : option A) : Rel Quiet (need o).
Proof. intros s. unfold exec, need. destruct o; apply Quiet_refl. Qed.

Lemma Quiet_need_bot id : Rel Quiet (need_bot id).
Proof. intros s. unfold exec, need_bot, need. destruct (botStates s !! id); apply Quiet_refl. Qed.

Lemma Quiet_bot_modify id f :
  (forall b, lastShootTime (f b) = lastShootTime b) -> Rel Quiet (bot_modify id f).
Proof.
  intros Hf s. split; [|split; [reflexivity|]].
  - unfold shoot_time. simpl. rewrite lookup_alter. case_decide; [subst|reflexivity].
    destruct (botStates s !! botId); simpl; [rewrite Hf|]; reflexivity.
  - exists []. rewrite app_nil_r. split; reflexivity.
Qed.
End Shots.

#[export] Instance Quiet_preorder botId : PreOrder (Quiet botId).
  Proof.
    split.
    - intros s. apply Quiet_refl.
    - intros s1 s2 s3 (T1 & P1 & n1 & L1 & A1) (T2 & P2 & n2 & L2 & A2).
      split; [congruence|]. split; [congruence|].
      exists (n1 ++ n2). rewrite L2, L1, app_assoc, arrow_sends_app, A1, A2. split; reflexivity.
  Qed.


#[export] Hint Resolve Quiet_host Quiet_random Quiet_need_bot Quiet_need : bow.

(** [quiet] proves that a computation is [Quiet]: it walks the binds, splits
    on the conditions and closes the primitive steps. *)
Ltac quiet :=
  repeat (cbv beta zeta;
    first [ apply Quiet_emit; reflexivity
          | apply Quiet_bot_modify; intros; reflexivity
          | solve [eauto with bow]
          | rel_step
          | progress case_match ]).

Section PhasesQuiet.
Context `{Engine}.
Variable botId : EntityId.

Lemma findRandomPickup_quiet : Rel (Quiet botId) findRandomPickup.
Proof. unfold findRandomPickup. quiet. Qed.
Hint Resolve findRandomPickup_quiet : bow.

Lemma dead_branch_quiet id : Rel (Quiet botId) (dead_branch id).
Proof. unfold dead_branch. quiet. Qed.

Lemma idle_gate_quiet id t : Rel (Quiet botId) (idle_gate id t).
Proof. unfold idle_gate. quiet. Qed.

Lemma travel_continue_quiet id pos t : Rel (Quiet botId) (travel_continue id pos t).
Proof. unfold travel_continue. quiet. Qed.

Lemma reselect_quiet id pos t : Rel (Quiet botId) (reselect id pos t).
Proof. unfold reselect. quiet. Qed.
End PhasesQuiet.

(** [Fired botId t s s']: between [s] and [s'] the bot fired exactly one
    arrow; the cooldown had passed, it had an arrow, it now has one fewer
    and its [lastShootTime] is [t]. *)
Section Fire.
Context `{Engine}.
Variable botId : EntityId.
Variable t : Q.

Definition Fired (s s' : Server) : Prop :=
  exists lt p new,
    shoot_time botId s = Some lt /\ BOT_SHOOT_COOLDOWN <= t - lt /\
    getPlayer (sv_host s) botId = Some p /\ (0 < arrowCount p)%Z /\
    shoot_time botId s' = Some t /\
    getPlayer (sv_host s') botId = Some (set_arrowCount p (arrowCount p - 1)) /\
    log (sv_host s') = log (sv_host s) ++ new /\ arrow_sends new = 1%nat.

Definition ShotRel (s s' : Server) : Prop := Quiet botId s s' \/ Fired s s'.

Lemma Quiet_Fired s1 s2 s3 : Quiet botId s1 s2 -> Fired s2 s3 -> Fired s1 s3.
Proof.
  intros (T & P & n1 & L1 & A1) (lt & p & n2 & Hl & Hc & Hp & Ha & Ht & Hp' & L2 & A2).
  rewrite T in Hl. rewrite P in Hp.
  exists lt, p, (n1 ++ n2). repeat split; auto.
  rewrite L2, L1, app_assoc. reflexivity.
  rewrite arrow_sends_app, A1, A2. reflexivity.
Qed.

Lemma Fired_Quiet s1 s2 s3 : Fired s1 s2 -> Quiet botId s2 s3 -> Fired s1 s3.
Proof.
  intros (lt & p & n1 & Hl & Hc & Hp & Ha & Ht & Hp' & L1 & A1) (T & P & n2 & L2 & A2).
  exists lt, p, (n1 ++ n2). rewrite T, P. repeat split; auto.
  rewrite L2, L1, app_assoc. reflexivity.
  rewrite arrow_sends_app, A1, A2. reflexivity.
Qed.

Lemma ShotRel_refl s : ShotRel s s.
Proof. left. apply Quiet_refl. Qed.

(** Quiet, then possibly a shot, then quiet: possibly a shot. *)
Lemma Rel_quiet_then_shot {A B} (m : Act Server A) (k : A -> Act Server B) :
  Rel (Quiet botId) m -> (forall a, Rel ShotRel (k a)) -> Rel ShotRel (bind m k).
Proof.
  intros Hm Hk. eapply Rel_bind; [exact Hm | exact Hk | intros; left; assumption |].
  intros s1 s2 s3 H1 [H2 | H2]; [left; etransitivity; eassumption | right; eapply Quiet_Fired; eassumption].
Qed.

Lemma Rel_quiet_shot {A} (m : Act Server A) : Rel (Quiet botId) m -> Rel ShotRel m.
Proof. apply Rel_weaken. intros s s' Hq. left. exact Hq. Qed.

Lemma Rel_shot_then_quiet {A B} (m : Act Server A) (k : A -> Act Server B) :
  Rel ShotRel m -> (forall a, Rel (Quiet botId) (k a)) -> Rel ShotRel (bind m k).
Proof.
  intros Hm Hk. eapply Rel_bind; [exact Hm | exact Hk | auto |].
  intros s1 s2 s3 [H1 | H1] H2; [left; etransitivity; eassumption | right; eapply Fired_Quiet; eassumption].
Qed.

Lemma try_shoot_shot draw : Rel ShotRel (try_shoot botId t draw).
Proof.
  intros s. unfold try_shoot.
  destruct (botStates s !! botId) as [st|] eqn:Est;
    [|rewrite (exec_bind_none _ _ s s); [apply ShotRel_refl | unfold need_bot, need; rewrite Est; reflexivity]].
  rewrite (exec_bind_some _ _ s s st); [|unfold need_bot, need; rewrite Est; reflexivity].
  unfold when at 1. destruct (Qle_bool _ _) eqn:Ecd; [|apply ShotRel_refl].
  rewrite (exec_bind_some _ _ s s (host_of s)); [|reflexivity]. simpl host_of.
  destruct (getPlayer (sv_host s) botId) as [p|] eqn:Ep; [|apply ShotRel_refl].
  unfold when at 1. destruct (Z.ltb_spec 0 (arrowCount p)) as [Ha|Ha]; [|apply ShotRel_refl].
  destruct (getCharacterViewRay (sv_host s) botId) as [vr|] eqn:Ev; [|apply ShotRel_refl].
  do 4 (erewrite exec_bind_some; [|reflexivity]).
  match goal with |- ShotRel s (exec ?m ?s4) =>
    assert (Hq : Rel (Quiet botId) m) by quiet;
    right; apply (Fired_Quiet s s4); [|apply Hq] end.
  destruct (lookup_ent (ents (sv_host s)) botId) as [e|] eqn:Ee;
    [|unfold getPlayer in Ep; rewrite Ee in Ep; discriminate].
  eexists (lastShootTime st), p, _. unfold shoot_time. simpl.
  rewrite Est, lookup_alter, decide_True, Est by reflexivity. qbool.
  split; [reflexivity|]. split; [exact Ecd|]. split; [exact Ep|]. split; [exact Ha|].
  split; [reflexivity|]. split; [exact (getPlayer_update_player _ _ _ _ _ Ee)|].
  split; reflexivity.
Qed.
End Fire.

Ltac quiet_solve := solve [quiet].

(** [shot] proves [Rel ShotRel] for a computation whose only shot is a
    [try_shoot] in tail position. *)
Ltac shot :=
  repeat (cbv beta zeta;
    first [ apply try_shoot_shot
          | apply Rel_quiet_then_shot; [quiet_solve | intros ?]
          | apply Rel_quiet_shot; quiet_solve
          | progress case_match ]).

Section HandlerShots.
Context `{Engine}.

Lemma engage_shot botId botPos t : Rel (ShotRel botId t) (engage botId botPos t).
Proof. unfold engage, engage_enemy. shot. Qed.

(** One think cycle fires at most one arrow, and only with the cooldown
    passed and an arrow in the quiver. *)
Lemma updateBotAI_rel botId t : Rel (ShotRel botId t) (updateBotAI botId t).
Proof.
  unfold updateBotAI. apply Rel_call.
  apply Rel_quiet_then_shot; [quiet_solve | intros st].
  apply Rel_quiet_then_shot; [quiet_solve | intros h].
  destruct (negb _); [apply Rel_quiet_shot; apply dead_branch_quiet|].
  apply Rel_quiet_then_shot; [quiet_solve | intros pos].
  destruct (Qltb _ _); [apply Rel_quiet_shot; quiet_solve|].
  apply Rel_quiet_then_shot; [quiet_solve | intros []].
  apply Rel_shot_then_quiet; [apply engage_shot | intros []].
  apply Rel_seq; [exact _ | apply idle_gate_quiet | intros []].
  apply Rel_seq; [exact _ | apply travel_continue_quiet | intros []].
  apply reselect_quiet.
Qed.
End HandlerShots.

(** ** The think cycle *)

Section Cycle.
Context `{Engine}.

(** The host after appending calls to the log. *)
Definition log_more (h : Host) (l : list HostCall) : Host :=
  mkHost (ents h) (clock h) (draws h) (next_id h) (log h ++ l).

Lemma alter_some {V} (f : V -> V) (i : EntityId) (m : gmap EntityId V) v :
  m !! i = Some v -> alter f i m = <[i := f v]> m.
Proof.
  intros E. apply map_eq. intros j. rewrite lookup_alter, lookup_insert.
  case_decide; [subst; rewrite E|]; reflexivity.
Qed.

(** (C2) A dead bot forgets its pickup goal and has its move and look-at
    targets cleared, in that order; nothing else changes: it draws no
    random value, fires nothing, moves no entity. *)
Theorem updateBotAI_dead s botId t st :
  botStates s !! botId = Some st -> getCharacterAlive (sv_host s) botId = false ->
  exec (updateBotAI botId t) s =
  mkServer (log_more (sv_host s) [ClearMoveTarget botId; ClearLookAtTarget botId])
           (<[botId := set_target None st]> (botStates s))
           (botIds s) (lastBotCountCheckTime s) (spawnPositions s).
Proof.
  intros Est Ha. unfold updateBotAI, exec, call, bind, need_bot, need, host. simpl.
  rewrite Est. simpl. rewrite Ha. simpl.
  unfold log_more. rewrite <- app_assoc, (alter_some _ _ _ st Est). reflexivity.
Qed.

(** (C3) Within the think interval a living bot with a position does
    nothing at all. *)
Theorem updateBotAI_think_gate s botId t st pos :
  botStates s !! botId = Some st -> getCharacterAlive (sv_host s) botId = true ->
  getEntityPosition (sv_host s) botId = Some pos ->
  t - lastThinkTime st < BOT_THINK_INTERVAL ->
  exec (updateBotAI botId t) s = s.
Proof.
  intros Est Ha Hp Hlt. apply Qltb_iff in Hlt.
  unfold updateBotAI, exec, call, bind, need_bot, need, host. simpl.
  rewrite Est. simpl. rewrite Ha, Hp. simpl. rewrite Hlt. reflexivity.
Qed.

(** (C1) One think cycle fires at most one arrow.  When it fires, the
    cooldown of 3 s had passed since the bot's last shot, the bot had an
    arrow, it now has exactly one fewer, and its last shot time is [t];
    when it does not fire, neither changes. *)
Theorem updateBotAI_fires_at_most_once s botId t :
  let s' := exec (updateBotAI botId t) s in
  exists new, log (sv_host s') = log (sv_host s) ++ new /\
  ((arrow_sends new = 0%nat /\ shoot_time botId s' = shoot_time botId s /\
    getPlayer (sv_host s') botId = getPlayer (sv_host s) botId) \/
   (arrow_sends new = 1%nat /\
    exists lt p, shoot_time botId s = Some lt /\ BOT_SHOOT_COOLDOWN <= t - lt /\
      getPlayer (sv_host s) botId = Some p /\ (0 < arrowCount p)%Z /\
      shoot_time botId s' = Some t /\
      getPlayer (sv_host s') botId = Some (set_arrowCount p (arrowCount p - 1)))).
Proof.
  simpl. destruct (updateBotAI_rel botId t s) as [(T & P & n & L & A) | (lt & p & n & Hl & Hc & Hp & Ha & Ht & Hp' & L & A)].
  - exists n. split; [exact L|]. left. repeat split; assumption.
  - exists n. split; [exact L|]. right. split; [exact A|]. exists lt, p. repeat split; assumption.
Qed.

(** A bot without arrows never fires, whatever the cooldown and the
    line of sight, and its arrow count does not change. *)
Theorem updateBotAI_no_arrows_no_shot s botId t p :
  getPlayer (sv_host s) botId = Some p -> (arrowCount p <= 0)%Z ->
  let s' := exec (updateBotAI botId t) s in
  exists new, log (sv_host s') = log (sv_host s) ++ new /\ arrow_sends new = 0%nat /\
  getPlayer (sv_host s') botId = Some p.
Proof.
  intros Hp Ha. simpl.
  destruct (updateBotAI_rel botId t s) as [(T & P & n & L & A) | (lt & p' & n & Hl & Hc & Hp' & Ha' & _)].
  - exists n. rewrite P. repeat split; assumption.
  - rewrite Hp in Hp'. injection Hp' as <-. lia.
Qed.
End Cycle.

(** ** Stuck detection (lines 291-313) *)

Section Travel.
Context `{Engine}.

Lemma travel_continue_unfold s botId botPos t st target :
  botStates s !! botId = Some st -> currentTargetPickup st = Some target ->
  travel_continue botId botPos t s =
  match getEntityPosition (sv_host s) target with
  | None => bot_modify botId (fun b => set_lastDistance Infinity (set_path [] (set_target None b))) s
  | Some targetPos =>
    (when (ext_ltb (Fin (distance botPos targetPos))
                   (ext_sub (lastDistanceToGoal st) BOT_PROGRESS_THRESHOLD))
       (bot_modify botId (set_progress (Fin (distance botPos targetPos)) t)) ;;
     st' <- need_bot botId ;;
     if Qltb (t - lastDistanceDecreaseTime st') BOT_STUCK_THRESHOLD then leave
     else bot_modify botId (set_progress Infinity t)) s
  end.
Proof.
  intros Est Et. unfold travel_continue, bind at 1, need_bot at 1, need. rewrite Est.
  cbn beta iota. rewrite Et. unfold bind at 1, host. simpl.
  destruct (getEntityPosition (sv_host s) target); reflexivity.
Qed.

(** (C4) A bot whose distance to its committed pickup has not improved by
    more than 0.1 for 5 s abandons the goal: the distance tracking is reset
    and the handler falls through to choosing a new goal. *)
Theorem travel_continue_abandons_when_stuck s botId botPos t st target tpos :
  botStates s !! botId = Some st -> currentTargetPickup st = Some target ->
  getEntityPosition (sv_host s) target = Some tpos ->
  ext_ltb (Fin (distance botPos tpos)) (ext_sub (lastDistanceToGoal st) BOT_PROGRESS_THRESHOLD) = false ->
  BOT_STUCK_THRESHOLD <= t - lastDistanceDecreaseTime st ->
  travel_continue botId botPos t s =
  (with_botStates s (<[botId := set_progress Infinity t st]> (botStates s)), Some tt).
Proof.
  intros Est Et Hp Hno Hstuck. rewrite (travel_continue_unfold _ _ _ _ _ _ Est Et), Hp.
  unfold bind, when, ret, need_bot, need. rewrite Hno, Est.
  apply Qltb_false_iff in Hstuck. rewrite Hstuck.
  unfold bot_modify, modify. rewrite (alter_some _ _ _ st Est). reflexivity.
Qed.

(** While the bot makes progress (its distance improved by more than
    0.1), it records the new distance and time and keeps following its
    path: the handler returns without a new path query. *)
Theorem travel_continue_keeps_goal_on_progress s botId botPos t st target tpos :
  botStates s !! botId = Some st -> currentTargetPickup st = Some target ->
  getEntityPosition (sv_host s) target = Some tpos ->
  ext_ltb (Fin (distance botPos tpos)) (ext_sub (lastDistanceToGoal st) BOT_PROGRESS_THRESHOLD) = true ->
  travel_continue botId botPos t s =
  (with_botStates s (<[botId := set_progress (Fin (distance botPos tpos)) t st]> (botStates s)), None).
Proof.
  intros Est Et Hp Hyes. rewrite (travel_continue_unfold _ _ _ _ _ _ Est Et), Hp.
  unfold bind, when, need_bot, need, bot_modify, modify. rewrite Hyes. simpl.
  rewrite lookup_alter, decide_True, Est by reflexivity. simpl.
  assert (Hz : Qltb (t - t) BOT_STUCK_THRESHOLD = true) by (apply Qltb_iff; unfold BOT_STUCK_THRESHOLD; lra).
  rewrite Hz. unfold leave. rewrite (alter_some _ _ _ st Est). reflexivity.
Qed.

(** A committed pickup that no longer exists is forgotten: target,
    path and distance tracking are cleared and a new goal is chosen in the
    same cycle. *)
Theorem travel_continue_drops_vanished_target s botId botPos t st target :
  botStates s !! botId = Some st -> currentTargetPickup st = Some target ->
  getEntityPosition (sv_host s) target = None ->
  travel_continue botId botPos t s =
  (with_botStates s (<[botId := set_lastDistance Infinity (set_path [] (set_target None st))]> (botStates s)),
   Some tt).
Proof.
  intros Est Et Hp. rewrite (travel_continue_unfold _ _ _ _ _ _ Est Et), Hp.
  unfold bot_modify, modify. rewrite (alter_some _ _ _ st Est). reflexivity.
Qed.
End Travel.

(** ** Examples *)

Definition demo_player (arrows : Z) : PlayerTrait := mkPlayer 0 0 0 arrows 3 0 "Legolas"%string 0.
Definition demo_ray (p : Vec3) : Ray := mkRay p (vec3 1 0 0).
Definition demo_bot_entity (alive : bool) (arrows : Z) : Entity :=
  mkEntity (Some vzero) alive (Some (demo_ray (vec3 0 2 0))) (Some (demo_player arrows)) false None false None None None.
Definition demo_enemy : Entity :=
  mkEntity (Some (vec3 100 0 0)) true (Some (demo_ray (vec3 100 2 0))) (Some (demo_player 3))
           false None false (Some "human"%string) None None.
Definition demo_pickup : Entity := mkEntity (Some (vec3 5 1 5)) true None None true None false None None None.
Definition demo_bot_state : BotState := mkBotState 0 None 0 [] vzero vzero Infinity 0 0 0 250.

(** Bot 1 with [arrows] arrows, an enemy (2) 100 units away, a pickup (3). *)
Definition demo_server (alive : bool) (arrows : Z) : Server :=
  mkServer (mkHost [(1%Z, demo_bot_entity alive arrows); (2%Z, demo_enemy); (3%Z, demo_pickup)] 10 0 4 [])
           (<[1%Z := demo_bot_state]> ∅) [1%Z] 0 [].

#[local] Instance demo_bots_engine : Engine := demo_engine [1#2; 1#2; 1#2; 1#10; 1#2; 1#2; 1#2].

Lemma updateBotAI_dead_witness :
  botStates (demo_server false 3) !! 1%Z = Some demo_bot_state /\
  getCharacterAlive (sv_host (demo_server false 3)) 1 = false /\
  exec (updateBotAI 1 10) (demo_server false 3) =
  mkServer (log_more (sv_host (demo_server false 3)) [ClearMoveTarget 1; ClearLookAtTarget 1])
           (<[1%Z := set_target None demo_bot_state]> (botStates (demo_server false 3)))
           [1%Z] 0 [].
Proof.
  split; [reflexivity|]. split; [reflexivity|].
  apply (updateBotAI_dead (demo_server false 3) 1 10 demo_bot_state); reflexivity.
Defined.

Lemma updateBotAI_think_gate_witness :
  exec (updateBotAI 1 (1#2)) (demo_server true 3) = demo_server true 3.
Proof.
  apply (updateBotAI_think_gate (demo_server true 3) 1 (1#2) demo_bot_state vzero);
    [reflexivity | reflexivity | reflexivity | unfold BOT_THINK_INTERVAL; simpl; reflexivity].
Defined.

Lemma updateBotAI_no_arrows_no_shot_witness :
  let s' := exec (updateBotAI 1 10) (demo_server true 0) in
  exists new, log (sv_host s') = log (sv_host (demo_server true 0)) ++ new /\
    arrow_sends new = 0%nat /\ getPlayer (sv_host s') 1 = Some (demo_player 0).
Proof.
  apply (updateBotAI_no_arrows_no_shot (demo_server true 0) 1 10 (demo_player 0));
    [reflexivity | simpl; lia].
Defined.

Definition demo_travel_state (target : EntityId) (last : ext) : BotState :=
  mkBotState 0 (Some target) 0 [vec3 5 1 5] vzero vzero last 0 0 0 250.
Definition demo_travel_server (st : BotState) : Server :=
  mkServer (sv_host (demo_server true 3)) (<[1%Z := st]> ∅) [1%Z] 0 [].

Lemma travel_continue_abandons_when_stuck_witness :
  let st := demo_travel_state 3 (Fin 11) in
  travel_continue 1 vzero 10 (demo_travel_server st) =
  (with_botStates (demo_travel_server st)
     (<[1%Z := set_progress Infinity 10 st]> (botStates (demo_travel_server st))), Some tt).
Proof.
  apply (travel_continue_abandons_when_stuck _ 1 vzero 10 _ 3 (vec3 5 1 5));
    try reflexivity. unfold BOT_STUCK_THRESHOLD. simpl. lra.
Defined.

Lemma travel_continue_keeps_goal_on_progress_witness :
  let st := demo_travel_state 3 (Fin 20) in
  travel_continue 1 vzero 10 (demo_travel_server st) =
  (with_botStates (demo_travel_server st)
     (<[1%Z := set_progress (Fin (distance vzero (vec3 5 1 5))) 10 st]>
        (botStates (demo_travel_server st))), None).
Proof.
  apply (travel_continue_keeps_goal_on_progress _ 1 vzero 10 _ 3 (vec3 5 1 5)); reflexivity.
Defined.

Lemma travel_continue_drops_vanished_target_witness :
  let st := demo_travel_state 9 (Fin 20) in
  travel_continue 1 vzero 10 (demo_travel_server st) =
  (with_botStates (demo_travel_server st)
     (<[1%Z := set_lastDistance Infinity (set_path [] (set_target None st))]>
        (botStates (demo_travel_server st))), Some tt).
Proof.
  apply (travel_continue_drops_vanished_target _ 1 vzero 10 _ 9); reflexivity.
Defined.

(** ** What a think cycle leaves alone

    [Frame s s']: the roster is the same ([botIds], which bots have a state,
    their leave times), and so are the host's id allocator and clock and the
    spawn points.  Every host operation and every phase of [updateBotAI]
    keeps it. *)

Definition Frame (s s' : Server) : Prop :=
  botIds s' = botIds s /\
  (forall id, is_Some (botStates s' !! id) <-> is_Some (botStates s !! id)) /\
  (forall id st', botStates s' !! id = Some st' ->
     exists st, botStates s !! id = Some st /\ leaveTime st' = leaveTime st) /\
  next_id (sv_host s') = next_id (sv_host s) /\ clock (sv_host s') = clock (sv_host s) /\
  spawnPositions s' = spawnPositions s.

Lemma Frame_refl s : Frame s s.
Proof. repeat split; eauto. Qed.

#[export] Instance Frame_preorder : PreOrder Frame.
Proof.
  split; [intros s; apply Frame_refl|].
  intros s1 s2 s3 (I1 & D1 & L1 & N1 & C1 & P1) (I2 & D2 & L2 & N2 & C2 & P2).
  split; [congruence|]. split; [intros id; rewrite D2, D1; reflexivity|].
  split; [|repeat split; congruence].
  intros id st3 E3. destruct (L2 _ _ E3) as (st2 & E2 & Hl2). destruct (L1 _ _ E2) as (st1 & E1 & Hl1).
  exists st1. split; [exact E1 | congruence].
Qed.

(** An operation that only changes the host's entities, draws and log. *)
Lemma Frame_host_only s h' :
  next_id h' = next_id (sv_host s) -> clock h' = clock (sv_host s) -> Frame s (set_host s h').
Proof. intros N C. repeat split; eauto. Qed.

Section FrameOps.
Context `{Engine}.

Lemma Frame_emit c : Rel Frame (emit c).
Proof. intros s. apply Frame_host_only; reflexivity. Qed.
Lemma Frame_random : Rel Frame random.
Proof. intros s. apply Frame_host_only; reflexivity. Qed.
Lemma Frame_setPlayer id p : Rel Frame (setPlayer id p).
Proof. intros s. apply Frame_host_only; reflexivity. Qed.
Lemma Frame_setAlive id b : Rel Frame (setAlive id b).
Proof. intros s. apply Frame_host_only; reflexivity. Qed.
Lemma Frame_setEntityPosition id p : Rel Frame (setEntityPosition id p).
Proof.
  intros s. unfold setEntityPosition. unfold_host_ops. unfold exec, bind.
  destruct p; repeat split; simpl; eauto.
Qed.
Lemma Frame_host : Rel Frame host.
Proof. intros s. apply Frame_refl. Qed.
Lemma Frame_get : Rel Frame get.
Proof. intros s. apply Frame_refl. Qed.
Lemma Frame_need {A} (o : option A) : Rel Frame (need o).
Proof. intros s. unfold exec, need. destruct o; apply Frame_refl. Qed.
Lemma Frame_need_bot id : Rel Frame (need_bot id).
Proof. intros s. unfold exec, need_bot, need. destruct (botStates s !! id); apply Frame_refl. Qed.

Lemma Frame_bot_modify id f :
  (forall b, leaveTime (f b) = leaveTime b) -> Rel Frame (bot_modify id f).
Proof.
  intros Hf s. unfold exec, bot_modify, modify, with_botStates.
  simpl fst. simpl botStates. simpl botIds. simpl sv_host. simpl spawnPositions.
  split; [reflexivity|]. split; [|split; [|repeat split]].
  - intros j. simpl. rewrite lookup_alter. case_decide; [subst|reflexivity].
    destruct (botStates s !! j); simpl; split; intros; eauto; inversion H1; discriminate.
  - intros j st' E. simpl in E. rewrite lookup_alter in E. case_decide; [subst|eauto].
    destruct (botStates s !! j) as [st|]; simpl in E; [|discriminate].
    injection E as <-. exists st. split; [reflexivity | apply Hf].
Qed.
End FrameOps.

#[export] Hint Resolve Frame_emit Frame_random Frame_setPlayer Frame_setAlive
  Frame_setEntityPosition Frame_host Frame_get Frame_need Frame_need_bot : bow.

(** [framed] proves [Rel Frame] of a computation built from the operations
    above. *)
Ltac framed :=
  repeat (cbv beta zeta;
    first [ apply Frame_bot_modify; intros; reflexivity
          | solve [eauto with bow]
          | rel_step
          | progress case_match ]).

Section FrameCycle.
Context `{Engine}.

Lemma updateBotAI_frame botId t : Rel Frame (updateBotAI botId t).
Proof.
  unfold updateBotAI, dead_branch, engage, engage_enemy, try_shoot, idle_gate,
    travel_continue, reselect, findRandomPickup.
  framed.
Qed.
End FrameCycle.
