(* ===== verification/Roster.v ===== *)
(** * Roster lifecycle (server/bots.ts: createBot, removeBot,
      maintainBotCount and the game-tick handler)

    Once a second of game time the server removes the bots whose lifetime
    has run out and spawns new ones until there are [MAX_BOTS]; every tick
    it runs [updateBotAI] for every bot.  [botIds] is a JavaScript [Set]:
    a list without duplicates in insertion order, with [Set.add] and
    [Set.delete] written out.  Deleting the element being visited while a
    [for ... of] loop iterates over a [Set] does not disturb the iteration,
    so the removal loop iterates over the set as it was when the loop
    started. *)

From Stdlib Require Import QArith ZArith List String Lqa Lia.
From stdpp Require Import base gmap.
From S2P Require Import Prelude Host Respawn Bots.
Import ListNotations.
Open Scope Q_scope.
Open Scope bow_scope.

(** Lines 16-37. *)
Definition BOT_NAMES : list string :=
  ["Arrow Dodger"; "Arcs Daddy"; "Bullseye Bobby"; "Captain Quiver"; "The Fletcher";
   "Arrow McArrowface"; "Sharpshooter Steve"; "Legolas"; "Quiver Kid"; "Sniper Elf";
   "Straight Shooter"; "Pointy Boi"; "Bowboy 420"; "Arc"; "Mid Madonna"; "Based Bowman";
   "Delulu Dan"; "OP Bow Enjoyer"; "Arrow Diff"; "Skitz's Future"]%string.

(** Lines 40-47: six avatars, by their index. *)
Definition botAvatars : list nat := [0; 1; 2; 3; 4; 5]%nat.

(** [Set.add] and [Set.delete]. *)
Definition set_add (id : EntityId) (l : list EntityId) : list EntityId :=
  if existsb (Z.eqb id) l then l else l ++ [id].
Definition set_delete (id : EntityId) (l : list EntityId) : list EntityId :=
  List.filter (fun x => negb (Z.eqb x id)) l.

(** [arr[Math.floor(Math.random() * arr.length)]]. *)
Definition pick {A} (r : Q) (l : list A) (d : A) : A :=
  nth (Z.to_nat (js_floor (r * inject_Z (Z.of_nat (length l))))) l d.

Section Roster.
Context `{Engine}.

(** Lines 67-106. *)
Definition createBot : Act Server (option EntityId) :=
  r1 <- random ;;
  botId <- spawnCharacter (pick r1 botAvatars 0%nat) ;;
  r2 <- random ;;
  let botName := pick r2 BOT_NAMES ""%string in
  setPlayer botId (mkPlayer 0 0 0 3 3 0 botName 0) ;;
  h <- host ;;
  let currentTime := clock h in
  r3 <- random ;;
  let lifetime := BOT_LIFETIME_MIN + r3 * (BOT_LIFETIME_MAX - BOT_LIFETIME_MIN) in
  modify (fun s => with_botStates s (<[botId := mkBotState 0 None 0 [] vzero vzero Infinity 0 0
                                                   currentTime (currentTime + lifetime)]> (botStates s))) ;;
  modify (fun s => with_botIds s (set_add botId (botIds s))) ;;
  ret (Some botId).

(** Lines 108-112. *)
Definition removeBot (botId : EntityId) : Act Server unit :=
  modify (fun s => with_botStates s (delete botId (botStates s))) ;;
  modify (fun s => with_botIds s (set_delete botId (botIds s))) ;;
  removeEntity botId.

(** Lines 376-381: one iteration of the expiry sweep. *)
Definition expire (currentTime : Q) (botId : EntityId) : Act Server unit :=
  s <- get ;;
  match botStates s !! botId with
  | Some st => when (Qle_bool (leaveTime st) currentTime) (removeBot botId)
  | None => ret tt
  end.

(** Lines 389-395: one replacement bot, placed at the spawn point
    [spawnPlayer] chooses ([if (botId)] is JavaScript truthiness). *)
Definition spawnReplacement : Act Server unit :=
  botId <- createBot ;;
  match botId with
  | Some id =>
    when (negb (Z.eqb id 0))
      (s <- get ;;
       pos <- spawnPlayer (spawnPositions s) id true ;;
       setEntityPosition id pos)
  | None => ret tt
  end.

(** Lines 372-397. *)
Definition maintainBotCount : Act Server unit :=
  h <- host ;;
  let currentTime := clock h in
  s <- get ;;
  for_each (botIds s) (expire currentTime) ;;
  s <- get ;;
  let currentBotCount := length (botIds s) in
  when (Nat.ltb currentBotCount MAX_BOTS)
    (for_each (seq 0 (MAX_BOTS - currentBotCount)) (fun _ => spawnReplacement)).

(** Lines 400-409: the game-tick handler. *)
Definition botTick (t : Q) : Act Server unit :=
  s <- get ;;
  when (Qle_bool 1 (t - lastBotCountCheckTime s))
    (call maintainBotCount ;; modify (fun s => with_lastCheck s t)) ;;
  s <- get ;;
  for_each (botIds s) (fun botId => updateBotAI botId t).
End Roster.

(** ** The roster invariant

    The ids in [botIds] are distinct, they are exactly the keys of
    [botStates] (a bot's id and state come and go together), and they were
    all allocated by the host before its next id. *)

Definition RosterInv (s : Server) : Prop :=
  NoDup (botIds s) /\
  (forall id, In id (botIds s) <-> is_Some (botStates s !! id)) /\
  (forall id, In id (botIds s) -> (id < next_id (sv_host s))%Z).

Lemma Frame_RosterInv s s' : Frame s s' -> RosterInv s -> RosterInv s'.
Proof.
  intros (I & D & _ & N & _) (Hnd & Hdom & Hlt). unfold RosterInv.
  rewrite I, N. split; [exact Hnd|]. split; [|exact Hlt].
  intros id. rewrite D. apply Hdom.
Qed.

Lemma set_add_fresh id l : ~ In id l -> set_add id l = l ++ [id].
Proof.
  intros Hn. unfold set_add. destruct (existsb (Z.eqb id) l) eqn:E; [|reflexivity].
  apply existsb_exists in E as (x & Hx & Hxe). apply Z.eqb_eq in Hxe. subst. contradiction.
Qed.

Lemma In_set_delete x id l : In x (set_delete id l) <-> In x l /\ x <> id.
Proof.
  unfold set_delete. rewrite filter_In, negb_true_iff, Z.eqb_neq. reflexivity.
Qed.

Section RosterProofs.
Context `{Engine}.

(** The state [createBot] gives a bot spawned at [now] with [lifetime]. *)
Definition new_bot_state (now lifetime : Q) : BotState :=
  mkBotState 0 None 0 [] vzero vzero Infinity 0 0 now (now + lifetime).

Lemma createBot_effect s :
  let n := next_id (sv_host s) in
  let s' := exec createBot s in
  botIds s' = set_add n (botIds s) /\
  botStates s' = <[n := new_bot_state (clock (sv_host s))
                     (BOT_LIFETIME_MIN + random_at (S (S (draws (sv_host s)))) *
                                         (BOT_LIFETIME_MAX - BOT_LIFETIME_MIN))]> (botStates s) /\
  next_id (sv_host s') = Z.succ n /\ clock (sv_host s') = clock (sv_host s) /\
  spawnPositions s' = spawnPositions s /\ snd (createBot s) = Some (Some n).
Proof.
  unfold createBot. unfold_host_ops. unfold exec, bind, modify, ret. simpl.
  repeat split; reflexivity.
Qed.
End RosterProofs.

Lemma NoDup_snoc (l : list EntityId) x : NoDup l -> ~ In x l -> NoDup (l ++ [x]).
Proof.
  intros Hnd Hn. apply NoDup_app. split; [exact Hnd|]. split; [|apply NoDup_singleton].
  intros y Hy Hy'. apply list_elem_of_singleton in Hy'. subst. apply Hn, list_elem_of_In, Hy.
Qed.

Lemma NoDup_set_delete id l : NoDup l -> NoDup (set_delete id l).
Proof.
  induction 1 as [|x l Hx Hnd IH]; [constructor|]. unfold set_delete. simpl.
  destruct (Z.eqb x id); simpl; [exact IH|]. constructor; [|exact IH].
  intros Hin. apply list_elem_of_In, In_set_delete in Hin as [Hin _].
  apply Hx, list_elem_of_In, Hin.
Qed.

Section RosterInvProofs.
Context `{Engine}.

Lemma createBot_inv s :
  RosterInv s ->
  RosterInv (exec createBot s) /\
  botIds (exec createBot s) = botIds s ++ [next_id (sv_host s)].
Proof.
  intros (Hnd & Hdom & Hlt).
  destruct (createBot_effect s) as (I & B & N & _ & _ & _).
  assert (Hfresh : ~ In (next_id (sv_host s)) (botIds s)) by (intros Hin; specialize (Hlt _ Hin); lia).
  rewrite set_add_fresh in I by exact Hfresh.
  split; [|exact I]. unfold RosterInv. rewrite I, B, N.
  split; [apply NoDup_snoc; assumption|]. split.
  - intros id. rewrite in_app_iff, lookup_insert_is_Some, <- Hdom. simpl.
    destruct (Z.eq_dec (next_id (sv_host s)) id); intuition congruence.
  - intros id Hin. apply in_app_iff in Hin as [Hin | [<- | []]]; [specialize (Hlt _ Hin)|]; lia.
Qed.

Lemma removeBot_effect s id :
  let s' := exec (removeBot id) s in
  botIds s' = set_delete id (botIds s) /\ botStates s' = delete id (botStates s) /\
  next_id (sv_host s') = next_id (sv_host s) /\ clock (sv_host s') = clock (sv_host s) /\
  spawnPositions s' = spawnPositions s.
Proof.
  unfold removeBot. unfold_host_ops. unfold exec, bind, modify. simpl. repeat split; reflexivity.
Qed.

Lemma removeBot_inv s id : RosterInv s -> RosterInv (exec (removeBot id) s).
Proof.
  intros (Hnd & Hdom & Hlt). destruct (removeBot_effect s id) as (I & B & N & _ & _).
  unfold RosterInv. rewrite I, B, N. split; [apply NoDup_set_delete; exact Hnd|]. split.
  - intros x. rewrite In_set_delete, lookup_delete_is_Some, <- Hdom. intuition congruence.
  - intros x Hx. apply In_set_delete in Hx as [Hx _]. apply Hlt, Hx.
Qed.
End RosterInvProofs.

(** ** The two loops of [maintainBotCount] *)

Section Loops.
Context `{Engine}.

Lemma expire_step c x s :
  exec (expire c x) s =
  match botStates s !! x with
  | Some st => if Qle_bool (leaveTime st) c then exec (removeBot x) s else s
  | None => s
  end.
Proof.
  unfold expire, exec, bind, get. destruct (botStates s !! x) as [st|]; [|reflexivity].
  destruct (Qle_bool (leaveTime st) c); reflexivity.
Qed.

(** One iteration of the sweep only removes, and leaves [x] unexpired if it
    keeps a state. *)
Lemma expire_step_props c x s :
  RosterInv s ->
  let s1 := exec (expire c x) s in
  RosterInv s1 /\ incl (botIds s1) (botIds s) /\
  (forall id st', botStates s1 !! id = Some st' -> botStates s !! id = Some st') /\
  (forall st', botStates s1 !! x = Some st' -> c < leaveTime st') /\
  next_id (sv_host s1) = next_id (sv_host s) /\ clock (sv_host s1) = clock (sv_host s) /\
  spawnPositions s1 = spawnPositions s.
Proof.
  intros Hinv. simpl. rewrite expire_step.
  destruct (botStates s !! x) as [st|] eqn:Ex.
  - destruct (Qle_bool (leaveTime st) c) eqn:Eq.
    + destruct (removeBot_effect s x) as (I & B & N & C & P).
      split; [apply removeBot_inv, Hinv|]. rewrite I, B, N, C, P.
      split; [intros y Hy; apply In_set_delete in Hy; tauto|].
      split; [intros id st' E; rewrite lookup_delete_Some in E; tauto|].
      split; [intros st' E; rewrite lookup_delete_eq in E; discriminate|]. auto.
    + qbool. split; [exact Hinv|]. split; [apply incl_refl|]. split; [auto|].
      split; [intros st' E; rewrite Ex in E; injection E as <-; exact Eq|]. auto.
  - split; [exact Hinv|]. split; [apply incl_refl|]. split; [auto|].
    split; [intros st' E; rewrite Ex in E; discriminate|]. auto.
Qed.

Lemma expire_loop c l s :
  RosterInv s ->
  let s' := exec (for_each l (expire c)) s in
  RosterInv s' /\ incl (botIds s') (botIds s) /\
  (forall id st', botStates s' !! id = Some st' -> botStates s !! id = Some st') /\
  (forall id st', In id l -> botStates s' !! id = Some st' -> c < leaveTime st') /\
  next_id (sv_host s') = next_id (sv_host s) /\ clock (sv_host s') = clock (sv_host s) /\
  spawnPositions s' = spawnPositions s.
Proof.
  revert s. induction l as [|x l IH]; intros s Hinv; cbv zeta.
  - split; [exact Hinv|]. split; [apply incl_refl|]. split; [auto|]. split; [intros ? ? []|]. auto.
  - rewrite exec_for_each_cons.
    destruct (expire_step_props c x s Hinv) as (Hinv1 & Inc1 & St1 & X1 & N1 & C1 & P1).
    destruct (IH _ Hinv1) as (Hinv2 & Inc2 & St2 & L2 & N2 & C2 & P2).
    split; [exact Hinv2|]. split; [eapply incl_tran; eassumption|].
    split; [intros id st' E; apply St1, St2, E|].
    split; [|repeat split; congruence].
    intros id st' [<- | Hin] E; [apply X1, St2, E | eapply L2; eassumption].
Qed.

Lemma spawnPlayer_frame sp id b : Rel Frame (spawnPlayer sp id b).
Proof. unfold spawnPlayer. framed. Qed.
Hint Resolve spawnPlayer_frame : bow.

Lemma spawnReplacement_props `{!RandomInRange} s :
  RosterInv s ->
  let n := next_id (sv_host s) in
  let s' := exec spawnReplacement s in
  RosterInv s' /\ botIds s' = botIds s ++ [n] /\
  (forall id st', botStates s' !! id = Some st' ->
     (exists st, botStates s !! id = Some st /\ leaveTime st' = leaveTime st) \/
     clock (sv_host s) < leaveTime st') /\
  clock (sv_host s') = clock (sv_host s) /\ spawnPositions s' = spawnPositions s.
Proof.
  intros Hinv. simpl.
  destruct (createBot_effect s) as (I & B & N & C & P & R).
  destruct (createBot_inv s Hinv) as [Hinv1 I1].
  set (s1 := exec createBot s) in *.
  assert (E : exec spawnReplacement s =
              exec (when (negb (Z.eqb (next_id (sv_host s)) 0))
                      (s2 <- get ;; pos <- spawnPlayer (spawnPositions s2) (next_id (sv_host s)) true ;;
                       setEntityPosition (next_id (sv_host s)) pos)) s1).
  { unfold spawnReplacement, s1, exec, bind at 1.
    destruct (createBot s) as [s0 o]. simpl in R. subst o. reflexivity. }
  assert (Hf : Frame s1 (exec spawnReplacement s)).
  { rewrite E. match goal with |- Frame ?x (exec ?m ?x) =>
      cut (Rel Frame m); [intros Hr; apply Hr | framed] end. }
  split; [exact (Frame_RosterInv s1 _ Hf Hinv1)|].
  destruct Hf as (I2 & D2 & L2 & N2 & C2 & P2).
  split; [congruence|]. split; [|split; congruence].
  intros id st' E'. destruct (L2 _ _ E') as (st1 & E1 & Hl1). rewrite B in E1.
  destruct (decide (id = next_id (sv_host s))) as [-> | Hne].
  - right. rewrite lookup_insert_eq in E1. injection E1 as <-. rewrite Hl1. simpl.
    destruct (random_range (S (S (draws (sv_host s))))) as [R0 R1].
    unfold BOT_LIFETIME_MIN, BOT_LIFETIME_MAX. lra.
  - left. rewrite lookup_insert_ne in E1 by congruence. eauto.
Qed.

Lemma spawn_loop `{!RandomInRange} {X} (l : list X) s :
  RosterInv s ->
  let s' := exec (for_each l (fun _ => spawnReplacement)) s in
  RosterInv s' /\ length (botIds s') = (length (botIds s) + length l)%nat /\
  (forall id st', botStates s' !! id = Some st' ->
     (exists st, botStates s !! id = Some st /\ leaveTime st' = leaveTime st) \/
     clock (sv_host s) < leaveTime st') /\
  clock (sv_host s') = clock (sv_host s) /\ spawnPositions s' = spawnPositions s.
Proof.
  revert s. induction l as [|x l IH]; intros s Hinv; cbv zeta.
  - split; [exact Hinv|]. split; [simpl; rewrite Nat.add_0_r; reflexivity|]. split; [intros; left; eauto|]. auto.
  - rewrite exec_for_each_cons.
    destruct (spawnReplacement_props s Hinv) as (Hinv1 & B1 & L1 & C1 & P1).
    destruct (IH _ Hinv1) as (Hinv2 & B2 & L2 & C2 & P2).
    split; [exact Hinv2|]. split; [rewrite B2, B1, length_app; simpl; lia|].
    split; [|split; congruence].
    intros id st' E. destruct (L2 _ _ E) as [(st1 & E1 & Hl1) | Hc]; [|right; congruence].
    destruct (L1 _ _ E1) as [(st & E0 & Hl0) | Hc]; [left; exists st; split; congruence | right; congruence].
Qed.

Lemma exec_maintain s :
  let s1 := exec (for_each (botIds s) (expire (clock (sv_host s)))) s in
  exec maintainBotCount s =
  exec (when (Nat.ltb (length (botIds s1)) MAX_BOTS)
          (for_each (seq 0 (MAX_BOTS - length (botIds s1))) (fun _ => spawnReplacement))) s1.
Proof.
  cbv zeta.
  change (exec maintainBotCount s) with
    (exec (for_each (botIds s) (expire (clock (sv_host s))) ;;
           s1 <- get ;;
           when (Nat.ltb (length (botIds s1)) MAX_BOTS)
             (for_each (seq 0 (MAX_BOTS - length (botIds s1))) (fun _ => spawnReplacement))) s).
  rewrite exec_bind_for_each. reflexivity.
Qed.
Lemma maintain_props `{!RandomInRange} s :
  RosterInv s ->
  let s1 := exec (for_each (botIds s) (expire (clock (sv_host s)))) s in
  let s' := exec maintainBotCount s in
  RosterInv s' /\ (length (botIds s1) <= length (botIds s))%nat /\
  length (botIds s') = Nat.max MAX_BOTS (length (botIds s1)) /\
  (forall id st, botStates s' !! id = Some st -> clock (sv_host s) < leaveTime st).
Proof.
  intros Hinv. cbv zeta. rewrite exec_maintain. cbv zeta.
  destruct (expire_loop (clock (sv_host s)) (botIds s) s Hinv) as (Hinv1 & Inc1 & St1 & X1 & N1 & C1 & P1).
  set (s1 := exec (for_each (botIds s) (expire (clock (sv_host s)))) s) in *.
  assert (Hle : (length (botIds s1) <= length (botIds s))%nat).
  { apply NoDup_incl_length; [apply NoDup_ListNoDup, (proj1 Hinv1) | exact Inc1]. }
  assert (Hold : forall id st, botStates s1 !! id = Some st -> clock (sv_host s) < leaveTime st).
  { intros id st E. apply (X1 id st); [|exact E].
    apply (proj2 (proj1 (proj2 Hinv) id)). exists st. apply St1, E. }
  unfold when. destruct (Nat.ltb (length (botIds s1)) MAX_BOTS) eqn:Elt.
  - apply Nat.ltb_lt in Elt.
    destruct (spawn_loop (seq 0 (MAX_BOTS - length (botIds s1))) s1 Hinv1) as (Hinv2 & B2 & L2 & C2 & P2).
    split; [exact Hinv2|]. split; [exact Hle|].
    split; [rewrite B2, length_seq; unfold MAX_BOTS in *; lia|].
    intros id st E. destruct (L2 _ _ E) as [(st1 & E1 & Hl1) | Hc].
    + rewrite Hl1. exact (Hold _ _ E1).
    + rewrite C1 in Hc. exact Hc.
  - apply Nat.ltb_ge in Elt. change (exec (ret tt) s1) with s1.
    split; [exact Hinv1|]. split; [exact Hle|]. split; [lia | exact Hold].
Qed.
End Loops.

#[export] Hint Resolve spawnPlayer_frame : bow.

(** ** Properties of the roster *)

Section RosterTheorems.
Context `{Engine} `{!RandomInRange}.

(** (C8) From a consistent roster of at most [MAX_BOTS] bots,
    [maintainBotCount] ends with a consistent roster of exactly [MAX_BOTS]
    bots: the expired ones are removed and as many are created as are
    missing. *)
Theorem maintainBotCount_fills_roster s :
  RosterInv s -> (length (botIds s) <= MAX_BOTS)%nat ->
  RosterInv (exec maintainBotCount s) /\ length (botIds (exec maintainBotCount s)) = MAX_BOTS.
Proof.
  intros Hinv Hle. destruct (maintain_props s Hinv) as (Hinv' & H1 & Hlen & _).
  split; [exact Hinv'|]. rewrite Hlen. unfold MAX_BOTS in *. lia.
Qed.

(** After [maintainBotCount], every bot the server still tracks has a
    leave time strictly after the world time of the sweep: no expired bot
    survives it, and every new bot lives for a positive time. *)
Theorem maintainBotCount_expires s :
  RosterInv s ->
  forall id st, botStates (exec maintainBotCount s) !! id = Some st -> clock (sv_host s) < leaveTime st.
Proof. intros Hinv. exact (proj2 (proj2 (proj2 (maintain_props s Hinv)))). Qed.

Lemma updateBotAI_preserves botId t : Rel (Preserves RosterInv) (updateBotAI botId t).
Proof.
  eapply Rel_weaken; [|apply updateBotAI_frame].
  intros s s' Hf Hinv. exact (Frame_RosterInv s s' Hf Hinv).
Qed.

Lemma botTick_preserves t : Rel (Preserves RosterInv) (botTick t).
Proof.
  unfold botTick. repeat rel_step.
  all: try apply updateBotAI_preserves.
  all: try (intros s Hs; exact (proj1 (maintain_props s Hs))).
  all: intros s Hs; exact Hs.
Qed.

(** The game-tick handler keeps the roster consistent: the ids in
    [botIds] stay distinct, equal to the keys of [botStates], and below the
    host's next entity id. *)
Theorem botTick_inv t s : RosterInv s -> RosterInv (exec (botTick t) s).
Proof. intros Hs. exact (botTick_preserves t s Hs). Qed.
(** (C9) Creating a bot and removing it again gives back the roster: the
    same bot ids in the same order and the same bot states. *)
Theorem createBot_removeBot_roundtrip s :
  RosterInv s ->
  snd (createBot s) = Some (Some (next_id (sv_host s))) /\
  botIds (exec (removeBot (next_id (sv_host s))) (exec createBot s)) = botIds s /\
  botStates (exec (removeBot (next_id (sv_host s))) (exec createBot s)) = botStates s.
Proof.
  intros (Hnd & Hdom & Hlt).
  destruct (createBot_effect s) as (I & B & _ & _ & _ & R).
  destruct (removeBot_effect (exec createBot s) (next_id (sv_host s))) as (I' & B' & _).
  assert (Hfresh : ~ In (next_id (sv_host s)) (botIds s)) by (intros Hin; specialize (Hlt _ Hin); lia).
  split; [exact R|]. rewrite I', B', I, B. split.
  - rewrite set_add_fresh by exact Hfresh. unfold set_delete. rewrite List.filter_app. simpl.
    rewrite Z.eqb_refl, app_nil_r. apply List.forallb_filter_id, forallb_forall.
    intros x Hx. apply negb_true_iff, Z.eqb_neq. intros ->. contradiction.
  - rewrite delete_insert_eq. apply delete_id. destruct (botStates s !! next_id (sv_host s)) eqn:E; [|reflexivity].
    exfalso. apply Hfresh, Hdom. rewrite E. eexists; reflexivity.
Qed.
End RosterTheorems.

(** ** Examples *)

Definition roster_rs : list Q := [1#2; 1#4; 1#2; 1#3; 3#4; 0].

Lemma roster_rs_range : Forall (fun r => 0 <= r /\ r < 1) roster_rs.
Proof. repeat constructor; unfold Qle, Qlt; simpl; lia. Qed.

#[local] Instance roster_engine : Engine := demo_engine roster_rs.
#[local] Instance roster_random : RandomInRange := demo_random_range roster_rs roster_rs_range.

Lemma demo_server_inv : RosterInv (demo_server true 3).
Proof.
  split; [apply NoDup_singleton|]. split; [|intros id [<- | []]; simpl; lia].
  intros id. simpl. split.
  - intros [<- | []]. rewrite lookup_insert_eq. eauto.
  - intros [x E]. destruct (decide (id = 1%Z)) as [-> | Hne]; [left; reflexivity|].
    rewrite lookup_insert_ne, lookup_empty in E by congruence. discriminate.
Qed.

Lemma maintainBotCount_fills_roster_witness :
  (RosterInv (exec maintainBotCount (demo_server true 3)) /\
   length (botIds (exec maintainBotCount (demo_server true 3))) = MAX_BOTS) /\
  botIds (exec maintainBotCount (demo_server true 3)) = [1; 4; 5]%Z.
Proof.
  split; [apply (maintainBotCount_fills_roster (demo_server true 3) demo_server_inv); vm_compute; lia|].
  vm_compute. reflexivity.
Defined.

Definition demo_new_bot : BotState :=
  mkBotState 0 None 0 [] vzero vzero Infinity 0 0 10 (10 + (200 + (1#2) * 100)).

Lemma maintainBotCount_expires_witness :
  botStates (exec maintainBotCount (demo_server true 3)) !! 4%Z = Some demo_new_bot /\
  10 < leaveTime demo_new_bot.
Proof.
  assert (E : botStates (exec maintainBotCount (demo_server true 3)) !! 4%Z = Some demo_new_bot)
    by (vm_compute; reflexivity).
  split; [exact E|]. exact (maintainBotCount_expires (demo_server true 3) demo_server_inv 4%Z _ E).
Defined.

Lemma botTick_inv_witness :
  RosterInv (exec (botTick 5) (demo_server true 3)).
Proof. apply botTick_inv. exact demo_server_inv. Defined.

Lemma createBot_removeBot_roundtrip_witness :
  botIds (exec (removeBot 4) (exec createBot (demo_server true 3))) = botIds (demo_server true 3) /\
  botIds (exec createBot (demo_server true 3)) = [1; 4]%Z.
Proof.
  split; [|vm_compute; reflexivity].
  exact (proj1 (proj2 (createBot_removeBot_roundtrip (demo_server true 3) demo_server_inv))).
Defined.
