(* ===== verification/Pickups.v ===== *)
(** * Arrow pickups (server/pickups.ts)

    Every pickup spawner holds the id of the pickup it spawned
    ([spawnedItemId], [-1] for none) and the time it went dry
    ([dryTime], [0] for not dry).  The game-tick handler notices a pickup
    that was collected, marks the spawner dry, and ten seconds later spawns
    a new one; the collision handler hands a player one arrow for a pickup
    while the player is below its maximum.  The module has no state of its
    own: its handlers act on the host.  [J.getEntityPosition] is taken to
    return a fresh array, so [position[1] += 1] moves only the copy. *)

From Stdlib Require Import QArith ZArith List String Lqa Lia.
From stdpp Require Import base tactics.
From S2P Require Import Prelude Host.
Import ListNotations.
Open Scope Q_scope.
Open Scope bow_scope.

Section Pickups.
Context `{Engine} {St : Type} `{HasHost St}.

(** Lines 5-26.  The callers' [!] (lines 32 and 55) only silences the
    type checker: a spawner without a position passes [undefined], and
    [position[1] += 1] throws after the prop was spawned. *)
Definition spawnPickup (spawnerId : EntityId) (position : option Vec3) (spawnerData : PickupSpawner)
  (sendCommand : bool) : Act St unit :=
  pickup <- spawnProp "Arrow" ;;
  position <- need position ;;
  let position := vec3 (vx position) (vy position + 1) (vz position) in
  setEntityPosition pickup (Some position) ;;
  emit (SetEntityScale pickup (15#100)) ;;
  setPickup pickup ;;
  setSpawner spawnerId (mkSpawner pickup 0) ;;
  when sendCommand (emit (SendToAll (ItemSpawnCommand position))).

(** Lines 28-35: a spawner without a position makes [spawnPickup] throw,
    which ends the handler. *)
Definition pickupsGameStart : Act St unit :=
  h <- host ;;
  for_each_abort (allSpawners h) (fun '(id, data) =>
    h <- host ;;
    spawnPickup id (getEntityPosition h id) data false).

(** Lines 40-60: one spawner of the tick. *)
Definition spawnerTick (t : Q) (entry : EntityId * PickupSpawner) : Act St unit :=
  let '(spawnerId, spawnerData) := entry in
  h <- host ;;
  let itemExists := negb (Z.eqb (spawnedItemId spawnerData) (-1)) &&
                    hasPickup h (spawnedItemId spawnerData) in
  if negb itemExists && negb (Z.eqb (spawnedItemId spawnerData) (-1)) then
    when (Qeq_bool (dryTime spawnerData) 0) (setSpawner spawnerId (mkSpawner (-1) t))
  else if Qltb 0 (dryTime spawnerData) && Qle_bool 10 (t - dryTime spawnerData) then
    spawnPickup spawnerId (getEntityPosition h spawnerId) spawnerData true
  else ret tt.

(** Lines 37-61. *)
Definition pickupsTick (t : Q) : Act St unit :=
  h <- host ;;
  for_each_abort (allSpawners h) (spawnerTick t).

(** Lines 63-86. *)
Definition onPickupCollision (playerId pickupId : EntityId) : Act St unit :=
  h <- host ;;
  playerTrait <- need (getPlayer h playerId) ;;
  if Z.leb (maxArrows playerTrait) (arrowCount playerTrait) then leave else
  pickupPosition <- need (getEntityPosition h pickupId) ;;
  setPlayer playerId (set_arrowCount playerTrait (arrowCount playerTrait + 1)) ;;
  removeEntity pickupId ;;
  emit (SendToAll (PickupCommand playerId pickupPosition)).
End Pickups.

(** ** The arrow bound *)

(** No player carries more arrows than its maximum. *)
Definition ArrowsBounded (h : Host) : Prop :=
  forall id p, getPlayer h id = Some p -> (arrowCount p <= maxArrows p)%Z.

Section CollisionProofs.
Context `{Engine}.

(** The host after a collected pickup. *)
Lemma exec_collision h playerId pickupId p pos :
  getPlayer h playerId = Some p -> (arrowCount p < maxArrows p)%Z ->
  getEntityPosition h pickupId = Some pos ->
  exec (onPickupCollision playerId pickupId) h =
  mkHost (remove_ent (update_ent (ents h) playerId
                        (fun e => with_player e (set_arrowCount p (arrowCount p + 1)))) pickupId)
         (clock h) (draws h) (next_id h)
         (log h ++ [RemoveEntity pickupId; SendToAll (PickupCommand playerId pos)]).
Proof.
  intros Hp Hlt Hpos. unfold onPickupCollision. unfold_host_ops. unfold exec, bind. simpl.
  rewrite Hp. simpl. replace (Z.leb (maxArrows p) (arrowCount p)) with false by lia.
  simpl. rewrite Hpos. simpl. rewrite <- app_assoc. reflexivity.
Qed.

Lemma getPlayer_collision h playerId pickupId p id :
  let l := remove_ent (update_ent (ents h) playerId
                        (fun e => with_player e (set_arrowCount p (arrowCount p + 1)))) pickupId in
  getPlayer (with_ents h l) id =
  if Z.eqb pickupId id then None
  else if Z.eqb playerId id then
    match lookup_ent (ents h) id with
    | Some _ => Some (set_arrowCount p (arrowCount p + 1))
    | None => None
    end
  else getPlayer h id.
Proof.
  cbv zeta. unfold getPlayer. simpl. rewrite lookup_remove_ent, lookup_update_ent.
  destruct (Z.eqb pickupId id); [reflexivity|].
  destruct (Z.eqb playerId id); [|reflexivity]. destruct (lookup_ent (ents h) id); reflexivity.
Qed.
End CollisionProofs.

Section CollisionTheorems.
Context `{Engine}.

Lemma collision_cases h playerId pickupId :
  exec (onPickupCollision playerId pickupId) h = h \/
  exists p pos, getPlayer h playerId = Some p /\ (arrowCount p < maxArrows p)%Z /\
    getEntityPosition h pickupId = Some pos /\
    exec (onPickupCollision playerId pickupId) h =
    mkHost (remove_ent (update_ent (ents h) playerId
                          (fun e => with_player e (set_arrowCount p (arrowCount p + 1)))) pickupId)
           (clock h) (draws h) (next_id h)
           (log h ++ [RemoveEntity pickupId; SendToAll (PickupCommand playerId pos)]).
Proof.
  destruct (getPlayer h playerId) as [p|] eqn:Ep;
    [|left; unfold onPickupCollision, exec, bind, host; simpl; rewrite Ep; reflexivity].
  destruct (Z.leb_spec (maxArrows p) (arrowCount p)) as [Hge | Hlt].
  - left. unfold onPickupCollision, exec, bind, host. simpl. rewrite Ep. simpl.
    replace (Z.leb (maxArrows p) (arrowCount p)) with true by lia. reflexivity.
  - destruct (getEntityPosition h pickupId) as [pos|] eqn:Epos.
    + right. exists p, pos. split; [reflexivity|]. split; [exact Hlt|]. split; [reflexivity|].
      exact (exec_collision h _ _ p pos Ep Hlt Epos).
    + left. unfold onPickupCollision, exec, bind, host. simpl. rewrite Ep. simpl.
      replace (Z.leb (maxArrows p) (arrowCount p)) with false by lia. simpl. rewrite Epos. reflexivity.
Qed.

(** (C15) Collecting a pickup never takes a player above its maximum
    number of arrows. *)
Theorem onPickupCollision_bounded h playerId pickupId :
  ArrowsBounded h -> ArrowsBounded (exec (onPickupCollision playerId pickupId) h).
Proof.
  intros Hb. destruct (collision_cases h playerId pickupId) as [-> | (p & pos & Ep & Hlt & _ & ->)];
    [exact Hb|].
  intros id q Hq. change (getPlayer (with_ents h (remove_ent (update_ent (ents h) playerId
        (fun e => with_player e (set_arrowCount p (arrowCount p + 1)))) pickupId)) id = Some q) in Hq.
  rewrite getPlayer_collision in Hq.
  destruct (Z.eqb pickupId id); [discriminate|].
  destruct (Z.eqb playerId id); [|exact (Hb id q Hq)].
  destruct (lookup_ent (ents h) id); [|discriminate]. injection Hq as <-. simpl. lia.
Qed.

(** (C16) A player below its maximum that touches a pickup with a position
    gets exactly one more arrow; the pickup is removed and the collection
    is broadcast. *)
Theorem onPickupCollision_collects h playerId pickupId p pos :
  getPlayer h playerId = Some p -> (arrowCount p < maxArrows p)%Z ->
  getEntityPosition h pickupId = Some pos -> playerId <> pickupId ->
  let h' := exec (onPickupCollision playerId pickupId) h in
  getPlayer h' playerId = Some (set_arrowCount p (arrowCount p + 1)) /\
  lookup_ent (ents h') pickupId = None /\
  log h' = log h ++ [RemoveEntity pickupId; SendToAll (PickupCommand playerId pos)].
Proof.
  intros Ep Hlt Hpos Hne. cbv zeta. rewrite (exec_collision h _ _ p pos Ep Hlt Hpos).
  split; [|split; [simpl; rewrite lookup_remove_ent, Z.eqb_refl; reflexivity | reflexivity]].
  change (getPlayer (with_ents h (remove_ent (update_ent (ents h) playerId
        (fun e => with_player e (set_arrowCount p (arrowCount p + 1)))) pickupId)) playerId =
          Some (set_arrowCount p (arrowCount p + 1))).
  rewrite getPlayer_collision, Z.eqb_refl.
  destruct (Z.eqb_spec pickupId playerId) as [-> | _]; [contradiction|].
  unfold getPlayer in Ep. destruct (lookup_ent (ents h) playerId); [reflexivity | discriminate].
Qed.

(** A player already at its maximum is left as it is: the pickup
    stays and nothing is sent. *)
Theorem onPickupCollision_full h playerId pickupId p :
  getPlayer h playerId = Some p -> (maxArrows p <= arrowCount p)%Z ->
  exec (onPickupCollision playerId pickupId) h = h.
Proof.
  intros Ep Hge. unfold onPickupCollision, exec, bind, host. simpl. rewrite Ep. simpl.
  replace (Z.leb (maxArrows p) (arrowCount p)) with true by lia. reflexivity.
Qed.
End CollisionTheorems.

(** ** The spawner state machine *)

Section SpawnerProofs.
Context `{Engine}.

Lemma exec_spawnPickup h spawnerId pos d b :
  let n := next_id h in
  let pos' := vec3 (vx pos) (vy pos + 1) (vz pos) in
  exec (spawnPickup spawnerId (Some pos) d b) h =
  mkHost (update_ent (update_ent (update_ent (ents h ++ [(n, fresh_prop)]) n (fun e => with_pos e pos'))
                                 n with_pickup)
                     spawnerId (fun e => with_spawner e (mkSpawner n 0)))
         (clock h) (draws h) (Z.succ n)
         (log h ++ [SpawnProp "Arrow" n; SetEntityPosition n (Some pos'); SetEntityScale n (15#100)] ++
          if b then [SendToAll (ItemSpawnCommand pos')] else []).
Proof.
  unfold spawnPickup. unfold_host_ops. unfold exec, bind, when, spawnProp, upd_host, host, emit, ret, need.
  simpl. destruct b; simpl; rewrite <- !app_assoc; reflexivity.
Qed.

(** Without a position the prop is spawned, and then the handler throws:
    the prop is left behind, with no pickup trait and no position, and
    the spawner is unchanged. *)
Lemma spawnPickup_no_position h spawnerId d b :
  let n := next_id h in
  spawnPickup spawnerId None d b h =
  (mkHost (ents h ++ [(n, fresh_prop)]) (clock h) (draws h) (Z.succ n) (log h ++ [SpawnProp "Arrow" n]), None).
Proof. reflexivity. Qed.

Lemma Qeq_bool_0 q : q == 0 -> Qeq_bool q 0 = true.
Proof. intros Hq. apply Qeq_bool_iff. exact Hq. Qed.

(** A spawner whose pickup was collected and which is not yet dry is
    marked dry at the current time, with no pickup; nothing else changes. *)
Theorem spawnerTick_marks_dry h t spawnerId d :
  spawnedItemId d <> (-1)%Z -> hasPickup h (spawnedItemId d) = false -> dryTime d == 0 ->
  exec (spawnerTick t (spawnerId, d)) h =
  with_ents h (update_ent (ents h) spawnerId (fun e => with_spawner e (mkSpawner (-1) t))).
Proof.
  intros Hid Hp Hd. unfold spawnerTick, exec, bind, host. simpl.
  apply Z.eqb_neq in Hid. rewrite Hid, Hp, (Qeq_bool_0 _ Hd). reflexivity.
Qed.

(** (C17) Ten seconds after a spawner went dry, the tick spawns a new
    pickup one unit above the spawner, records it in the spawner (no
    longer dry) and broadcasts it. *)
Theorem spawnerTick_respawns h t spawnerId d pos :
  spawnedItemId d = (-1)%Z -> 0 < dryTime d -> dryTime d + 10 <= t ->
  getEntityPosition h spawnerId = Some pos -> lookup_ent (ents h) (next_id h) = None ->
  let n := next_id h in
  let h' := exec (spawnerTick t (spawnerId, d)) h in
  getSpawner h' spawnerId = Some (mkSpawner n 0) /\ hasPickup h' n = true /\
  getEntityPosition h' n = Some (vec3 (vx pos) (vy pos + 1) (vz pos)) /\
  next_id h' = Z.succ n /\
  log h' = log h ++ [SpawnProp "Arrow" n; SetEntityPosition n (Some (vec3 (vx pos) (vy pos + 1) (vz pos)));
                     SetEntityScale n (15#100); SendToAll (ItemSpawnCommand (vec3 (vx pos) (vy pos + 1) (vz pos)))].
Proof.
  intros Hid Hd Ht Hpos Hfresh. cbv zeta.
  assert (E : exec (spawnerTick t (spawnerId, d)) h = exec (spawnPickup spawnerId (Some pos) d true) h).
  { unfold spawnerTick, exec at 1, bind at 1, host at 1. simpl. rewrite Hid. simpl.
    replace (Qltb 0 (dryTime d)) with true by (symmetry; apply Qltb_iff; exact Hd).
    replace (Qle_bool 10 (t - dryTime d)) with true by (symmetry; apply Qle_bool_iff; lra).
    simpl. rewrite Hpos. reflexivity. }
  rewrite E, exec_spawnPickup. clear E.
  unfold getEntityPosition in Hpos. destruct (lookup_ent (ents h) spawnerId) as [e|] eqn:Ee; [|discriminate].
  assert (Hne : Z.eqb spawnerId (next_id h) = false).
  { apply Z.eqb_neq. intros Heq. rewrite Heq, Hfresh in Ee. discriminate. }
  assert (Hne' : Z.eqb (next_id h) spawnerId = false) by (rewrite Z.eqb_sym; exact Hne).
  unfold getSpawner, hasPickup, getEntityPosition. simpl.
  rewrite !lookup_update_ent, !lookup_ent_app, Z.eqb_refl, Hne, Hne', Ee, Hfresh. simpl.
  rewrite Z.eqb_refl. repeat split; reflexivity.
Qed.

(** (C40) A spawner due for a refill that has no position makes the tick
    throw after spawning the prop: the prop is left behind with no
    pickup trait and no position, the spawner keeps its state, so the
    next tick spawns another one, and the spawners after it in the tick
    are not visited. *)
Theorem spawnerTick_no_position_leaks h t spawnerId d :
  spawnedItemId d = (-1)%Z -> 0 < dryTime d -> dryTime d + 10 <= t ->
  getEntityPosition h spawnerId = None ->
  spawnerTick t (spawnerId, d) h =
    (mkHost (ents h ++ [(next_id h, fresh_prop)]) (clock h) (draws h) (Z.succ (next_id h))
            (log h ++ [SpawnProp "Arrow" (next_id h)]), None) /\
  getSpawner (exec (spawnerTick t (spawnerId, d)) h) spawnerId = getSpawner h spawnerId.
Proof.
  intros Hid Hd Ht Hpos.
  assert (E : spawnerTick t (spawnerId, d) h = spawnPickup spawnerId None d true h).
  { unfold spawnerTick, bind at 1, host at 1. simpl. rewrite Hid. simpl.
    replace (Qltb 0 (dryTime d)) with true by (symmetry; apply Qltb_iff; exact Hd).
    replace (Qle_bool 10 (t - dryTime d)) with true by (symmetry; apply Qle_bool_iff; lra).
    simpl. rewrite Hpos. reflexivity. }
  split; [rewrite E; apply spawnPickup_no_position|].
  unfold exec. rewrite E, spawnPickup_no_position. unfold getSpawner. simpl.
  rewrite lookup_ent_app. destruct (lookup_ent (ents h) spawnerId) as [e|] eqn:Ee; [reflexivity|]. simpl.
  destruct (Z.eqb _ spawnerId); reflexivity.
Qed.

(** A spawner marked dry at world time [0] is never refilled: with
    no pickup and [dryTime = 0] neither branch of the tick applies, and the
    tick leaves the host unchanged. *)
Theorem spawnerTick_stuck_at_zero h t spawnerId d :
  spawnedItemId d = (-1)%Z -> dryTime d == 0 ->
  exec (spawnerTick t (spawnerId, d)) h = h.
Proof.
  intros Hid Hd. unfold spawnerTick, exec, bind, host. simpl. rewrite Hid. simpl.
  replace (Qltb 0 (dryTime d)) with false by (symmetry; apply Qltb_false_iff; lra).
  reflexivity.
Qed.

End SpawnerProofs.

(** ** The spawner invariant

    A spawner that holds a pickup is not dry.  It holds initially (the
    trait's defaults are [-1] and [0]) and every tick keeps it, so the
    [dryTime === 0] test of line 48 always passes for a spawner whose pickup
    was collected. *)

Definition SpawnerOk (sp : PickupSpawner) : Prop := spawnedItemId sp <> (-1)%Z -> dryTime sp == 0.

Definition SpawnerInv (h : Host) : Prop := Forall (fun x => SpawnerOk (snd x)) (allSpawners h).

Lemma allSpawners_ents_update l id f :
  (forall e, e_spawner (f e) = e_spawner e) ->
  flat_map (fun '(i, e) => match e_spawner e with Some sp => [(i, sp)] | None => [] end) (update_ent l id f) =
  flat_map (fun '(i, e) => match e_spawner e with Some sp => [(i, sp)] | None => [] end) l.
Proof.
  intros Hf. induction l as [|[i e] l IH]; simpl; [reflexivity|].
  destruct (Z.eqb i id); simpl; rewrite ?Hf, IH; reflexivity.
Qed.

Lemma SpawnerInv_update h id f :
  (forall e, e_spawner (f e) = e_spawner e) ->
  SpawnerInv (with_ents h (update_ent (ents h) id f)) <-> SpawnerInv h.
Proof. intros Hf. unfold SpawnerInv, allSpawners. simpl. rewrite allSpawners_ents_update by exact Hf. reflexivity. Qed.

Lemma SpawnerInv_set h id sp :
  SpawnerOk sp -> SpawnerInv h ->
  SpawnerInv (with_ents h (update_ent (ents h) id (fun e => with_spawner e sp))).
Proof.
  intros Hsp. unfold SpawnerInv, allSpawners. simpl. induction (ents h) as [|[i e] l IH]; simpl; [auto|].
  intros Hall. apply Forall_app in Hall as [H1 H2]. apply Forall_app. split; [|exact (IH H2)].
  destruct (Z.eqb i id); simpl; [constructor; [exact Hsp | constructor] | exact H1].
Qed.

Section SpawnerInvProofs.
Context `{Engine}.

Lemma SpawnerInv_emit c : Rel (Preserves SpawnerInv) (@emit Host _ c).
Proof. intros h Hh. exact Hh. Qed.

Lemma SpawnerInv_host : Rel (Preserves SpawnerInv) (@host Host _).
Proof. intros h Hh. exact Hh. Qed.

Lemma SpawnerInv_setSpawner id sp : SpawnerOk sp -> Rel (Preserves SpawnerInv) (@setSpawner Host _ id sp).
Proof. intros Hsp h Hh. exact (SpawnerInv_set h id sp Hsp Hh). Qed.

Lemma SpawnerInv_spawnPickup id pos d b : Rel (Preserves SpawnerInv) (@spawnPickup Host _ id pos d b).
Proof.
  intros h Hh. destruct pos as [pos|].
  2:{ unfold exec. rewrite spawnPickup_no_position. unfold SpawnerInv, allSpawners in *. simpl.
      rewrite flat_map_app. simpl. rewrite app_nil_r. exact Hh. }
  unfold exec. change (fst (spawnPickup id (Some pos) d b h)) with (exec (spawnPickup id (Some pos) d b) h).
  rewrite exec_spawnPickup.
  apply (SpawnerInv_set (mkHost _ _ _ _ _) id (mkSpawner (next_id h) 0)); [intros _; reflexivity|].
  apply (SpawnerInv_update (mkHost _ _ _ _ _) _ with_pickup); [reflexivity|].
  apply (SpawnerInv_update (mkHost _ _ _ _ _) _ (fun e => with_pos e _)); [reflexivity|].
  unfold SpawnerInv, allSpawners in *. simpl. rewrite flat_map_app. simpl. rewrite app_nil_r. exact Hh.
Qed.

(** The pickup tick keeps the spawner invariant. *)
Theorem pickupsTick_inv t h : SpawnerInv h -> SpawnerInv (exec (pickupsTick t) h).
Proof.
  revert h. change (Rel (Preserves SpawnerInv) (@pickupsTick Host _ t)). unfold pickupsTick.
  rel_step; [apply SpawnerInv_host|]. rel_step. match goal with x : (EntityId * PickupSpawner)%type |- _ => destruct x as [id d] end. unfold spawnerTick. cbv beta iota zeta.
  rel_step; [apply SpawnerInv_host|].
  repeat (case_match || rel_step); try apply SpawnerInv_spawnPickup.
  apply SpawnerInv_setSpawner. intros Hc. contradiction.
Qed.
End SpawnerInvProofs.

(** ** The spawner as an abstract state machine

    What a spawner promises: its pickup stays until collected; the first
    tick after a collection starts a ten-second wait; the first tick ten
    seconds later puts a new pickup out.  [phase] is the abstraction
    function from the host and the spawner's trait to this machine, and
    [spawner_spec] its step on a tick at time [t]: a collection noticed
    at time [0] falls into [Stuck], the phase that [dryTime = 0] leaves
    the spawner in for good. *)

Inductive SpawnerPhase : Type :=
| Stocked
| Collected
| DryFor (since : Q)
| Stuck.

Definition phase (h : Host) (sp : PickupSpawner) : SpawnerPhase :=
  if Z.eqb (spawnedItemId sp) (-1) then (if 0 <? dryTime sp then DryFor (dryTime sp) else Stuck)
  else if hasPickup h (spawnedItemId sp) then Stocked else Collected.

Definition phase_of (h : Host) (id : EntityId) : option SpawnerPhase :=
  option_map (phase h) (getSpawner h id).

Definition spawner_spec (t : Q) (p : SpawnerPhase) : SpawnerPhase :=
  match p with
  | Stocked => Stocked
  | Collected => if 0 <? t then DryFor t else Stuck
  | DryFor since => if 10 <=? t - since then Stocked else DryFor since
  | Stuck => Stuck
  end.

Lemma getSpawner_set_spawner h id sp e :
  lookup_ent (ents h) id = Some e ->
  getSpawner (with_ents h (update_ent (ents h) id (fun e => with_spawner e sp))) id = Some sp.
Proof. intros Ee. unfold getSpawner. simpl. rewrite (lookup_update_ent_eq _ _ _ e Ee). reflexivity. Qed.

Section SpawnerRefinement.
Context `{Engine}.

(** A refill puts the new pickup in the spawner, and it is there. *)
Lemma spawnPickup_phase h id pos d e :
  lookup_ent (ents h) id = Some e -> lookup_ent (ents h) (next_id h) = None ->
  next_id h <> (-1)%Z ->
  phase_of (exec (spawnPickup id (Some pos) d true) h) id = Some Stocked.
Proof.
  intros Ee Hfresh Hn. rewrite exec_spawnPickup.
  assert (Hne : Z.eqb id (next_id h) = false).
  { apply Z.eqb_neq. intros Heq. rewrite Heq, Hfresh in Ee. discriminate. }
  assert (Hne' : Z.eqb (next_id h) id = false) by (rewrite Z.eqb_sym; exact Hne).
  unfold phase_of, getSpawner, phase, hasPickup. simpl.
  rewrite !lookup_update_ent, !lookup_ent_app, Z.eqb_refl, Hne', Ee. simpl.
  apply Z.eqb_neq in Hn. rewrite Hn, !lookup_update_ent, !lookup_ent_app, Z.eqb_refl, Hfresh.
  simpl. rewrite Hne, Z.eqb_refl. reflexivity.
Qed.

Lemma spawnerTick_phase_step h t id d :
  getSpawner h id = Some d -> SpawnerOk d -> getEntityPosition h id <> None ->
  lookup_ent (ents h) (next_id h) = None -> next_id h <> (-1)%Z ->
  phase_of (exec (spawnerTick t (id, d)) h) id = option_map (spawner_spec t) (phase_of h id).
Proof.
  intros Hs Hok Hpos Hfresh Hn.
  assert (Ep : phase_of h id = Some (phase h d)) by (unfold phase_of; rewrite Hs; reflexivity).
  unfold getSpawner in Hs. destruct (lookup_ent (ents h) id) as [e|] eqn:Ee; [|discriminate].
  rewrite Ep. unfold spawnerTick. rewrite (exec_bind_some (@host Host Host_HasHost) _ h h h eq_refl).
  unfold phase at 1. destruct (Z.eqb_spec (spawnedItemId d) (-1)) as [Hid|Hid]; simpl.
  - assert (Eunch : phase_of (exec (ret tt) h) id = Some (phase h d)) by exact Ep.
    unfold phase in Eunch. rewrite Hid, Z.eqb_refl in Eunch.
    destruct (0 <? dryTime d) eqn:E; simpl; [|exact Eunch].
    destruct (Qle_bool 10 (t - dryTime d)); simpl; [|exact Eunch].
    destruct (getEntityPosition h id) as [pos|]; [|contradiction].
    exact (spawnPickup_phase h id pos d e Ee Hfresh Hn).
  - assert (Hd : dryTime d == 0) by (apply Hok; exact Hid).
    destruct (hasPickup h (spawnedItemId d)) eqn:Eh; simpl.
    + replace (0 <? dryTime d) with false by (symmetry; apply Qltb_false_iff; lra). simpl.
      change (phase_of h id = Some Stocked). rewrite Ep. unfold phase.
      apply Z.eqb_neq in Hid. rewrite Hid, Eh. reflexivity.
    + rewrite (Qeq_bool_0 _ Hd). simpl.
      replace (exec (setSpawner id (mkSpawner (-1) t)) h)
        with (with_ents h (update_ent (ents h) id (fun e => with_spawner e (mkSpawner (-1) t))))
        by reflexivity.
      unfold phase_of. rewrite (getSpawner_set_spawner h id _ e Ee). simpl. reflexivity.
Qed.

(** (C18) The spawner tick refines the abstract spawner: the phase after
    the tick is the abstract step of the phase before it, for a spawner
    that satisfies the invariant and has a position, when the next
    entity id is fresh. *)
Theorem spawnerTick_refines h t id d :
  getSpawner h id = Some d -> SpawnerOk d -> getEntityPosition h id <> None ->
  lookup_ent (ents h) (next_id h) = None -> next_id h <> (-1)%Z ->
  phase_of (exec (spawnerTick t (id, d)) h) id = option_map (spawner_spec t) (phase_of h id).
Proof. exact (spawnerTick_phase_step h t id d). Qed.

(** (C19) A collected pickup comes back: the first tick after the
    collection, at a time [t1 > 0], starts the wait, and a tick ten
    seconds later puts a new pickup in the spawner. *)
Theorem collected_pickup_returns h id d t1 t2 :
  getSpawner h id = Some d -> SpawnerOk d -> phase h d = Collected ->
  getEntityPosition h id <> None ->
  lookup_ent (ents h) (next_id h) = None -> next_id h <> (-1)%Z ->
  0 < t1 -> t1 + 10 <= t2 ->
  let h1 := exec (spawnerTick t1 (id, d)) h in
  exists d1, getSpawner h1 id = Some d1 /\
             phase_of (exec (spawnerTick t2 (id, d1)) h1) id = Some Stocked.
Proof.
  intros Hs Hok Hc Hpos Hfresh Hn Ht1 Ht2 h1.
  unfold phase in Hc. destruct (Z.eqb_spec (spawnedItemId d) (-1)) as [|Hid];
    [destruct (0 <? dryTime d); discriminate|].
  destruct (hasPickup h (spawnedItemId d)) eqn:Eh; [discriminate|].
  assert (Eh1 : h1 = with_ents h (update_ent (ents h) id (fun e => with_spawner e (mkSpawner (-1) t1))))
    by (apply spawnerTick_marks_dry; [exact Hid | exact Eh | apply Hok, Hid]).
  unfold getSpawner in Hs. destruct (lookup_ent (ents h) id) as [e|] eqn:Ee; [|discriminate].
  exists (mkSpawner (-1) t1). rewrite Eh1. split; [exact (getSpawner_set_spawner h id _ e Ee)|].
  rewrite spawnerTick_phase_step.
  - unfold phase_of. rewrite (getSpawner_set_spawner h id _ e Ee). simpl.
    unfold phase. simpl.
    replace (0 <? t1) with true by (symmetry; apply Qltb_iff; exact Ht1).
    simpl. replace (Qle_bool 10 (t2 - t1)) with true by (symmetry; apply Qle_bool_iff; lra). reflexivity.
  - exact (getSpawner_set_spawner h id _ e Ee).
  - intros C. simpl in C. contradiction.
  - unfold getEntityPosition in *. simpl. rewrite (lookup_update_ent_eq _ _ _ e Ee). rewrite Ee in Hpos. exact Hpos.
  - simpl. apply lookup_update_ent_none, Hfresh.
  - exact Hn.
Qed.

End SpawnerRefinement.

(** ** Examples

    Player 1 at the origin with [arrows] of three arrows, pickup 2 one unit
    away, and spawner 3 whose pickup is 2. *)

Definition pk_player (arrows : Z) : PlayerTrait := mkPlayer 0 0 0 arrows 3 0 "Legolas"%string 0.
Definition pk_host (arrows : Z) : Host :=
  mkHost [(1%Z, mkEntity (Some vzero) true None (Some (pk_player arrows)) false None false None None None);
          (2%Z, mkEntity (Some (vec3 1 0 0)) false None None true None false None None None);
          (3%Z, mkEntity (Some (vec3 0 0 5)) false None None false (Some (mkSpawner 2 0)) false None None None)]
         0 0 4 [].

#[local] Instance pk_engine : Engine := demo_engine [].

Lemma pk_host_bounded : ArrowsBounded (pk_host 2).
Proof.
  intros id p Hp. unfold getPlayer, pk_host in Hp. cbn -[Z.eqb] in Hp.
  destruct (Z.eqb 1 id); [injection Hp as <-; simpl; lia|].
  destruct (Z.eqb 2 id); [discriminate|]. destruct (Z.eqb 3 id); discriminate.
Qed.

Lemma onPickupCollision_bounded_witness : ArrowsBounded (exec (onPickupCollision 1 2) (pk_host 2)).
Proof. apply onPickupCollision_bounded. exact pk_host_bounded. Defined.

Lemma onPickupCollision_collects_witness :
  getPlayer (exec (onPickupCollision 1 2) (pk_host 2)) 1 = Some (pk_player 3) /\
  lookup_ent (ents (exec (onPickupCollision 1 2) (pk_host 2))) 2 = None.
Proof.
  destruct (onPickupCollision_collects (pk_host 2) 1 2 (pk_player 2) (vec3 1 0 0))
    as (E1 & E2 & _); [reflexivity | reflexivity | reflexivity | discriminate |].
  split; [rewrite E1; reflexivity | exact E2].
Defined.

Lemma onPickupCollision_full_witness : exec (onPickupCollision 1 2) (pk_host 3) = pk_host 3.
Proof. apply (onPickupCollision_full (pk_host 3) 1 2 (pk_player 3)); [reflexivity | simpl; lia]. Defined.

Lemma spawnerTick_marks_dry_witness :
  getSpawner (exec (spawnerTick 7 (3%Z, mkSpawner 2 0)) (exec (onPickupCollision 1 2) (pk_host 2))) 3 =
  Some (mkSpawner (-1) 7).
Proof.
  rewrite (spawnerTick_marks_dry _ 7 3 (mkSpawner 2 0)); [reflexivity | discriminate | reflexivity | reflexivity].
Defined.

Lemma spawnerTick_respawns_witness :
  getSpawner (exec (spawnerTick 20 (3%Z, mkSpawner (-1) 7)) (pk_host 2)) 3 = Some (mkSpawner 4 0) /\
  getEntityPosition (exec (spawnerTick 20 (3%Z, mkSpawner (-1) 7)) (pk_host 2)) 4 = Some (vec3 0 1 5).
Proof.
  destruct (spawnerTick_respawns (pk_host 2) 20 3 (mkSpawner (-1) 7) (vec3 0 0 5))
    as (E1 & _ & E3 & _); [reflexivity | unfold Qlt; simpl; lia | unfold Qle; simpl; lia | reflexivity | reflexivity |].
  split; [exact E1 | exact E3].
Defined.

Lemma spawnerTick_stuck_at_zero_witness :
  exec (spawnerTick 100 (3%Z, mkSpawner (-1) 0)) (pk_host 2) = pk_host 2.
Proof. apply spawnerTick_stuck_at_zero; reflexivity. Defined.

Lemma pickupsTick_inv_witness : SpawnerInv (exec (pickupsTick 5) (pk_host 2)).
Proof. apply pickupsTick_inv. repeat constructor. Defined.

Lemma spawnerTick_refines_witness :
  phase_of (exec (spawnerTick 7 (3%Z, mkSpawner 2 0)) (exec (onPickupCollision 1 2) (pk_host 2))) 3
  = Some (DryFor 7).
Proof.
  rewrite spawnerTick_refines;
    [reflexivity | reflexivity | intros _; reflexivity | discriminate | reflexivity | discriminate].
Defined.

Lemma collected_pickup_returns_witness :
  exists d1, getSpawner (exec (spawnerTick 7 (3%Z, mkSpawner 2 0)) (exec (onPickupCollision 1 2) (pk_host 2))) 3
             = Some d1 /\
    phase_of (exec (spawnerTick 17 (3%Z, d1))
                (exec (spawnerTick 7 (3%Z, mkSpawner 2 0)) (exec (onPickupCollision 1 2) (pk_host 2)))) 3
    = Some Stocked.
Proof.
  apply collected_pickup_returns;
    [reflexivity | intros _; reflexivity | reflexivity | discriminate | reflexivity | discriminate
    | unfold Qlt; simpl; lia | unfold Qle; simpl; lia].
Defined.
