(* ===== verification/Server.v ===== *)
(** * The server entry point (server.ts) and the server as a state machine

    server.ts registers the handlers of the game's own events: game start
    and player join spawn the players, the three network listeners check
    and relay shots, hits and environmental deaths, and the game tick runs
    the respawn loop (modelled in [Respawn.respawnTick]).  With the modules
    it imports, the server reacts to seven kinds of events; [handle] runs
    every handler registered for one event in the order of registration
    (the imported modules register theirs first: pickups.ts, then
    respawn.ts through bots.ts, then bots.ts, then server.ts), and [step]
    is the resulting transition relation on the whole server state. *)

From Stdlib Require Import QArith ZArith List String Lqa Lia.
From stdpp Require Import base tactics gmap.
From S2P Require Import Prelude Host Respawn Bots Roster Pickups.
Import ListNotations.
Open Scope Q_scope.
Open Scope bow_scope.

(** [J.getAllPlayers()]: the connected players, the entities with a
    username (bots have none). *)
Definition getAllPlayers (h : Host) : list EntityId :=
  map fst (List.filter (fun '(_, e) => match e_username e with Some _ => true | None => false end) (ents h)).

Definition with_spawnPositions (s : Server) (l : list Vec3) : Server :=
  mkServer (sv_host s) (botStates s) (botIds s) (lastBotCountCheckTime s) l.

Section Handlers.
Context `{Engine}.

(** respawn.ts 107-115: [spawnPositions] becomes the positions of the
    respawners; the [!] of line 112 throws at a respawner without a
    position, which leaves the positions gathered so far. *)
Definition respawnGameStart : Act Server unit :=
  s <- get ;;
  put (with_spawnPositions s (collectSpawnPositions (ents (sv_host s)))).

(** server.ts 13-15. *)
Definition serverGameStart : Act Server unit :=
  h <- host ;;
  for_each (getAllPlayers h) (fun id =>
    s <- get ;;
    _ <- spawnPlayer (spawnPositions s) id false ;;
    ret tt).

(** server.ts 17. *)
Definition onPlayerJoin (id : EntityId) : Act Server unit :=
  s <- get ;;
  _ <- spawnPlayer (spawnPositions s) id false ;;
  ret tt.

(** server.ts 19-31: a shot costs the sender one arrow; a sender with
    none is ignored.  [sendToAll]'s third argument names the sender. *)
Definition onArrowCommand (viewRay : Ray) (draw : Q) (ownerId : EntityId) (netId : Z)
  (senderId : EntityId) : Act Server unit :=
  h <- host ;;
  playerTrait <- need (getPlayer h senderId) ;;
  if Z.leb (arrowCount playerTrait) 0 then leave else
  setPlayer senderId (set_arrowCount playerTrait (arrowCount playerTrait - 1)) ;;
  emit (SendToAllFrom (ArrowCommand viewRay draw ownerId netId) senderId).

(** server.ts 33-49. *)
Definition onHitCommand (attackerId victimId : EntityId) (position : Vec3) (netId : Z)
  : Act Server unit :=
  killPlayer victimId ;;
  let isSuicide := Z.eqb attackerId victimId in
  h <- host ;;
  (match getPlayer h attackerId with
   | Some a =>
     when (negb isSuicide)
       (setPlayer attackerId (mkPlayer (kills a + 1) (deathCount a) (respawnTime a) (arrowCount a)
                                       (maxArrows a) (clock h) (name a) (killStreak a + 1)))
   | None => ret tt
   end) ;;
  emit (SendToAll (HitCommand attackerId victimId position netId)).

(** server.ts 51-54. *)
Definition onEnvironmentalDeath (victimId : EntityId) (reason : string) : Act Server unit :=
  killPlayer victimId ;;
  emit (SendToAll (EnvironmentalDeathCommand victimId reason)).
End Handlers.

(** ** Events and the server's transition relation *)

Inductive Event : Type :=
| GameStart
| PlayerJoin (id : EntityId)
| ArrowMsg (viewRay : Ray) (draw : Q) (ownerId : EntityId) (netId : Z) (senderId : EntityId)
| HitMsg (attackerId victimId : EntityId) (position : Vec3) (netId : Z)
| EnvDeathMsg (victimId : EntityId) (reason : string)
| PickupCollision (playerId pickupId : EntityId)
| GameTick (t : Q).

Section Machine.
Context `{Engine}.

(** Every handler registered for the event, in registration order. *)
Definition handle (ev : Event) : Act Server unit :=
  match ev with
  | GameStart => call pickupsGameStart ;; call respawnGameStart ;; call serverGameStart
  | PlayerJoin id => call (onPlayerJoin id)
  | ArrowMsg vr d o n sid => call (onArrowCommand vr d o n sid)
  | HitMsg a v p n => call (onHitCommand a v p n)
  | EnvDeathMsg v r => call (onEnvironmentalDeath v r)
  | PickupCollision p k => call (onPickupCollision p k)
  | GameTick t =>
    call (pickupsTick t) ;; call (botTick t) ;;
    s <- get ;; call (respawnTick (spawnPositions s) t)
  end.

Inductive step : Server -> Server -> Prop :=
| step_event s ev : step s (exec (handle ev) s).

(** The server before any event: the host as the level loads it, no bots. *)
Definition initial (h : Host) : Server := mkServer h ∅ [] 0 [].

Inductive Reachable (h0 : Host) : Server -> Prop :=
| reach_init : Reachable h0 (initial h0)
| reach_step s s' : Reachable h0 s -> step s s' -> Reachable h0 s'.
End Machine.

(** ** The roster invariant on every reachable state *)

(** Handlers outside bots.ts leave the bot module's ids and the keys of its
    states alone and never lower the host's next entity id. *)
Definition Grow (s s' : Server) : Prop :=
  botIds s' = botIds s /\ (forall id, is_Some (botStates s' !! id) <-> is_Some (botStates s !! id)) /\
  (next_id (sv_host s) <= next_id (sv_host s'))%Z.

#[export] Instance Grow_preorder : PreOrder Grow.
Proof.
  split; [intros s; repeat split; auto; lia|].
  intros s1 s2 s3 (I1 & B1 & N1) (I2 & B2 & N2).
  split; [congruence|]. split; [intros id; rewrite B2; apply B1 | lia].
Qed.

Lemma Grow_RosterInv s s' : Grow s s' -> RosterInv s -> RosterInv s'.
Proof.
  intros (I & B & N) (Hnd & Hdom & Hlt). unfold RosterInv. rewrite I.
  split; [exact Hnd|]. split; [intros id; rewrite B; apply Hdom|].
  intros id Hin. specialize (Hlt id Hin). lia.
Qed.

Lemma Frame_Grow s s' : Frame s s' -> Grow s s'.
Proof. intros (I & D & _ & N & _). split; [exact I|]. split; [exact D | lia]. Qed.

Lemma Grow_frame {A} (m : Act Server A) : Rel Frame m -> Rel Grow m.
Proof. apply Rel_weaken, Frame_Grow. Qed.

Lemma Grow_host_only s h' : (next_id (sv_host s) <= next_id h')%Z -> Grow s (set_host s h').
Proof. intros N. split; [reflexivity|]. split; [reflexivity | exact N]. Qed.

Ltac grow_base :=
  intros ?; unfold_host_ops; unfold exec, bind, ret; simpl;
  split; [reflexivity|]; split; [reflexivity|]; simpl; lia.

Section GrowOps.
Context `{Engine}.

Lemma Grow_spawnProp a : Rel Grow (spawnProp a).
Proof. grow_base. Qed.
Lemma Grow_setPickup id : Rel Grow (setPickup id).
Proof. grow_base. Qed.
Lemma Grow_setSpawner id sp : Rel Grow (setSpawner id sp).
Proof. grow_base. Qed.
Lemma Grow_removeEntity id : Rel Grow (removeEntity id).
Proof. grow_base. Qed.
Lemma respawnGameStart_grow : Rel Grow respawnGameStart.
Proof. intros s. split; [reflexivity|]. split; [reflexivity | simpl; lia]. Qed.
End GrowOps.

#[export] Hint Resolve Grow_spawnProp Grow_setPickup Grow_setSpawner Grow_removeEntity : bow.

Ltac grown :=
  repeat (cbv beta zeta;
    first [ solve [eauto with bow]
          | solve [apply Grow_frame; framed]
          | rel_step
          | progress case_match ]).

Section GrowHandlers.
Context `{Engine}.

Lemma killPlayer_frame id : Rel Frame (killPlayer (St:=Server) id).
Proof. unfold killPlayer. framed. Qed.

Hint Resolve killPlayer_frame : bow.

Lemma respawnTick_frame sps t : Rel Frame (respawnTick (St:=Server) sps t).
Proof. unfold respawnTick. framed. Qed.

Lemma pickups_grow t : Rel Grow (pickupsTick (St:=Server) t).
Proof. unfold pickupsTick, spawnerTick, spawnPickup. grown. Qed.

Lemma pickupsGameStart_grow : Rel Grow (pickupsGameStart (St:=Server)).
Proof. unfold pickupsGameStart, spawnPickup. grown. Qed.

Lemma onPickupCollision_grow p k : Rel Grow (onPickupCollision (St:=Server) p k).
Proof. unfold onPickupCollision. grown. Qed.

Lemma onArrowCommand_frame vr d o n sid : Rel Frame (onArrowCommand vr d o n sid).
Proof. unfold onArrowCommand. framed. Qed.

Lemma onHitCommand_frame a v p n : Rel Frame (onHitCommand a v p n).
Proof. unfold onHitCommand. framed. Qed.

Lemma onEnvironmentalDeath_frame v r : Rel Frame (onEnvironmentalDeath v r).
Proof. unfold onEnvironmentalDeath. framed. Qed.

Lemma serverGameStart_frame : Rel Frame serverGameStart.
Proof. unfold serverGameStart. framed. Qed.

Lemma onPlayerJoin_frame id : Rel Frame (onPlayerJoin id).
Proof. unfold onPlayerJoin. framed. Qed.
End GrowHandlers.

Section Reach.
Context `{Engine} `{!RandomInRange}.

Lemma handle_preserves ev : Rel (Preserves RosterInv) (handle ev).
Proof.
  assert (HG : forall m : Act Server unit, Rel Grow m -> Rel (Preserves RosterInv) m)
    by (intros m; apply Rel_weaken; intros s s' Hg; exact (Grow_RosterInv s s' Hg)).
  assert (HF : forall m : Act Server unit, Rel Frame m -> Rel (Preserves RosterInv) m)
    by (intros m Hm; apply HG, Grow_frame, Hm).
  destruct ev; unfold handle; repeat rel_step.
  - apply HG, pickupsGameStart_grow.
  - apply HG, respawnGameStart_grow.
  - apply HF, serverGameStart_frame.
  - apply HF, onPlayerJoin_frame.
  - apply HF, onArrowCommand_frame.
  - apply HF, onHitCommand_frame.
  - apply HF, onEnvironmentalDeath_frame.
  - apply HG, onPickupCollision_grow.
  - apply HG, pickups_grow.
  - apply botTick_preserves.
  - intros s Hs. exact Hs.
  - apply HF, respawnTick_frame.
Qed.

(** (C10) Every state the server reaches from a freshly loaded level
    satisfies the roster invariant: the bot ids are distinct, they are the
    keys of the bot states, and each is an id the host has allocated. *)
Theorem reachable_RosterInv h0 s : Reachable h0 s -> RosterInv s.
Proof.
  induction 1 as [|s s' _ IH Hstep].
  - split; [constructor|]. split; [|intros ? []].
    intros id. simpl. rewrite lookup_empty. split; [intros [] | intros [? ?]; discriminate].
  - destruct Hstep as [s ev]. exact (handle_preserves ev s IH).
Qed.
End Reach.

(** ** The network listeners *)

Section Listeners.
Context `{Engine}.

Lemma exec_onArrowCommand s vr d o n sid p :
  getPlayer (sv_host s) sid = Some p -> (0 < arrowCount p)%Z ->
  exec (onArrowCommand vr d o n sid) s =
  set_host s (mkHost (update_ent (ents (sv_host s)) sid (fun e => with_player e (set_arrowCount p (arrowCount p - 1))))
                     (clock (sv_host s)) (draws (sv_host s)) (next_id (sv_host s))
                     (log (sv_host s) ++ [SendToAllFrom (ArrowCommand vr d o n) sid])).
Proof.
  intros Hp Hc. unfold onArrowCommand. unfold_host_ops. unfold exec, bind. simpl.
  rewrite Hp. simpl. replace (Z.leb (arrowCount p) 0) with false by lia. reflexivity.
Qed.

(** (C12) The server accepts a shot from a player with arrows: the sender
    loses exactly one arrow and the shot is relayed to every client. *)
Theorem onArrowCommand_spends_one s vr d o n sid p :
  getPlayer (sv_host s) sid = Some p -> (0 < arrowCount p)%Z ->
  let h' := sv_host (exec (onArrowCommand vr d o n sid) s) in
  getPlayer h' sid = Some (set_arrowCount p (arrowCount p - 1)) /\
  log h' = log (sv_host s) ++ [SendToAllFrom (ArrowCommand vr d o n) sid].
Proof.
  intros Hp Hc. cbv zeta. rewrite (exec_onArrowCommand s vr d o n sid p Hp Hc). split; [|reflexivity].
  change (getPlayer (with_ents (sv_host s) (update_ent (ents (sv_host s)) sid
            (fun e => with_player e (set_arrowCount p (arrowCount p - 1))))) sid =
          Some (set_arrowCount p (arrowCount p - 1))).
  rewrite getPlayer_setPlayer, Z.eqb_refl. unfold getPlayer in Hp.
  destruct (lookup_ent (ents (sv_host s)) sid); [reflexivity | discriminate].
Qed.

(** (C13) A shot from a sender without a player trait or without arrows
    is dropped: the state is unchanged and nothing is relayed. *)
Theorem onArrowCommand_no_arrows s vr d o n sid :
  (forall p, getPlayer (sv_host s) sid = Some p -> (arrowCount p <= 0)%Z) ->
  exec (onArrowCommand vr d o n sid) s = s.
Proof.
  intros Hp. unfold onArrowCommand, exec, bind, host. simpl.
  destruct (getPlayer (sv_host s) sid) as [p|] eqn:E; simpl; [|reflexivity].
  specialize (Hp p eq_refl). replace (Z.leb (arrowCount p) 0) with true by lia. reflexivity.
Qed.

(** (C14) A hit credits the attacker with a kill, one more in its streak
    and the current time as its last kill, whenever attacker and victim
    differ, whatever the victim's state: a victim already dead is killed
    and credited again. *)
Theorem onHitCommand_credits_attacker s a v pos n ap :
  a <> v -> getPlayer (sv_host s) a = Some ap ->
  getPlayer (sv_host (exec (onHitCommand a v pos n) s)) a =
    Some (mkPlayer (kills ap + 1) (deathCount ap) (respawnTime ap) (arrowCount ap) (maxArrows ap)
                   (clock (sv_host s)) (name ap) (killStreak ap + 1)).
Proof.
  intros Hne Ha. destruct (killPlayer_run s v) as (s1 & E1 & C1 & L1).
  unfold onHitCommand. rewrite (exec_bind_some _ _ _ s1 tt E1). cbv zeta.
  assert (Ha1 : getPlayer (sv_host s1) a = Some ap) by (unfold getPlayer in *; simpl in L1; rewrite L1; assumption).
  unfold exec, bind, host at 1. simpl. rewrite Ha1. simpl.
  replace (Z.eqb a v) with false by (symmetry; apply Z.eqb_neq; exact Hne). simpl.
  unfold_host_ops. simpl. simpl in C1. rewrite C1.
  change (getPlayer (with_ents (sv_host s1) (update_ent (ents (sv_host s1)) a (fun e => with_player e
            (mkPlayer (kills ap + 1) (deathCount ap) (respawnTime ap) (arrowCount ap) (maxArrows ap)
                      (clock (sv_host s)) (name ap) (killStreak ap + 1))))) a =
          Some (mkPlayer (kills ap + 1) (deathCount ap) (respawnTime ap) (arrowCount ap) (maxArrows ap)
                         (clock (sv_host s)) (name ap) (killStreak ap + 1))).
  rewrite getPlayer_setPlayer, Z.eqb_refl. unfold getPlayer in Ha1.
  destruct (lookup_ent (ents (sv_host s1)) a); [reflexivity | discriminate].
Qed.
End Listeners.

(** ** Examples

    A level with a human player 1 (three arrows), a respawner 2, a bot
    character 3 (already dead, no arrows) and a human player 4. *)

Definition srv_player (arrows : Z) : PlayerTrait := mkPlayer 0 0 0 arrows 3 0 "Legolas"%string 0.
Definition srv_host : Host :=
  mkHost [(1%Z, mkEntity (Some vzero) true None (Some (srv_player 3)) false None false (Some "legolas"%string) None None);
          (2%Z, mkEntity (Some (vec3 20 0 0)) false None None false None true None None None);
          (3%Z, mkEntity (Some (vec3 5 0 0)) false None (Some (srv_player 0)) false None false None None None);
          (4%Z, mkEntity (Some (vec3 9 0 0)) true None (Some (srv_player 2)) false None false (Some "gimli"%string) None None)]
         0 0 5 [].

Definition srv_rs : list Q := [1#2; 1#4; 1#2; 1#3; 3#4; 0; 1#5; 1#6; 1#7].

Lemma srv_rs_range : Forall (fun r => 0 <= r /\ r < 1) srv_rs.
Proof. repeat constructor; unfold Qle, Qlt; simpl; lia. Qed.

#[local] Instance srv_engine : Engine := demo_engine srv_rs.
#[local] Instance srv_random : RandomInRange := demo_random_range srv_rs srv_rs_range.

Definition srv_ray : Ray := mkRay vzero (vec3 1 0 0).

Lemma reachable_RosterInv_witness :
  RosterInv (exec (handle (GameTick 1)) (exec (handle GameStart) (initial srv_host))) /\
  length (botIds (exec (handle (GameTick 1)) (exec (handle GameStart) (initial srv_host)))) = 3%nat.
Proof.
  split; [|vm_compute; reflexivity].
  apply (reachable_RosterInv srv_host).
  eapply reach_step; [eapply reach_step; [apply reach_init | constructor] | constructor].
Defined.

Lemma onArrowCommand_spends_one_witness :
  getPlayer (sv_host (exec (onArrowCommand srv_ray 1 1 7 1) (initial srv_host))) 1 = Some (srv_player 2).
Proof.
  destruct (onArrowCommand_spends_one (initial srv_host) srv_ray 1 1 7 1 (srv_player 3)) as [E _];
    [reflexivity | reflexivity |].
  exact E.
Defined.

Lemma onArrowCommand_no_arrows_witness :
  exec (onArrowCommand srv_ray 1 3 7 3) (initial srv_host) = initial srv_host.
Proof.
  apply onArrowCommand_no_arrows. intros p Hp. injection Hp as <-. simpl. lia.
Defined.

Lemma onHitCommand_credits_attacker_witness :
  getCharacterAlive srv_host 3 = false /\
  getPlayer (sv_host (exec (onHitCommand 1 3 (vec3 5 0 0) 7) (initial srv_host))) 1 =
    Some (mkPlayer 1 0 0 3 3 0 "Legolas"%string 1).
Proof.
  split; [reflexivity|].
  exact (onHitCommand_credits_attacker (initial srv_host) 1 3 (vec3 5 0 0) 7 (srv_player 3)
           ltac:(discriminate) eq_refl).
Defined.
