(* ===== verification/Ammo.v ===== *)
(** * Ammunition stays in range on every reachable server state

    A player trait carries [arrowCount] and [maxArrows].  Every handler
    of the server that writes a player trait either builds a fresh one with
    three of three arrows (createBot, the first spawn), keeps the count
    (killPlayer, the attacker's kill), refills it to three (spawnPlayer),
    spends one only when there is one (onArrowCommand, a bot's shot), or
    adds one only below the maximum (onPickupCollision).  [AmmoInv] states
    the resulting invariant of the host: every player trait has
    [0 <= arrowCount <= maxArrows = 3].  [AmmoKept] relates a state to a
    later one whose host keeps the invariant; every host operation and
    every handler is proved to be [AmmoKept], the handlers through the
    tactic [ammo], and so is every step of the server machine. *)

From Stdlib Require Import QArith ZArith List String Lqa Lia.
From stdpp Require Import base tactics gmap.
From S2P Require Import Prelude Host Targeting Respawn Bots Roster Pickups Server.
Import ListNotations.
Open Scope Z_scope.

Definition ammo_ok (p : PlayerTrait) : Prop :=
  0 <= arrowCount p <= maxArrows p /\ maxArrows p = 3.

Definition AmmoInv (h : Host) : Prop :=
  forall id e p, In (id, e) (ents h) -> e_player e = Some p -> ammo_ok p.

Lemma lookup_ent_in l id e : lookup_ent l id = Some e -> In (id, e) l.
Proof.
  induction l as [|[i e'] l IH]; simpl; [discriminate|].
  destruct (Z.eqb_spec i id) as [-> | _]; [intros [= ->]; left; reflexivity | intros H; right; auto].
Qed.

Lemma getPlayer_ok h id p : AmmoInv h -> getPlayer h id = Some p -> ammo_ok p.
Proof.
  unfold getPlayer. intros Hi. destruct (lookup_ent (ents h) id) as [e|] eqn:E; [|discriminate].
  apply (Hi id e p), lookup_ent_in, E.
Qed.

(** An update of the entities that keeps every player trait, or writes an
    ammo-safe one, keeps the invariant. *)
Lemma AmmoInv_update h id f :
  (forall e p, e_player (f e) = Some p -> e_player e = Some p \/ ammo_ok p) ->
  AmmoInv h -> AmmoInv (with_ents h (update_ent (ents h) id f)).
Proof.
  intros Hf Hi i e p Hin Hp. simpl in Hin. unfold update_ent in Hin.
  apply in_map_iff in Hin as ([i' e'] & Heq & Hin).
  destruct (Z.eqb i' id); injection Heq as <- <-.
  - destruct (Hf e' p Hp) as [Hp' | Hok]; [exact (Hi _ _ _ Hin Hp') | exact Hok].
  - exact (Hi _ _ _ Hin Hp).
Qed.

Section Kept.
Context `{Engine} {St : Type} `{HasHost St} `{!HasHostLaws St}.

(** [AmmoKept s s']: if the host of [s] keeps the invariant, so does the
    host of [s']. *)
Definition AmmoKept (s s' : St) : Prop := AmmoInv (host_of s) -> AmmoInv (host_of s').

#[export] Instance AmmoKept_preorder : PreOrder AmmoKept.
Proof. split; [intros s Hs; exact Hs | intros s1 s2 s3 H12 H23 Hs; apply H23, H12, Hs]. Qed.

Lemma Kept_upd_host f : (forall h, AmmoInv h -> AmmoInv (f h)) -> Rel AmmoKept (upd_host (St:=St) f).
Proof. intros Hf s Hs. unfold exec, upd_host. simpl. rewrite host_set_get. apply Hf, Hs. Qed.

Lemma Kept_host : Rel AmmoKept (host (St:=St)).
Proof. intros s Hs. exact Hs. Qed.

Lemma Kept_random : Rel AmmoKept (random (St:=St)).
Proof. intros s Hs. unfold exec, random. simpl. rewrite host_set_get. exact Hs. Qed.

Lemma Kept_emit c : Rel AmmoKept (emit (St:=St) c).
Proof. apply Kept_upd_host. intros h Hh. exact Hh. Qed.

Lemma Kept_setPlayer id p : ammo_ok p -> Rel AmmoKept (setPlayer (St:=St) id p).
Proof. intros Hp. apply Kept_upd_host. intros h. apply AmmoInv_update. intros e q [= <-]. right. exact Hp. Qed.

Lemma Kept_keep_player id f :
  (forall e, e_player (f e) = e_player e) -> Rel AmmoKept (upd_host (St:=St) (fun h => with_ents h (update_ent (ents h) id f))).
Proof. intros Hf. apply Kept_upd_host. intros h. apply AmmoInv_update. intros e p E. left. rewrite <- Hf. exact E. Qed.

Lemma Kept_setAlive id b : Rel AmmoKept (setAlive (St:=St) id b).
Proof. apply Kept_keep_player. reflexivity. Qed.
Lemma Kept_setPickup id : Rel AmmoKept (setPickup (St:=St) id).
Proof. apply Kept_keep_player. reflexivity. Qed.
Lemma Kept_setSpawner id sp : Rel AmmoKept (setSpawner (St:=St) id sp).
Proof. apply Kept_keep_player. reflexivity. Qed.
Lemma Kept_setCollider id c : Rel AmmoKept (setCollider (St:=St) id c).
Proof. apply Kept_keep_player. reflexivity. Qed.

Lemma Kept_setEntityVelocity id v : Rel AmmoKept (setEntityVelocity (St:=St) id v).
Proof. unfold setEntityVelocity. apply Rel_seq; [exact _ | apply Kept_emit | intros _; apply Kept_keep_player; reflexivity]. Qed.

Lemma Kept_setEntityPosition id p : Rel AmmoKept (setEntityPosition (St:=St) id p).
Proof.
  unfold setEntityPosition. apply Rel_seq; [exact _ | apply Kept_emit | intros _].
  destruct p; [apply Kept_keep_player; reflexivity | apply Rel_ret; exact _].
Qed.

Lemma Kept_removeEntity id : Rel AmmoKept (removeEntity (St:=St) id).
Proof.
  unfold removeEntity. apply Rel_seq; [exact _ | apply Kept_emit | intros _].
  apply Kept_upd_host. intros h Hh i e p Hin. simpl in Hin. unfold remove_ent in Hin.
  apply List.filter_In in Hin as [Hin _]. exact (Hh i e p Hin).
Qed.

(** A fresh entity carries no player trait. *)
Lemma AmmoInv_append h e id : e_player e = None -> AmmoInv h -> AmmoInv (mkHost (ents h ++ [(id, e)]) (clock h) (draws h) (next_id h) (log h)).
Proof.
  intros He Hh i e' p Hin Hp. simpl in Hin. apply in_app_or in Hin as [Hin | [[= <- <-] | []]].
  - exact (Hh i e' p Hin Hp).
  - congruence.
Qed.

Lemma Kept_spawnProp asset : Rel AmmoKept (spawnProp (St:=St) asset).
Proof.
  unfold spawnProp. apply Rel_seq; [exact _ | apply Kept_host | intros h0].
  apply Rel_seq; [exact _ | apply Kept_upd_host; intros h Hh; apply AmmoInv_append; [reflexivity | exact Hh] | intros _].
  apply Rel_seq; [exact _ | apply Kept_emit | intros _; apply Rel_ret; exact _].
Qed.

(** Reading the host: the continuation may rely on every player trait of
    the host it read being ammo-safe. *)
Lemma Kept_read_host {B} (k : Host -> Act St B) :
  (forall h, (forall id p, getPlayer h id = Some p -> ammo_ok p) -> Rel AmmoKept (k h)) ->
  Rel AmmoKept (bind host k).
Proof. intros Hk s Hs. apply (Hk (host_of s) (fun id p E => getPlayer_ok _ _ _ Hs E) s Hs). Qed.

Lemma Rel_when_if (R : St -> St -> Prop) `{!Reflexive R} (b : bool) (m : Act St unit) :
  (b = true -> Rel R m) -> Rel R (when b m).
Proof. intros Hm. destruct b; [apply Hm; reflexivity | apply Rel_ret; exact _]. Qed.
End Kept.

Section FreshCharacter.
Context `{Engine} {St : Type} `{HasHost St} `{!HasHostLaws St}.
Hypothesis fresh_character_no_player : e_player fresh_character = None.

Lemma Kept_spawnCharacter avatar : Rel AmmoKept (spawnCharacter (St:=St) avatar).
Proof.
  unfold spawnCharacter. apply Rel_seq; [exact _ | apply Kept_host | intros h0].
  apply Rel_seq; [exact _ | apply Kept_upd_host; intros h Hh; apply AmmoInv_append; assumption | intros _].
  apply Rel_seq; [exact _ | apply Kept_emit | intros _; apply Rel_ret; exact _].
Qed.
End FreshCharacter.

(** The host calls that leave every trait's ammunition alone. *)
Ltac ammo_host :=
  first [ apply Kept_host | apply Kept_random | apply Kept_emit | apply Kept_setAlive
        | apply Kept_setPickup | apply Kept_setSpawner | apply Kept_setCollider
        | apply Kept_setEntityVelocity | apply Kept_setEntityPosition | apply Kept_removeEntity
        | apply Kept_spawnProp ].

(** [ammo_safe] proves that a trait the code writes is ammo-safe, from
    the traits it was read from and the guards that led there. *)
Ltac ammo_safe :=
  repeat match goal with
  | H : getPlayer ?h ?i = Some ?p, Hh : forall id p, getPlayer ?h id = Some p -> ammo_ok p |- _ =>
    pose proof (Hh _ _ H); clear H
  end;
  unfold ammo_ok, set_arrowCount in *; simpl in *;
  rewrite ?Z.leb_le, ?Z.leb_gt, ?Z.ltb_lt, ?Z.ltb_ge in *; lia.

(** [ammo] proves [Rel AmmoKept] of a handler phase by phase. *)
Ltac ammo :=
  repeat (cbv beta zeta;
    match goal with
    | |- Rel _ (bind host _) => apply Kept_read_host; intros ?h ?Hh
    | |- Rel _ (when _ _) => refine (Rel_when_if _ _ _ _); intros ?Hb
    | |- Rel _ (setPlayer _ _) => apply Kept_setPlayer; ammo_safe
    | |- Rel _ (match ?x with _ => _ end) => destruct x eqn:?
    | |- Rel _ (if ?x then _ else _) => destruct x eqn:?
    | _ => first [ rel_step | ammo_host | solve [eauto with ammo] | intros ?s ?Hs; exact Hs ]
    end).

Section Handlers.
Context `{Engine}.
Hypothesis fresh_character_no_player : e_player fresh_character = None.
Create HintDb ammo.
#[local] Hint Extern 1 (Rel _ (spawnCharacter _)) => apply Kept_spawnCharacter; assumption : ammo.

Lemma killPlayer_ammo id : Rel AmmoKept (killPlayer (St:=Server) id).
Proof. unfold killPlayer. ammo. Qed.

Lemma spawnPlayer_ammo sps id b : Rel AmmoKept (spawnPlayer (St:=Server) sps id b).
Proof. unfold spawnPlayer. ammo. Qed.

Lemma onArrowCommand_ammo vr d o n sid : Rel AmmoKept (onArrowCommand vr d o n sid).
Proof. unfold onArrowCommand. ammo. Qed.

Lemma onHitCommand_ammo a v p n : Rel AmmoKept (onHitCommand a v p n).
Proof. unfold onHitCommand. ammo; apply killPlayer_ammo. Qed.

Lemma onPickupCollision_ammo p k : Rel AmmoKept (onPickupCollision (St:=Server) p k).
Proof. unfold onPickupCollision. ammo. Qed.

Lemma Kept_need_bot id : Rel AmmoKept (need_bot id).
Proof. intros s. unfold exec, need_bot, need. destruct (botStates s !! id); intros Hs; exact Hs. Qed.
Lemma Kept_bot_modify id f : Rel AmmoKept (bot_modify id f).
Proof. intros s Hs. exact Hs. Qed.
#[local] Hint Resolve Kept_need_bot Kept_bot_modify : ammo.

Lemma findRandomPickup_ammo : Rel AmmoKept (findRandomPickup (St:=Server)).
Proof. unfold findRandomPickup. ammo. Qed.
Lemma try_shoot_ammo id t d : Rel AmmoKept (try_shoot id t d).
Proof. unfold try_shoot. ammo. Qed.
#[local] Hint Resolve findRandomPickup_ammo try_shoot_ammo : ammo.

(** Every phase of [updateBotAI]: only the shot writes a trait, and it
    fires only with an arrow in hand. *)
Lemma updateBotAI_ammo id t : Rel AmmoKept (updateBotAI id t).
Proof.
  unfold updateBotAI, dead_branch, engage, engage_enemy, idle_gate, travel_continue, reselect.
  ammo.
Qed.

Lemma createBot_ammo : Rel AmmoKept createBot.
Proof. unfold createBot. ammo. Qed.
#[local] Hint Resolve updateBotAI_ammo createBot_ammo spawnPlayer_ammo : ammo.

Lemma botTick_ammo t : Rel AmmoKept (botTick t).
Proof. unfold botTick, maintainBotCount, expire, spawnReplacement, removeBot. ammo. Qed.

Lemma respawnTick_ammo sps t : Rel AmmoKept (respawnTick (St:=Server) sps t).
Proof. unfold respawnTick. ammo. Qed.

Lemma pickupsGameStart_ammo : Rel AmmoKept (pickupsGameStart (St:=Server)).
Proof. unfold pickupsGameStart, spawnPickup. ammo. Qed.

Lemma pickupsTick_ammo t : Rel AmmoKept (pickupsTick (St:=Server) t).
Proof. unfold pickupsTick, spawnerTick, spawnPickup. ammo. Qed.
Lemma respawnGameStart_ammo : Rel AmmoKept respawnGameStart.
Proof. intros s Hs. exact Hs. Qed.

#[local] Hint Resolve respawnGameStart_ammo killPlayer_ammo onArrowCommand_ammo onHitCommand_ammo onPickupCollision_ammo
  botTick_ammo respawnTick_ammo pickupsGameStart_ammo pickupsTick_ammo : ammo.

(** Every event's handlers, in the order [Server.handle] runs them. *)
Lemma handle_keeps_ammo ev : Rel AmmoKept (handle ev).
Proof.
  destruct ev; unfold handle, serverGameStart, onPlayerJoin, onEnvironmentalDeath;
    ammo.
Qed.
End Handlers.

(** ** The ammunition invariant on every reachable state *)

Section Reach.
Context `{Engine}.
Hypothesis fresh_character_no_player : e_player fresh_character = None.

(** (C11) On every state the server reaches from a level whose players
    are ammo-safe, every player still holds between 0 and its maximum of
    three arrows: a shot needs an arrow (server.ts 22, bots.ts 252), a
    pickup needs a free slot (pickup.ts 70), respawns and new bots start
    full, and nothing else writes [arrowCount] or [maxArrows]. *)
Theorem reachable_AmmoInv h0 s : AmmoInv h0 -> Reachable h0 s -> AmmoInv (sv_host s).
Proof.
  intros H0. induction 1 as [|s s' _ IH Hstep]; [exact H0|].
  destruct Hstep as [s ev]. exact (handle_keeps_ammo fresh_character_no_player ev s IH).
Qed.
End Reach.

(** ** A decision procedure for the invariant *)

Definition ammo_okb (p : PlayerTrait) : bool :=
  (0 <=? arrowCount p) && (arrowCount p <=? maxArrows p) && (maxArrows p =? 3).

Definition AmmoInvb (h : Host) : bool :=
  forallb (fun '(_, e) => match e_player e with Some p => ammo_okb p | None => true end) (ents h).

Lemma ammo_okb_spec p : ammo_okb p = true <-> ammo_ok p.
Proof. unfold ammo_okb, ammo_ok. rewrite !andb_true_iff, Z.leb_le, Z.leb_le, Z.eqb_eq. tauto. Qed.

Lemma AmmoInvb_sound h : AmmoInvb h = true -> AmmoInv h.
Proof.
  unfold AmmoInvb. rewrite forallb_forall. intros Hb id e p Hin Hp.
  apply ammo_okb_spec. specialize (Hb _ Hin). simpl in Hb. rewrite Hp in Hb. exact Hb.
Qed.

(** ** Example: the level of [Server.srv_host] through a game start, a
    shot, a hit and a tick. *)

#[local] Instance ammo_engine : Engine := demo_engine srv_rs.

Definition ammo_run : Server :=
  exec (handle (GameTick 1))
    (exec (handle (HitMsg 1 4 vzero 7))
       (exec (handle (ArrowMsg (mkRay vzero (vec3 1 0 0)) 1 1 7 1))
          (exec (handle GameStart) (initial srv_host)))).

Lemma reachable_AmmoInv_witness : AmmoInv (sv_host ammo_run) /\ AmmoInvb (sv_host ammo_run) = true.
Proof.
  split; [|vm_compute; reflexivity].
  apply (@reachable_AmmoInv ammo_engine eq_refl srv_host); [apply AmmoInvb_sound; vm_compute; reflexivity|].
  unfold ammo_run.
  repeat (eapply reach_step; [| constructor]). apply reach_init.
Defined.
