(* ===== verification/Arrow.v ===== *)
(** * Client arrows (client/arrow.ts)

    Every client simulates the arrows it is told about.  An arrow is two
    entities: an invisible collider sphere the physics moves, carrying the
    [ArrowCollider] trait (its owner and how often it bounced off a wall),
    and the visible arrow prop placed along it.  The module keeps the map
    [arrows] from collider to its [ArrowEntry] (a JavaScript [Map]: an
    association list in insertion order) and the set [arrowsHit] of the
    colliders that already hit a player.  A collider hitting a player is
    reported to the server by the client of the shooter, or by the client
    of a victim hit by a bot, once per arrow; after four wall bounces an
    arrow sticks, and stuck arrows vanish ten seconds later, fallen ones
    below [y = -30]. *)

From Stdlib Require Import QArith ZArith List String Lqa Lia.
From stdpp Require Import base tactics.
From S2P Require Import Prelude Host.
Import ListNotations.
Open Scope Q_scope.
Open Scope bow_scope.

Module ArrowModel.

(** Lines 11-21. *)
Record ArrowEntry : Type := mkEntry {
  arrow : EntityId;
  draw : Q;
  ownerId : EntityId;
  netId : Z;
  stuckPos : Vec3;
  stuckDir : Vec3;
  stuckTime : Q;
  lastEffectTime : Q;
  spawnTime : Q;
}.

Definition set_stuck (pos : Vec3) (t : Q) (e : ArrowEntry) : ArrowEntry :=
  mkEntry (arrow e) (draw e) (ownerId e) (netId e) pos (stuckDir e) t (lastEffectTime e) (spawnTime e).
Definition set_stuckDir (d : Vec3) (e : ArrowEntry) : ArrowEntry :=
  mkEntry (arrow e) (draw e) (ownerId e) (netId e) (stuckPos e) d (stuckTime e) (lastEffectTime e) (spawnTime e).
Definition set_lastEffectTime (t : Q) (e : ArrowEntry) : ArrowEntry :=
  mkEntry (arrow e) (draw e) (ownerId e) (netId e) (stuckPos e) (stuckDir e) (stuckTime e) t (spawnTime e).

(** [Map.get], [Map.set] (in place for a present key, appended otherwise)
    and [Map.delete]. *)
Fixpoint map_get {V} (m : list (EntityId * V)) (k : EntityId) : option V :=
  match m with
  | [] => None
  | (k', v) :: m' => if Z.eqb k' k then Some v else map_get m' k
  end.
Definition map_set {V} (m : list (EntityId * V)) (k : EntityId) (v : V) : list (EntityId * V) :=
  if existsb (fun '(k', _) => Z.eqb k' k) m
  then map (fun '(k', v') => if Z.eqb k' k then (k', v) else (k', v')) m
  else m ++ [(k, v)].
Definition map_delete {V} (m : list (EntityId * V)) (k : EntityId) : list (EntityId * V) :=
  List.filter (fun '(k', _) => negb (Z.eqb k' k)) m.

(** The client: its view of the host, the two module variables of lines
    23-24, and [J.getLocalPlayer()]. *)
Record Client : Type := mkClient {
  cl_host : Host;
  arrows : list (EntityId * ArrowEntry);
  arrowsHit : list EntityId;
  localPlayer : EntityId;
}.

#[export] Instance Client_HasHost : HasHost Client := {
  host_of := cl_host;
  set_host c h := mkClient h (arrows c) (arrowsHit c) (localPlayer c);
}.

#[export] Instance Client_HasHostLaws : HasHostLaws Client.
Proof. constructor. reflexivity. Qed.

Definition with_arrows (c : Client) (m : list (EntityId * ArrowEntry)) : Client :=
  mkClient (cl_host c) m (arrowsHit c) (localPlayer c).
Definition with_arrowsHit (c : Client) (l : list EntityId) : Client :=
  mkClient (cl_host c) (arrows c) l (localPlayer c).

(** [J.assets.props["Arrow"].bounds.z] is a property of the asset: a
    parameter of the client. *)
Section Client.
Context `{Engine}.
Variable arrowBoundsZ : Q.
(** [Math.sin(40 * elapsed) * Math.exp(-3 * elapsed) * 0.15]. *)
Variable stuck_wobble : Q -> Q.

Definition arrowSize : Q := 1#5.
Definition arrowOffset : Q := arrowBoundsZ / 2 * arrowSize.

(** player.ts 112-115: [pos !== null && pos[1] > 25]. *)
Definition isInTutorialArea (h : Host) (id : EntityId) : bool :=
  match getEntityPosition h id with Some p => Qltb 25 (vy p) | None => false end.

(** Lines 30-40. *)
Definition deleteArrow (nid : Z) : Act Client unit :=
  c <- get ;;
  match List.find (fun '(_, e) => Z.eqb (netId e) nid) (arrows c) with
  | Some (coll, entry) =>
    removeEntity coll ;;
    removeEntity (arrow entry) ;;
    modify (fun c => with_arrows c (map_delete (arrows c) coll)) ;;
    modify (fun c => with_arrowsHit c (List.filter (fun x => negb (Z.eqb x coll)) (arrowsHit c)))
  | None => ret tt
  end.

(** Lines 42-61. *)
Definition updateArrowTransform (entry : ArrowEntry) (pos dir : Vec3) (wobble : Q) : Act Client unit :=
  let wobbledDir := normalize (vec3 (vx dir + wobble) (vy dir + wobble) (vz dir)) in
  let offset := vscale wobbledDir arrowOffset in
  let arrowPos := vsub pos offset in
  setEntityPosition (arrow entry) (Some arrowPos) ;;
  emit (Effect "setEntityQuaternion" (arrow entry)).

(** Lines 63-98. *)
Definition spawnArrow (viewRay : Ray) (d : Q) (owner : EntityId) (nid : Z) : Act Client unit :=
  let spawnPos := vadd (origin viewRay) (direction viewRay) in
  let speed := 50 * ((1#2) + d) in
  let vel := vscale (direction viewRay) speed in
  coll <- spawnProp "Arrow Hit Sphere" ;;
  setEntityPosition coll (Some spawnPos) ;;
  setEntityVelocity coll vel ;;
  emit (Effect "setEntityVisible" coll) ;;
  setCollider coll (mkCollider 0 owner) ;;
  a <- spawnProp "Arrow" ;;
  emit (SetEntityScale a arrowSize) ;;
  emit (Effect "setEntityGlow" a) ;;
  h <- host ;;
  let currentTime := clock h in
  let entry := mkEntry a d owner nid vzero (vec3 0 0 1) 0 (currentTime + (1#10)) currentTime in
  modify (fun c => with_arrows c (map_set (arrows c) coll entry)) ;;
  updateArrowTransform entry spawnPos (direction viewRay) 0.

(** Lines 100-138: a collider touching a block at [pos] bounces; the
    fourth bounce sticks the arrow and removes the collider.  The sound's
    detune falls with every bounce. *)
Definition onBlockCollision (pos : Vec3) (entityId : EntityId) : Act Client unit :=
  h <- host ;;
  match getCollider h entityId with
  | None => ret tt
  | Some trait =>
    let trait' := mkCollider (wallBounce trait + 1) (Host.ownerId trait) in
    setCollider entityId trait' ;;
    c <- get ;;
    let entry := map_get (arrows c) entityId in
    let baseDetune := match entry with Some e => draw e * 400 | None => 0 end in
    let detune := baseDetune - inject_Z (wallBounce trait') * 50 in
    let collPos := getEntityPosition h entityId in
    (match collPos with Some _ => emit (Effect "spawnArrowReflectionParticles" entityId) | None => ret tt end) ;;
    if Z.leb 4 (wallBounce trait') then
      (match entry with
       | Some e =>
         h <- host ;;
         let e' := set_stuck (match collPos with Some p => p | None => stuckPos e end) (clock h) e in
         modify (fun c => with_arrows c (map_set (arrows c) entityId e')) ;;
         emit (Effect "setEntityGlow" (arrow e)) ;;
         emit (Effect "setEntityTint" (arrow e))
       | None => ret tt
       end) ;;
      removeEntity entityId ;;
      emit (PlaySoundAt "arrow_stuck" pos 2 (Some detune))
    else emit (PlaySoundAt "arrow_reflect" pos 2 (Some detune))
  end.

(** Lines 140-197: a collider touching a player. *)
Definition onArrowHit (playerId arrowId : EntityId) : Act Client unit :=
  c <- get ;;
  if existsb (Z.eqb arrowId) (arrowsHit c) then leave else
  h <- host ;;
  arrowTrait <- need (getCollider h arrowId) ;;
  if negb (getCharacterAlive h playerId) then leave else
  let localPlayerId := localPlayer c in
  let owner := Host.ownerId arrowTrait in
  let isArrowOwnerBot := match getPlayerUsername h owner with
                         | Some u => String.eqb u ""
                         | None => true
                         end in
  let shouldProcessHit := Z.eqb owner localPlayerId || (Z.eqb playerId localPlayerId && isArrowOwnerBot) in
  if negb shouldProcessHit then leave else
  entry <- need (map_get (arrows c) arrowId) ;;
  arrowPos <- need (getEntityPosition h arrowId) ;;
  let flightTime := clock h - spawnTime entry in
  let isSuicide := Z.eqb owner playerId in
  if isSuicide && Qltb flightTime (3#100) then leave else
  modify (fun c => with_arrowsHit c (if existsb (Z.eqb arrowId) (arrowsHit c) then arrowsHit c
                                     else arrowsHit c ++ [arrowId])) ;;
  when (Z.eqb owner localPlayerId && negb isSuicide) (emit (PlaySound "hit" (3#20) None)) ;;
  if isInTutorialArea h localPlayerId then leave else
  emit (Send (HitCommand owner playerId arrowPos (netId entry))).

(** Lines 241-247: an arrow below [y = -30] is to be deleted, any other
    is placed. *)
Definition arrowPlace (entry : ArrowEntry) (pos dir : Vec3) (wobble : Q) : Act Client bool :=
  if Qltb (vy pos) (-30) then ret true
  else updateArrowTransform entry pos dir wobble ;; ret false.

(** Lines 205-247: one arrow of the tick, [true] when it is to be deleted;
    [leave] is the [continue] of line 225.  [J.vec3.normalize(entry.stuckDir,
    vel)] writes the flight direction into the entry's [stuckDir]. *)
Definition arrowStep (t : Q) (coll : EntityId) (entry : ArrowEntry) : Act Client bool :=
  if Qltb 0 (stuckTime entry) then
    let elapsed := t - stuckTime entry in
    if Qle_bool 10 elapsed then ret true
    else arrowPlace entry (stuckPos entry) (stuckDir entry) (stuck_wobble elapsed)
  else
    h <- host ;;
    match getEntityPosition h coll, getEntityVelocity h coll with
    | Some collPos, Some vel =>
      let dir := normalize vel in
      let effect := Qle_bool (1#20) (t - lastEffectTime entry) in
      let entry' := if effect then set_lastEffectTime t (set_stuckDir dir entry) else set_stuckDir dir entry in
      modify (fun c => with_arrows c (map_set (arrows c) coll entry')) ;;
      when effect (emit (Effect "spawnArrowTrailParticle" coll)) ;;
      arrowPlace entry' collPos dir 0
    | _, _ => leave
    end.

(** Lines 202-248: the loop, collecting [arrowsToDelete]. *)
Fixpoint arrowLoop (t : Q) (l : list (EntityId * ArrowEntry)) (acc : list EntityId)
  : Act Client (list EntityId) :=
  match l with
  | [] => ret acc
  | (coll, entry) :: l' =>
    fun c => let (c', r) := arrowStep t coll entry c in
             arrowLoop t l' (match r with Some true => acc ++ [coll] | _ => acc end) c'
  end.

(** Lines 199-258. *)
Definition arrowTick : Act Client unit :=
  h <- host ;;
  let t := clock h in
  c <- get ;;
  arrowsToDelete <- arrowLoop t (arrows c) [] ;;
  for_each arrowsToDelete (fun coll =>
    c <- get ;;
    match map_get (arrows c) coll with
    | Some entry =>
      removeEntity (arrow entry) ;;
      modify (fun c => with_arrows c (map_delete (arrows c) coll)) ;;
      modify (fun c => with_arrowsHit c (List.filter (fun x => negb (Z.eqb x coll)) (arrowsHit c)))
    | None => ret tt
    end).

(** player.ts 25-41: sound and particles at the victim, and the camera
    turned to the killer on the victim's own client. *)
Definition handlePlayerDeath (victimId : EntityId) (position : Vec3) (killerId : EntityId) : Act Client unit :=
  emit (PlaySoundAt "src_assets_audio_sfx_damage" position 1 None) ;;
  emit (Effect "spawnPlayerDeathParticles" victimId) ;;
  c <- get ;;
  when (Z.eqb victimId (localPlayer c)) (emit (Effect "setCameraZoomTarget" killerId)).

(** Lines 260-267: the two listeners that change the arrows. *)
Definition onArrowCommandClient (viewRay : Ray) (d : Q) (owner : EntityId) (nid : Z) : Act Client unit :=
  spawnArrow viewRay d owner nid.

Definition onHitCommandClient (attackerId victimId : EntityId) (position : Vec3) (nid : Z) : Act Client unit :=
  handlePlayerDeath victimId position attackerId ;;
  deleteArrow nid.
End Client.
End ArrowModel.

(** ** Properties of the hit report *)

Import ArrowModel.

(** The [HitCommand]s a client sent to the server. *)
Definition is_hit_send (c : HostCall) : bool :=
  match c with Send (HitCommand _ _ _ _) => true | _ => false end.

Definition hit_sends (l : list HostCall) : nat := length (List.filter is_hit_send l).

Lemma hit_sends_app l1 l2 : hit_sends (l1 ++ l2) = (hit_sends l1 + hit_sends l2)%nat.
Proof. unfold hit_sends. rewrite filter_app, length_app. reflexivity. Qed.

Lemma existsb_Zeqb_false a l : existsb (Z.eqb a) l = false -> ~ In a l.
Proof.
  intros E Hin. assert (existsb (Z.eqb a) l = true) by (apply existsb_exists; exists a; split; [exact Hin | apply Z.eqb_refl]).
  congruence.
Qed.

Section HitProofs.
Context `{Engine}.

(** An arrow that already hit is ignored. *)
Lemma onArrowHit_already_hit p a c : In a (arrowsHit c) -> exec (onArrowHit p a) c = c.
Proof.
  intros Hin. assert (E : existsb (Z.eqb a) (arrowsHit c) = true)
    by (apply existsb_exists; exists a; split; [exact Hin | apply Z.eqb_refl]).
  unfold onArrowHit, exec, bind, get, leave. simpl. rewrite E. reflexivity.
Qed.

(** What one collision can do: nothing, or record the arrow as hit (it was
    not, and it is a known arrow) and log at most one [HitCommand]. *)
Lemma onArrowHit_shape p a c :
  let c' := exec (onArrowHit p a) c in
  arrows c' = arrows c /\ ents (cl_host c') = ents (cl_host c) /\
  (c' = c \/
   exists L, log (cl_host c') = log (cl_host c) ++ L /\ arrowsHit c' = arrowsHit c ++ [a] /\
     ~ In a (arrowsHit c) /\ map_get (arrows c) a <> None /\ (hit_sends L <= 1)%nat).
Proof.
  destruct (existsb (Z.eqb a) (arrowsHit c)) eqn:E1.
  - unfold onArrowHit, exec, bind, get, leave. simpl. rewrite E1.
    split; [reflexivity|]; split; [reflexivity|]; left; reflexivity.
  - pose proof (existsb_Zeqb_false _ _ E1) as Hn.
    unfold onArrowHit. unfold_host_ops. unfold exec, bind, leave, need, when, ret, get, modify. simpl. rewrite E1.
    repeat (case_match; simplify_eq/=); try (split; [reflexivity|]; split; [reflexivity|]; left; reflexivity).
    all: split; [reflexivity|]; split; [reflexivity|]; right; eexists;
      (split; [first [rewrite <- ?app_assoc; reflexivity | symmetry; apply app_nil_r]|]);
      split; [reflexivity|]; split; [exact Hn|]; split; [congruence | cbn; lia].
Qed.

(** The touches of one arrow by the players [ps], in order. *)
Definition touches (ps : list EntityId) (a : EntityId) (c : Client) : Client :=
  fold_left (fun c p => exec (onArrowHit p a) c) ps c.

(** Once an arrow is recorded as hit, no touch changes anything. *)
Lemma touches_already_hit ps a c : In a (arrowsHit c) -> touches ps a c = c.
Proof.
  revert c. induction ps as [|p ps IH]; intros c Hin; [reflexivity|].
  unfold touches. simpl. rewrite onArrowHit_already_hit by exact Hin. apply IH, Hin.
Qed.

(** (C22) However many players an arrow touches, one after the other,
    the client reports at most one hit for it: the first report records
    the arrow in [arrowsHit], and every later touch is ignored. *)
Theorem onArrowHit_reports_once ps a c :
  (hit_sends (log (cl_host (touches ps a c))) <= hit_sends (log (cl_host c)) + 1)%nat.
Proof.
  revert c. induction ps as [|p ps IH]; intros c; [unfold touches; simpl; lia|].
  unfold touches. simpl. fold (touches ps a (exec (onArrowHit p a) c)).
  destruct (onArrowHit_shape p a c) as (_ & _ & [E | (L & El & Eh & _ & _ & Hs)]).
  - rewrite E. apply IH.
  - rewrite touches_already_hit by (rewrite Eh; apply in_or_app; right; left; reflexivity).
    rewrite El, hit_sends_app. lia.
Qed.
End HitProofs.

Section HitGuards.
Context `{Engine}.

(** A client reports a hit only when it owns the arrow or is the
    victim: an arrow of one player (or bot) hitting another, neither of
    them the client's local player, is ignored.  Bots are no client's local
    player, so no client ever reports a bot's arrow hitting a bot. *)
Theorem onArrowHit_needs_local_party p a c :
  (forall tr, getCollider (cl_host c) a = Some tr -> Host.ownerId tr <> localPlayer c) ->
  p <> localPlayer c ->
  exec (onArrowHit p a) c = c.
Proof.
  intros Hown Hp. unfold onArrowHit, exec, bind, get, host, need, leave. simpl.
  destruct (existsb (Z.eqb a) (arrowsHit c)); [reflexivity|]. simpl.
  destruct (getCollider (cl_host c) a) as [tr|] eqn:Ec; [|reflexivity]. simpl.
  destruct (negb (getCharacterAlive (cl_host c) p)); [reflexivity|].
  specialize (Hown tr eq_refl). apply Z.eqb_neq in Hown, Hp. rewrite Hown, Hp. reflexivity.
Qed.

(** An arrow touching its own shooter within 0.03 s of being
    spawned is ignored, and stays available for a later hit. *)
Theorem onArrowHit_suicide_grace p a c tr e :
  getCollider (cl_host c) a = Some tr -> Host.ownerId tr = p ->
  map_get (arrows c) a = Some e -> clock (cl_host c) - spawnTime e < 3#100 ->
  exec (onArrowHit p a) c = c.
Proof.
  intros Hc Ho He Ht. unfold onArrowHit, exec, bind, get, host, need, leave. simpl.
  destruct (existsb (Z.eqb a) (arrowsHit c)); [reflexivity|]. simpl. rewrite Hc. simpl.
  destruct (negb (getCharacterAlive (cl_host c) p)); [reflexivity|].
  destruct (negb (_ || _)); [reflexivity|]. simpl. rewrite He. simpl.
  destruct (getEntityPosition (cl_host c) a); [|reflexivity]. simpl.
  rewrite Ho, Z.eqb_refl. replace (Qltb (clock (cl_host c) - spawnTime e) (3#100)) with true
    by (symmetry; apply Qltb_iff; exact Ht).
  reflexivity.
Qed.
End HitGuards.

Lemma map_get_update {V} (m : list (EntityId * V)) k v k' :
  map_get (map (fun '(k0, v0) => if Z.eqb k0 k then (k0, v) else (k0, v0)) m) k' =
  if Z.eqb k k' then (if existsb (fun '(k0, _) => Z.eqb k0 k) m then Some v else None)
  else map_get m k'.
Proof.
  induction m as [|[k0 v0] m IH]; simpl; [destruct (Z.eqb k k'); reflexivity|].
  destruct (Z.eqb_spec k0 k) as [-> | Hne]; simpl.
  - rewrite IH. destruct (Z.eqb k k'); reflexivity.
  - rewrite IH. destruct (Z.eqb_spec k0 k') as [-> | Hne'].
    + destruct (Z.eqb_spec k k') as [-> | _]; [contradiction | reflexivity].
    + reflexivity.
Qed.

Lemma map_get_snoc {V} (m : list (EntityId * V)) k v k' :
  map_get (m ++ [(k, v)]) k' =
  match map_get m k' with Some x => Some x | None => if Z.eqb k k' then Some v else None end.
Proof.
  induction m as [|[k0 v0] m IH]; simpl; [reflexivity|].
  destruct (Z.eqb k0 k'); [reflexivity | exact IH].
Qed.

Lemma map_get_absent {V} (m : list (EntityId * V)) k :
  existsb (fun '(k0, _) => Z.eqb k0 k) m = false -> map_get m k = None.
Proof.
  induction m as [|[k0 v0] m IH]; simpl; [reflexivity|].
  intros E. apply orb_false_iff in E as [E0 E]. rewrite E0. exact (IH E).
Qed.

Lemma map_get_set {V} (m : list (EntityId * V)) k v k' :
  map_get (map_set m k v) k' = if Z.eqb k k' then Some v else map_get m k'.
Proof.
  unfold map_set. destruct (existsb (fun '(k0, _) => Z.eqb k0 k) m) eqn:E.
  - rewrite map_get_update, E. reflexivity.
  - rewrite map_get_snoc. destruct (Z.eqb_spec k k') as [<- | _].
    + rewrite (map_get_absent m k E). reflexivity.
    + destruct (map_get m k'); reflexivity.
Qed.

Section Bounce.
Context `{Engine}.

(** The fourth wall bounce sticks the arrow: the collider is removed
    and the arrow's entry records where and when it stuck. *)
Theorem onBlockCollision_fourth_bounce_sticks c pos coll o e p :
  getCollider (cl_host c) coll = Some (mkCollider 3 o) ->
  map_get (arrows c) coll = Some e -> getEntityPosition (cl_host c) coll = Some p ->
  let c' := exec (onBlockCollision pos coll) c in
  lookup_ent (ents (cl_host c')) coll = None /\
  map_get (arrows c') coll = Some (set_stuck p (clock (cl_host c)) e).
Proof.
  intros Hc He Hp. unfold onBlockCollision. unfold_host_ops.
  unfold exec, bind, get, modify, ret. simpl. rewrite Hc. simpl. rewrite He, Hp. simpl.
  split; [rewrite lookup_remove_ent, Z.eqb_refl; reflexivity|].
  rewrite map_get_set, Z.eqb_refl. reflexivity.
Qed.

(** The first three bounces only count: the collider stays, with
    its bounce count one higher, and the arrow is left in flight. *)
Theorem onBlockCollision_bounces c pos coll w o :
  getCollider (cl_host c) coll = Some (mkCollider w o) -> (w < 3)%Z ->
  let c' := exec (onBlockCollision pos coll) c in
  getCollider (cl_host c') coll = Some (mkCollider (w + 1) o) /\ arrows c' = arrows c.
Proof.
  intros Hc Hw. unfold onBlockCollision. unfold_host_ops.
  unfold exec, bind, get, modify, ret. simpl. rewrite Hc. simpl.
  replace (Z.leb 4 (w + 1)) with false by lia.
  destruct (getEntityPosition (cl_host c) coll); simpl;
    (split; [|reflexivity]); unfold getCollider in *; simpl; rewrite lookup_update_ent, Z.eqb_refl;
    destruct (lookup_ent (ents (cl_host c)) coll); [reflexivity | discriminate | reflexivity | discriminate].
Qed.

(** From the fourth bounce on the collider is gone. *)
Lemma onBlockCollision_sticks_at c pos coll w o :
  getCollider (cl_host c) coll = Some (mkCollider w o) -> (3 <= w)%Z ->
  getCollider (cl_host (exec (onBlockCollision pos coll) c)) coll = None.
Proof.
  intros Hc Hw. unfold onBlockCollision. unfold_host_ops.
  unfold exec, bind, get, modify, ret. simpl. rewrite Hc. simpl.
  replace (Z.leb 4 (w + 1)) with true by lia.
  destruct (getEntityPosition (cl_host c) coll), (map_get (arrows c) coll); simpl;
    unfold getCollider; simpl; rewrite lookup_remove_ent, Z.eqb_refl; reflexivity.
Qed.

Lemma onBlockCollision_no_collider c pos coll :
  getCollider (cl_host c) coll = None -> exec (onBlockCollision pos coll) c = c.
Proof. intros Hc. unfold onBlockCollision, exec, bind, host. simpl. rewrite Hc. reflexivity. Qed.

(** [BounceStep coll c' c]: a wall collision of the collider [coll], at
    any position, took [c] to [c'] and the arrow is still flying. *)
Definition BounceStep (coll : EntityId) (c' c : Client) : Prop :=
  exists pos, c' = exec (onBlockCollision pos coll) c /\ getCollider (cl_host c') coll <> None.

(** The bounces an arrow has left. *)
Definition bounces_left (coll : EntityId) (c : Client) : nat :=
  match getCollider (cl_host c) coll with
  | Some t => Z.to_nat (4 - wallBounce t)
  | None => 0
  end.

Lemma BounceStep_decreases coll c' c : BounceStep coll c' c -> (bounces_left coll c' < bounces_left coll c)%nat.
Proof.
  intros (pos & -> & Hlive). unfold bounces_left.
  destruct (getCollider (cl_host c) coll) as [[w o]|] eqn:Hc.
  - destruct (Z.le_gt_cases 3 w) as [Hw | Hw].
    + exfalso. apply Hlive. exact (onBlockCollision_sticks_at c pos coll w o Hc Hw).
    + destruct (onBlockCollision_bounces c pos coll w o Hc Hw) as [-> _]. cbn [wallBounce]. lia.
  - exfalso. apply Hlive. rewrite onBlockCollision_no_collider by exact Hc. exact Hc.
Qed.

(** (C23) Every arrow stops bouncing: there is no infinite sequence of wall
    collisions that leaves the arrow flying, since each such collision
    lowers the bounces left ([4 - wallBounce]) and a collider with none
    left is removed by the next one. *)
Theorem wall_bounces_terminate coll : well_founded (BounceStep coll).
Proof. apply (well_founded_lt_compat _ (bounces_left coll)). intros c' c. apply BounceStep_decreases. Qed.
End Bounce.

(** ** The hit set only names known arrows *)

Definition HitInv (c : Client) : Prop := forall x, In x (arrowsHit c) -> map_get (arrows c) x <> None.

(** A step that keeps the hit set and every known arrow. *)
Definition ArrowsGrow (c c' : Client) : Prop :=
  arrowsHit c' = arrowsHit c /\ forall x, map_get (arrows c) x <> None -> map_get (arrows c') x <> None.

#[export] Instance ArrowsGrow_preorder : PreOrder ArrowsGrow.
Proof.
  split; [intros c; split; auto|].
  intros c1 c2 c3 [H1 K1] [H2 K2]. split; [congruence | auto].
Qed.

Lemma ArrowsGrow_HitInv c c' : ArrowsGrow c c' -> HitInv c -> HitInv c'.
Proof. intros [Eh K] Hi x Hx. rewrite Eh in Hx. apply K, Hi, Hx. Qed.

Lemma ArrowsGrow_host c h : ArrowsGrow c (set_host c h).
Proof. split; auto. Qed.

Lemma ArrowsGrow_set c k v : ArrowsGrow c (with_arrows c (map_set (arrows c) k v)).
Proof.
  split; [reflexivity|]. intros x Hx. simpl. rewrite map_get_set.
  destruct (Z.eqb k x); [discriminate | exact Hx].
Qed.

Lemma HitInv_delete c coll :
  HitInv c ->
  HitInv (with_arrowsHit (with_arrows c (map_delete (arrows c) coll))
            (List.filter (fun x => negb (Z.eqb x coll)) (arrowsHit c))).
Proof.
  intros Hi x Hx. simpl in *. apply filter_In in Hx as [Hx Hne].
  apply negb_true_iff, Z.eqb_neq in Hne. specialize (Hi x Hx). unfold map_delete.
  induction (arrows c) as [|[k v] m IH]; simpl in *; [exact Hi|].
  destruct (Z.eqb_spec k coll) as [-> | Hk]; simpl.
  - destruct (Z.eqb_spec coll x) as [-> | _]; [contradiction | exact (IH Hi)].
  - destruct (Z.eqb k x); [discriminate | exact (IH Hi)].
Qed.

Section GrowOps.
Context `{Engine}.
Lemma AG_emit c0 : Rel ArrowsGrow (@emit Client _ c0).
Proof. intros c. apply ArrowsGrow_host. Qed.
Lemma AG_setEntityPosition id p : Rel ArrowsGrow (@setEntityPosition Client _ id p).
Proof. intros c. unfold setEntityPosition. unfold_host_ops. unfold exec, bind. destruct p; split; auto. Qed.
Lemma AG_setEntityVelocity id v : Rel ArrowsGrow (@setEntityVelocity Client _ id v).
Proof. intros c. split; auto. Qed.
Lemma AG_setCollider id t : Rel ArrowsGrow (@setCollider Client _ id t).
Proof. intros c. apply ArrowsGrow_host. Qed.
Lemma AG_spawnProp a : Rel ArrowsGrow (@spawnProp Client _ a).
Proof. intros c. split; auto. Qed.
Lemma AG_removeEntity id : Rel ArrowsGrow (@removeEntity Client _ id).
Proof. intros c. split; auto. Qed.
Lemma AG_host : Rel ArrowsGrow (@host Client _).
Proof. intros c. split; auto. Qed.
Lemma AG_get : Rel ArrowsGrow (@get Client).
Proof. intros c. split; auto. Qed.
Lemma AG_set k v : Rel ArrowsGrow (modify (fun c => with_arrows c (map_set (arrows c) k v))).
Proof. intros c. apply ArrowsGrow_set. Qed.
End GrowOps.

#[export] Hint Resolve AG_emit AG_setEntityPosition AG_setEntityVelocity AG_setCollider AG_spawnProp
  AG_removeEntity AG_host AG_get AG_set : bow.

Ltac arrows_grow :=
  repeat (cbv beta zeta;
    first [ solve [eauto with bow]
          | rel_step
          | progress case_match ]).

Section GrowHandlers.
Context `{Engine}.
Variable arrowBoundsZ : Q.
Variable stuck_wobble : Q -> Q.

Lemma spawnArrow_grow vr d o n : Rel ArrowsGrow (spawnArrow arrowBoundsZ vr d o n).
Proof. unfold spawnArrow, updateArrowTransform. arrows_grow. Qed.

Lemma onBlockCollision_grow pos coll : Rel ArrowsGrow (onBlockCollision pos coll).
Proof. unfold onBlockCollision. arrows_grow. Qed.

Lemma arrowStep_grow t coll e : Rel ArrowsGrow (arrowStep arrowBoundsZ stuck_wobble t coll e).
Proof. unfold arrowStep, arrowPlace, updateArrowTransform. arrows_grow. Qed.
End GrowHandlers.

Section HitInvHandlers.
Context `{Engine}.
Variable arrowBoundsZ : Q.
Variable stuck_wobble : Q -> Q.

Lemma arrowLoop_grow t l acc : Rel ArrowsGrow (arrowLoop arrowBoundsZ stuck_wobble t l acc).
Proof.
  revert acc. induction l as [|[coll e] l IH]; intros acc c; [split; auto|].
  simpl. unfold exec at 1. pose proof (arrowStep_grow arrowBoundsZ stuck_wobble t coll e c) as G.
  unfold exec in G. destruct (arrowStep arrowBoundsZ stuck_wobble t coll e c) as [c' r]. simpl in G.
  etransitivity; [exact G | apply IH].
Qed.

Lemma PH_of_grow {A} (m : Act Client A) : Rel ArrowsGrow m -> Rel (Preserves HitInv) m.
Proof. apply Rel_weaken. intros c c' G Hi. exact (ArrowsGrow_HitInv c c' G Hi). Qed.

Lemma PH_delete coll :
  Rel (Preserves HitInv)
    (modify (fun c => with_arrows c (map_delete (arrows c) coll)) ;;
     modify (fun c => with_arrowsHit c (List.filter (fun x => negb (Z.eqb x coll)) (arrowsHit c)))).
Proof. intros c Hi. exact (HitInv_delete c coll Hi). Qed.

Lemma deleteArrow_inv nid : Rel (Preserves HitInv) (deleteArrow nid).
Proof.
  unfold deleteArrow. rel_step; [apply PH_of_grow, AG_get|].
  case_match; [|apply Rel_ret; exact _]. case_match.
  rel_step; [apply PH_of_grow, AG_removeEntity|]. rel_step; [apply PH_of_grow, AG_removeEntity|].
  apply PH_delete.
Qed.

Lemma arrowTick_inv : Rel (Preserves HitInv) (arrowTick arrowBoundsZ stuck_wobble).
Proof.
  unfold arrowTick. rel_step; [apply PH_of_grow, AG_host|]. cbv zeta.
  rel_step; [apply PH_of_grow, AG_get|]. rel_step; [apply PH_of_grow, arrowLoop_grow|].
  rel_step. rel_step; [apply PH_of_grow, AG_get|].
  case_match; [|apply Rel_ret; exact _].
  rel_step; [apply PH_of_grow, AG_removeEntity|]. apply PH_delete.
Qed.

Lemma onArrowHit_inv p a : Rel (Preserves HitInv) (onArrowHit p a).
Proof.
  intros c Hi. destruct (onArrowHit_shape p a c) as (Ea & _ & [E | (L & _ & Eh & _ & Hk & _)]).
  - rewrite E. exact Hi.
  - intros x Hx. rewrite Ea. rewrite Eh in Hx. apply in_app_or in Hx as [Hx | [<- | []]]; [exact (Hi x Hx) | exact Hk].
Qed.
End HitInvHandlers.

(** ** The client as a state machine *)

(** arrow.ts 269-278: the respawn sound at the respawned player, when it
    has a position. *)
Definition onRespawnCommandSound `{Engine} (playerId : EntityId) : Act Client unit :=
  h <- host ;;
  match getEntityPosition h playerId with
  | Some playerPos => emit (PlaySoundAt "src_assets_audio_sfx_respawn" playerPos (1#2) None)
  | None => ret tt
  end.

Inductive ClientEvent : Type :=
| CArrowMsg (viewRay : Ray) (draw : Q) (ownerId : EntityId) (netId : Z)
| CHitMsg (attackerId victimId : EntityId) (position : Vec3) (netId : Z)
| CBlockCollision (pos : Vec3) (entityId : EntityId)
| CArrowTouch (playerId arrowId : EntityId)
| CGameTick
| CRespawnMsg (playerId : EntityId).

Section ClientMachine.
Context `{Engine}.
Variable arrowBoundsZ : Q.
Variable stuck_wobble : Q -> Q.

(** The handlers of arrow.ts for each event. *)
Definition handleClient (ev : ClientEvent) : Act Client unit :=
  match ev with
  | CArrowMsg vr d o n => call (onArrowCommandClient arrowBoundsZ vr d o n)
  | CHitMsg a v p n => call (onHitCommandClient a v p n)
  | CBlockCollision pos e => call (onBlockCollision pos e)
  | CArrowTouch p a => call (onArrowHit p a)
  | CGameTick => call (arrowTick arrowBoundsZ stuck_wobble)
  | CRespawnMsg p => call (onRespawnCommandSound p)
  end.

(** (C24) Every arrow event keeps the hit set within the known arrows: an
    arrow leaves [arrowsHit] when it leaves [arrows]. *)
Theorem handleClient_HitInv ev c : HitInv c -> HitInv (exec (handleClient ev) c).
Proof.
  revert c. change (Rel (Preserves HitInv) (handleClient ev)).
  destruct ev; simpl; apply Rel_call.
  - apply PH_of_grow, spawnArrow_grow.
  - unfold onHitCommandClient, handlePlayerDeath. rel_step; [|apply deleteArrow_inv].
    apply PH_of_grow. arrows_grow.
  - apply PH_of_grow, onBlockCollision_grow.
  - apply onArrowHit_inv.
  - apply arrowTick_inv.
  - apply PH_of_grow. unfold onRespawnCommandSound. arrows_grow.
Qed.
End ClientMachine.

(** ** Examples

    The client of player 1; bots 2 and 3 have no username.  Collider 10
    (arrow prop 11) was shot by bot 2 a second ago, collider 12 (arrow 13)
    by player 1 just now, and collider 14 (arrow 15) by player 1 has
    bounced three times. *)

Definition cl_player : PlayerTrait := mkPlayer 0 0 0 3 3 0 "Legolas"%string 0.
Definition cl_character (pos : Vec3) (user : option string) : Entity :=
  mkEntity (Some pos) true None (Some cl_player) false None false user None None.
Definition cl_collider (pos : Vec3) (w : Z) (owner : EntityId) : Entity :=
  mkEntity (Some pos) false None None false None false None (Some (mkCollider w owner)) (Some (vec3 1 0 0)).
Definition cl_entry (a : EntityId) (owner : EntityId) (nid : Z) (t0 : Q) : ArrowEntry :=
  mkEntry a 1 owner nid vzero (vec3 0 0 1) 0 (t0 + (1#10)) t0.

Definition cl_client : Client :=
  mkClient (mkHost [(1%Z, cl_character vzero (Some "legolas"%string));
                    (2%Z, cl_character (vec3 10 0 0) None);
                    (3%Z, cl_character (vec3 20 0 0) None);
                    (10%Z, cl_collider (vec3 19 1 0) 0 2); (11%Z, fresh_prop);
                    (12%Z, cl_collider (vec3 0 1 0) 0 1); (13%Z, fresh_prop);
                    (14%Z, cl_collider (vec3 5 1 0) 3 1); (15%Z, fresh_prop)] 5 0 16 [])
           [(10%Z, cl_entry 11 2 7 4); (12%Z, cl_entry 13 1 8 5); (14%Z, cl_entry 15 1 9 3)]
           [] 1.

#[local] Instance cl_engine : Engine := demo_engine [].

Lemma onArrowHit_needs_local_party_witness : exec (onArrowHit 3 10) cl_client = cl_client.
Proof.
  apply onArrowHit_needs_local_party; [|discriminate].
  intros tr Htr. injection Htr as <-. discriminate.
Defined.

Lemma onArrowHit_suicide_grace_witness : exec (onArrowHit 1 12) cl_client = cl_client.
Proof.
  apply (onArrowHit_suicide_grace 1 12 cl_client (mkCollider 0 1) (cl_entry 13 1 8 5));
    [reflexivity | reflexivity | reflexivity | unfold Qlt; simpl; lia].
Defined.

Lemma onBlockCollision_fourth_bounce_sticks_witness :
  lookup_ent (ents (cl_host (exec (onBlockCollision (vec3 5 1 0) 14) cl_client))) 14 = None /\
  map_get (arrows (exec (onBlockCollision (vec3 5 1 0) 14) cl_client)) 14 = Some (set_stuck (vec3 5 1 0) 5 (cl_entry 15 1 9 3)).
Proof. apply (onBlockCollision_fourth_bounce_sticks cl_client (vec3 5 1 0) 14 1); reflexivity. Defined.

Lemma onBlockCollision_bounces_witness :
  getCollider (cl_host (exec (onBlockCollision (vec3 5 1 0) 10) cl_client)) 10 = Some (mkCollider 1 2) /\
  arrows (exec (onBlockCollision (vec3 5 1 0) 10) cl_client) = arrows cl_client.
Proof. apply (onBlockCollision_bounces cl_client (vec3 5 1 0) 10 0 2); [reflexivity | lia]. Defined.

Lemma handleClient_HitInv_witness :
  HitInv (exec (handleClient 10 (fun _ => 0) (CArrowTouch 2 12)) cl_client) /\
  arrowsHit (exec (handleClient 10 (fun _ => 0) (CArrowTouch 2 12)) cl_client) = [12%Z].
Proof.
  split; [|vm_compute; reflexivity].
  apply handleClient_HitInv. intros x [].
Defined.
