(* ===== verification/Hud.v ===== *)
(** * The heads-up display (client/ui.ts)

    The HUD keeps the module variables of ui.ts lines 6-33: the game start
    time, the last time the local player was alive, the death message, the
    arrow count last shown and the start times of the arrow indicators'
    wobble, whether the leaderboard key is held, the pending notification
    and the kill feed.  The DOM elements are write-only for the script: the
    writes of a tick are logged as [DomWrite]s, one per element property
    the code sets from the game state (the fixed CSS of lines 63-186 is not
    modelled).  ui.ts never writes to the host: its handlers read it,
    through the [Host] they are given.

    The elastic wobble [Math.pow(2, -10 * p) * Math.sin((p * 10 - 0.75) * c4)]
    and the label's squared sine are parameters of the section: they are
    cosmetic and only their results are written. *)

From Stdlib Require Import QArith Qminmax Qabs ZArith List String Lqa Lia Sorted Permutation.
From stdpp Require Import base tactics list.
From S2P Require Import Prelude Host.
Import ListNotations.
Open Scope Q_scope.
Open Scope bow_scope.

(** ** State *)

(** Lines 24-31; [isEnvironmental?] is [false] when absent. *)
Record KillFeedEntry : Type := mkFeedEntry {
  killerName : string;
  victimName : string;
  startTime : Q;
  endTime : Q;
  isLocalPlayerKiller : bool;
  isEnvironmental : bool;
}.

(** A leaderboard row (lines 355-385): rank, entity, the name cut to 16
    characters, deaths, kills, the streak shown when at least 2, the
    colour of the local player, the crown of the first row. *)
Record LeaderRow : Type := mkRow {
  rank : nat;
  row_id : EntityId;
  row_name : string;
  row_deaths : Z;
  row_kills : Z;
  row_streak : option Z;
  row_local : bool;
  row_crown : bool;
}.

(** The properties of the DOM elements the script sets from the game
    state.  [Overlay r g b a] is [rgba(r, g, b, a)]. *)
Inductive DomWrite : Type :=
| Overlay (r g b : Z) (alpha : Q)
| TextHtml (html : string)
| TextStyle (opacity scale : Q)
| IndicatorOpacity (i : nat) (opacity : Q)
| IndicatorScale (i : nat) (scale : Q)
| LabelStyle (color : string) (opacity scale : Q)
| LabelOpacity (opacity : Q)
| Notification (html : string) (scale : Q) (customStyle : string)
| NotificationHidden
| Leaderboard (rows : list LeaderRow) (playerCount : option nat)
| KillFeed (rows : list (KillFeedEntry * Q * Q)).

Record Hud : Type := mkHud {
  gameStartTime : Q;
  lastTimeAlive : Q;
  deathMessage : string;
  lastArrowCount : Z;
  arrowWobbleStartTimes : list Q;
  isTabPressed : bool;
  notificationText : string;
  notificationEndTime : Q;
  notificationCustomStyle : string;
  notificationStartTime : Q;
  killFeedEntries : list KillFeedEntry;
  (** [arrowIndicators.length]: the indicators found at game start. *)
  indicatorCount : nat;
  dom : list DomWrite;
}.

(** Lines 6-33: the values before the game starts. *)
Definition hud_initial : Hud :=
  mkHud 0 0 "" 3 [0; 0; 0] false "" 0 "" 0 [] 0 [].

Definition set_feed (u : Hud) (l : list KillFeedEntry) : Hud :=
  mkHud (gameStartTime u) (lastTimeAlive u) (deathMessage u) (lastArrowCount u)
    (arrowWobbleStartTimes u) (isTabPressed u) (notificationText u) (notificationEndTime u)
    (notificationCustomStyle u) (notificationStartTime u) l (indicatorCount u) (dom u).
Definition set_notification (u : Hud) (text : string) (t0 t1 : Q) (style : string) : Hud :=
  mkHud (gameStartTime u) (lastTimeAlive u) (deathMessage u) (lastArrowCount u)
    (arrowWobbleStartTimes u) (isTabPressed u) text t1 style t0
    (killFeedEntries u) (indicatorCount u) (dom u).
Definition set_deathMessage (u : Hud) (m : string) : Hud :=
  mkHud (gameStartTime u) (lastTimeAlive u) m (lastArrowCount u)
    (arrowWobbleStartTimes u) (isTabPressed u) (notificationText u) (notificationEndTime u)
    (notificationCustomStyle u) (notificationStartTime u) (killFeedEntries u) (indicatorCount u) (dom u).
Definition set_tab (u : Hud) (b : bool) : Hud :=
  mkHud (gameStartTime u) (lastTimeAlive u) (deathMessage u) (lastArrowCount u)
    (arrowWobbleStartTimes u) b (notificationText u) (notificationEndTime u)
    (notificationCustomStyle u) (notificationStartTime u) (killFeedEntries u) (indicatorCount u) (dom u).
Definition set_lastTimeAlive (u : Hud) (t : Q) : Hud :=
  mkHud (gameStartTime u) t (deathMessage u) (lastArrowCount u)
    (arrowWobbleStartTimes u) (isTabPressed u) (notificationText u) (notificationEndTime u)
    (notificationCustomStyle u) (notificationStartTime u) (killFeedEntries u) (indicatorCount u) (dom u).
Definition set_wobble (u : Hud) (l : list Q) : Hud :=
  mkHud (gameStartTime u) (lastTimeAlive u) (deathMessage u) (lastArrowCount u)
    l (isTabPressed u) (notificationText u) (notificationEndTime u)
    (notificationCustomStyle u) (notificationStartTime u) (killFeedEntries u) (indicatorCount u) (dom u).
Definition set_lastArrowCount (u : Hud) (n : Z) : Hud :=
  mkHud (gameStartTime u) (lastTimeAlive u) (deathMessage u) n
    (arrowWobbleStartTimes u) (isTabPressed u) (notificationText u) (notificationEndTime u)
    (notificationCustomStyle u) (notificationStartTime u) (killFeedEntries u) (indicatorCount u) (dom u).
Definition set_started (u : Hud) (t : Q) : Hud :=
  mkHud t (lastTimeAlive u) (deathMessage u) (lastArrowCount u)
    (arrowWobbleStartTimes u) (isTabPressed u) (notificationText u) (notificationEndTime u)
    (notificationCustomStyle u) (notificationStartTime u) (killFeedEntries u) (indicatorCount u) (dom u).
(** [arrowIndicators] (line 132) as its length. *)
Definition set_indicatorCount (u : Hud) (n : nat) : Hud :=
  mkHud (gameStartTime u) (lastTimeAlive u) (deathMessage u) (lastArrowCount u)
    (arrowWobbleStartTimes u) (isTabPressed u) (notificationText u) (notificationEndTime u)
    (notificationCustomStyle u) (notificationStartTime u) (killFeedEntries u) n (dom u).

(** Setting a property of an element. *)
Definition paint (w : DomWrite) : Act Hud unit :=
  modify (fun u => mkHud (gameStartTime u) (lastTimeAlive u) (deathMessage u) (lastArrowCount u)
    (arrowWobbleStartTimes u) (isTabPressed u) (notificationText u) (notificationEndTime u)
    (notificationCustomStyle u) (notificationStartTime u) (killFeedEntries u) (indicatorCount u)
    (dom u ++ [w])).

(** ** Operations *)

(** The capacity of the kill feed (line 44). *)
Definition KILL_FEED_MAX : nat := 10.

(** Lines 35-47: the entry goes last, and the oldest goes when there are
    more than ten. *)
Definition addKillFeedEntry (now : Q) (killer victim : string) (isLocalKiller isEnv : bool)
  : Act Hud unit :=
  modify (fun u => set_feed u (killFeedEntries u ++
            [mkFeedEntry killer victim now (now + 5) isLocalKiller isEnv])) ;;
  u <- get ;;
  when (Nat.ltb KILL_FEED_MAX (length (killFeedEntries u)))
    (modify (fun u => set_feed u (tl (killFeedEntries u)))).

(** Lines 49-51. *)
Definition setDeathMessage (message : string) : Act Hud unit :=
  modify (fun u => set_deathMessage u message).

(** Lines 53-59. *)
Definition showNotification (now : Q) (text : string) (duration : Q) (customStyle : string)
  : Act Hud unit :=
  modify (fun u => set_notification u text now (now + duration) customStyle).

(** Lines 61-62: the start time.  The arrow indicators are found in the
    markup by the rest of the handler, [Dom.onGameStartUi]. *)
Definition hudGameStart (now : Q) : Act Hud unit :=
  modify (fun u => set_started u now).

(** Lines 549-559. *)
Definition isLeaderboardKey (key : string) : bool :=
  String.eqb key "r" || String.eqb key "R".
Definition onKeyDown (key : string) : Act Hud unit :=
  when (isLeaderboardKey key) (modify (fun u => set_tab u true)).
Definition onKeyUp (key : string) : Act Hud unit :=
  when (isLeaderboardKey key) (modify (fun u => set_tab u false)).

(** ** The game tick (lines 188-501) *)

(** [J.getAllWithTraits([PlayerTrait])]. *)
Definition playersWithTraits (h : Host) : list (EntityId * PlayerTrait) :=
  flat_map (fun '(i, e) => match e_player e with Some p => [(i, p)] | None => [] end) (ents h).

(** Line 335. *)
Record PlayerStat : Type := mkStat {
  stat_id : EntityId;
  stat_name : string;
  stat_kills : Z;
  stat_deaths : Z;
  stat_streak : Z;
}.

(** Lines 334-347. *)
Definition playerStats (h : Host) : list PlayerStat :=
  map (fun '(i, p) => mkStat i (name p) (kills p) (deathCount p) (killStreak p)) (playersWithTraits h).

(** Line 349: [Array.prototype.sort] with the comparator
    [b.kills - a.kills], a stable sort by decreasing kills, written as an
    insertion sort: [x] goes before the first entry with no more kills. *)
Fixpoint insert_by_kills (x : PlayerStat) (l : list PlayerStat) : list PlayerStat :=
  match l with
  | [] => [x]
  | y :: l' => if (stat_kills y <=? stat_kills x)%Z then x :: l else y :: insert_by_kills x l'
  end.

Fixpoint sort_by_kills (l : list PlayerStat) : list PlayerStat :=
  match l with
  | [] => []
  | x :: l' => insert_by_kills x (sort_by_kills l')
  end.

(** Lines 355-385: [index] counts from [i]. *)
Fixpoint leaderRows (me : EntityId) (i : nat) (top : list PlayerStat) : list LeaderRow :=
  match top with
  | [] => []
  | p :: l =>
    mkRow (S i) (stat_id p) (String.substring 0 16 (stat_name p)) (stat_deaths p) (stat_kills p)
      (if (2 <=? stat_streak p)%Z then Some (stat_streak p) else None)
      (Z.eqb (stat_id p) me) (Nat.eqb i 0)
    :: leaderRows me (S i) l
  end.

Section Tick.
(** [Math.pow(2, -10 * p) * Math.sin((p * 10 - 0.75) * c4)]. *)
Variable elastic : Q -> Q.
(** [Math.sign(s) * Math.pow(Math.abs(s), 0.4)] with [s = Math.sin(t * 10)]. *)
Variable squareSine : Q -> Q.

(** Lines 234-238, 306-310 and 436-440. *)
Definition wobbleAt (progress : Q) : Q :=
  if Qeq_bool progress 0 then 0 else if Qeq_bool progress 1 then 0 else elastic progress.

(** The elastic scale of an element [elapsed] seconds after it appeared:
    lines 230-240, 303-312 and 433-442. *)
Definition popScale (elapsed : Q) : Q :=
  if elapsed <? 2#5 then 1 + wobbleAt (elapsed / (2#5)) * (3#2) else 1.

(** Lines 195-197. *)
Definition darkFadeAlpha (u : Hud) (p : PlayerTrait) (t : Q) : Q :=
  let gameStartFadeIn := Qmax 0 (1 - (t - gameStartTime u) / 2) in
  let respawnFadeInOut :=
    if 0 <? respawnTime p then Qmax 0 (1 - Qabs (respawnTime p - t) / 1) else 0 in
  Qmax gameStartFadeIn respawnFadeInOut.

(** Lines 206-213. *)
Definition detectArrowChange (arrowCount : Z) (t : Q) : Act Hud unit :=
  u <- get ;;
  when (negb (Z.eqb arrowCount (lastArrowCount u)))
    (let changedIndex := Z.min arrowCount (lastArrowCount u) in
     when ((0 <=? changedIndex)%Z && (changedIndex <? Z.of_nat (indicatorCount u))%Z)
       (modify (fun u => set_wobble u (<[Z.to_nat changedIndex := t]> (arrowWobbleStartTimes u)))) ;;
     modify (fun u => set_lastArrowCount u arrowCount)).

(** Lines 218-247, one indicator.  Reading past the end of
    [arrowWobbleStartTimes] gives [undefined], and [undefined > 0] is
    false, as for [0]. *)
Definition indicatorStep (arrowCount : Z) (t : Q) (i : nat) : Act Hud unit :=
  paint (IndicatorOpacity i (if (Z.of_nat i <? arrowCount)%Z then 1 else 3#10)) ;;
  u <- get ;;
  let wobbleStart := nth i (arrowWobbleStartTimes u) 0 in
  if 0 <? wobbleStart then
    let elapsed := t - wobbleStart in
    if elapsed <? 2#5 then paint (IndicatorScale i (popScale elapsed))
    else paint (IndicatorScale i 1) ;;
         modify (fun u => set_wobble u (<[i := 0]> (arrowWobbleStartTimes u)))
  else paint (IndicatorScale i 1).

(** Lines 250-266. *)
Definition arrowLabelUpdate (arrowCount : Z) (isTryingToShoot : bool) (t : Q) : Act Hud unit :=
  if Z.eqb arrowCount 0 && isTryingToShoot
  then paint (LabelStyle "#ff2222" 1 (1 + squareSine t * (1#10)))
  else paint (LabelStyle "white" (3#10) 1).

(** Lines 201-266. *)
Definition aliveView (p : PlayerTrait) (t : Q) (isTryingToShoot : bool) : Act Hud unit :=
  u <- get ;;
  modify (fun u => set_lastTimeAlive u t) ;;
  paint (Overlay 0 0 0 (darkFadeAlpha u p t)) ;;
  paint (TextHtml "") ;;
  detectArrowChange (arrowCount p) t ;;
  u <- get ;;
  for_each (seq 0 (indicatorCount u)) (indicatorStep (arrowCount p) t) ;;
  arrowLabelUpdate (arrowCount p) isTryingToShoot t.

(** Lines 268-281. *)
Definition redOpacity (deathElapsed : Q) : Q := (8#10) - Qmin 1 (deathElapsed / 3) * (6#10).
Definition deathTextOpacity (deathElapsed : Q) : Q :=
  if 1 <? deathElapsed then Qmin 1 ((deathElapsed - 1) / 1) else 0.
Definition deathTextScale (deathElapsed : Q) : Q :=
  let scaleProgress := Qmin 1 (deathElapsed / (5#2)) in
  (3#2) - scaleProgress * scaleProgress * (3 - 2 * scaleProgress) * (1#2).

(** Lines 267-292. *)
Definition deadView (p : PlayerTrait) (t : Q) : Act Hud unit :=
  u <- get ;;
  let darkFade := darkFadeAlpha u p t in
  let deathElapsed := t - lastTimeAlive u in
  let red := redOpacity deathElapsed in
  paint (if 0 <? darkFade then Overlay 0 0 0 (Qmax darkFade red) else Overlay 139 0 0 red) ;;
  paint (TextHtml (deathMessage u)) ;;
  paint (TextStyle (deathTextOpacity deathElapsed) (deathTextScale deathElapsed)) ;;
  for_each (seq 0 (indicatorCount u)) (fun i => paint (IndicatorOpacity i 0)) ;;
  paint (LabelOpacity 0).

(** Lines 294-331. *)
Definition notificationView (isAlive : bool) (t : Q) : Act Hud unit :=
  u <- get ;;
  if isAlive && (t <? notificationEndTime u)
  then paint (Notification (notificationText u) (popScale (t - notificationStartTime u))
                           (notificationCustomStyle u))
  else paint NotificationHidden.

(** Lines 333-417. *)
Definition leaderboardUpdate (h : Host) (me : EntityId) : Act Hud unit :=
  u <- get ;;
  let stats := playerStats h in
  let sorted := sort_by_kills stats in
  let topPlayers := if isTabPressed u then firstn 10 sorted else firstn 5 sorted in
  paint (Leaderboard (leaderRows me 0 topPlayers)
                     (if isTabPressed u then None else Some (length stats))).

(** Lines 426-448: an entry with its opacity and scale. *)
Definition feedRow (t : Q) (e : KillFeedEntry) : KillFeedEntry * Q * Q :=
  let timeRemaining := endTime e - t in
  (e, (if timeRemaining <? 1 then timeRemaining else 1), popScale (t - startTime e)).

(** Lines 419-500. *)
Definition killFeedUpdate (t : Q) : Act Hud unit :=
  modify (fun u => set_feed u (List.filter (fun e => t <? endTime e) (killFeedEntries u))) ;;
  u <- get ;;
  paint (KillFeed (map (feedRow t) (killFeedEntries u))).

(** Lines 188-501.  [id] is [J.getLocalPlayer()], falsy when [0];
    [isTryingToShoot] is [input && input.isPrimaryDown]. *)
Definition hudTick (h : Host) (id : EntityId) (isTryingToShoot : bool) (t : Q) : Act Hud unit :=
  if Z.eqb id 0 then leave else
  player <- need (getPlayer h id) ;;
  let isAlive := getCharacterAlive h id in
  (if isAlive then aliveView player t isTryingToShoot else deadView player t) ;;
  notificationView isAlive t ;;
  leaderboardUpdate h id ;;
  killFeedUpdate t.
End Tick.

(** ** Writes to the DOM

    [Painted P u u']: [u'] is [u] after writes that all satisfy [P]. *)

Definition Painted (P : DomWrite -> Prop) (u u' : Hud) : Prop :=
  exists ws, dom u' = dom u ++ ws /\ Forall P ws.

#[export] Instance Painted_preorder P : PreOrder (Painted P).
Proof.
  split.
  - intros u. exists []. rewrite app_nil_r. auto.
  - intros u1 u2 u3 (ws1 & E1 & F1) (ws2 & E2 & F2). exists (ws1 ++ ws2).
    rewrite E2, E1, app_assoc. split; [reflexivity | apply Forall_app; auto].
Qed.

Lemma Rel_paint P w : P w -> Rel (Painted P) (paint w).
Proof. intros Hw u. exists [w]. split; [reflexivity | constructor; auto]. Qed.

Lemma Rel_modify_hud P (f : Hud -> Hud) : (forall u, dom (f u) = dom u) -> Rel (Painted P) (modify f).
Proof. intros Hf u. exists []. rewrite app_nil_r. split; [apply Hf | constructor]. Qed.

Lemma exec_bind_get {S B} (k : S -> Act S B) s : exec (bind get k) s = exec (k s) s.
Proof. reflexivity. Qed.

Create HintDb hud.
#[export] Hint Extern 1 (Rel _ get) => apply Rel_get; typeclasses eauto : hud.
#[export] Hint Extern 1 (Rel (Painted _) (modify _)) => apply Rel_modify_hud; intros; reflexivity : hud.

(** [painted] proves [Rel (Painted P) m] phase by phase; the condition
    on each write is left to [solve_write]. *)
Ltac painted solve_write :=
  repeat (cbv beta zeta;
    first [ solve [eauto with hud]
          | apply Rel_paint; solve_write
          | rel_step
          | progress case_match ]).

(** ** The kill feed *)

(** The last [n] elements of a list. *)
Definition lastn {A} (n : nat) (l : list A) : list A := skipn (length l - n) l.

Lemma lastn_length {A} n (l : list A) : (length (lastn n l) <= n)%nat.
Proof. unfold lastn. rewrite length_skipn. lia. Qed.

Lemma killFeedUpdate_entries elastic t u :
  killFeedEntries (exec (killFeedUpdate elastic t) u)
  = List.filter (fun e => t <? endTime e) (killFeedEntries u).
Proof. reflexivity. Qed.

(** Every row of the feed that a tick draws is still visible. *)
Lemma killFeedUpdate_rows elastic t u :
  dom (exec (killFeedUpdate elastic t) u)
  = dom u ++ [KillFeed (map (feedRow elastic t) (List.filter (fun e => t <? endTime e) (killFeedEntries u)))]
  /\ forall e o k, In (e, o, k) (map (feedRow elastic t) (List.filter (fun e => t <? endTime e) (killFeedEntries u))) ->
     t < endTime e /\ 0 < o <= 1.
Proof.
  split; [reflexivity|]. intros e o k Hin.
  apply in_map_iff in Hin as (e' & Ee & Hin). apply filter_In in Hin as [_ Ht]. qbool.
  unfold feedRow in Ee. qcase (endTime e' - t <? 1); injection Ee as <- <- _; qlra.
Qed.

Lemma addKillFeedEntry_run now killer victim isL isE u :
  addKillFeedEntry now killer victim isL isE u =
  (set_feed u (let l := killFeedEntries u ++ [mkFeedEntry killer victim now (now + 5) isL isE] in
               if Nat.ltb KILL_FEED_MAX (length l) then tl l else l), Some tt).
Proof. unfold addKillFeedEntry, bind, modify, get, when. simpl. destruct Nat.ltb; reflexivity. Qed.

(** The new entry is the last one of the feed. *)
Lemma addKillFeedEntry_last now killer victim isL isE l :
  exists l', (let l := l ++ [mkFeedEntry killer victim now (now + 5) isL isE] in
              if Nat.ltb KILL_FEED_MAX (length l) then tl l else l)
             = l' ++ [mkFeedEntry killer victim now (now + 5) isL isE].
Proof.
  destruct l as [|x l]; simpl; [exists []; reflexivity|].
  destruct (Nat.ltb _ _); [exists l | exists (x :: l)]; reflexivity.
Qed.

(** (C25) A kill feed of at most ten entries, given a new entry, keeps the
    ten most recent ones in order, the new one last. *)
Theorem addKillFeedEntry_keeps_latest now killer victim isL isE u :
  (length (killFeedEntries u) <= KILL_FEED_MAX)%nat ->
  killFeedEntries (exec (addKillFeedEntry now killer victim isL isE) u)
  = lastn KILL_FEED_MAX (killFeedEntries u ++ [mkFeedEntry killer victim now (now + 5) isL isE]).
Proof.
  intros Hl. unfold addKillFeedEntry, lastn, KILL_FEED_MAX, exec, bind, modify, get, when in *.
  cbn -[Nat.ltb]. rewrite length_app. simpl.
  destruct (Nat.ltb_spec 10 (length (killFeedEntries u) + 1)).
  - replace (length (killFeedEntries u) + 1 - 10)%nat with 1%nat by lia. reflexivity.
  - replace (length (killFeedEntries u) + 1 - 10)%nat with 0%nat by lia. reflexivity.
Qed.

(** ** Opacities

    Every opacity and alpha a tick writes is in [0, 1] (the kill-feed
    rows' in (0, 1]) once the game has started and the player was last
    seen alive in the past. *)

Definition OpacityOk (w : DomWrite) : Prop :=
  match w with
  | Overlay _ _ _ a => 0 <= a <= 1
  | TextStyle o _ | IndicatorOpacity _ o | LabelStyle _ o _ | LabelOpacity o => 0 <= o <= 1
  | KillFeed rows => forall e o k, In (e, o, k) rows -> 0 < o <= 1
  | _ => True
  end.

Lemma darkFadeAlpha_unit u p t : gameStartTime u <= t -> 0 <= darkFadeAlpha u p t <= 1.
Proof.
  intros Hg. unfold darkFadeAlpha. pose proof (Qabs_nonneg (respawnTime p - t)).
  qcase (0 <? respawnTime p); qlra.
Qed.

Lemma redOpacity_range e : 0 <= e -> 1#5 <= redOpacity e <= 4#5.
Proof. intros He. unfold redOpacity. qlra. Qed.

Lemma deathTextOpacity_unit e : 0 <= deathTextOpacity e <= 1.
Proof. unfold deathTextOpacity. qcase (1 <? e); qlra. Qed.

(** The smoothstep [p * p * (3 - 2 * p)] of line 280 stays in [0, 1]. *)
Lemma smoothstep_unit p : 0 <= p <= 1 -> 0 <= p * p * (3 - 2 * p) <= 1.
Proof.
  intros Hp.
  assert (0 <= p * p * (1 - p)) by (apply Qmult_le_0_compat; [apply Qmult_le_0_compat|]; lra).
  assert (0 <= (1 - p) * (1 - p) * (1 + 2 * p))
    by (apply Qmult_le_0_compat; [apply Qmult_le_0_compat|]; lra).
  split; nra.
Qed.

Lemma deathTextScale_range e : 0 <= e -> 1 <= deathTextScale e <= 3#2.
Proof.
  intros He. unfold deathTextScale.
  assert (0 <= Qmin 1 (e / (5#2)) <= 1) as Hp by qlra.
  pose proof (smoothstep_unit _ Hp). lra.
Qed.

Section Opacities.
Variables (elastic squareSine : Q -> Q).

Lemma killFeedUpdate_opacity t : Rel (Painted OpacityOk) (killFeedUpdate elastic t).
Proof.
  intros u. destruct (killFeedUpdate_rows elastic t u) as [E Hrows].
  unfold Painted. rewrite E. eexists. split; [reflexivity|].
  constructor; [|constructor]. simpl. intros ? ? ? Hin. eapply Hrows; exact Hin.
Qed.

Ltac opacity := simpl; repeat case_match; qlra.

Lemma aliveView_opacity p t shoot u : gameStartTime u <= t ->
  Painted OpacityOk u (exec (aliveView elastic squareSine p t shoot) u).
Proof.
  intros Hg. pose proof (darkFadeAlpha_unit u p t Hg).
  unfold aliveView, detectArrowChange, indicatorStep, arrowLabelUpdate.
  rewrite exec_bind_get. at_state. painted opacity.
Qed.

Lemma deadView_opacity p t u : gameStartTime u <= t -> lastTimeAlive u <= t ->
  Painted OpacityOk u (exec (deadView p t) u).
Proof.
  intros Hg Hl. pose proof (darkFadeAlpha_unit u p t Hg).
  assert (0 <= t - lastTimeAlive u) as He by lra.
  pose proof (redOpacity_range _ He). pose proof (deathTextOpacity_unit (t - lastTimeAlive u)).
  unfold deadView. rewrite exec_bind_get. at_state. painted opacity.
Qed.
End Opacities.
#[export] Hint Resolve killFeedUpdate_opacity : hud.

(** (C26) Every opacity and alpha a HUD tick writes lies in [0, 1] (the
    kill-feed rows' in (0, 1]), provided the game started and the local
    player was last alive no later than the tick's time. *)
Theorem hudTick_opacities_in_range elastic squareSine h id shoot t u :
  gameStartTime u <= t -> lastTimeAlive u <= t ->
  Painted OpacityOk u (exec (hudTick elastic squareSine h id shoot t) u).
Proof.
  intros Hg Hl. unfold hudTick. destruct (Z.eqb id 0); [reflexivity|].
  destruct (getPlayer h id) as [p|]; [|reflexivity].
  rewrite (exec_bind_some _ _ u u p eq_refl). refine (Rel_seq_at _ _ _ _ _ _).
  - destruct (getCharacterAlive h id);
      [apply aliveView_opacity | apply deadView_opacity]; assumption.
  - intros _. unfold notificationView, leaderboardUpdate. painted ltac:(exact I).
Qed.

(** ** The leaderboard order

    ECMAScript requires [Array.prototype.sort] to be stable: the result is
    sorted by the comparator and players with as many kills keep their
    order.  [StableSortOf s l] states it; [sort_by_kills l] is the only
    list that satisfies it, so the insertion sort stands for the engine's
    sort whatever algorithm the engine uses. *)

Definition kills_ge (a b : PlayerStat) : Prop := (stat_kills b <= stat_kills a)%Z.


#[export] Instance kills_ge_trans : Transitive kills_ge.
Proof. intros a b c; unfold kills_ge; lia. Qed.







(** ** Examples

    Player 1 (local, alive, two kills in a row) and bot 2 with five
    kills; the game started at time 0 and the player was last seen alive
    at time 20. *)

Definition hud_host : Host :=
  mkHost [(1%Z, mkEntity (Some vzero) true None (Some (mkPlayer 2 1 0 2 3 0 "Legolas" 2)) false None false
                  (Some "legolas"%string) None None);
          (2%Z, mkEntity (Some (vec3 5 0 0)) true None (Some (mkPlayer 5 0 0 3 3 0 "Arc" 5)) false None false
                  None None None)] 30 0 3 [].

Definition hud_state : Hud := mkHud 0 20 "" 3 [0; 0; 0] false "" 0 "" 0 [] 3 [].

Lemma addKillFeedEntry_keeps_latest_witness :
  (length (killFeedEntries hud_state) <= KILL_FEED_MAX)%nat /\
  killFeedEntries (exec (addKillFeedEntry 30 "Arc" "Legolas" false false) hud_state)
  = lastn KILL_FEED_MAX [mkFeedEntry "Arc" "Legolas" 30 (30 + 5) false false].
Proof.
  split; [vm_compute; lia|].
  apply (addKillFeedEntry_keeps_latest 30 "Arc" "Legolas" false false hud_state). vm_compute. lia.
Defined.

Lemma hudTick_opacities_in_range_witness :
  Painted OpacityOk hud_state (exec (hudTick (fun _ => 0) (fun _ => 0) hud_host 1 false 30) hud_state).
Proof. apply hudTick_opacities_in_range; unfold Qle; simpl; lia. Defined.

