(* ===== verification/Progression.v ===== *)
(** * Kill-streak notifications (client/progression.ts) and the HUD's
      network listeners (client/ui.ts lines 503-545)

    [onKill] picks the flavour text and style of the killer's streak from
    a table of 21 entries, past its end grows the font by one pixel per
    kill up to five, and shows the notification for two seconds.  The
    [HitCommand] listener of ui.ts adds a kill-feed entry, calls [onKill]
    when the local player made the kill, and sets the death message when
    the local player died; the [EnvironmentalDeathCommand] listener adds
    an environmental entry.  Reading [.text] of a missing table entry
    throws, which ends the listener: the monad's [leave].

    Strings are Rocq strings of bytes; [substring(0, 16)] counts UTF-16
    code units where [String.substring] counts bytes, which agree on
    ASCII names.  A double quote inside a template is the string [dq]. *)

From Stdlib Require Import QArith ZArith List String DecimalString Ascii Lqa Lia.
From stdpp Require Import base tactics.
From S2P Require Import Prelude Host Hud.
Import ListNotations.
Open Scope Q_scope.
Open Scope bow_scope.

Definition dq : string := String (ascii_of_nat 34) EmptyString.

(** A number in a template literal, for integers. *)
Definition js_number (n : Z) : string := NilZero.string_of_int (Z.to_int n).

Record StreakEntry : Type := mkStreak { ks_text : string; ks_style : string }.

(** Lines 5-86. *)
Definition killStreakData : list StreakEntry := [
  mkStreak "" "";
  mkStreak "Killed " "";
  mkStreak "🤝 Double Tap" "color: #90EE90; font-size: 21px;";
  mkStreak "🥭 Mango Rush" "color: #FFD700; font-size: 22px;";
  mkStreak "💥 Quad Kill" "color: #FFD700; font-size: 23px;";
  mkStreak "🗡️ Penta Kill" "color: #FF8C00; animation: bounce 0.5s; font-size: 24px;";
  mkStreak "😵 What??" "color: #FF8C00; animation: bounce 0.5s; font-size: 24px;";
  mkStreak "❤️‍🔥 Ultra Kill" "color: #9370DB; animation: pulse 0.8s infinite; font-size: 26px;";
  mkStreak "✨ M-M-MONSTER KILL" "color: #9370DB; animation: pulse 0.8s infinite; font-size: 26px;";
  mkStreak "🕶️ It's nothing.." "color: #9370DB; animation: pulse 0.8s infinite; font-size: 26px;";
  mkStreak "💣 RAMPAGE" "color: #FF1493; animation: rainbow 1s infinite, shake 0.3s; font-size: 28px;";
  mkStreak "🕯️ ????" "color: #FF1493; animation: rainbow 1s infinite, shake 0.3s; font-size: 28px;";
  mkStreak "😹 GODLIKE" "color: #FF1493; animation: rainbow 1s infinite, shake 0.3s; font-size: 29px;";
  mkStreak "🌶️ LEGENDARY" "color: #FF1493; animation: rainbow 1s infinite, shake 0.3s; font-size: 29px;";
  mkStreak "💀 Sicko" "color: #FF1493; animation: rainbow 0.9s infinite, shake 0.3s; font-size: 30px;";
  mkStreak "🗿 Mogged" "color: #FF1493; animation: rainbow 0.9s infinite, shake 0.3s; font-size: 30px;";
  mkStreak "📈 Killsmaxxing" "color: #FF1493; animation: rainbow 0.8s infinite, shake 0.3s; font-size: 31px;";
  mkStreak "😹 Sigma" "color: #FF1493; animation: rainbow 0.8s infinite, shake 0.3s; font-size: 31px;";
  mkStreak "🥵 GYATT DAMN" "color: #FF1493; animation: rainbow 0.7s infinite, shake 0.3s; font-size: 32px;";
  mkStreak "💰 INSANE" "color: #FF1493; animation: rainbow 0.7s infinite, shake 0.3s; font-size: 32px;";
  mkStreak "👁️✨👁️" "color: #FF1493; animation: rainbow 0.6s infinite, shake 0.3s; font-size: 33px;"
].

(** Lines 94-96. *)
Definition streakText (killStreak : Z) : string :=
  if (2 <=? killStreak)%Z
  then "<span style=" ++ dq ++ "color: #FFD700;" ++ dq ++ ">" ++ js_number killStreak ++ "x</span>"
  else "".

(** Lines 106-110. *)
Definition overflowStyle (fontSize : Z) : string :=
  "
      color: #FF1493;
      animation: rainbow 0.5s infinite, shake 0.3s;
      font-size: " ++ js_number fontSize ++ "px;
    ".

(** Lines 88-118. *)
Definition onKill (now : Q) (victimName : string) (killStreak : Z) : Act Hud unit :=
  let lastIndex := (Z.of_nat (length killStreakData) - 1)%Z in
  let index := Z.min killStreak lastIndex in
  entry <- need (js_at killStreakData index) ;;
  let customStyle :=
    if (lastIndex <? killStreak)%Z
    then overflowStyle (33 + Z.min 5 (killStreak - Z.of_nat (length killStreakData) + 1))
    else ks_style entry in
  showNotification now (ks_text entry ++ " " ++ streakText killStreak ++ " 🏹 " ++ victimName)
    2 customStyle.

(** ** The listeners of ui.ts *)

(** [trait?.name || "Unknown"]: the empty name is falsy too. *)
Definition nameOrUnknown (t : option PlayerTrait) : string :=
  match t with
  | Some p => if String.eqb (name p) "" then "Unknown" else name p
  | None => "Unknown"
  end.

(** [killerTrait?.killStreak || 1]: a streak of 0 is falsy. *)
Definition streakOrOne (t : option PlayerTrait) : Z :=
  match t with
  | Some p => if Z.eqb (killStreak p) 0 then 1 else killStreak p
  | None => 1
  end.

Definition name16 (s : string) : string := String.substring 0 16 s.

(** Lines 527 and 529. *)
Definition suicideMessage : string :=
  "You 💀 died<br><span style=" ++ dq ++ "font-size: 32px;" ++ dq ++ ">you hit yourself</span>".
Definition killedByMessage (killerName : string) : string :=
  "You 💀 died<br><span style=" ++ dq ++ "font-size: 24px;" ++ dq ++ ">killed by "
  ++ name16 killerName ++ ".</span>".

(** Lines 503-532; [localPlayerId] is [J.getLocalPlayer()]. *)
Definition onHitCommandUi (h : Host) (localPlayerId attackerId victimId : EntityId) : Act Hud unit :=
  let killerTrait := getPlayer h attackerId in
  let victimTrait := getPlayer h victimId in
  let killerName := nameOrUnknown killerTrait in
  let victimName := nameOrUnknown victimTrait in
  addKillFeedEntry (clock h) (name16 killerName) (name16 victimName)
    (Z.eqb attackerId localPlayerId) false ;;
  when (Z.eqb attackerId localPlayerId && negb (Z.eqb victimId localPlayerId))
    (onKill (clock h) victimName (streakOrOne killerTrait)) ;;
  when (Z.eqb victimId localPlayerId)
    (setDeathMessage (if Z.eqb attackerId localPlayerId then suicideMessage
                      else killedByMessage killerName)).

(** Lines 534-545. *)
Definition onEnvironmentalDeathUi (h : Host) (victimId : EntityId) : Act Hud unit :=
  addKillFeedEntry (clock h) "" (name16 (nameOrUnknown (getPlayer h victimId))) false true.

(** ** Properties *)

Lemma killStreakData_length : length killStreakData = 21%nat.
Proof. reflexivity. Qed.

Lemma onKill_unfold now v k :
  onKill now v k =
  (entry <- need (js_at killStreakData (Z.min k 20)) ;;
   showNotification now (ks_text entry ++ " " ++ streakText k ++ " 🏹 " ++ v) 2
     (if (20 <? k)%Z then overflowStyle (33 + Z.min 5 (k - 21 + 1)) else ks_style entry)).
Proof. reflexivity. Qed.

(** A streak that is not negative always finds its table entry, and the
    notification is shown for two seconds. *)
Lemma onKill_run now v k u : (0 <= k)%Z ->
  exists text style, onKill now v k u = (set_notification u text now (now + 2) style, Some tt).
Proof.
  intros Hk. rewrite onKill_unfold.
  destruct (js_at_in_range killStreakData (Z.min k 20)) as [e Ee];
    [rewrite killStreakData_length; lia|].
  unfold bind, need. rewrite Ee. eexists _, _. reflexivity.
Qed.

(** (C29) [onKill] throws exactly for a negative streak, before it
    changes anything: the index [Math.min(killStreak, 20)] is then
    negative and [killStreakData[index].text] reads [undefined]. *)
Theorem onKill_throws_iff_negative now v k u :
  (snd (onKill now v k u) = None <-> (k < 0)%Z) /\
  ((k < 0)%Z -> exec (onKill now v k) u = u).
Proof.
  destruct (Z.ltb_spec k 0) as [Hk|Hk].
  - rewrite onKill_unfold. unfold bind, exec. rewrite js_at_negative by lia. simpl. tauto.
  - destruct (onKill_run now v k u Hk) as (text & style & E). rewrite E. simpl.
    split; [split; [discriminate | lia] | lia].
Qed.

(** Past the end of the table the notification's font grows with
    the streak but stays between 34 and 38 pixels. *)
Theorem onKill_overflow_font now v k u : (20 < k)%Z ->
  exists n, notificationCustomStyle (exec (onKill now v k) u) = overflowStyle n /\ (34 <= n <= 38)%Z.
Proof.
  intros Hk. exists (33 + Z.min 5 (k - 21 + 1))%Z. split; [|lia].
  rewrite onKill_unfold. rewrite Z.min_r by lia.
  destruct (Z.ltb_spec 20 k); [reflexivity | lia].
Qed.

Definition feed_after (l : list KillFeedEntry) (e : KillFeedEntry) : list KillFeedEntry :=
  if Nat.ltb KILL_FEED_MAX (length (l ++ [e])) then tl (l ++ [e]) else l ++ [e].

Lemma onHitCommandUi_local_kill_run h me victim p u :
  victim <> me -> getPlayer h me = Some p -> (0 <= killStreak p)%Z ->
  exists text style, onHitCommandUi h me me victim u =
    (set_notification
       (set_feed u (feed_after (killFeedEntries u)
          (mkFeedEntry (name16 (nameOrUnknown (Some p))) (name16 (nameOrUnknown (getPlayer h victim)))
             (clock h) (clock h + 5) true false)))
       text (clock h) (clock h + 2) style, Some tt).
Proof.
  intros Hv Hp Hk. unfold onHitCommandUi. rewrite Hp.
  assert (0 <= streakOrOne (Some p))%Z as Hs by (simpl; destruct (Z.eqb_spec (killStreak p) 0); lia).
  rewrite Z.eqb_refl. destruct (Z.eqb_spec victim me) as [|_]; [contradiction|]. simpl andb.
  unfold bind at 1. rewrite addKillFeedEntry_run. cbv beta iota. unfold when at 1.
  match goal with |- context [bind (onKill ?n ?v ?k) _ ?s] =>
    destruct (onKill_run n v k s Hs) as (text & style & E) end.
  exists text, style. unfold bind. rewrite E. reflexivity.
Qed.

(** (C30) When the local player kills another player whose streak is not
    negative, the [HitCommand] listener runs to its end: the feed's last
    entry is the kill, marked as the local player's, the streak
    notification is shown for two seconds, and the death message is
    untouched. *)
Theorem onHitCommandUi_local_kill h me victim p u :
  victim <> me -> getPlayer h me = Some p -> (0 <= killStreak p)%Z ->
  let u' := exec (onHitCommandUi h me me victim) u in
  snd (onHitCommandUi h me me victim u) = Some tt /\
  (exists l, killFeedEntries u' = l ++ [mkFeedEntry (name16 (nameOrUnknown (Some p)))
               (name16 (nameOrUnknown (getPlayer h victim))) (clock h) (clock h + 5) true false]) /\
  notificationStartTime u' = clock h /\ notificationEndTime u' = clock h + 2 /\
  deathMessage u' = deathMessage u.
Proof.
  intros Hv Hp Hk u'. subst u'. unfold exec.
  destruct (onHitCommandUi_local_kill_run h me victim p u Hv Hp Hk) as (text & style & ->).
  simpl. repeat split. apply addKillFeedEntry_last.
Qed.

(** ** Examples: the HUD of player 1 in [hud_host]. *)

Lemma onKill_throws_iff_negative_witness :
  snd (onKill 30 "Arc" 3 hud_state) = Some tt /\
  exec (onKill 30 "Arc" (-1) ) hud_state = hud_state.
Proof.
  split; [vm_compute; reflexivity|].
  apply (proj2 (onKill_throws_iff_negative 30 "Arc" (-1) hud_state)). lia.
Defined.

Lemma onKill_overflow_font_witness :
  exists n, notificationCustomStyle (exec (onKill 30 "Arc" 23) hud_state) = overflowStyle n /\ (34 <= n <= 38)%Z.
Proof. apply onKill_overflow_font. lia. Defined.

Lemma onHitCommandUi_local_kill_witness :
  notificationEndTime (exec (onHitCommandUi hud_host 1 1 2) hud_state) = 30 + 2 /\
  notificationText (exec (onHitCommandUi hud_host 1 1 2) hud_state)
  = ("🤝 Double Tap " ++ streakText 2 ++ " 🏹 Arc")%string.
Proof.
  split; [|vm_compute; reflexivity].
  apply (onHitCommandUi_local_kill hud_host 1 2 (mkPlayer 2 1 0 2 3 0 "Legolas" 2) hud_state);
    [discriminate | reflexivity | simpl; lia].
Defined.
