(* ===== verification/Dom.v ===== *)
(** * The document: the HUD markup of ui.ts's game-start handler (lines
      63-186) and the animations progression.ts injects (lines 127-158)

    [J.uiElement] is a DOM element the HUD fills with markup; the handler
    then looks its elements up with [querySelector] and writes their inline
    styles.  The markup is the element tree the template of lines 63-77
    parses to; an element is named by its path of child indices; the style
    writes are a log in execution order.  [x!] asserts non-null without a
    check, so a lookup that finds nothing stores [null] and the next
    [x.style] throws: the monad's [leave].  Only the two selector forms the
    code uses, [#id] and [.class], are modelled.

    progression.ts adds, once, a [<style>] element to the document's head
    whose CSS defines the keyframes its notification styles animate with.
    The CSS scanners [keyframeNames] and [animationNames] read the names a
    stylesheet defines and a style uses. *)

From Stdlib Require Import QArith ZArith List String Ascii Lia.
From S2P Require Import Prelude Host Hud Progression.
Import ListNotations.
Open Scope string_scope.
Open Scope bow_scope.

(** ** The element tree *)

(** An element: tag, id ([""] when it has none), classes, text, children. *)
Inductive Node : Type :=
| Elem (tag : string) (elId : string) (classes : list string) (text : string) (children : list Node).

Definition node_id (n : Node) : string := match n with Elem _ i _ _ _ => i end.

(** An element of the document by its path of child indices. *)
Definition Path : Type := list nat.

(** The elements under [n], [n] first, in document order. *)
Fixpoint flatten (p : Path) (n : Node) : list (Path * Node) :=
  match n with
  | Elem _ _ _ _ cs =>
    (p, n) :: (fix go (i : nat) (cs : list Node) : list (Path * Node) :=
                 match cs with
                 | [] => []
                 | c :: cs' => (flatten (p ++ [i]) c ++ go (S i) cs')%list
                 end) 0%nat cs
  end.

Fixpoint flatten_roots (i : nat) (ns : list Node) : list (Path * Node) :=
  match ns with
  | [] => []
  | n :: ns' => (flatten [i] n ++ flatten_roots (S i) ns')%list
  end.

Definition documentOrder (ns : list Node) : list (Path * Node) := flatten_roots 0%nat ns.

Definition byId (x : string) (ns : list Node) : option Path :=
  option_map fst (find (fun '(_, n) => String.eqb (node_id n) x) (documentOrder ns)).


(** Lines 63-77: the tree the template parses to. *)
Definition indicatorNode : Node := Elem "div" "" ["arrow-indicator"] "I" [].
Definition hudMarkup : list Node := [
  Elem "div" "fullscreen-overlay" [] "" [];
  Elem "div" "text-element" [] "" [];
  Elem "div" "arrow-ui" [] "" [
    Elem "div" "notification-text" [] "" [];
    Elem "div" "arrow-container" [] "" [indicatorNode; indicatorNode; indicatorNode];
    Elem "div" "arrow-label" [] "Ammo" []];
  Elem "div" "leaderboard" [] "" [];
  Elem "div" "kill-feed" [] "" []].

(** ** The document and the HUD's element variables *)

(** The module variables of ui.ts lines 8-15 that hold elements. *)
Inductive ElemVar : Type := VOverlay | VText | VLabel | VLeaderboard | VKillFeed | VNotification.


Record Doc : Type := mkDoc {
  hasDocument : bool;
  hasUiElement : bool;
  uiContent : list Node;
  styleLog : list (Path * string * string);
  elemVars : list (ElemVar * option Path);
  arrowIndicators : list Path;
  headStyles : list (string * string);
}.

Definition add_head_style (d : Doc) (s : string * string) : Doc :=
  mkDoc (hasDocument d) (hasUiElement d) (uiContent d) (styleLog d) (elemVars d) (arrowIndicators d) (headStyles d ++ [s])%list.
















(** ** The animations of progression.ts (lines 127-158) *)

(** Line 129. *)
Definition progressionStyleId : string := "progression-animations".

(** Lines 133-155: the text of the style element, byte for byte. *)
Definition animationsCss : string := "
      @keyframes pulse {
        0%, 100% { transform: scale(1); }
        50% { transform: scale(1.1); }
      }
      @keyframes bounce {
        0%, 100% { transform: translateY(0); }
        50% { transform: translateY(-10px); }
      }
      @keyframes shake {
        0%, 100% { transform: translateX(0); }
        25% { transform: translateX(-5px); }
        75% { transform: translateX(5px); }
      }
      @keyframes rainbow {
        0% { color: #FF1493; }
        20% { color: #FF8C00; }
        40% { color: #FFD700; }
        60% { color: #00FF00; }
        80% { color: #1E90FF; }
        100% { color: #FF1493; }
      }
    ".

(** [document.getElementById(id)]: the head's style elements and the HUD
    markup. *)
Definition getElementById (x : string) (d : Doc) : bool :=
  existsb (fun '(i, _) => String.eqb i x) (headStyles d) ||
  match byId x (uiContent d) with Some _ => true | None => false end.

(** Lines 128-158. *)
Definition injectProgressionAnimations : Act Doc unit :=
  d <- get ;;
  when (hasDocument d)
    (when (negb (getElementById progressionStyleId d))
       (modify (fun d => add_head_style d (progressionStyleId, animationsCss)))).

(** ** Reading names out of CSS *)

Definition isSpace (c : ascii) : bool :=
  Ascii.eqb c " "%char || Ascii.eqb c (ascii_of_nat 10) || Ascii.eqb c (ascii_of_nat 9).

Fixpoint takeWhileS (f : ascii -> bool) (s : string) : string :=
  match s with
  | EmptyString => EmptyString
  | String c s' => if f c then String c (takeWhileS f s') else EmptyString
  end.

Fixpoint dropWhileS (f : ascii -> bool) (s : string) : string :=
  match s with
  | EmptyString => EmptyString
  | String c s' => if f c then dropWhileS f s' else s
  end.

Fixpoint dropS (n : nat) (s : string) : string :=
  match n, s with
  | O, _ => s
  | S n', String _ s' => dropS n' s'
  | S _, EmptyString => EmptyString
  end.

(** The pieces of [s] between commas. *)
Fixpoint splitComma (s : string) : list string :=
  match s with
  | EmptyString => [EmptyString]
  | String c s' =>
    if Ascii.eqb c ","%char then EmptyString :: splitComma s'
    else match splitComma s' with
         | w :: ws => String c w :: ws
         | [] => [String c EmptyString]
         end
  end.

Definition firstWord (w : string) : string := takeWhileS (fun c => negb (isSpace c)) (dropWhileS isSpace w).

(** The names of the [@keyframes] rules of a stylesheet. *)
Fixpoint keyframeNames (s : string) : list string :=
  match s with
  | EmptyString => []
  | String _ s' =>
    if String.prefix "@keyframes " s
    then takeWhileS (fun c => negb (isSpace c || Ascii.eqb c "{"%char)) (dropWhileS isSpace (dropS 11 s))
           :: keyframeNames s'
    else keyframeNames s'
  end.

(** The animation names of the [animation:] declarations of a style: the
    first word of each comma-separated item. *)
Fixpoint animationNames (s : string) : list string :=
  match s with
  | EmptyString => []
  | String _ s' =>
    if String.prefix "animation:" s
    then (map firstWord (splitComma (takeWhileS (fun c => negb (Ascii.eqb c ";"%char)) (dropS 10 s)))
          ++ animationNames s')%list
    else animationNames s'
  end.

(** Every animation [style] uses is a keyframes rule of [css]. *)
Definition animationsDefined (css style : string) : bool :=
  forallb (fun a => existsb (String.eqb a) (keyframeNames css)) (animationNames style).

(** ** The markup and the handler agree *)

(** The ids of the markup are distinct, so [#id] names one element. *)
Lemma hudMarkup_ids_distinct :
  NoDup (filter (fun i => negb (String.eqb i "")) (map (fun '(_, n) => node_id n) (documentOrder hudMarkup))).
Proof. vm_compute. repeat constructor; simpl; intuition discriminate. Qed.


(** ** The streak styles animate with defined keyframes *)

Lemma onKill_style now v k u : (0 <= k)%Z ->
  exists e, In e killStreakData /\
    notificationCustomStyle (exec (onKill now v k) u) =
      if (20 <? k)%Z then overflowStyle (33 + Z.min 5 (k - 21 + 1)) else ks_style e.
Proof.
  intros Hk. unfold exec. rewrite onKill_unfold.
  destruct (js_at_in_range killStreakData (Z.min k 20)) as [e Ee]; [rewrite killStreakData_length; lia|].
  exists e. split.
  - unfold js_at in Ee. destruct (Z.min k 20 <? 0)%Z; [discriminate|]. eapply nth_error_In, Ee.
  - unfold bind, need. rewrite Ee. reflexivity.
Qed.

Lemma table_styles_defined : forallb (fun e => animationsDefined animationsCss (ks_style e)) killStreakData = true.
Proof. vm_compute. reflexivity. Qed.

Lemma overflow_styles_defined n : (34 <= n <= 38)%Z -> animationsDefined animationsCss (overflowStyle n) = true.
Proof.
  intros Hn. assert (n = 34 \/ n = 35 \/ n = 36 \/ n = 37 \/ n = 38)%Z as H by lia.
  repeat destruct H as [-> | H]; [vm_compute; reflexivity ..|]. subst. vm_compute. reflexivity.
Qed.

(** (C31) Every animation a kill-streak notification's style names is a
    keyframes rule of the stylesheet progression.ts injects: the
    [bounce], [pulse], [rainbow] and [shake] of the table and of the
    overflow style past twenty kills are all defined. *)
Theorem onKill_animations_defined now v k u : (0 <= k)%Z ->
  animationsDefined animationsCss (notificationCustomStyle (exec (onKill now v k) u)) = true.
Proof.
  intros Hk. destruct (onKill_style now v k u Hk) as (e & Hin & ->).
  destruct (20 <? k)%Z eqn:E.
  - apply overflow_styles_defined. apply Z.ltb_lt in E. lia.
  - exact (proj1 (forallb_forall _ _) table_styles_defined e Hin).
Qed.

(** ** The injection happens once *)

Lemma injectProgressionAnimations_idempotent d :
  exec injectProgressionAnimations (exec injectProgressionAnimations d) = exec injectProgressionAnimations d.
Proof.
  destruct d as [hd hu c sl ev ai hs]. unfold injectProgressionAnimations, exec, bind, get, when; simpl.
  destruct hd; [|reflexivity]. simpl.
  destruct (getElementById progressionStyleId (mkDoc true hu c sl ev ai hs)) eqn:E; simpl; [rewrite E; reflexivity|].
  unfold getElementById, add_head_style in *; simpl in *.
  rewrite existsb_app; simpl. rewrite orb_true_r. simpl. reflexivity.
Qed.

(** On a page whose markup has no element of that id, the injection
    leaves the stylesheet in the head. *)
Lemma injectProgressionAnimations_present d :
  hasDocument d = true -> existsb (fun '(i, _) => String.eqb i progressionStyleId) (headStyles d) = false ->
  byId progressionStyleId (uiContent d) = None ->
  In (progressionStyleId, animationsCss) (headStyles (exec injectProgressionAnimations d)).
Proof.
  destruct d as [hd hu c sl ev ai hs]. simpl. intros -> Hh Hb.
  unfold injectProgressionAnimations, exec, bind, get, when, getElementById; simpl.
  rewrite Hh, Hb. simpl. apply in_or_app. right. left. reflexivity.
Qed.

(** ** Examples *)



Lemma onKill_animations_defined_witness :
  (0 <= 23)%Z /\ animationsDefined animationsCss (notificationCustomStyle (exec (onKill 5 "Arc" 23) hud_state)) = true.
Proof. split; [lia | apply onKill_animations_defined; lia]. Defined.
