(* ===== verification/Draw.v ===== *)
(** * The client's player: drawing and releasing the bow
      (client/player.ts, client/bow.ts; [easeOutCubic] is in Utils.v)

    Every client keeps a [DrawTrait] per player: when the bow was drawn
    ([drawTime], [0] when not drawn) and when it was released
    ([releaseTime], [0] once the release wobble is over).  Pressing the
    primary button draws a bow that has arrows; releasing it fires an
    arrow whose strength is the time held, capped at one second.  Only
    the shooter's own client spawns the arrow, spends it locally and
    sends the [ArrowCommand] to the server.  The game tick animates the
    bow: the frame shown is [0] at rest and [1 .. 4] while drawn.

    The client state is the arrow client of [Arrow] (its host, arrows and
    local player), the HUD of [Hud] and the draw traits.  [J.isInWorldBounds]
    and [Math.exp(-18 * x)] are parameters: the level's bounds and the
    decay of the release wobble. *)

From Stdlib Require Import QArith Qround Qminmax ZArith List String Lqa Lia.
From stdpp Require Import base tactics.
From S2P Require Import Prelude Host Utils Arrow Hud Progression.
Import ListNotations.
Import ArrowModel.
Open Scope Q_scope.
Open Scope bow_scope.

(** traits.ts lines 19-27. *)
Record DrawState : Type := mkDraw { drawTime : Q; releaseTime : Q }.

Record PlayerClient : Type := mkPC {
  pc_client : Client;
  pc_hud : Hud;
  drawStates : list (EntityId * DrawState);
}.

#[export] Instance PlayerClient_HasHost : HasHost PlayerClient := {
  host_of s := cl_host (pc_client s);
  set_host s h := mkPC (set_host (pc_client s) h) (pc_hud s) (drawStates s);
}.

#[export] Instance PlayerClient_HasHostLaws : HasHostLaws PlayerClient.
Proof. constructor. reflexivity. Qed.

Definition on_client {A} (m : Act Client A) : Act PlayerClient A :=
  focus pc_client (fun s c => mkPC c (pc_hud s) (drawStates s)) m.
Definition on_hud {A} (m : Act Hud A) : Act PlayerClient A :=
  focus pc_hud (fun s u => mkPC (pc_client s) u (drawStates s)) m.

(** [J.getTrait(id, DrawTrait)] and [J.setTrait(id, DrawTrait, d)]. *)
Definition getDraw (s : PlayerClient) (id : EntityId) : option DrawState :=
  map_get (drawStates s) id.
Definition setDraw (id : EntityId) (d : DrawState) : Act PlayerClient unit :=
  modify (fun s => mkPC (pc_client s) (pc_hud s) (map_set (drawStates s) id d)).

(** bow.ts lines 7-24: the five frame props. *)
Definition bowFrames : list string :=
  ["Bow Frame 0"; "Bow Frame 1"; "Bow Frame 2"; "Bow Frame 3"; "Bow Frame 4"]%string.

(** bow.ts lines 26-37: [bowFrames[frameIndex].asset] throws outside the
    table. *)
Definition setBowFrame (entityId : EntityId) (frameIndex : Z) : Act PlayerClient unit :=
  frame <- need (js_at bowFrames frameIndex) ;;
  emit (Effect ("setCharacterItem " ++ frame) entityId).

(** bow.ts lines 39-41. *)
Definition initBow (entityId : EntityId) : Act PlayerClient unit := setBowFrame entityId 0.

(** player.ts lines 15-23. *)
Definition initPlayer (entityId : EntityId) : Act PlayerClient unit :=
  setDraw entityId (mkDraw 0 0) ;;
  initBow entityId.

(** Lines 154-155 and 230-231. *)
Definition rawDrawOf (drawState : DrawState) (t : Q) : Q :=
  if 0 <? drawTime drawState then Qmin 1 (t - drawTime drawState) else 0.

(** Lines 190 and 233: [draw > 0 ? Math.round(1 + draw * 3) : 0]. *)
Definition bowFrameIndex (draw : Q) : Z :=
  if 0 <? draw then js_round (1 + draw * 3) else 0.

(** Line 144, byte for byte. *)
Definition fellOutMessage : string :=
  "You ðŸ’€ died<br><span style=" ++ String (Ascii.ascii_of_nat 34) EmptyString
  ++ "font-size: 32px;" ++ String (Ascii.ascii_of_nat 34) EmptyString
  ++ ">fell out of bounds</span>".

Section Player.
Context `{Engine}.
Variable arrowBoundsZ : Q.
(** [J.isInWorldBounds(pos)]. *)
Variable inWorldBounds : Vec3 -> bool.
(** [Math.exp(-18 * x)]. *)
Variable expDecay : Q -> Q.

(** Lines 43-67. *)
Definition onCharacterUse (id : EntityId) (primary : bool) : Act PlayerClient unit :=
  if negb primary then leave else
  h <- host ;;
  playerTrait <- need (getPlayer h id) ;;
  if (arrowCount playerTrait <=? 0)%Z then leave else
  s <- get ;;
  match getDraw s id with
  | Some drawState =>
    when (Qeq_bool (drawTime drawState) 0)
      (setDraw id (mkDraw (clock h) 0) ;;
       if Z.eqb id (localPlayer (pc_client s)) then emit (PlaySound "bow_draw" (1#5) None)
       else match getEntityPosition h id with
            | Some playerPos => emit (PlaySoundAt "bow_draw" playerPos (1#5) None)
            | None => ret tt
            end)
  | None => ret tt
  end.

(** Lines 69-110. *)
Definition onCharacterUnuse (id : EntityId) : Act PlayerClient unit :=
  s <- get ;;
  h <- host ;;
  match getDraw s id with
  | Some drawState =>
    when (0 <? drawTime drawState)
      (let draw := Qmin 1 (clock h - drawTime drawState) in
       setDraw id (mkDraw 0 (clock h)) ;;
       if Z.eqb (localPlayer (pc_client s)) id then
         playerTrait <- need (getPlayer h id) ;;
         if (arrowCount playerTrait <=? 0)%Z then leave else
         setPlayer id (set_arrowCount playerTrait (arrowCount playerTrait - 1)) ;;
         emit (PlaySound "bow_release" (1 + draw * (3#10)) (Some (-900 + draw * 1200))) ;;
         h <- host ;;
         match getCharacterViewRay h id with
         | Some viewRay =>
           r <- random ;;
           let netId := js_floor (r * 2147483647) in
           on_client (spawnArrow arrowBoundsZ viewRay draw id netId) ;;
           emit (Send (ArrowCommand viewRay draw id netId))
         | None => ret tt
         end
       else match getEntityPosition h id with
            | Some playerPos =>
              emit (PlaySoundAt "bow_release" playerPos (1 + draw * (3#10)) (Some (-900 + draw * 1200)))
            | None => ret tt
            end)
  | None => ret tt
  end.

(** Lines 117-133. *)
Definition tickTutorial (id localPlayerId : EntityId) (localInTutorial : bool) : Act PlayerClient unit :=
  if Z.eqb id localPlayerId then leave else
  h <- host ;;
  if localInTutorial && isInTutorialArea h id
  then emit (Effect "setEntityVisible false" id) ;; emit (Effect "setCharacterItem undefined" id)
  else emit (Effect "setEntityVisible true" id).

(** Lines 135-191; the crosshair and the bow's transform are effects. *)
Definition tickWhileAlive (id : EntityId) (drawState : DrawState) (t : Q) : Act PlayerClient unit :=
  h <- host ;;
  (match getEntityPosition h id with
   | Some pos =>
     when (negb (inWorldBounds pos))
       (on_hud (setDeathMessage fellOutMessage) ;;
        emit (Send (EnvironmentalDeathCommand id "fell out of bounds")) ;;
        setAlive id false ;;
        on_client (handlePlayerDeath id pos id))
   | None => ret tt
   end) ;;
  let draw := easeOutCubic (rawDrawOf drawState t) in
  let wobbling := 0 <? releaseTime drawState in
  when ((0 <? drawTime drawState) || wobbling)
    (emit (Effect "setFirstPersonItemTransform" id) ;;
     when (wobbling && (expDecay (t - releaseTime drawState) <? 1#100))
       (setDraw id (mkDraw (drawTime drawState) 0) ;;
        emit (Effect "clearFirstPersonItemTransform" id))) ;;
  emit (Effect "setCrosshair true" id) ;;
  setBowFrame id (bowFrameIndex draw).

(** Lines 193-204. *)
Definition tickWhileDead (id : EntityId) (drawState : DrawState) : Act PlayerClient unit :=
  emit (Effect "setCrosshair false" id) ;;
  when ((0 <? drawTime drawState) || (0 <? releaseTime drawState))
    (setDraw id (mkDraw 0 0) ;;
     emit (Effect "clearFirstPersonItemTransform" id)).

(** Lines 206-236: a throw in one player's update ends the tick. *)
Definition playerTick (t : Q) : Act PlayerClient unit :=
  s <- get ;;
  h <- host ;;
  let localPlayerId := localPlayer (pc_client s) in
  let localInTutorial := isInTutorialArea h localPlayerId in
  for_each_abort (playersWithTraits h) (fun '(id, _) =>
    s <- get ;;
    match getDraw s id with
    | None => initPlayer id
    | Some drawState =>
      call (tickTutorial id localPlayerId localInTutorial) ;;
      if Z.eqb id localPlayerId then
        h <- host ;;
        if getCharacterAlive h id then tickWhileAlive id drawState t
        else tickWhileDead id drawState
      else setBowFrame id (bowFrameIndex (easeOutCubic (rawDrawOf drawState t)))
    end).

(** Lines 238-245. *)
Definition onRespawnCommandClient (playerId : EntityId) (position : Vec3) : Act PlayerClient unit :=
  s <- get ;;
  let localPlayerId := localPlayer (pc_client s) in
  when (Z.eqb playerId localPlayerId)
    (setEntityPosition localPlayerId (Some position) ;;
     emit (Effect "setCameraZoomTarget null" localPlayerId) ;;
     emit (Effect "setLocalPlayerCamera firstPerson" localPlayerId)).
End Player.

(** ** The bow frame *)

Lemma rawDrawOf_le_1 d t : rawDrawOf d t <= 1.
Proof. unfold rawDrawOf. case_match; [|lra]. qminmax; lra. Qed.

Lemma easeOutCubic_le_1 x : x <= 1 -> easeOutCubic x <= 1.
Proof.
  intros Hx. unfold easeOutCubic.
  assert (0 <= (1 - x) * (1 - x) * (1 - x))
    by (apply Qmult_le_0_compat; [apply Qmult_le_0_compat|]; lra).
  nra.
Qed.

(** The frame index of a draw of at most one is one of the five frames. *)
Lemma bowFrameIndex_range draw : draw <= 1 -> (0 <= bowFrameIndex draw <= 4)%Z.
Proof.
  intros Hd. unfold bowFrameIndex, js_round. qcase (0 <? draw); [|lia].
  split.
  - change 0%Z with (Qfloor 0). apply Qfloor_resp_le. lra.
  - change 4%Z with (Qfloor (9#2)). apply Qfloor_resp_le. lra.
Qed.

Lemma setBowFrame_total id i : (0 <= i <= 4)%Z -> Total (setBowFrame id i).
Proof.
  intros Hi. destruct (js_at_in_range bowFrames i) as [f Ef]; [simpl; lia|].
  unfold setBowFrame. rewrite Ef. apply Total_need_some. apply Total_emit.
Qed.

Lemma bow_frame_total id d t : Total (setBowFrame id (bowFrameIndex (easeOutCubic (rawDrawOf d t)))).
Proof. apply setBowFrame_total, bowFrameIndex_range, easeOutCubic_le_1, rawDrawOf_le_1. Qed.

#[export] Hint Resolve bow_frame_total : total.
#[export] Hint Extern 2 (Total (setBowFrame _ _)) => apply setBowFrame_total; lia : total.

Section PlayerTotal.
Context `{Engine}.
Variables (inWorldBounds : Vec3 -> bool) (expDecay : Q -> Q).

(** (C32) The player tick never throws: the frame index it computes for
    each player's bow is always one of the five frames, so reading
    [bowFrames[frameIndex]] never yields [undefined]. *)
Theorem playerTick_total t : Total (playerTick inWorldBounds expDecay t).
Proof.
  unfold playerTick, initPlayer, initBow, tickWhileAlive, tickWhileDead, handlePlayerDeath.
  unfold on_client, on_hud, setDeathMessage. total.
Qed.
End PlayerTotal.

(** ** One shot per draw

    [DrawsKept]: the draw traits are unchanged.  Everything a release does
    after resetting the trait keeps them. *)

Definition DrawsKept (s s' : PlayerClient) : Prop := drawStates s' = drawStates s.

#[export] Instance DrawsKept_preorder : PreOrder DrawsKept.
Proof. split; [intros s; reflexivity | intros s1 s2 s3 E1 E2; unfold DrawsKept in *; congruence]. Qed.

Create HintDb draw.
#[export] Hint Extern 5 (Rel DrawsKept _) => (intros ?; reflexivity) : draw.

Ltac kept :=
  repeat (cbv beta zeta;
    first [ solve [eauto with draw]
          | rel_step
          | progress case_match ]).

Lemma getDraw_set s id d :
  getDraw (exec (setDraw id d) s) id = Some d.
Proof. unfold getDraw. simpl. rewrite map_get_set, Z.eqb_refl. reflexivity. Qed.

Lemma getDraw_kept s s' id : DrawsKept s s' -> getDraw s' id = getDraw s id.
Proof. unfold DrawsKept, getDraw. intros ->. reflexivity. Qed.

Section Release.
Context `{Engine}.
Variable arrowBoundsZ : Q.

(** A release of a bow that is not drawn does nothing. *)
Lemma onCharacterUnuse_undrawn id s :
  (forall d, getDraw s id = Some d -> drawTime d <= 0) ->
  exec (onCharacterUnuse arrowBoundsZ id) s = s.
Proof.
  intros Hd. unfold onCharacterUnuse. rewrite exec_bind_get.
  destruct (getDraw s id) as [d|] eqn:E; [|reflexivity].
  specialize (Hd d eq_refl). qcase (0 <? drawTime d); [lra | reflexivity].
Qed.

(** A release of a drawn bow leaves it undrawn. *)
Lemma onCharacterUnuse_resets id s d :
  getDraw s id = Some d -> 0 < drawTime d ->
  exists r, getDraw (exec (onCharacterUnuse arrowBoundsZ id) s) id = Some (mkDraw 0 r).
Proof.
  intros E Hd. unfold onCharacterUnuse. rewrite exec_bind_get.
  rewrite (exec_bind_some host _ s s (host_of s) eq_refl), E.
  apply Qltb_iff in Hd. rewrite Hd. unfold when.
  eexists. rewrite (exec_bind_some _ _ s _ tt eq_refl).
  match goal with |- getDraw (exec ?K ?s1) _ = _ =>
    assert (Rel DrawsKept K) as Hk by kept; rewrite (getDraw_kept _ _ _ (Hk s1)) end.
  unfold getDraw. simpl. rewrite map_get_set, Z.eqb_refl. reflexivity.
Qed.
End Release.

Section ReleaseClaims.
Context `{Engine}.
Variable arrowBoundsZ : Q.

(** (C33) Releasing twice is releasing once: the first release of a
    drawn bow resets its draw time to 0, so a second release without a
    new draw changes nothing and fires no second arrow. *)
Theorem onCharacterUnuse_idempotent id s :
  exec (onCharacterUnuse arrowBoundsZ id) (exec (onCharacterUnuse arrowBoundsZ id) s)
  = exec (onCharacterUnuse arrowBoundsZ id) s.
Proof.
  destruct (getDraw s id) as [d|] eqn:E.
  - qcase (0 <? drawTime d).
    + destruct (onCharacterUnuse_resets arrowBoundsZ id s d E E0) as [r Er].
      apply onCharacterUnuse_undrawn. rewrite Er. intros d' [= <-]. simpl. lra.
    + rewrite (onCharacterUnuse_undrawn arrowBoundsZ id s); [|intros d' E'; congruence].
      rewrite (onCharacterUnuse_undrawn arrowBoundsZ id s); [reflexivity | intros d' E'; congruence].
  - rewrite (onCharacterUnuse_undrawn arrowBoundsZ id s); [|intros d' E'; congruence].
    rewrite (onCharacterUnuse_undrawn arrowBoundsZ id s); [reflexivity | intros d' E'; congruence].
Qed.

(** (C34) While the local player is dead the tick disarms the bow: a
    release right after it fires nothing, so no arrow leaves on respawn
    (player.ts line 199). *)
Theorem tickWhileDead_disarms id d s :
  getDraw s id = Some d ->
  exec (onCharacterUnuse arrowBoundsZ id) (exec (tickWhileDead id d) s) = exec (tickWhileDead id d) s.
Proof.
  intros E. apply onCharacterUnuse_undrawn. unfold tickWhileDead.
  rewrite (exec_bind_some _ _ s _ tt eq_refl).
  destruct ((0 <? drawTime d) || (0 <? releaseTime d)) eqn:Eb; unfold when.
  - unfold getDraw. simpl. rewrite map_get_set, Z.eqb_refl. intros d' [= <-]. simpl. lra.
  - apply orb_false_iff in Eb as [E1 _]. qbool.
    intros d' Ed'. change (getDraw s id = Some d') in Ed'. congruence.
Qed.
(** A draw begun while the world clock reads 0 stores [drawTime = 0],
    the value that means "not drawn" (line 52 tests [drawTime === 0],
    line 71 [drawTime > 0]): the release that follows fires nothing. *)
Theorem draw_at_time_zero_is_lost id s r :
  clock (host_of s) = 0 -> getDraw s id = Some (mkDraw 0 r) ->
  exec (onCharacterUnuse arrowBoundsZ id) (exec (onCharacterUse id true) s) = exec (onCharacterUse id true) s.
Proof.
  intros Hc E. apply onCharacterUnuse_undrawn. unfold onCharacterUse, negb.
  rewrite (exec_bind_some host _ s s (host_of s) eq_refl).
  destruct (getPlayer (host_of s) id) as [p|]; [|intros d Ed; change (getDraw s id = Some d) in Ed; rewrite E in Ed; injection Ed as <-; simpl; lra].
  rewrite (exec_bind_some _ _ s s p eq_refl).
  destruct (arrowCount p <=? 0)%Z; [intros d Ed; change (getDraw s id = Some d) in Ed; rewrite E in Ed; injection Ed as <-; simpl; lra|].
  rewrite exec_bind_get, E. simpl when.
  rewrite (exec_bind_some _ _ s _ tt eq_refl).
  match goal with |- context [exec ?K ?s1] =>
    assert (Rel DrawsKept K) as Hk by kept; intros d Ed; rewrite (getDraw_kept _ _ _ (Hk s1)) in Ed end.
  unfold getDraw in Ed. simpl in Ed. rewrite map_get_set, Z.eqb_refl in Ed.
  injection Ed as <-. simpl. simpl in Hc. rewrite Hc. lra.
Qed.
End ReleaseClaims.

(** The out-of-bounds death message of line 144 does not begin with the
    skull of the other death messages (ui.ts lines 527 and 529): its bytes
    are the UTF-8 of the skull read as Windows-1252 and encoded again. *)
Lemma fellOutMessage_garbled :
  String.prefix "You 💀 died" suicideMessage = true /\
  String.prefix "You 💀 died" (killedByMessage "Legolas") = true /\
  String.prefix "You 💀 died" fellOutMessage = false.
Proof. vm_compute. auto. Qed.

(** ** Examples: player 1 of [cl_client] drew its bow at time 4. *)

Definition pc_state : PlayerClient := mkPC cl_client hud_state [(1%Z, mkDraw 4 0)].

#[local] Instance pc_engine : Engine := demo_engine [1#2].

Lemma tickWhileDead_disarms_witness :
  exec (onCharacterUnuse 10 1) (exec (tickWhileDead 1 (mkDraw 4 0)) pc_state)
  = exec (tickWhileDead 1 (mkDraw 4 0)) pc_state /\
  getDraw (exec (tickWhileDead 1 (mkDraw 4 0)) pc_state) 1 = Some (mkDraw 0 0).
Proof.
  split; [|reflexivity].
  apply tickWhileDead_disarms. reflexivity.
Defined.
