(* ===== verification/Shot.v ===== *)
(** * The local shot (client/player.ts 69-110)

    A release of the local player's drawn bow with an arrow in hand spends
    the arrow on the client's copy of the player trait and sends exactly
    one [ArrowCommand] to the server, whose draw is the time the bow was
    held, capped at one second ([Math.min(1, now - drawTime)]).

    [Silent h h'] says that from [h] to [h'] no player trait changed and
    nothing went over the network; every host call but [setPlayer] and
    the sends is silent, and so is [Arrow.spawnArrow].  The theorem then
    follows the release step by step up to the spawn and the send. *)

From Stdlib Require Import QArith Qminmax ZArith List String Lqa Lia.
From stdpp Require Import base tactics.
From S2P Require Import Prelude Host Utils Arrow Hud Progression Draw.
Import ListNotations.
Import ArrowModel.
Open Scope Q_scope.
Open Scope bow_scope.

(** The host calls that go over the network. *)
Definition is_net (c : HostCall) : bool :=
  match c with Send _ | SendToAll _ | SendToAllFrom _ _ => true | _ => false end.

Definition sends (h : Host) : list HostCall := List.filter is_net (log h).

Definition Silent (h h' : Host) : Prop :=
  (forall id, getPlayer h' id = getPlayer h id) /\ sends h' = sends h.

#[export] Instance Silent_preorder : PreOrder Silent.
Proof.
  split; [intros h; split; reflexivity|].
  intros h1 h2 h3 [P1 S1] [P2 S2]. split; [intros id; rewrite P2; apply P1 | congruence].
Qed.

(** An update of one entity that keeps its player trait. *)
Lemma Silent_update h id f :
  (forall e, e_player (f e) = e_player e) -> Silent h (with_ents h (update_ent (ents h) id f)).
Proof.
  intros Hf. split; [|reflexivity]. intros id'. unfold getPlayer, with_ents. simpl.
  rewrite lookup_update_ent. destruct (Z.eqb id id'); [|reflexivity].
  destruct (lookup_ent (ents h) id'); simpl; [apply Hf | reflexivity].
Qed.

Lemma Silent_log h c :
  is_net c = false -> Silent h (mkHost (ents h) (clock h) (draws h) (next_id h) (log h ++ [c])).
Proof.
  intros Hc. split; [reflexivity|]. unfold sends. simpl.
  rewrite filter_app. simpl. rewrite Hc, app_nil_r. reflexivity.
Qed.

Section SilentOps.
Context `{Engine} {St : Type} `{HasHost St} `{!HasHostLaws St}.

Definition SilentS (s s' : St) : Prop := Silent (host_of s) (host_of s').

#[export] Instance SilentS_preorder : PreOrder SilentS.
Proof. unfold SilentS. split; [intros s; reflexivity | intros s1 s2 s3 A B; etransitivity; eassumption]. Qed.

Lemma Silent_upd_host f : (forall h, Silent h (f h)) -> Rel SilentS (upd_host (St:=St) f).
Proof. intros Hf s. unfold SilentS, exec, upd_host. simpl. rewrite host_set_get. apply Hf. Qed.

Lemma Silent_host : Rel SilentS (host (St:=St)).
Proof. intros s. reflexivity. Qed.

Lemma Silent_random : Rel SilentS (random (St:=St)).
Proof. intros s. unfold SilentS, exec, random. simpl. rewrite host_set_get. split; reflexivity. Qed.

Lemma Silent_emit c : is_net c = false -> Rel SilentS (emit (St:=St) c).
Proof. intros Hc. apply Silent_upd_host. intros h. apply Silent_log, Hc. Qed.

Lemma Silent_setEntityPosition id p : Rel SilentS (setEntityPosition (St:=St) id p).
Proof.
  unfold setEntityPosition. apply Rel_seq; [exact _ | apply Silent_emit; reflexivity | intros _].
  destruct p; [apply Silent_upd_host; intros h; apply Silent_update; reflexivity | apply Rel_ret; exact _].
Qed.

Lemma Silent_setEntityVelocity id v : Rel SilentS (setEntityVelocity (St:=St) id v).
Proof.
  unfold setEntityVelocity. apply Rel_seq; [exact _ | apply Silent_emit; reflexivity | intros _].
  apply Silent_upd_host. intros h. apply Silent_update. reflexivity.
Qed.

Lemma Silent_setCollider id t : Rel SilentS (setCollider (St:=St) id t).
Proof. apply Silent_upd_host. intros h. apply Silent_update. reflexivity. Qed.

(** A fresh prop carries no player trait. *)
Lemma Silent_spawnProp a : Rel SilentS (spawnProp (St:=St) a).
Proof.
  unfold spawnProp. apply Rel_seq; [exact _ | apply Silent_host | intros h0].
  apply Rel_seq; [exact _ | apply Silent_upd_host | intros _].
  - intros h. split; [|reflexivity]. intros id. unfold getPlayer. simpl.
    rewrite lookup_ent_app. destruct (lookup_ent (ents h) id); [reflexivity|]. simpl.
    destruct (Z.eqb _ id); reflexivity.
  - apply Rel_seq; [exact _ | apply Silent_emit; reflexivity | intros _; apply Rel_ret; exact _].
Qed.
(** [emit] appends to the log and changes nothing else. *)
Lemma host_of_emit c (s : St) :
  host_of (exec (emit c) s) =
  mkHost (ents (host_of s)) (clock (host_of s)) (draws (host_of s)) (next_id (host_of s)) (log (host_of s) ++ [c]).
Proof. unfold exec, emit, upd_host. simpl. apply host_set_get. Qed.

Lemma getPlayer_emit c (s : St) id :
  getPlayer (host_of (exec (emit c) s)) id = getPlayer (host_of s) id.
Proof. rewrite host_of_emit. reflexivity. Qed.

Lemma sends_emit_net c (s : St) :
  is_net c = true -> sends (host_of (exec (emit c) s)) = sends (host_of s) ++ [c].
Proof. intros Hc. rewrite host_of_emit. unfold sends at 1. cbn [log]. rewrite filter_app. cbn [List.filter]. rewrite Hc. reflexivity. Qed.
End SilentOps.

(** [silent] proves [Rel SilentS] phase by phase; each case is guarded
    by the head of the computation, so no lemma is tried against a
    whole handler body. *)
Ltac silent :=
  repeat (cbv beta zeta;
    match goal with
    | |- Rel _ (emit _) => apply Silent_emit; reflexivity
    | |- Rel _ (modify _) => intros ?s; split; reflexivity
    | |- Rel _ host => apply Silent_host
    | |- Rel _ random => apply Silent_random
    | |- Rel _ (setEntityPosition _ _) => apply Silent_setEntityPosition
    | |- Rel _ (setEntityVelocity _ _) => apply Silent_setEntityVelocity
    | |- Rel _ (setCollider _ _) => apply Silent_setCollider
    | |- Rel _ (spawnProp _) => apply Silent_spawnProp
    | |- _ => rel_step
    end).

Section Spawn.
Context `{Engine}.
Variable arrowBoundsZ : Q.

(** Spawning an arrow on the client moves props and logs their looks:
    no player changes and nothing is sent. *)
Lemma spawnArrow_silent vr d o n : Rel SilentS (spawnArrow arrowBoundsZ vr d o n).
Proof. unfold spawnArrow, updateArrowTransform. silent. Qed.

Lemma on_client_silent {A} (m : Act Client A) : Rel SilentS m -> Rel SilentS (on_client m).
Proof. intros Hm s. exact (Hm (pc_client s)). Qed.

(** A silent computation on the arrow client that never throws, run
    from the player client. *)
Lemma spawn_step (m : Act Client unit) (s5 : PlayerClient) :
  Rel SilentS m -> Total m -> SilentS s5 (exec (on_client m) s5) /\
  forall B (k : unit -> Act PlayerClient B), exec (bind (on_client m) k) s5 = exec (k tt) (exec (on_client m) s5).
Proof.
  intros Hm Ht. split; [exact (on_client_silent m Hm s5)|]. intros B k.
  destruct (on_client m s5) as [s6 [[]|]] eqn:E6.
  - rewrite (exec_bind_some _ _ _ _ _ E6). unfold exec. rewrite E6. reflexivity.
  - exfalso. refine (Total_focus pc_client (fun s c => mkPC c (pc_hud s) (drawStates s)) m Ht s5 _).
    unfold on_client in E6. rewrite E6. reflexivity.
Qed.
End Spawn.

Section LocalShot.
Context `{Engine}.
Variable arrowBoundsZ : Q.

(** (C33) A release of the local player's drawn bow, with an arrow in
    hand and a view ray, spends exactly one arrow of its player trait and
    sends exactly one message to the server: an [ArrowCommand] from that
    ray, owned by the player, whose draw is the time the bow was held,
    capped at one second. *)
Theorem onCharacterUnuse_local_shot id s d p vr :
  localPlayer (pc_client s) = id -> getDraw s id = Some d -> 0 < drawTime d ->
  getPlayer (host_of s) id = Some p -> (0 < arrowCount p)%Z ->
  getCharacterViewRay (host_of s) id = Some vr ->
  let s' := exec (onCharacterUnuse arrowBoundsZ id) s in
  getPlayer (host_of s') id = Some (set_arrowCount p (arrowCount p - 1)) /\
  exists nid, sends (host_of s') =
    sends (host_of s) ++ [Send (ArrowCommand vr (Qmin 1 (clock (host_of s) - drawTime d)) id nid)].
Proof.
  intros Hl Hd Ht Hp Ha Hv s'. unfold s'. clear s'.
  remember (exec _ s) as s' eqn:Es. unfold onCharacterUnuse in Es.
  do 2 (erewrite exec_bind_some in Es; [|reflexivity]).
  rewrite Hd in Es. apply Qltb_iff in Ht. rewrite Ht in Es. unfold when in Es.
  erewrite exec_bind_some in Es; [|reflexivity].
  rewrite Hl, Z.eqb_refl, Hp in Es.
  erewrite exec_bind_some in Es; [|reflexivity].
  replace (arrowCount p <=? 0)%Z with false in Es by lia.
  do 3 (erewrite exec_bind_some in Es; [|reflexivity]).
  match type of Es with context [getCharacterViewRay ?h id] => replace (getCharacterViewRay h id) with (Some vr) in Es end.
  2:{ clear Es. rewrite !host_set_get. rewrite <- Hv. unfold getCharacterViewRay. cbn [ents with_ents].
      rewrite lookup_update_ent, Z.eqb_refl. destruct (lookup_ent _ id); reflexivity. }
  erewrite exec_bind_some in Es; [|reflexivity].
  match type of Es with context [exec (bind (on_client ?m) ?k) ?s5] =>
    destruct (spawn_step m s5 (spawnArrow_silent _ _ _ _ _)) as [Hs Hk];
    [unfold spawnArrow, updateArrowTransform; total|];
    rewrite Hk in Es;
    assert (P5 : getPlayer (host_of s5) id = Some (set_arrowCount p (arrowCount p - 1)));
    [|assert (S5 : sends (host_of s5) = sends (host_of s))];
    [| |set (s6 := exec (on_client m) s5) in *; clearbody s6; set (s5' := s5) in *; clearbody s5']
  end.
  - clear Es Hk Hs. rewrite !host_set_get.
    change (getPlayer (with_ents (host_of s) (update_ent (ents (host_of s)) id
              (fun e => with_player e (set_arrowCount p (arrowCount p - 1))))) id = Some (set_arrowCount p (arrowCount p - 1))).
    unfold getPlayer in Hp. destruct (lookup_ent (ents (host_of s)) id) as [e|] eqn:Ee; [|discriminate].
    exact (getPlayer_update_player _ _ _ _ e Ee).
  - clear Es Hk Hs. unfold sends. rewrite !host_set_get. cbn [log with_ents].
    rewrite filter_app. cbn [List.filter is_net]. apply app_nil_r.
  - subst s'. destruct Hs as [HP HS]. split.
    + rewrite getPlayer_emit. exact (eq_trans (HP id) P5).
    + eexists. rewrite sends_emit_net by reflexivity. rewrite HS, S5. reflexivity.
Qed.
End LocalShot.

(** ** Example: player 1 drew its bow at time 4, it is now 5. *)

Definition shot_player : PlayerTrait := mkPlayer 0 0 0 2 3 0 "Legolas" 0.
Definition shot_ray : Ray := mkRay vzero (vec3 1 0 0).
Definition shot_state : PlayerClient :=
  mkPC (mkClient (mkHost [(1%Z, mkEntity (Some vzero) true (Some shot_ray) (Some shot_player) false None false
                                  (Some "legolas"%string) None None)] 5 0 2 []) [] [] 1)
       hud_state [(1%Z, mkDraw 4 0)].

#[local] Instance shot_engine : Engine := demo_engine [1#2].

Lemma onCharacterUnuse_local_shot_witness :
  let s' := exec (onCharacterUnuse 10 1) shot_state in
  getPlayer (host_of s') 1 = Some (set_arrowCount shot_player (arrowCount shot_player - 1)) /\
  exists nid, sends (host_of s') =
    sends (host_of shot_state) ++ [Send (ArrowCommand shot_ray (Qmin 1 (clock (host_of shot_state) - drawTime (mkDraw 4 0))) 1 nid)].
Proof.
  apply (onCharacterUnuse_local_shot 10 1 shot_state (mkDraw 4 0) shot_player shot_ray);
    first [reflexivity | apply Qltb_iff; reflexivity | cbn; lia].
Defined.
