(* ===== verification/Effects.v ===== *)
(** * Timed props: visual effects (client/effects.ts), particles
      (client/particles.ts) and bow debris (client/debris.ts)

    [addEffect] spawns a prop and records it with its start and end
    looks; every render frame moves and fades each recorded effect and
    removes the ones whose time is up.  The debris listener throws a prop
    from the victim's view and records it; every tick removes the debris
    older than five seconds.  Both sweeps walk their array backwards with
    [splice]: [sweepBack] is that loop, written once, and it is proved to
    leave exactly the entries [filter] keeps, in their order.

    [Math.PI], [Math.cos] and [Math.sin] are parameters; [J.quat.random]
    draws three values of [Math.random] and turns them into a quaternion
    by a parameter; interpolation of tints and quaternions ([vec4.lerp],
    [quat.slerp]) writes only looks and is logged as an effect. *)

From Stdlib Require Import QArith Qabs ZArith List String Lqa Lia.
From stdpp Require Import base tactics.
From S2P Require Import Prelude Host.
Import ListNotations.
Open Scope Q_scope.
Open Scope bow_scope.

Definition Vec4 : Type := (Q * Q * Q * Q)%type.
Record Quat : Type := mkQuat { qx : Q; qy : Q; qz : Q; qw : Q }.

(** effects.ts lines 8-23. *)
Record EffectEntry : Type := mkEffect {
  prop : EntityId;
  startTint : Vec4;
  endTint : Vec4;
  startGlow : Q;
  endGlow : Q;
  startScale : Q;
  endScale : Q;
  velocity : Vec3;
  acceleration : Vec3;
  startPos : Vec3;
  startQuat : Quat;
  endQuat : Quat;
  fx_startTime : Q;
  fx_endTime : Q;
}.

(** debris.ts lines 4-7. *)
Record DebrisEntry : Type := mkDebris { d_entity : EntityId; spawnTime : Q }.

(** The module variables [effects] (effects.ts line 25) and [debrisList]
    (debris.ts line 9), beside the host. *)
Record Fx : Type := mkFx {
  fx_host : Host;
  effects : list EffectEntry;
  debrisList : list DebrisEntry;
}.

#[export] Instance Fx_HasHost : HasHost Fx := {
  host_of := fx_host;
  set_host s h := mkFx h (effects s) (debrisList s);
}.

#[export] Instance Fx_HasHostLaws : HasHostLaws Fx.
Proof. constructor. reflexivity. Qed.

Definition set_effects (s : Fx) (l : list EffectEntry) : Fx := mkFx (fx_host s) l (debrisList s).
Definition set_debris (s : Fx) (l : list DebrisEntry) : Fx := mkFx (fx_host s) (effects s) l.

(** ** The backward sweep

    [for (let i = l.length - 1; i >= 0; i--) { const x = l[i];
    if (expired(x)) { onExpire(x); l.splice(i, 1); continue; } onKeep(x); }]
    over the array [getL s], with [sweepBack n] visiting the indices
    [n - 1] down to [0]. *)

(** [l.splice(i, 1)]. *)
Definition splice_at {A} (i : nat) (l : list A) : list A := firstn i l ++ skipn (S i) l.

Lemma exec_call_modify {S} (m : Act S unit) (f : S -> S) s : exec (call m ;; modify f) s = f (exec m s).
Proof. reflexivity. Qed.

Lemma splice_at_middle {A} (l r : list A) x : splice_at (length l) (l ++ x :: r) = l ++ r.
Proof. induction l as [|y l IH]; [reflexivity|]. simpl. unfold splice_at in *. simpl. f_equal. exact IH. Qed.

Section Sweep.
Context {S A : Type} (getL : S -> list A) (setL : S -> list A -> S).
Variables (expired : A -> bool) (onExpire onKeep : A -> Act S unit).

Fixpoint sweepBack (i : nat) : Act S unit :=
  match i with
  | O => ret tt
  | Datatypes.S i' =>
    s <- get ;;
    call (match nth_error (getL s) i' with
          | Some x =>
            if expired x
            then call (onExpire x) ;; modify (fun s => setL s (splice_at i' (getL s)))
            else onKeep x
          | None => ret tt
          end) ;;
    sweepBack i'
  end.

Lemma sweepBack_S i s :
  exec (sweepBack (Datatypes.S i)) s =
  exec (sweepBack i)
    (exec (match nth_error (getL s) i with
           | Some x =>
             if expired x
             then call (onExpire x) ;; modify (fun s => setL s (splice_at i (getL s)))
             else onKeep x
           | None => ret tt
           end) s).
Proof. reflexivity. Qed.

(** What the loop promises, given that the handlers of one entry leave the
    array alone and each appends its own calls to a [trace] of the state:
    the entries kept are those [filter] keeps, in their order, and the
    handlers ran from the last entry to the first. *)
Context {T : Type} (trace : S -> list T) (tE tK : A -> list T).
Hypothesis get_set : forall s l, getL (setL s l) = l.
Hypothesis trace_set : forall s l, trace (setL s l) = trace s.
Hypothesis expire_step :
  forall x s, getL (exec (onExpire x) s) = getL s /\ trace (exec (onExpire x) s) = trace s ++ tE x.
Hypothesis keep_step :
  forall x s, getL (exec (onKeep x) s) = getL s /\ trace (exec (onKeep x) s) = trace s ++ tK x.

Definition sweep_trace (l : list A) : list T :=
  flat_map (fun x => if expired x then tE x else tK x) (rev l).

Lemma sweepBack_run i pre suf s :
  getL s = pre ++ suf -> length pre = i ->
  getL (exec (sweepBack i) s) = List.filter (fun x => negb (expired x)) pre ++ suf /\
  trace (exec (sweepBack i) s) = trace s ++ sweep_trace pre.
Proof.
  revert pre suf s. induction i as [|i IH]; intros pre suf s Hl Hn.
  { destruct pre; [|discriminate]. rewrite app_nil_r. split; [exact Hl | reflexivity]. }
  assert (exists pre' x, pre = pre' ++ [x]) as (pre' & x & ->).
  { destruct pre as [|y ys] using rev_ind; [discriminate | eauto]. }
  rewrite length_app in Hn. simpl in Hn. assert (length pre' = i) as <- by lia.
  unfold sweep_trace. rewrite sweepBack_S, Hl, <- app_assoc.
  rewrite nth_error_app2, Nat.sub_diag by lia. rewrite List.filter_app, rev_app_distr. simpl.
  destruct (expired x) eqn:Ex; cbv iota beta; cbn [List.filter negb flat_map rev app].
  - rewrite exec_call_modify. destruct (expire_step x s) as [Hg Ht].
    destruct (IH pre' suf (setL (exec (onExpire x) s) (splice_at (length pre') (getL (exec (onExpire x) s)))))
      as [IH1 IH2]; [| reflexivity |].
    { rewrite get_set, Hg, Hl, <- app_assoc. apply splice_at_middle. }
    rewrite app_nil_r. split; [exact IH1|]. rewrite IH2, trace_set, Ht, app_assoc. reflexivity.
  - destruct (keep_step x s) as [Hg Ht].
    destruct (IH pre' (x :: suf) (exec (onKeep x) s)) as [IH1 IH2];
      [rewrite Hg, Hl, <- app_assoc; reflexivity | reflexivity |].
    rewrite IH1, <- app_assoc. split; [reflexivity|]. rewrite IH2, Ht, app_assoc. reflexivity.
Qed.

Lemma sweepBack_all s :
  getL (exec (sweepBack (length (getL s))) s) = List.filter (fun x => negb (expired x)) (getL s) /\
  trace (exec (sweepBack (length (getL s))) s) = trace s ++ sweep_trace (getL s).
Proof. rewrite <- (app_nil_r (List.filter _ _)). apply sweepBack_run; [symmetry; apply app_nil_r | reflexivity]. Qed.
End Sweep.

(** ** Effects (effects.ts) *)

Section Effects.
Context `{Engine}.

(** Lines 5-6: the two effect props, by asset name. *)
Definition CUBE : string := "Effect Cube".
Definition SPHERE : string := "Effect Sphere".

(** Lines 27-68. *)
Definition addEffect (propId : string) (startTint endTint : Vec4) (startGlow endGlow startScale endScale : Q)
  (velocity acceleration startPos : Vec3) (startQuat endQuat : Quat) (duration : Q) : Act Fx unit :=
  (* [J.setEntityPosition(prop, startPos, false)]: the flag is an engine
     option that moves nothing else. *)
  prop <- spawnProp propId ;;
  h <- host ;;
  let startTime := clock h in
  setEntityPosition prop (Some startPos) ;;
  emit (SetEntityScale prop startScale) ;;
  emit (Effect "setEntityTint" prop) ;;
  emit (Effect "setEntityGlow" prop) ;;
  emit (Effect "setEntityQuaternion" prop) ;;
  modify (fun s => set_effects s (effects s ++
    [mkEffect prop startTint endTint startGlow endGlow startScale endScale velocity acceleration
              startPos startQuat endQuat startTime (startTime + duration)])).

(** Line 76: [t >= effect.endTime]. *)
Definition effectExpired (t : Q) (e : EffectEntry) : bool := Qle_bool (fx_endTime e) t.

(** Lines 82-86. *)
Definition effectPosAt (e : EffectEntry) (elapsed : Q) : Vec3 :=
  vec3 (vx (startPos e) + vx (velocity e) * elapsed + (1#2) * vx (acceleration e) * elapsed * elapsed)
       (vy (startPos e) + vy (velocity e) * elapsed + (1#2) * vy (acceleration e) * elapsed * elapsed)
       (vz (startPos e) + vz (velocity e) * elapsed + (1#2) * vz (acceleration e) * elapsed * elapsed).

(** Lines 81-83 and 91-92. *)
Definition effectScale (t : Q) (e : EffectEntry) : Q :=
  let elapsed := t - fx_startTime e in
  let duration := fx_endTime e - fx_startTime e in
  let progress := elapsed / duration in
  startScale e + (endScale e - startScale e) * progress.

(** Lines 81-116: one live effect in a frame; tint, glow and rotation are
    looks, logged by name. *)
Definition effectFrame (t : Q) (e : EffectEntry) : Act Fx unit :=
  setEntityPosition (prop e) (Some (effectPosAt e (t - fx_startTime e))) ;;
  emit (SetEntityScale (prop e) (effectScale t e)) ;;
  emit (Effect "setEntityTint" (prop e)) ;;
  emit (Effect "setEntityGlow" (prop e)) ;;
  emit (Effect "setEntityQuaternion" (prop e)).

(** Lines 70-118: the render handler. *)
Definition effectsRender : Act Fx unit :=
  h <- host ;;
  let t := clock h in
  s <- get ;;
  sweepBack effects set_effects (effectExpired t) (fun e => removeEntity (prop e)) (effectFrame t)
    (length (effects s)).
End Effects.

(** ** Particles (particles.ts) *)

Section Particles.
Context `{Engine}.
Variable PI : Q.
Variables cos sin : Q -> Q.
(** gl-matrix's [quat.random] from its three uniform draws. *)
Variable quatOfUniform : Q -> Q -> Q -> Quat.

(** [J.quat.random([0, 0, 0, 1])]. *)
Definition randomQuat : Act Fx Quat :=
  u1 <- random ;; u2 <- random ;; u3 <- random ;; ret (quatOfUniform u1 u2 u3).

(** Lines 4-20. *)
Definition spawnArrowTrailParticle (position : Vec3) : Act Fx unit :=
  q <- randomQuat ;;
  addEffect SPHERE ((1#2), (1#2), (1#2), 0) ((1#2), (1#2), (1#2), 0) 0 0 (1#5) 0
    (vec3 0 (1#10) 0) vzero position q q (1#2).

(** Lines 27-67, one particle. *)
Definition reflectionParticle (position normal : Vec3) (i : nat) : Act Fx unit :=
  let angle := inject_Z (Z.of_nat i) / 6 * PI * 2 in
  let arbitrary := if Qabs (vy normal) <? 9#10 then vec3 0 1 0 else vec3 1 0 0 in
  let tangent := normalize (vcross normal arbitrary) in
  let bitangent := vcross normal tangent in
  let circleOffset := vadd (vscale tangent (cos angle)) (vscale bitangent (sin angle)) in
  let velocity := vadd (vscale normal 3) (vscale circleOffset 2) in
  q <- randomQuat ;;
  addEffect SPHERE ((4#5), (4#5), (4#5), 1) ((1#2), (1#2), (1#2), 0) (3#10) 0 (1#2) 0
    velocity vzero position q q (2#5).

(** Lines 22-68. *)
Definition spawnArrowReflectionParticles (position normal : Vec3) : Act Fx unit :=
  for_each (seq 0 6) (reflectionParticle position normal).

(** Lines 72-100, one particle. *)
Definition deathParticle (position : Vec3) (i : nat) : Act Fx unit :=
  let angle := inject_Z (Z.of_nat i) / 12 * PI * 2 in
  r1 <- random ;;
  let elevation := (r1 - (1#2)) * PI * (1#2) in
  let horizontalRadius := cos elevation in
  r2 <- random ;; r3 <- random ;; r4 <- random ;;
  let velocity := vec3 (cos angle * horizontalRadius * (3 + r2 * 3)) (8 + r3 * 6)
                       (sin angle * horizontalRadius * (3 + r4 * 3)) in
  q <- randomQuat ;;
  r5 <- random ;; r6 <- random ;; r7 <- random ;;
  addEffect SPHERE ((3#10) + r5 * (2#5), 0, 0, 1) ((1#10) + r6 * (2#5), 0, 0, 1) 1 1
    (r7 * (1#2) + (1#2)) 0 velocity (vec3 0 (-30) 0) position q q 1.

(** Lines 70-101. *)
Definition spawnPlayerDeathParticles (position : Vec3) : Act Fx unit :=
  for_each (seq 0 12) (deathParticle position).
End Particles.

(** ** Debris (debris.ts) *)

Section Debris.
Context `{Engine}.

(** Lines 11-39. *)
Definition onHitCommandDebris (victimId : EntityId) : Act Fx unit :=
  h <- host ;;
  viewRay <- need (getCharacterViewRay h victimId) ;;
  debris <- spawnProp "Bow Debris" ;;
  let spawnPos := vadd (origin viewRay) (vscale (direction viewRay) (3#2)) in
  setEntityPosition debris (Some spawnPos) ;;
  r1 <- random ;; r2 <- random ;; r3 <- random ;;
  r4 <- random ;;
  let speed := 8 + r4 * 4 in
  let vel := vscale (direction viewRay) speed in
  r5 <- random ;;
  let vel := vec3 (vx vel) (vy vel + (15 + r5 * 5)) (vz vel) in
  setEntityVelocity debris vel ;;
  emit (Effect "setEntityAngularVelocity" debris) ;;
  h <- host ;;
  modify (fun s => set_debris s (debrisList s ++ [mkDebris debris (clock h)])).

(** Line 46: [t - entry.spawnTime >= 5]. *)
Definition debrisExpired (t : Q) (e : DebrisEntry) : bool := Qle_bool 5 (t - spawnTime e).

(** Lines 41-51. *)
Definition debrisTick : Act Fx unit :=
  h <- host ;;
  s <- get ;;
  sweepBack debrisList set_debris (debrisExpired (clock h)) (fun e => removeEntity (d_entity e))
    (fun _ => ret tt) (length (debrisList s)).
End Debris.

(** ** What the sweeps do *)

Section SweepRuns.
Context `{Engine}.

(** The calls one frame makes for a live effect. *)
Definition frameCalls (t : Q) (e : EffectEntry) : list HostCall :=
  [SetEntityPosition (prop e) (Some (effectPosAt e (t - fx_startTime e)));
   SetEntityScale (prop e) (effectScale t e);
   Effect "setEntityTint" (prop e); Effect "setEntityGlow" (prop e);
   Effect "setEntityQuaternion" (prop e)].

Definition fx_log (s : Fx) : list HostCall := log (fx_host s).

Lemma removeEntity_fx id s :
  effects (exec (removeEntity id) s) = effects s /\ debrisList (exec (removeEntity id) s) = debrisList s /\
  fx_log (exec (removeEntity id) s) = fx_log s ++ [RemoveEntity id].
Proof. repeat split. Qed.

Lemma effectFrame_fx t e s :
  effects (exec (effectFrame t e) s) = effects s /\
  fx_log (exec (effectFrame t e) s) = fx_log s ++ frameCalls t e.
Proof. split; [reflexivity|]. unfold fx_log. cbn. rewrite <- !app_assoc. reflexivity. Qed.

Lemma effectsRender_unfold s :
  exec effectsRender s =
  exec (sweepBack effects set_effects (effectExpired (clock (fx_host s))) (fun e => removeEntity (prop e))
          (effectFrame (clock (fx_host s))) (length (effects s))) s.
Proof. reflexivity. Qed.

Lemma debrisTick_unfold s :
  exec debrisTick s =
  exec (sweepBack debrisList set_debris (debrisExpired (clock (fx_host s))) (fun e => removeEntity (d_entity e))
          (fun _ => ret tt) (length (debrisList s))) s.
Proof. reflexivity. Qed.

Lemma sweep_trace_silent {A T} (expired : A -> bool) (f : A -> T) l :
  sweep_trace expired (fun x => [f x]) (fun _ => []) l = map f (rev (List.filter expired l)).
Proof.
  unfold sweep_trace. induction l as [|x l IH]; [reflexivity|]. cbn [rev List.filter].
  rewrite flat_map_app, IH. cbn. destruct (expired x); cbn; rewrite ?map_app, ?app_nil_r; reflexivity.
Qed.

(** (C36) A render frame keeps exactly the effects whose end time is still in
    the future, in their order; it removes the props of the others and
    moves and rescales the live ones, walking the array from its end. *)
Theorem effectsRender_run s :
  let t := clock (fx_host s) in
  effects (exec effectsRender s) = List.filter (fun e => negb (effectExpired t e)) (effects s) /\
  fx_log (exec effectsRender s) =
    fx_log s ++ sweep_trace (effectExpired t) (fun e => [RemoveEntity (prop e)]) (frameCalls t) (effects s).
Proof.
  intros t. rewrite effectsRender_unfold. eapply sweepBack_all; [reflexivity | reflexivity | |].
  - intros x s0. destruct (removeEntity_fx (prop x) s0) as (? & _ & ?). split; assumption.
  - apply effectFrame_fx.
Qed.

(** A tick keeps exactly the debris younger than five seconds, in their
    order, and removes the props of the others, the last one first. *)
Theorem debrisTick_run s :
  let t := clock (fx_host s) in
  debrisList (exec debrisTick s) = List.filter (fun d => negb (debrisExpired t d)) (debrisList s) /\
  fx_log (exec debrisTick s) =
    fx_log s ++ map (fun d => RemoveEntity (d_entity d)) (rev (List.filter (debrisExpired t) (debrisList s))).
Proof.
  intros t. rewrite debrisTick_unfold, <- sweep_trace_silent. eapply sweepBack_all; [reflexivity | reflexivity | |].
  - intros x s0. destruct (removeEntity_fx (d_entity x) s0) as (_ & ? & ?). split; assumption.
  - intros x s0. rewrite app_nil_r. split; reflexivity.
Qed.
End SweepRuns.


(** ** What the spawners add *)

Section Spawners.
Context `{Engine}.

(** [Grows n d P s s']: from [s] to [s'] the effects array gained [n]
    entries, each satisfying [P] at the clock of [s], at the end; [d] more
    values of [Math.random] were drawn; the clock and the debris are
    unchanged. *)
Definition Grows (n d : nat) (P : Q -> EffectEntry -> Prop) (s s' : Fx) : Prop :=
  clock (fx_host s') = clock (fx_host s) /\ debrisList s' = debrisList s /\
  draws (fx_host s') = (draws (fx_host s) + d)%nat /\
  exists new, effects s' = effects s ++ new /\ length new = n /\ Forall (P (clock (fx_host s))) new.

Lemma Grows_trans n1 d1 n2 d2 P s1 s2 s3 :
  Grows n1 d1 P s1 s2 -> Grows n2 d2 P s2 s3 -> Grows (n1 + n2) (d1 + d2) P s1 s3.
Proof.
  intros (C1 & D1 & R1 & new1 & E1 & L1 & F1) (C2 & D2 & R2 & new2 & E2 & L2 & F2).
  repeat split; [congruence | congruence | lia |].
  exists (new1 ++ new2). rewrite E2, E1, app_assoc, length_app, C1 in *.
  split; [reflexivity|]. split; [lia | apply Forall_app; split; assumption].
Qed.

Lemma Grows_for_each {X} n d P (l : list X) (body : X -> Act Fx unit) :
  (forall x, Rel (Grows n d P) (body x)) -> Rel (Grows (length l * n) (length l * d) P) (for_each l body).
Proof.
  intros Hb. induction l as [|x l IH]; intros s.
  { cbn. split; [reflexivity|]. split; [reflexivity|]. split; [lia|]. exists []. rewrite app_nil_r. split; [reflexivity|]. split; [reflexivity | constructor]. }
  rewrite exec_for_each_cons. eapply Grows_trans; [apply Hb | apply IH].
Qed.

(** The effect [addEffect] records when the clock reads [t0] and [id] is
    the prop it spawned. *)
Definition addedEffect (id : EntityId) (t0 : Q) startTint endTint startGlow endGlow startScale endScale
  velocity acceleration startPos startQuat endQuat duration : EffectEntry :=
  mkEffect id startTint endTint startGlow endGlow startScale endScale velocity acceleration
    startPos startQuat endQuat t0 (t0 + duration).

Lemma addEffect_run propId startTint endTint startGlow endGlow startScale endScale
    velocity acceleration startPos startQuat endQuat duration s :
  let h := fx_host s in
  let s' := exec (addEffect propId startTint endTint startGlow endGlow startScale endScale
                    velocity acceleration startPos startQuat endQuat duration) s in
  effects s' = effects s ++ [addedEffect (next_id h) (clock h) startTint endTint startGlow endGlow
                              startScale endScale velocity acceleration startPos startQuat endQuat duration] /\
  clock (fx_host s') = clock h /\ debrisList s' = debrisList s /\ draws (fx_host s') = draws h /\
  next_id (fx_host s') = Z.succ (next_id h).
Proof. repeat split. Qed.

Lemma Grows_bind {A B} n1 d1 n2 d2 n d P (m : Act Fx A) (k : A -> Act Fx B) :
  Total m -> Rel (Grows n1 d1 P) m -> (forall a, Rel (Grows n2 d2 P) (k a)) ->
  n = (n1 + n2)%nat -> d = (d1 + d2)%nat -> Rel (Grows n d P) (bind m k).
Proof.
  intros Ht Hm Hk -> -> s. specialize (Ht s). specialize (Hm s). unfold exec, bind in *.
  destruct (m s) as [s1 [a|]]; [|contradiction]. eapply Grows_trans; [exact Hm | apply Hk].
Qed.

Lemma Grows_random P : Rel (Grows 0 1 P) random.
Proof. intros s. unfold Grows. simpl. repeat split; [lia|]. exists []. rewrite app_nil_r. repeat constructor. Qed.

Lemma Grows_ret {A} P (a : A) : Rel (Grows 0 0 P) (ret a).
Proof. intros s. unfold Grows, exec, ret. simpl. repeat split; [lia|]. exists []. rewrite app_nil_r. repeat constructor. Qed.

Lemma addEffect_grows (P : Q -> EffectEntry -> Prop) propId startTint endTint startGlow endGlow startScale endScale
    velocity acceleration startPos startQuat endQuat duration :
  (forall id t0, P t0 (addedEffect id t0 startTint endTint startGlow endGlow startScale endScale
                         velocity acceleration startPos startQuat endQuat duration)) ->
  Rel (Grows 1 0 P) (addEffect propId startTint endTint startGlow endGlow startScale endScale
                       velocity acceleration startPos startQuat endQuat duration).
Proof.
  intros HP s. destruct (addEffect_run propId startTint endTint startGlow endGlow startScale endScale
    velocity acceleration startPos startQuat endQuat duration s) as (E & C & D & R & _).
  split; [exact C|]. split; [exact D|]. split; [rewrite R; lia|]. eexists. split; [exact E|].
  split; [reflexivity | repeat constructor; apply HP].
Qed.

End Spawners.

(** [grows] proves a [Grows] judgement for a handler that draws random
    numbers and adds effects. *)
Ltac grows :=
  repeat (cbv beta zeta;
    match goal with
    | |- Rel (Grows _ _ _) (bind _ _) => eapply Grows_bind; [total | | intros ? | |]
    | |- Rel (Grows _ _ _) random => apply Grows_random
    | |- Rel (Grows _ _ _) (ret _) => apply Grows_ret
    | |- Rel (Grows _ _ _) (addEffect _ _ _ _ _ _ _ _ _ _ _ _ _) => apply addEffect_grows
    end).

Section DeathSparks.
Context `{Engine}.

Definition DeathSpark (t0 : Q) (e : EffectEntry) : Prop :=
  fx_startTime e = t0 /\ fx_endTime e = t0 + 1 /\ startGlow e = 1 /\ endGlow e = 1 /\ endScale e = 0.

Lemma deathParticle_grows PI cos sin quatOfUniform position i :
  Rel (Grows 1 10 DeathSpark) (deathParticle PI cos sin quatOfUniform position i).
Proof.
  unfold deathParticle, randomQuat. grows; try reflexivity. intros id t0. repeat split.
Qed.

(** A player's death throws twelve spheres: the effects array gains
    twelve entries at its end, each starting now and ending one second
    later, glowing at 1 and shrinking to nothing; 120 values of
    [Math.random] are drawn, ten per sphere. *)
Theorem spawnPlayerDeathParticles_twelve PI cos sin quatOfUniform position :
  Rel (Grows 12 120 DeathSpark) (spawnPlayerDeathParticles PI cos sin quatOfUniform position).
Proof. exact (Grows_for_each 1 10 DeathSpark (seq 0 12) _ (deathParticle_grows PI cos sin quatOfUniform position)). Qed.

(** The debris listener does nothing when the victim has no view ray;
    otherwise it spawns one prop, records it as debris born now, and draws
    five values of [Math.random]. *)
Theorem onHitCommandDebris_run victimId s :
  let h := fx_host s in
  let s' := exec (onHitCommandDebris victimId) s in
  match getCharacterViewRay h victimId with
  | None => s' = s
  | Some _ =>
    debrisList s' = debrisList s ++ [mkDebris (next_id h) (clock h)] /\ effects s' = effects s /\
    draws (fx_host s') = (draws h + 5)%nat /\ next_id (fx_host s') = Z.succ (next_id h)
  end.
Proof.
  destruct s as [h eff deb]. cbn zeta. unfold onHitCommandDebris, exec. cbv [bind host].
  cbn [host_of Fx_HasHost fx_host]. destruct (getCharacterViewRay h victimId); [|reflexivity].
  repeat split. simpl. lia.
Qed.
End DeathSparks.

