(* ===== verification/Scene.v ===== *)
(** * The client's scenery: the death camera (client/camera.ts), the pickup
      hover and sparkles (client/pickup.ts), the nameplates
      (client/nameplates.ts) and the death handler of client/player.ts

    [Scene] holds the module variables of camera.ts (lines 3-6) and
    pickup.ts (lines 6-7) beside the effects of [Effects] and the local
    player's id ([J.getLocalPlayer()]).  An entity id is a JS number:
    [if (targetId)] and [if (!victimId)] treat the id 0 as absent, which
    [truthy_id] writes out.  [J.vec3.normalize] is the engine's; the
    rotation [J.mat4.lookAt] builds is determined by the camera position
    and the point it looks at, which [SetCameraFree] records. *)

From Stdlib Require Import QArith Qminmax ZArith List String Lqa Lia Sorted.
From stdpp Require Import base tactics list gmap.
From S2P Require Import Prelude Host Hud Effects.
Import ListNotations.
Open Scope Q_scope.
Open Scope bow_scope.

Record Scene : Type := mkScene {
  sc_fx : Fx;
  sc_local : EntityId;
  cameraZoomTarget : option EntityId;
  deathCameraStartTime : Q;
  smoothedKillerPos : option Vec3;
  initialViewRay : option Ray;
  pickupBasePositions : gmap EntityId Q;
  pickupLastParticleTime : gmap EntityId Q;
}.

#[export] Instance Scene_HasHost : HasHost Scene := {
  host_of s := fx_host (sc_fx s);
  set_host s h := mkScene (set_host (sc_fx s) h) (sc_local s) (cameraZoomTarget s) (deathCameraStartTime s)
                    (smoothedKillerPos s) (initialViewRay s) (pickupBasePositions s) (pickupLastParticleTime s);
}.

#[export] Instance Scene_HasHostLaws : HasHostLaws Scene.
Proof. constructor. reflexivity. Qed.

Definition set_fx (s : Scene) (f : Fx) : Scene :=
  mkScene f (sc_local s) (cameraZoomTarget s) (deathCameraStartTime s) (smoothedKillerPos s)
    (initialViewRay s) (pickupBasePositions s) (pickupLastParticleTime s).
Definition set_zoomTarget (s : Scene) (t : option EntityId) : Scene :=
  mkScene (sc_fx s) (sc_local s) t (deathCameraStartTime s) (smoothedKillerPos s)
    (initialViewRay s) (pickupBasePositions s) (pickupLastParticleTime s).
Definition set_deathCamera (s : Scene) (t0 : Q) (sm : option Vec3) (ray : option Ray) : Scene :=
  mkScene (sc_fx s) (sc_local s) (cameraZoomTarget s) t0 sm ray (pickupBasePositions s) (pickupLastParticleTime s).
Definition set_smoothed (s : Scene) (sm : option Vec3) : Scene :=
  set_deathCamera s (deathCameraStartTime s) sm (initialViewRay s).
Definition set_bases (s : Scene) (m : gmap EntityId Q) : Scene :=
  mkScene (sc_fx s) (sc_local s) (cameraZoomTarget s) (deathCameraStartTime s) (smoothedKillerPos s)
    (initialViewRay s) m (pickupLastParticleTime s).
Definition set_lastParticle (s : Scene) (m : gmap EntityId Q) : Scene :=
  mkScene (sc_fx s) (sc_local s) (cameraZoomTarget s) (deathCameraStartTime s) (smoothedKillerPos s)
    (initialViewRay s) (pickupBasePositions s) m.

(** A handler of effects.ts or particles.ts run from here. *)
Definition on_fx {A} (m : Act Fx A) : Act Scene A := focus sc_fx set_fx m.

(** JS truthiness of an entity id that may be [null]. *)
Definition truthy_id (o : option EntityId) : bool :=
  match o with Some id => negb (Z.eqb id 0) | None => false end.

(** [J.vec3.lerp(out, a, b, t)] and [J.vec3.negate]. *)
Definition vlerp (a b : Vec3) (t : Q) : Vec3 := vadd a (vscale (vsub b a) t).
Definition vnegate (a : Vec3) : Vec3 := vec3 (- vx a) (- vy a) (- vz a).

(** ** The death camera (camera.ts) *)

Section Camera.
Context `{Engine}.

(** Lines 8-16. *)
Definition setCameraZoomTarget (targetId : option EntityId) : Act Scene unit :=
  modify (fun s => set_zoomTarget s targetId) ;;
  when (truthy_id targetId)
    (h <- host ;;
     s <- get ;;
     let victimId := sc_local s in
     modify (fun s => set_deathCamera s (clock h) None
                        (if truthy_id (Some victimId) then getCharacterViewRay h victimId else None))).

(** Lines 41-42. *)
Definition movePhaseAt (elapsed : Q) : Q := Qmin 1 (elapsed / 2).
Definition smoothPhaseAt (elapsed : Q) : Q :=
  let movePhase := movePhaseAt elapsed in movePhase * movePhase * (3 - 2 * movePhase).

(** Lines 44-53: where the camera ends, three units behind the victim
    away from the killer and 4.6 units above its feet. *)
Definition finalCameraPos (sm victimPos : Vec3) : Vec3 :=
  let dirToKiller := normalize (vec3 (vx sm - vx victimPos) 0 (vz sm - vz victimPos)) in
  let oppositeDir := vnegate dirToKiller in
  vec3 (vx victimPos + vx oppositeDir * 3) (vy victimPos + (8#5) + 3) (vz victimPos + vz oppositeDir * 3).

(** Lines 18-71. *)
Definition cameraTick (t : Q) : Act Scene unit :=
  s <- get ;;
  target <- need (if truthy_id (cameraZoomTarget s) then cameraZoomTarget s else None) ;;
  ray <- need (initialViewRay s) ;;
  let victimId := sc_local s in
  when (negb (truthy_id (Some victimId))) leave ;;
  h <- host ;;
  victimPos <- need (getEntityPosition h victimId) ;;
  killerPos <- need (getEntityPosition h target) ;;
  let sm := vlerp (default killerPos (smoothedKillerPos s)) killerPos (1#10) in
  modify (fun s => set_smoothed s (Some sm)) ;;
  let smoothPhase := smoothPhaseAt (t - deathCameraStartTime s) in
  let cameraPos := vlerp (origin ray) (finalCameraPos sm victimPos) smoothPhase in
  let dirToTarget := normalize (vsub sm cameraPos) in
  let finalDir := vlerp (direction ray) dirToTarget smoothPhase in
  let targetPos := vadd cameraPos finalDir in
  emit (SetCameraFree cameraPos targetPos).
End Camera.

(** ** Pickup hover and sparkles (pickup.ts) *)

Section Pickup.
Context `{Engine}.
Variable PI : Q.
Variables sin cos : Q -> Q.
Variable quatOfUniform : Q -> Q -> Q -> Quat.

(** Lines 22-25: the hover height of a pickup over its base. *)
Definition hoverY (time baseY : Q) (pos : Vec3) : Q :=
  let offset := vx pos * (3#10) + vz pos * (1#5) in
  baseY + sin (time * (9#2) + offset) * (7#20).

(** Lines 55-85: one green sparkle around a pickup. *)
Definition pickupSparkle (pos : Vec3) (newY : Q) : Act Fx unit :=
  r1 <- random ;;
  let angle := r1 * PI * 2 in
  r2 <- random ;;
  let radius := (3#10) + r2 * (1#5) in
  let particlePos := vec3 (vx pos + cos angle * radius) (newY - (3#10)) (vz pos + sin angle * radius) in
  q <- randomQuat quatOfUniform ;;
  addEffect SPHERE ((1#5), 1, (3#10), 1) ((1#5), 1, (3#10), 0) (3#2) 0 (3#20) (1#20)
    (vec3 0 (6#5) 0) vzero particlePos q q (3#2).

(** Lines 13-86: one pickup in a tick; [leave] is [continue]. *)
Definition pickupStep (time : Q) (pickupId : EntityId) : Act Scene unit :=
  h <- host ;;
  pos <- need (getEntityPosition h pickupId) ;;
  s <- get ;;
  when (negb (bool_decide (is_Some (pickupBasePositions s !! pickupId))))
    (modify (fun s => set_bases s (<[pickupId := vy pos]> (pickupBasePositions s)))) ;;
  s <- get ;;
  let baseY := default 0 (pickupBasePositions s !! pickupId) in
  let newY := hoverY time baseY pos in
  setEntityPosition pickupId (Some (vec3 (vx pos) newY (vz pos))) ;;
  emit (Effect "setEntityQuaternion" pickupId) ;;
  emit (Effect "setEntityGlow" pickupId) ;;
  h <- host ;;
  let localPlayer := sc_local s in
  localPlayerPos <- need (if truthy_id (Some localPlayer) then getEntityPosition h localPlayer else None) ;;
  let dx := vx pos - vx localPlayerPos in
  let dy := vy pos - vy localPlayerPos in
  let dz := vz pos - vz localPlayerPos in
  let distSq := dx * dx + dy * dy + dz * dz in
  when (30 * 30 <? distSq) leave ;;
  (* [pickupLastParticleTime.get(pickupId) || 0]: a stored time of 0 and
     an absent one both give 0. *)
  s <- get ;;
  let lastParticleTime := default 0 (pickupLastParticleTime s !! pickupId) in
  when (Qle_bool (1#2) (time - lastParticleTime))
    (modify (fun s => set_lastParticle s (<[pickupId := time]> (pickupLastParticleTime s))) ;;
     on_fx (pickupSparkle pos newY)).


(** Lines 90-104: the collect sound, at the pickup for the other players. *)
Definition onPickupCommandClient (playerId : EntityId) (pickupPosition : Vec3) : Act Scene unit :=
  s <- get ;;
  if Z.eqb playerId (sc_local s)
  then emit (PlaySound "src_assets_audio_sfx_collectarrow" (7#10) None)
  else emit (PlaySoundAt "src_assets_audio_sfx_collectarrow" pickupPosition 1 None).

(** Lines 106-112: the spawn sound at the new pickup. *)
Definition onItemSpawnCommandClient (position : Vec3) : Act Scene unit :=
  emit (PlaySoundAt "src_assets_audio_sfx_itemspawn" position (4#5) None).
End Pickup.

(** ** Nameplates (nameplates.ts) *)

(** Lines 9-17: the first player with the most kills, above [-1]. *)
Definition topPlayer (players : list (EntityId * PlayerTrait)) : option (EntityId * PlayerTrait) * Z :=
  first_best (fun k best => Z.ltb best k) (fun '(_, p) => Some (kills p)) (-1)%Z players.

(** Line 22. *)
Definition isTopPlayer (players : list (EntityId * PlayerTrait)) (playerId : EntityId) : bool :=
  match topPlayer players with
  | (Some (top, _), maxKills) => Z.eqb playerId top && Z.ltb 0 maxKills
  | (None, _) => false
  end.

Definition GOLD : Vec3 := vec3 1 (843#1000) 0.
Definition WHITE : Vec3 := vec3 1 1 1.

(** Line 21: [trait.name] is truthy. *)
Definition nonempty (s : string) : bool := match s with EmptyString => false | _ => true end.

(** Lines 4-28. *)
Definition nameplatesTick : Act Scene unit :=
  h <- host ;;
  let players := playersWithTraits h in
  for_each players (fun '(playerId, trait) =>
    when (nonempty (name trait))
      (let isTop := isTopPlayer players playerId in
       emit (SetCharacterNameplate playerId true (if isTop then GOLD else WHITE)
               (if isTop then ("👑 " ++ name trait)%string else name trait)))).

(** ** The death handler of player.ts *)

Section PlayerDeath.
Context `{Engine}.
Variable PI : Q.
Variables cos sin : Q -> Q.
Variable quatOfUniform : Q -> Q -> Q -> Quat.

(** player.ts lines 25-41 with the particles and the camera it calls
    ([Arrow.handlePlayerDeath] logs those two calls by name). *)
Definition playerDeathView (victimId : EntityId) (position : Vec3) (killerId : option EntityId) : Act Scene unit :=
  emit (PlaySoundAt "src_assets_audio_sfx_damage" position 1 None) ;;
  on_fx (spawnPlayerDeathParticles PI cos sin quatOfUniform position) ;;
  s <- get ;;
  when (Z.eqb victimId (sc_local s) && bool_decide (is_Some killerId)) (setCameraZoomTarget killerId).
End PlayerDeath.

(** ** The crown is the leaderboard's first row *)

(** What the crown should be: the first row of the leaderboard's stable
    sort (ui.ts line 349), when that player has kills. *)
Definition leaderboardTop (h : Host) (id : EntityId) : bool :=
  match sort_by_kills (playerStats h) with
  | st :: _ => Z.eqb (stat_id st) id && Z.ltb 0 (stat_kills st)
  | [] => false
  end.

Lemma insert_by_kills_in x y l : In y (insert_by_kills x l) <-> x = y \/ In y l.
Proof.
  induction l as [|z l IH]; simpl; [tauto|].
  destruct (stat_kills z <=? stat_kills x)%Z; simpl; rewrite ?IH; tauto.
Qed.

Lemma sort_by_kills_in y l : In y (sort_by_kills l) <-> In y l.
Proof. induction l as [|x l IH]; simpl; [tauto|]. rewrite insert_by_kills_in, IH. tauto. Qed.

(** The first entry with the most kills heads the stable sort. *)
Lemma sort_by_kills_head l1 x l2 :
  (forall y, In y l1 -> (stat_kills y < stat_kills x)%Z) ->
  (forall y, In y l2 -> (stat_kills y <= stat_kills x)%Z) ->
  exists t, sort_by_kills (l1 ++ x :: l2) = x :: t.
Proof.
  intros H1 H2. induction l1 as [|y l1 IH]; simpl.
  - destruct (sort_by_kills l2) as [|z t] eqn:E; simpl; [eauto|].
    assert (Hz : In z l2) by (apply sort_by_kills_in; rewrite E; left; reflexivity).
    specialize (H2 z Hz). destruct (Z.leb_spec (stat_kills z) (stat_kills x)); [eauto | lia].
  - destruct IH as [t ->]; [intros; apply H1; right; assumption|]. simpl.
    specialize (H1 y (or_introl eq_refl)).
    destruct (Z.leb_spec (stat_kills x) (stat_kills y)); [lia | eauto].
Qed.

Lemma topPlayer_cases (l : list (EntityId * PlayerTrait)) :
  (fst (topPlayer l) = None /\ forall y, In y l -> (kills (snd y) <= -1)%Z) \/
  (exists l1 x l2, l = l1 ++ x :: l2 /\ fst (topPlayer l) = Some x /\ snd (topPlayer l) = kills (snd x) /\
     (forall y, In y l1 -> (kills (snd y) < kills (snd x))%Z) /\
     (forall y, In y l2 -> (kills (snd y) <= kills (snd x))%Z)).
Proof.
  unfold topPlayer, first_best.
  assert (Hasym : forall a b : Z, Z.ltb b a = true -> Z.ltb a b = false)
    by (intros a b; rewrite Z.ltb_lt, Z.ltb_ge; lia).
  assert (Htrans : forall a b c : Z, Z.ltb b a = true -> Z.ltb b c = false -> Z.ltb c a = true)
    by (intros a b c; rewrite !Z.ltb_lt, Z.ltb_ge; lia).
  destruct (best_fold_cases (fun k best => Z.ltb best k) (fun '(_, p) => Some (kills p)) Hasym Htrans
              l None (-1)%Z)
    as [[E Hn] | (x & Hx & (l1 & l2 & k & El & Hk & Hlt & H1 & H2) & Hkey)].
  - left. rewrite E. split; [reflexivity|]. intros [i p] Hy.
    specialize (Hn (i, p) (kills p) Hy eq_refl). apply Z.ltb_ge in Hn. exact Hn.
  - right. destruct x as [i p]. injection Hk as <-. exists l1, (i, p), l2.
    injection Hkey as Hkey. repeat split; [exact El | exact Hx | symmetry; exact Hkey | |].
    + intros [j q] Hy. specialize (H1 (j, q) (kills q) Hy eq_refl). apply Z.ltb_lt in H1. exact H1.
    + intros [j q] Hy. specialize (H2 (j, q) (kills q) Hy eq_refl). apply Z.ltb_ge in H2. exact H2.
Qed.

Lemma isTopPlayer_leaderboardTop h id : isTopPlayer (playersWithTraits h) id = leaderboardTop h id.
Proof.
  unfold isTopPlayer, leaderboardTop, playerStats.
  destruct (topPlayer_cases (playersWithTraits h)) as [[E Hn] | (l1 & [i p] & l2 & El & Ex & Ek & H1 & H2)].
  - destruct (topPlayer _) as [[[i p]|] k]; [discriminate E|].
    destruct (sort_by_kills _) as [|st t] eqn:Es; [reflexivity|].
    assert (Hin : In st (map (fun '(i, p) => mkStat i (name p) (kills p) (deathCount p) (killStreak p))
                            (playersWithTraits h)))
      by (apply sort_by_kills_in; rewrite Es; left; reflexivity).
    apply in_map_iff in Hin as ([j q] & <- & Hq). specialize (Hn _ Hq). simpl in *.
    destruct (Z.ltb_spec 0 (kills q)); [lia | symmetry; apply andb_false_r].
  - destruct (topPlayer _) as [[[i' p']|] k]; simpl in Ex, Ek; [|discriminate Ex].
    injection Ex as <- <-. subst k. rewrite El, map_app. simpl.
    edestruct sort_by_kills_head as [t ->].
    + intros y Hy. apply in_map_iff in Hy as ([j q] & <- & Hq). exact (H1 _ Hq).
    + intros y Hy. apply in_map_iff in Hy as ([j q] & <- & Hq). exact (H2 _ Hq).
    + simpl. rewrite Z.eqb_sym. reflexivity.
Qed.

(** The nameplate a player should get: crowned and gold exactly when it
    heads the leaderboard with kills. *)
Definition nameplateSpec (h : Host) (x : EntityId * PlayerTrait) : list HostCall :=
  let '(playerId, trait) := x in
  if nonempty (name trait) then
    let crown := leaderboardTop h playerId in
    [SetCharacterNameplate playerId true (if crown then GOLD else WHITE)
       (if crown then ("👑 " ++ name trait)%string else name trait)]
  else [].

Lemma for_each_log {X} (l : list X) (body : X -> Act Scene unit) (g : X -> list HostCall) :
  (forall x s, log (host_of (exec (body x) s)) = log (host_of s) ++ g x) ->
  forall s, log (host_of (exec (for_each l body) s)) = log (host_of s) ++ flat_map g l.
Proof.
  intros Hb. induction l as [|x l IH]; intros s; [symmetry; apply app_nil_r|].
  rewrite exec_for_each_cons, IH, Hb, <- app_assoc. reflexivity.
Qed.

(** (C37) The nameplate tick names every player with a name, in the order
    of the players, and crowns (gold, with the crown emoji) exactly the
    player heading the leaderboard's stable sort by kills, when it has at
    least one kill: the first player with the most kills, as the HUD
    shows it. *)
Theorem nameplatesTick_crowns_leader s :
  let h := host_of s in
  log (host_of (exec nameplatesTick s)) = log h ++ flat_map (nameplateSpec h) (playersWithTraits h).
Proof.
  apply for_each_log. intros [i p] s'. cbn beta iota. unfold nameplateSpec.
  destruct (nonempty (name p)); [|symmetry; apply app_nil_r].
  rewrite isTopPlayer_leaderboardTop. reflexivity.
Qed.

(** ** Sparkles are rate limited *)

(** [SparkleRate time s s']: a tick at [time] changed a pickup's last
    sparkle time only to [time], and only when at least half a second had
    passed since the time it replaced. *)
Definition SparkleRate (time : Q) (s s' : Scene) : Prop :=
  forall id, pickupLastParticleTime s' !! id = pickupLastParticleTime s !! id \/
             (pickupLastParticleTime s' !! id = Some time /\
              1#2 <= time - default 0 (pickupLastParticleTime s !! id)).

#[export] Instance SparkleRate_preorder time : PreOrder (SparkleRate time).
Proof.
  split; [intros s id; left; reflexivity|].
  intros s1 s2 s3 H12 H23 id. destruct (H12 id) as [E1 | [E1 C1]], (H23 id) as [E2 | [E2 C2]].
  - left. congruence.
  - right. rewrite <- E1. split; assumption.
  - right. rewrite E2. split; assumption.
  - exfalso. rewrite E1 in C2. simpl in C2. lra.
Qed.

(** Handlers that leave the sparkle times alone. *)
Definition KeepsSparkles (s s' : Scene) : Prop := pickupLastParticleTime s' = pickupLastParticleTime s.



Section SparkleKeeps.
Context `{Engine}.
Lemma keeps_upd_host f : Rel KeepsSparkles (upd_host (St:=Scene) f).
Proof. intros s. reflexivity. Qed.
Lemma keeps_host : Rel KeepsSparkles (host (St:=Scene)).
Proof. intros s. reflexivity. Qed.
Lemma keeps_set_bases pickupId y : Rel KeepsSparkles (modify (fun s => set_bases s (<[pickupId := y]> (pickupBasePositions s)))).
Proof. intros s. reflexivity. Qed.
End SparkleKeeps.



Section SparkleRateThm.
Context `{Engine}.
Variable PI : Q.
Variables sin cos : Q -> Q.
Variable quatOfUniform : Q -> Q -> Q -> Quat.


Lemma exec_on_fx {A} (m : Act Fx A) s : exec (on_fx m) s = set_fx s (exec m (sc_fx s)).
Proof. reflexivity. Qed.

Definition PickupSpark (t0 : Q) (e : EffectEntry) : Prop := fx_startTime e = t0 /\ fx_endTime e = t0 + (3#2).

Lemma pickupSparkle_grows pos y : Rel (Grows 1 5 PickupSpark) (pickupSparkle PI sin cos quatOfUniform pos y).
Proof. unfold pickupSparkle, randomQuat. grows. all: first [reflexivity | intros ? ?; split; reflexivity]. Qed.

(** (C38) A pickup sparkles exactly when it is due, and the sparkle is
    recorded: in the tick's step for a pickup with a position, seen by a
    local player within 30 units, a green sphere of one and a half seconds
    is added to the effects and the pickup's last sparkle time becomes
    [time] when at least half a second has passed since the last one (an
    unseen pickup counts from 0); otherwise no effect is added and the
    time is kept.  So two sparkles of one pickup are half a second apart:
    at most two a second. *)
Theorem pickupStep_sparkles time id s pos lp :
  getEntityPosition (host_of s) id = Some pos ->
  sc_local s <> 0%Z -> sc_local s <> id ->
  getEntityPosition (host_of s) (sc_local s) = Some lp ->
  (vx pos - vx lp) * (vx pos - vx lp) + (vy pos - vy lp) * (vy pos - vy lp) + (vz pos - vz lp) * (vz pos - vz lp) <= 30 * 30 ->
  let s' := exec (pickupStep PI sin cos quatOfUniform time id) s in
  let last := default 0 (pickupLastParticleTime s !! id) in
  (1#2 <= time - last ->
   (exists e, effects (sc_fx s') = effects (sc_fx s) ++ [e] /\ PickupSpark (clock (host_of s)) e) /\
   pickupLastParticleTime s' = <[id := time]> (pickupLastParticleTime s)) /\
  (time - last < 1#2 ->
   effects (sc_fx s') = effects (sc_fx s) /\ pickupLastParticleTime s' = pickupLastParticleTime s).
Proof.
  intros Hp Hl0 Hli Hlp Hd s' last. unfold s'. clear s'.
  remember (exec _ s) as s' eqn:Es. unfold pickupStep in Es.
  erewrite exec_bind_some in Es; [|reflexivity]. rewrite Hp in Es.
  do 2 (erewrite exec_bind_some in Es; [|reflexivity]).
  unfold when at 1 in Es.
  destruct (negb _); (erewrite exec_bind_some in Es; [|reflexivity]).
  all: do 5 (erewrite exec_bind_some in Es; [|reflexivity]).
  all: cbn [sc_local set_bases truthy_id negb] in Es; rewrite (proj2 (Z.eqb_neq _ _) Hl0) in Es; cbn [negb] in Es.
  all: match type of Es with context [getEntityPosition ?h (sc_local ?s0)] =>
         replace (getEntityPosition h (sc_local s0)) with (Some lp) in Es end.
  2,4: rewrite <- Hlp; unfold getEntityPosition; cbn -[update_ent];
       rewrite lookup_update_ent_ne by (apply not_eq_sym, Hli); reflexivity.
  all: erewrite exec_bind_some in Es; [|reflexivity].
  all: replace (30 * 30 <? _) with false in Es by (symmetry; apply Qltb_false_iff; exact Hd).
  all: unfold when at 1 in Es; do 2 (erewrite exec_bind_some in Es; [|reflexivity]).
  all: split; intros Hc; unfold last in Hc.
  all: first [ replace (1 # 2 <=? _) with true in Es by (symmetry; apply Qle_bool_iff; exact Hc)
             | replace (1 # 2 <=? _) with false in Es by (symmetry; apply Qleb_false_iff; exact Hc) ].
  all: unfold when in Es.
  2,4: cbv [exec ret] in Es; subst s'; split; reflexivity.
  all: erewrite exec_bind_some in Es; [|reflexivity]. 
  all: rewrite exec_on_fx in Es; subst s'.
  all: match goal with |- context [exec (pickupSparkle ?a ?b ?c ?d ?e ?f) ?g] =>
         destruct (pickupSparkle_grows e f g) as (Ec & _ & _ & new & En & Ln & Fn) end.
  all: destruct new as [|e [|]]; try discriminate Ln; inversion Fn; subst.
  all: split; [exists e; split; [exact En | assumption] | reflexivity].
Qed.
End SparkleRateThm.

(** ** The death camera's glide *)

(** Equality of vectors as numbers. *)
Definition veq (a b : Vec3) : Prop := vx a == vx b /\ vy a == vy b /\ vz a == vz b.

Lemma vlerp_at_0 a b t : t == 0 -> veq (vlerp a b t) a.
Proof. intros Ht. unfold veq, vlerp, vadd, vscale, vsub; simpl. rewrite Ht. repeat split; ring. Qed.

Lemma vlerp_at_1 a b t : t == 1 -> veq (vlerp a b t) b.
Proof. intros Ht. unfold veq, vlerp, vadd, vscale, vsub; simpl. rewrite Ht. repeat split; ring. Qed.

Lemma smoothPhaseAt_0 e : e == 0 -> smoothPhaseAt e == 0.
Proof.
  intros He. unfold smoothPhaseAt, movePhaseAt. assert (H2 : e / 2 == 0) by (rewrite He; reflexivity).
  rewrite Q.min_r by (rewrite H2; lra). rewrite H2. reflexivity.
Qed.

Lemma smoothPhaseAt_settled e : 2 <= e -> smoothPhaseAt e == 1.
Proof.
  intros He. unfold smoothPhaseAt, movePhaseAt.
  rewrite Q.min_l by (apply Qle_shift_div_l; [reflexivity | lra]). reflexivity.
Qed.

Lemma smoothPhaseAt_range e : 0 <= e -> 0 <= smoothPhaseAt e <= 1.
Proof.
  intros He. unfold smoothPhaseAt, movePhaseAt.
  assert (H0 : 0 <= Qmin 1 (e / 2) <= 1).
  { split; [apply Q.min_glb; [lra | apply Qle_shift_div_l; [reflexivity | lra]] | apply Q.le_min_l]. }
  set (m := Qmin 1 (e / 2)) in *. destruct H0 as [H0 H1].
  assert (0 <= m * m) by (apply Qmult_le_0_compat; lra).
  assert (0 <= m * (1 - m)) by (apply Qmult_le_0_compat; lra).
  assert (0 <= m * m * (1 - m)) by (apply Qmult_le_0_compat; lra).
  assert (0 <= (1 - m) * (1 - m)) by (apply Qmult_le_0_compat; lra).
  assert (0 <= (1 - m) * (1 - m) * (1 + 2 * m)) by (apply Qmult_le_0_compat; lra).
  split; nra.
Qed.

Section CameraRun.
Context `{Engine}.

Lemma cameraTick_run t s target ray victimPos killerPos :
  cameraZoomTarget s = Some target -> target <> 0%Z -> initialViewRay s = Some ray -> sc_local s <> 0%Z ->
  getEntityPosition (host_of s) (sc_local s) = Some victimPos ->
  getEntityPosition (host_of s) target = Some killerPos ->
  let sm := vlerp (default killerPos (smoothedKillerPos s)) killerPos (1#10) in
  let cameraPos := vlerp (origin ray) (finalCameraPos sm victimPos) (smoothPhaseAt (t - deathCameraStartTime s)) in
  let finalDir := vlerp (direction ray) (normalize (vsub sm cameraPos)) (smoothPhaseAt (t - deathCameraStartTime s)) in
  smoothedKillerPos (exec (cameraTick t) s) = Some sm /\
  log (host_of (exec (cameraTick t) s)) = log (host_of s) ++ [SetCameraFree cameraPos (vadd cameraPos finalDir)].
Proof.
  intros Hz Ht Hr Hl Hv Hk. unfold cameraTick, exec, bind, get, need, when, truthy_id.
  rewrite Hz, Hr, (proj2 (Z.eqb_neq _ _) Ht), (proj2 (Z.eqb_neq _ _) Hl). simpl.
  change (host_of s) with (fx_host (sc_fx s)) in Hv, Hk. rewrite Hv, Hk. split; reflexivity.
Qed.
End CameraRun.

Section CameraClaims.
Context `{Engine}.

(** (C39) The death camera glides from the victim's eyes to its final spot:
    while it has a killer, a view ray and both positions, a tick moves the
    smoothed killer position a tenth of the way to the killer and places
    the free camera once; at the moment of death the camera is at the
    origin of the victim's view ray, and from two seconds on it is three
    units behind the victim, away from the smoothed killer, 4.6 units up. *)
Theorem cameraTick_glide t s target ray victimPos killerPos :
  cameraZoomTarget s = Some target -> target <> 0%Z -> initialViewRay s = Some ray -> sc_local s <> 0%Z ->
  getEntityPosition (host_of s) (sc_local s) = Some victimPos ->
  getEntityPosition (host_of s) target = Some killerPos ->
  let sm := vlerp (default killerPos (smoothedKillerPos s)) killerPos (1#10) in
  let elapsed := t - deathCameraStartTime s in
  smoothedKillerPos (exec (cameraTick t) s) = Some sm /\
  exists p look, log (host_of (exec (cameraTick t) s)) = log (host_of s) ++ [SetCameraFree p look] /\
    (elapsed == 0 -> veq p (origin ray)) /\ (2 <= elapsed -> veq p (finalCameraPos sm victimPos)).
Proof.
  intros Hz Ht Hr Hl Hv Hk sm elapsed.
  destruct (cameraTick_run t s target ray victimPos killerPos Hz Ht Hr Hl Hv Hk) as [E1 E2].
  split; [exact E1|]. eexists _, _. split; [exact E2|]. split; intros He.
  - apply vlerp_at_0, smoothPhaseAt_0, He.
  - apply vlerp_at_1, smoothPhaseAt_settled, He.
Qed.

(** (C40) [setCameraZoomTarget] with a falsy id, [null] or the entity id 0,
    turns the death camera off: the next tick returns at once. *)
Theorem cameraTick_off_after_falsy_target t s target :
  truthy_id target = false ->
  exec (cameraTick t) (exec (setCameraZoomTarget target) s) = exec (setCameraZoomTarget target) s.
Proof.
  intros Hf. unfold setCameraZoomTarget, exec at 2 3, bind at 1 2, modify, when. rewrite Hf.
  unfold cameraTick, exec, bind, get. simpl. rewrite Hf. reflexivity.
Qed.
End CameraClaims.

(** ** Examples *)

(** The players of the HUD's example host, seen from player 1, killed by
    player 2 at time 0 while looking along the x axis. *)
Definition scene_state : Scene :=
  mkScene (mkFx hud_host [] []) 1 (Some 2%Z) 0 None (Some (mkRay vzero (vec3 1 0 0))) ∅ ∅.

#[local] Instance scene_engine : Engine := demo_engine [1#2].

Lemma cameraTick_glide_witness :
  let sm := vlerp (default (vec3 5 0 0) (smoothedKillerPos scene_state)) (vec3 5 0 0) (1#10) in
  let elapsed := 3 - deathCameraStartTime scene_state in
  smoothedKillerPos (exec (cameraTick 3) scene_state) = Some sm /\
  exists p look, log (host_of (exec (cameraTick 3) scene_state)) = log (host_of scene_state) ++ [SetCameraFree p look] /\
    (elapsed == 0 -> veq p (origin (mkRay vzero (vec3 1 0 0)))) /\ (2 <= elapsed -> veq p (finalCameraPos sm vzero)).
Proof. apply (cameraTick_glide 3 scene_state 2 (mkRay vzero (vec3 1 0 0)) vzero (vec3 5 0 0)); first [reflexivity | cbn; lia]. Defined.

(** A pickup 7 three units from the local player 1, never sparkled. *)
Definition pickup_scene : Scene :=
  mkScene (mkFx (mkHost (ents hud_host ++ [(7%Z, mkEntity (Some (vec3 3 0 0)) false None None true None false None None None)])
                        30 0 8 []) [] []) 1 None 0 None None ∅ ∅.

Lemma pickupStep_sparkles_witness :
  let s' := exec (pickupStep 3 (fun _ => 0) (fun _ => 0) (fun _ _ _ => mkQuat 0 0 0 1) 30 7) pickup_scene in
  (exists e, effects (sc_fx s') = effects (sc_fx pickup_scene) ++ [e] /\ PickupSpark 30 e) /\
  pickupLastParticleTime s' = <[7%Z := 30]> (pickupLastParticleTime pickup_scene).
Proof.
  refine (proj1 (pickupStep_sparkles 3 (fun _ => 0) (fun _ => 0) (fun _ _ _ => mkQuat 0 0 0 1) 30 7 pickup_scene
            (vec3 3 0 0) vzero eq_refl _ _ eq_refl _) _).
  - discriminate.
  - discriminate.
  - apply Qle_bool_iff. reflexivity.
  - apply Qle_bool_iff. reflexivity.
Defined.

Lemma cameraTick_off_after_falsy_target_witness :
  truthy_id (Some 0%Z) = false /\
  exec (cameraTick 3) (exec (setCameraZoomTarget (Some 0%Z)) scene_state) = exec (setCameraZoomTarget (Some 0%Z)) scene_state.
Proof. split; [reflexivity | apply cameraTick_off_after_falsy_target; reflexivity]. Defined.
